(** * vtkDataSet: attribute/geometry layer of a point-and-cell dataset

    A shallow embedding of [Common/DataModel/vtkDataSet.cxx]: the cached
    bounding box and scalar range, the attribute consistency check, the
    structured-extent ghost classifier and the ghost-array pointer cache,
    together with the properties the specification states about them.

    Conventions.
    - [double] is IEEE-754 binary64, through the Standard Library's
      [spec_float] (53 bits of precision, exponent bound 1024).
    - [int] is a 32-bit two's complement integer carried in [Z]; every
      arithmetic operation of the source on an [int] is followed by [wrap32].
    - [vtkIdType] counts and indices are never negative here and are far from
      their 64-bit bound; they are [nat] where they index a buffer and [Z]
      where the source compares them.
    - [vtkMTimeType] is [N].
    - Array objects live in a store indexed by address; attribute sets and
      the cached ghost pointers hold addresses, so that aliasing is visible.
    - [vtkSMPTools::For] is deterministic once the partition into chunks, the
      worker of each chunk and the order of the final reduction are fixed;
      these are packed in a [Schedule], and the statements quantify over it. *)

From Stdlib Require Import ZArith NArith Lia String List Bool.
From Stdlib Require Import Floats.SpecFloat.
From stdpp Require Import base list gmap.

Open Scope Z_scope.

(* ===================================================================== *)
(** * Part I: the model                                                    *)
(* ===================================================================== *)

(** ** Doubles *)

Module Double.

Definition double : Type := spec_float.
Definition prec : Z := 53.
Definition emax : Z := 1024.

(** [a < b] and [a > b] of the source; both are false when an operand is NaN. *)
Definition ltb (a b : double) : bool := SFltb a b.
Definition gtb (a b : double) : bool := SFltb b a.
Definition leb (a b : double) : bool := SFleb a b.
Definition eqb (a b : double) : bool := SFeqb a b.

Definition add : double -> double -> double := SFadd prec emax.
Definition sub : double -> double -> double := SFsub prec emax.
Definition mul : double -> double -> double := SFmul prec emax.
Definition div : double -> double -> double := SFdiv prec emax.
Definition sqrt : double -> double := SFsqrt prec emax.

(** The double nearest to an integer (exact below 2^53). *)
Definition of_Z (z : Z) : double := binary_normalize prec emax z 0 false.

Definition zero : double := S754_zero false.
Definition is_nan (x : double) : bool :=
  match x with S754_nan => true | _ => false end.

(** A key whose lexicographic order is the order [SFcompare] decides on
    numbers; it is only used in proofs. *)
Definition key (x : double) : Z * Z * Z :=
  match x with
  | S754_infinity true => (-2, 0, 0)
  | S754_finite true m e => (-1, - e, - Zpos m)
  | S754_zero _ => (0, 0, 0)
  | S754_finite false m e => (1, e, Zpos m)
  | S754_infinity false => (2, 0, 0)
  | S754_nan => (3, 0, 0)
  end.

Definition lex (a b : Z * Z * Z) : comparison :=
  match a, b with
  | (a1, a2, a3), (b1, b2, b3) =>
      match a1 ?= b1 with
      | Eq => match a2 ?= b2 with Eq => a3 ?= b3 | c => c end
      | c => c
      end
  end.

End Double.

Export Double.

(** ** 32-bit integers *)

Definition wrap32 (z : Z) : Z := (z + 2 ^ 31) mod 2 ^ 32 - 2 ^ 31.
Definition int_range (z : Z) : Prop := - 2 ^ 31 <= z < 2 ^ 31.

(** [unsigned char]: the value kept after an assignment. *)
Definition to_uchar (z : Z) : Z := z mod 256.
Definition is_uchar (z : Z) : Prop := 0 <= z < 256.

(** ** vtkSMPTools::For with a functor that has Initialize and Reduce

    The range [[first, last)] is split into chunks; [Initialize] runs once
    per worker before that worker's first chunk; [operator()] runs once per
    chunk on the worker's thread-local value; [Reduce] then runs once and
    iterates over the thread-local values of the workers that took part. *)

Module SMP.

Record Chunk : Type := mkChunk {
  worker : nat;
  chunk_begin : nat;
  chunk_end : nat
}.

Record Schedule : Type := mkSchedule {
  chunks : list Chunk;
  reduce_order : list nat
}.

(** What a functor struct of the source provides. [TL] is the type held by
    its [vtkSMPThreadLocal] member. *)
Record Functor (TL R : Type) : Type := mkFunctor {
  Initialize : TL;
  Call : nat -> nat -> TL -> TL;
  Reduce : list TL -> R
}.
Arguments Initialize {TL R} _.
Arguments Call {TL R} _ _ _ _.
Arguments Reduce {TL R} _ _.

Definition chunk_indices (c : Chunk) : list nat :=
  seq (chunk_begin c) (chunk_end c - chunk_begin c).

Definition run_chunk {TL R} (F : Functor TL R)
    (tls : gmap nat TL) (c : Chunk) : gmap nat TL :=
  let tl := default (Initialize F) (tls !! worker c) in
  <[worker c := Call F (chunk_begin c) (chunk_end c) tl]> tls.

Definition run_chunks {TL R} (F : Functor TL R) (cs : list Chunk) : gmap nat TL :=
  fold_left (run_chunk F) cs ∅.

Definition thread_locals {TL} (tls : gmap nat TL) (order : list nat) : list TL :=
  omap (fun w => tls !! w) order.

(** Modelled from the spec: the ParallelReducer contract of section 4.2
    (per-worker initialisation, one call per chunk on the worker's local
    value, one final reduction over the local values); [vtkSMPTools.h] is
    outside this translation unit. *)
Definition For {TL R} (first last : nat) (sch : Schedule) (F : Functor TL R) : R :=
  Reduce F (thread_locals (run_chunks F (chunks sch)) (reduce_order sch)).

(** Every index of [[first, last)] is visited exactly once, and the reduction
    sees each participating worker exactly once. *)
Definition ValidSchedule (first last : nat) (sch : Schedule) : Prop :=
  flat_map chunk_indices (chunks sch) ≡ₚ seq first (last - first)
  /\ NoDup (reduce_order sch)
  /\ forall w, w ∈ reduce_order sch <-> w ∈ map worker (chunks sch).

(** The whole range as one chunk on one worker. *)
Definition sequential (first last : nat) : Schedule :=
  mkSchedule [mkChunk 0 first last] [0%nat].

End SMP.

(** ** Arrays, the object store and attribute sets *)

(** The buffer of an array. A [vtkUnsignedCharArray] (one component) holds
    bytes; any other [vtkDataArray] is seen through its values as doubles and
    is not down-castable to [vtkUnsignedCharArray]. *)
Inductive ArrayValues : Type :=
| UnsignedCharValues (v : list Z)
| DoubleValues (v : list double).

Record vtkAbstractArray : Type := mkArray {
  Name : option string;
  Values : ArrayValues
}.

Definition GetNumberOfTuples (a : vtkAbstractArray) : Z :=
  match Values a with
  | UnsignedCharValues v => Z.of_nat (length v)
  | DoubleValues v => Z.of_nat (length v)
  end.

(** The object store: an address is a position in it. Objects are never
    freed in the model (the source counts references). *)
Abbreviation Store := (list vtkAbstractArray).

(** [vtkPointData] / [vtkCellData]: the arrays in index order, the
    modification time, the active scalars and the ghost mask the range
    queries skip. *)
Record vtkDataSetAttributes : Type := mkAttributes {
  Arrays : list nat;
  MTime : N;
  Scalars : option nat;
  GhostsToSkip : Z
}.

Definition has_name (store : Store) (name : string) (a : nat) : bool :=
  match store !! a with
  | Some arr => match Name arr with Some n => String.eqb n name | None => false end
  | None => false
  end.

(** Modelled from the spec: the AttributeSet interface (section 3, "mapping
    from array name (unique) to a typed array"); [vtkFieldData.cxx] is outside
    this translation unit. [GetArray] finds an array by name. *)
Definition GetArray (store : Store) (attrs : vtkDataSetAttributes)
    (name : string) : option nat :=
  List.find (has_name store name) (Arrays attrs).

(** [vtkArrayDownCast<vtkUnsignedCharArray>]: the pointer when the object is
    an unsigned char array, null otherwise. *)
Definition DownCastUnsignedChar (store : Store) (p : option nat) : option nat :=
  match p with
  | Some a =>
      match store !! a with
      | Some (mkArray _ (UnsignedCharValues _)) => Some a
      | _ => None
      end
  | None => None
  end.

Definition GetNumberOfArrays (attrs : vtkDataSetAttributes) : Z :=
  Z.of_nat (length (Arrays attrs)).

Definition GetAbstractArray (store : Store) (attrs : vtkDataSetAttributes)
    (idx : nat) : option vtkAbstractArray :=
  match Arrays attrs !! idx with
  | Some a => store !! a
  | None => None
  end.

Fixpoint replace_named (store : Store) (name : string) (a : nat)
    (l : list nat) : option (list nat) :=
  match l with
  | [] => None
  | b :: r =>
      if has_name store name b then Some (a :: r)
      else option_map (cons b) (replace_named store name a r)
  end.

(** Modelled from the spec: adding an array keeps names unique, so an array
    with the name of the new one is replaced by it; otherwise the new array
    is appended. The clock and the notification are in [PointData_Modified]
    and [CellData_Modified] below. *)
Definition AddArray_list (store : Store) (l : list nat) (a : nat) : list nat :=
  match store !! a with
  | Some (mkArray (Some name) _) =>
      match replace_named store name a l with
      | Some l' => l'
      | None => l ++ [a]
      end
  | _ => l ++ [a]
  end.

(** Modelled from the spec: removing by name takes the array with that name
    out of the set ("add/remove", section 4.1); [vtkFieldData.cxx] is outside
    this translation unit. *)
Definition RemoveArray_list (store : Store) (l : list nat) (name : string) : list nat :=
  match List.find (has_name store name) l with
  | Some a => List.remove Nat.eq_dec a l
  | None => l
  end.

Definition set_Arrays (attrs : vtkDataSetAttributes) (l : list nat) : vtkDataSetAttributes :=
  mkAttributes l (MTime attrs) (Scalars attrs) (GhostsToSkip attrs).
Definition set_MTime (attrs : vtkDataSetAttributes) (t : N) : vtkDataSetAttributes :=
  mkAttributes (Arrays attrs) t (Scalars attrs) (GhostsToSkip attrs).
Definition set_Scalars (attrs : vtkDataSetAttributes) (s : option nat) : vtkDataSetAttributes :=
  mkAttributes (Arrays attrs) (MTime attrs) s (GhostsToSkip attrs).

(** ** Fixed-size arrays of the source *)

(** [double[6]] / [std::array<double, 6>]. *)
Record double6 : Type := mk6 { d0 : double; d1 : double; d2 : double;
                               d3 : double; d4 : double; d5 : double }.

Definition get6 (b : double6) (i : nat) : double :=
  match i with
  | 0 => d0 b | 1 => d1 b | 2 => d2 b | 3 => d3 b | 4 => d4 b | _ => d5 b
  end%nat.

Definition set6 (b : double6) (i : nat) (v : double) : double6 :=
  match i with
  | 0 => mk6 v (d1 b) (d2 b) (d3 b) (d4 b) (d5 b)
  | 1 => mk6 (d0 b) v (d2 b) (d3 b) (d4 b) (d5 b)
  | 2 => mk6 (d0 b) (d1 b) v (d3 b) (d4 b) (d5 b)
  | 3 => mk6 (d0 b) (d1 b) (d2 b) v (d4 b) (d5 b)
  | 4 => mk6 (d0 b) (d1 b) (d2 b) (d3 b) v (d5 b)
  | _ => mk6 (d0 b) (d1 b) (d2 b) (d3 b) (d4 b) v
  end%nat.

(** [double x[3]]. *)
Definition double3 : Type := (double * double * double)%type.

Definition coord (x : double3) (j : nat) : double :=
  match j with
  | 0 => fst (fst x) | 1 => snd (fst x) | _ => snd x
  end%nat.

(** [int[6]]: an index extent (imin, imax, jmin, jmax, kmin, kmax). *)
Record Extent : Type := mkExtent { e0 : Z; e1 : Z; e2 : Z; e3 : Z; e4 : Z; e5 : Z }.

(** ** What the headers provide

    Constants and collaborators whose definitions are in headers and classes
    outside this file. They are parameters of the model; [VTK] below gives
    the values used for running the model on examples. *)
Class Externals : Type := mkExternals {
  (** [vtkDataSetAttributes::DUPLICATEPOINT], [DUPLICATECELL] *)
  DUPLICATEPOINT : Z;
  DUPLICATECELL : Z;
  (** [vtkDataSetAttributes::GhostArrayName()] *)
  GhostArrayName : string;
  (** the value [GetExtentType()] returns for structured data *)
  VTK_3D_EXTENT : Z;
  VTK_DOUBLE_MAX : double;
  VTK_DOUBLE_MIN : double;
  (** what [vtkMath::UninitializeBounds] stores *)
  UninitializedBounds : double6;
  (** [vtkDataArray::GetRange(range, 0, ghosts, ghostsToSkip)]: the range of
      component 0 over the tuples whose ghost byte does not meet the mask *)
  GetRange : vtkAbstractArray -> option (list Z) -> Z -> double * double
}.

(** ** The dataset and the program state *)

Record vtkDataSet : Type := mkDataSet {
  (** supplied by the concrete subclass and by vtkDataObject *)
  Points : list double3;
  NumberOfCells : Z;
  ExtentType : Z;
  DataExtent : Extent;
  ObjectMTime : N;
  (** members of vtkDataSet *)
  PointData : vtkDataSetAttributes;
  CellData : vtkDataSetAttributes;
  Bounds : double6;
  ComputeTime : N;
  ScalarRange : double * double;
  ScalarRangeComputeTime : N;
  PointGhostArray : option nat;
  PointGhostArrayCached : bool;
  CellGhostArray : option nat;
  CellGhostArrayCached : bool
}.

Inductive Severity : Type := ErrorSeverity | WarningSeverity.
Inductive AttributeType : Type := POINT | CELL.

(** One message of [vtkErrorMacro] / [vtkWarningMacro]. *)
Record Diagnostic : Type := mkDiagnostic {
  severity : Severity;
  about : AttributeType;
  array_name : string;
  array_tuples : Z;
  elements : Z
}.

(** The state a member function runs in: the object store, the process-wide
    counter behind [vtkTimeStamp::Modified], the diagnostic output, and the
    dataset itself. *)
Record State : Type := mkState {
  Heap : Store;
  GlobalTime : N;
  Log : list Diagnostic;
  Self : vtkDataSet
}.

Definition set_Self (st : State) (ds : vtkDataSet) : State :=
  mkState (Heap st) (GlobalTime st) (Log st) ds.
Definition set_Heap (st : State) (h : Store) : State :=
  mkState h (GlobalTime st) (Log st) (Self st).
Definition set_GlobalTime (st : State) (t : N) : State :=
  mkState (Heap st) t (Log st) (Self st).
Definition add_Log (st : State) (d : Diagnostic) : State :=
  mkState (Heap st) (GlobalTime st) (Log st ++ [d]) (Self st).

Definition set_PointData (ds : vtkDataSet) (pd : vtkDataSetAttributes) : vtkDataSet :=
  mkDataSet (Points ds) (NumberOfCells ds) (ExtentType ds) (DataExtent ds) (ObjectMTime ds)
    pd (CellData ds) (Bounds ds) (ComputeTime ds) (ScalarRange ds)
    (ScalarRangeComputeTime ds) (PointGhostArray ds) (PointGhostArrayCached ds)
    (CellGhostArray ds) (CellGhostArrayCached ds).
Definition set_CellData (ds : vtkDataSet) (cd : vtkDataSetAttributes) : vtkDataSet :=
  mkDataSet (Points ds) (NumberOfCells ds) (ExtentType ds) (DataExtent ds) (ObjectMTime ds)
    (PointData ds) cd (Bounds ds) (ComputeTime ds) (ScalarRange ds)
    (ScalarRangeComputeTime ds) (PointGhostArray ds) (PointGhostArrayCached ds)
    (CellGhostArray ds) (CellGhostArrayCached ds).
Definition set_Bounds (ds : vtkDataSet) (b : double6) (t : N) : vtkDataSet :=
  mkDataSet (Points ds) (NumberOfCells ds) (ExtentType ds) (DataExtent ds) (ObjectMTime ds)
    (PointData ds) (CellData ds) b t (ScalarRange ds)
    (ScalarRangeComputeTime ds) (PointGhostArray ds) (PointGhostArrayCached ds)
    (CellGhostArray ds) (CellGhostArrayCached ds).
Definition set_ScalarRange (ds : vtkDataSet) (r : double * double) (t : N) : vtkDataSet :=
  mkDataSet (Points ds) (NumberOfCells ds) (ExtentType ds) (DataExtent ds) (ObjectMTime ds)
    (PointData ds) (CellData ds) (Bounds ds) (ComputeTime ds) r
    t (PointGhostArray ds) (PointGhostArrayCached ds)
    (CellGhostArray ds) (CellGhostArrayCached ds).
Definition set_PointGhostArray (ds : vtkDataSet) (p : option nat) (c : bool) : vtkDataSet :=
  mkDataSet (Points ds) (NumberOfCells ds) (ExtentType ds) (DataExtent ds) (ObjectMTime ds)
    (PointData ds) (CellData ds) (Bounds ds) (ComputeTime ds) (ScalarRange ds)
    (ScalarRangeComputeTime ds) p c
    (CellGhostArray ds) (CellGhostArrayCached ds).
Definition set_CellGhostArray (ds : vtkDataSet) (p : option nat) (c : bool) : vtkDataSet :=
  mkDataSet (Points ds) (NumberOfCells ds) (ExtentType ds) (DataExtent ds) (ObjectMTime ds)
    (PointData ds) (CellData ds) (Bounds ds) (ComputeTime ds) (ScalarRange ds)
    (ScalarRangeComputeTime ds) (PointGhostArray ds) (PointGhostArrayCached ds)
    p c.
Definition set_Geometry (ds : vtkDataSet) (pts : list double3) (ncells : Z)
    (ty : Z) (ext : Extent) (t : N) : vtkDataSet :=
  mkDataSet pts ncells ty ext t
    (PointData ds) (CellData ds) (Bounds ds) (ComputeTime ds) (ScalarRange ds)
    (ScalarRangeComputeTime ds) (PointGhostArray ds) (PointGhostArrayCached ds)
    (CellGhostArray ds) (CellGhostArrayCached ds).

(** ** The member functions *)

Section Members.

Context `{Externals}.

(** Modelled from the spec: a ModificationClock is "a monotonically
    increasing version counter" (section 2); [vtkTimeStamp.cxx] is outside
    this translation unit. This is [vtkTimeStamp::Modified()]. The call takes
    no argument: the stamp it writes is the next value of the process-wide
    counter. *)
Definition vtkTimeStamp_Modified (st : State) : N * State :=
  let t := (GlobalTime st + 1)%N in (t, set_GlobalTime st t).

Definition GetNumberOfPoints (ds : vtkDataSet) : Z := Z.of_nat (length (Points ds)).
Definition GetNumberOfCells (ds : vtkDataSet) : Z := NumberOfCells ds.
Definition GetPoint (ds : vtkDataSet) (pointId : nat) : double3 :=
  default ((zero, zero, zero) : double3) (Points ds !! pointId).

(** [vtkDataSet::GetMTime] *)
Definition GetMTime (ds : vtkDataSet) : N :=
  let result := ObjectMTime ds in
  let mtime := MTime (PointData ds) in
  let result := if (result <? mtime)%N then mtime else result in
  let mtime := MTime (CellData ds) in
  if (result <? mtime)%N then mtime else result.

(** *** ComputeBoundsFunctor *)

Definition ComputeBoundsFunctor_Initialize : double6 :=
  mk6 VTK_DOUBLE_MAX VTK_DOUBLE_MIN VTK_DOUBLE_MAX VTK_DOUBLE_MIN
      VTK_DOUBLE_MAX VTK_DOUBLE_MIN.

(** The body of the loop over [j] in [operator()]. *)
Definition include_axis (x : double3) (bounds : double6) (j : nat) : double6 :=
  let bounds :=
    if ltb (coord x j) (get6 bounds (2 * j))
    then set6 bounds (2 * j) (coord x j) else bounds in
  if gtb (coord x j) (get6 bounds (2 * j + 1))
  then set6 bounds (2 * j + 1) (coord x j) else bounds.

Definition include_point (x : double3) (bounds : double6) : double6 :=
  fold_left (include_axis x) [0; 1; 2]%nat bounds.

Definition ComputeBoundsFunctor_Call (ds : vtkDataSet)
    (begin end_ : nat) (bounds : double6) : double6 :=
  fold_left (fun bounds pointId => include_point (GetPoint ds pointId) bounds)
    (seq begin (end_ - begin)) bounds.

(** The body of the loop over [j] in [Reduce], and the loop. *)
Definition merge_axis (bounds Bounds_ : double6) (j : nat) : double6 :=
  let Bounds_ :=
    if ltb (get6 bounds (2 * j)) (get6 Bounds_ (2 * j))
    then set6 Bounds_ (2 * j) (get6 bounds (2 * j)) else Bounds_ in
  if gtb (get6 bounds (2 * j + 1)) (get6 Bounds_ (2 * j + 1))
  then set6 Bounds_ (2 * j + 1) (get6 bounds (2 * j + 1)) else Bounds_.

(** The body of the loop over the thread-local boxes in [Reduce]. *)
Definition merge_bounds (Bounds_ bounds : double6) : double6 :=
  fold_left (merge_axis bounds) [0; 1; 2]%nat Bounds_.

Definition ComputeBoundsFunctor_Reduce (tls : list double6) : double6 :=
  fold_left merge_bounds tls ComputeBoundsFunctor_Initialize.

Definition ComputeBoundsFunctor (ds : vtkDataSet) : SMP.Functor double6 double6 :=
  SMP.mkFunctor double6 double6
    ComputeBoundsFunctor_Initialize
    (ComputeBoundsFunctor_Call ds)
    ComputeBoundsFunctor_Reduce.

(** What [ComputeBounds] stores on a cache miss. *)
Definition fresh_bounds (sch : SMP.Schedule) (ds : vtkDataSet) : double6 :=
  if negb (GetNumberOfPoints ds =? 0)
  then SMP.For 0 (length (Points ds)) sch (ComputeBoundsFunctor ds)
  else UninitializedBounds.

(** [vtkDataSet::ComputeBounds] *)
Definition ComputeBounds (sch : SMP.Schedule) (st : State) : State :=
  let ds := Self st in
  if (ComputeTime ds <? GetMTime ds)%N then
    let b := fresh_bounds sch ds in
    let '(t, st) := vtkTimeStamp_Modified st in
    set_Self st (set_Bounds ds b t)
  else st.

(** [vtkDataSet::GetBounds] *)
Definition GetBounds (sch : SMP.Schedule) (st : State) : double6 * State :=
  let st := ComputeBounds sch st in (Bounds (Self st), st).

(** [vtkDataSet::GetCenter] *)
Definition GetCenter (sch : SMP.Schedule) (st : State) : double3 * State :=
  let st := ComputeBounds sch st in
  let b := Bounds (Self st) in
  let c i := div (add (get6 b (2 * i + 1)) (get6 b (2 * i))) (of_Z 2) in
  ((c 0%nat, c 1%nat, c 2%nat), st).

(** [vtkDataSet::GetLength2] *)
Definition GetLength2 (sch : SMP.Schedule) (st : State) : double * State :=
  if GetNumberOfPoints (Self st) =? 0 then (of_Z 0, st)
  else
    let l := zero in
    let st := ComputeBounds sch st in
    let b := Bounds (Self st) in
    let l :=
      fold_left
        (fun l i =>
           let diff := sub (get6 b (2 * i + 1)) (get6 b (2 * i)) in
           add l (mul diff diff))
        [0; 1; 2]%nat l in
    (l, st).

(** [vtkDataSet::GetLength] *)
Definition GetLength (sch : SMP.Schedule) (st : State) : double * State :=
  let '(l2, st) := GetLength2 sch st in (sqrt l2, st).

(** *** Scalar range *)

(** [attrs->GetScalars()]: the active scalar array, or null. *)
Definition GetScalars (store : Store) (attrs : vtkDataSetAttributes)
    : option vtkAbstractArray :=
  match Scalars attrs with
  | Some a => store !! a
  | None => None
  end.

(** [attrs->GetGhostArray()] followed by [GetPointer(0)]: the bytes of the
    ghost array of the attribute set, or null. *)
Definition GetGhostBytes (store : Store) (attrs : vtkDataSetAttributes)
    : option (list Z) :=
  match DownCastUnsignedChar store (GetArray store attrs GhostArrayName) with
  | Some a =>
      match store !! a with
      | Some (mkArray _ (UnsignedCharValues v)) => Some v
      | _ => None
      end
  | None => None
  end.

(** What [ComputeScalarRange] stores on a cache miss. *)
Definition fresh_scalar_range (store : Store) (ds : vtkDataSet) : double * double :=
  let ptScalars := GetScalars store (PointData ds) in
  let cellScalars := GetScalars store (CellData ds) in
  let ptGhostsPtr := GetGhostBytes store (PointData ds) in
  let ptGhostsToSkip := GhostsToSkip (PointData ds) in
  let cellGhostsPtr := GetGhostBytes store (CellData ds) in
  let cellGhostsToSkip := GhostsToSkip (CellData ds) in
  match ptScalars, cellScalars with
  | Some pt, Some cell =>
      let r1 := GetRange pt ptGhostsPtr ptGhostsToSkip in
      let r2 := GetRange cell cellGhostsPtr cellGhostsToSkip in
      (if ltb (fst r1) (fst r2) then fst r1 else fst r2,
       if gtb (snd r1) (snd r2) then snd r1 else snd r2)
  | Some pt, None => GetRange pt ptGhostsPtr ptGhostsToSkip
  | None, Some cell => GetRange cell cellGhostsPtr cellGhostsToSkip
  | None, None => (of_Z 0, of_Z 1)
  end.

(** [vtkDataSet::ComputeScalarRange] *)
Definition ComputeScalarRange (st : State) : State :=
  let ds := Self st in
  if (ScalarRangeComputeTime ds <? GetMTime ds)%N then
    let r := fresh_scalar_range (Heap st) ds in
    let '(t, st) := vtkTimeStamp_Modified st in
    set_Self st (set_ScalarRange ds r t)
  else st.

(** [vtkDataSet::GetScalarRange] *)
Definition GetScalarRange (st : State) : (double * double) * State :=
  let st := ComputeScalarRange st in (ScalarRange (Self st), st).

(** *** CheckAttributes *)

(** One of the two loops over the arrays of an attribute set. The result is
    [true] when the loop left the function through [return 1]. *)
Fixpoint check_arrays (store : Store) (attrs : vtkDataSetAttributes)
    (ty : AttributeType) (count : Z) (idxs : list nat)
    (log : list Diagnostic) : bool * list Diagnostic :=
  match idxs with
  | [] => (false, log)
  | idx :: rest =>
      match GetAbstractArray store attrs idx with
      | Some array =>
          let numTuples := GetNumberOfTuples array in
          let name := default EmptyString (Name array) in
          if numTuples <? count then
            (true, log ++ [mkDiagnostic ErrorSeverity ty name numTuples count])
          else
            let log :=
              if numTuples >? count
              then log ++ [mkDiagnostic WarningSeverity ty name numTuples count]
              else log in
            check_arrays store attrs ty count rest log
      | None => check_arrays store attrs ty count rest log
      end
  end.

Definition check_attribute_set (store : Store) (attrs : vtkDataSetAttributes)
    (ty : AttributeType) (count : Z) (log : list Diagnostic)
    : bool * list Diagnostic :=
  let numArrays := GetNumberOfArrays attrs in
  if numArrays >? 0
  then check_arrays store attrs ty count (seq 0 (Z.to_nat numArrays)) log
  else (false, log).

(** [vtkDataSet::CheckAttributes] *)
Definition CheckAttributes (st : State) : Z * State :=
  let ds := Self st in
  let '(failed, log) :=
    check_attribute_set (Heap st) (PointData ds) POINT (GetNumberOfPoints ds) (Log st) in
  if failed then (1, mkState (Heap st) (GlobalTime st) log ds)
  else
    let '(failed, log) :=
      check_attribute_set (Heap st) (CellData ds) CELL (GetNumberOfCells ds) log in
    if failed then (1, mkState (Heap st) (GlobalTime st) log ds)
    else (0, mkState (Heap st) (GlobalTime st) log ds).

(** *** The ghost-array pointer cache *)

Definition lookup_ghost (store : Store) (attrs : vtkDataSetAttributes) : option nat :=
  DownCastUnsignedChar store (GetArray store attrs GhostArrayName).

(** [vtkDataSet::GetPointGhostArray] *)
Definition GetPointGhostArray (st : State) : option nat * State :=
  let ds := Self st in
  let ds :=
    if negb (PointGhostArrayCached ds)
    then set_PointGhostArray ds (lookup_ghost (Heap st) (PointData ds)) true
    else ds in
  (PointGhostArray ds, set_Self st ds).

(** [vtkDataSet::GetCellGhostArray] *)
Definition GetCellGhostArray (st : State) : option nat * State :=
  let ds := Self st in
  let ds :=
    if negb (CellGhostArrayCached ds)
    then set_CellGhostArray ds (lookup_ghost (Heap st) (CellData ds)) true
    else ds in
  (CellGhostArray ds, set_Self st ds).

(** [vtkDataSet::UpdatePointGhostArrayCache] *)
Definition UpdatePointGhostArrayCache (st : State) : State :=
  let ds := Self st in
  let p := lookup_ghost (Heap st) (PointData ds) in
  set_Self st (set_PointGhostArray ds p (match p with Some _ => true | None => false end)).

(** [vtkDataSet::UpdateCellGhostArrayCache] *)
Definition UpdateCellGhostArrayCache (st : State) : State :=
  let ds := Self st in
  let p := lookup_ghost (Heap st) (CellData ds) in
  set_Self st (set_CellGhostArray ds p (match p with Some _ => true | None => false end)).

(** [vtkDataSet::OnDataModified]: [source] is one of the two attribute sets
    the constructor registered the observer on. *)
Definition OnDataModified (source : AttributeType) (st : State) : State :=
  match source with
  | POINT => UpdatePointGhostArrayCache st
  | CELL => UpdateCellGhostArrayCache st
  end.

(** Modelled from the spec: "any successful write to an AttributeSet must
    advance that set's clock" (section 4.1), and the observer the constructor
    registered for [vtkCommand::ModifiedEvent] is then invoked; [vtkObject.cxx]
    is outside this translation unit. This is [Modified()] on the dataset's
    point data, and below on its cell data. *)
Definition PointData_Modified (st : State) : State :=
  let '(t, st) := vtkTimeStamp_Modified st in
  let ds := Self st in
  OnDataModified POINT (set_Self st (set_PointData ds (set_MTime (PointData ds) t))).

Definition CellData_Modified (st : State) : State :=
  let '(t, st) := vtkTimeStamp_Modified st in
  let ds := Self st in
  OnDataModified CELL (set_Self st (set_CellData ds (set_MTime (CellData ds) t))).

(** [this->PointData->AddArray(a)] and its siblings. *)
Definition PointData_AddArray (a : nat) (st : State) : State :=
  let ds := Self st in
  let pd := PointData ds in
  PointData_Modified
    (set_Self st (set_PointData ds (set_Arrays pd (AddArray_list (Heap st) (Arrays pd) a)))).

Definition CellData_AddArray (a : nat) (st : State) : State :=
  let ds := Self st in
  let cd := CellData ds in
  CellData_Modified
    (set_Self st (set_CellData ds (set_Arrays cd (AddArray_list (Heap st) (Arrays cd) a)))).

Definition PointData_RemoveArray (name : string) (st : State) : State :=
  let ds := Self st in
  let pd := PointData ds in
  PointData_Modified
    (set_Self st (set_PointData ds (set_Arrays pd (RemoveArray_list (Heap st) (Arrays pd) name)))).

Definition CellData_RemoveArray (name : string) (st : State) : State :=
  let ds := Self st in
  let cd := CellData ds in
  CellData_Modified
    (set_Self st (set_CellData ds (set_Arrays cd (RemoveArray_list (Heap st) (Arrays cd) name)))).

(** [vtkUnsignedCharArray::New()], [SetName(GhostArrayName())],
    [SetNumberOfTuples(n)], [FillValue(0)]: the address of the new object and
    the state that holds it. *)
Definition new_ghost_array (n : nat) (st : State) : nat * State :=
  (length (Heap st),
   set_Heap st (Heap st ++ [mkArray (Some GhostArrayName) (UnsignedCharValues (replicate n 0))])).

(** [vtkDataSet::AllocatePointGhostArray] *)
Definition AllocatePointGhostArray (st : State) : option nat * State :=
  let '(p, st) := GetPointGhostArray st in
  match p with
  | Some _ => (PointGhostArray (Self st), st)
  | None =>
      let '(ghosts, st) := new_ghost_array (length (Points (Self st))) st in
      let st := PointData_AddArray ghosts st in
      let st := set_Self st (set_PointGhostArray (Self st) (Some ghosts) true) in
      (PointGhostArray (Self st), st)
  end.

(** [vtkDataSet::AllocateCellGhostArray] *)
Definition AllocateCellGhostArray (st : State) : option nat * State :=
  let '(p, st) := GetCellGhostArray st in
  match p with
  | Some _ => (CellGhostArray (Self st), st)
  | None =>
      let '(ghosts, st) := new_ghost_array (Z.to_nat (GetNumberOfCells (Self st))) st in
      let st := CellData_AddArray ghosts st in
      let st := set_Self st (set_CellGhostArray (Self st) (Some ghosts) true) in
      (CellGhostArray (Self st), st)
  end.

(** *** IsAnyBitSetFunctor *)

(** [BitSet[i] & BitFlag] as a condition. *)
Definition bit_test (BitSet : list Z) (BitFlag : Z) (i : nat) : bool :=
  negb (Z.land (default 0 (BitSet !! i)) BitFlag =? 0).

(** The loop of [operator()]: it stops at the first entry that meets the flag. *)
Fixpoint scan_bits (BitSet : list Z) (BitFlag : Z) (idxs : list nat) (tl : Z) : Z :=
  match idxs with
  | [] => tl
  | i :: rest => if bit_test BitSet BitFlag i then 1 else scan_bits BitSet BitFlag rest tl
  end.

Definition IsAnyBitSetFunctor_Call (BitSet : list Z) (BitFlag : Z)
    (begin end_ : nat) (tl : Z) : Z :=
  if negb (tl =? 0) then tl
  else scan_bits BitSet BitFlag (seq begin (end_ - begin)) tl.

(** The loop of [Reduce]: it stops at the first thread-local value set. *)
Fixpoint IsAnyBitSetFunctor_Reduce (tls : list Z) : Z :=
  match tls with
  | [] => 0
  | isAnyBit :: rest => if negb (isAnyBit =? 0) then 1 else IsAnyBitSetFunctor_Reduce rest
  end.

Definition IsAnyBitSetFunctor (BitSet : list Z) (BitFlag : Z) : SMP.Functor Z Z :=
  SMP.mkFunctor Z Z 0 (IsAnyBitSetFunctor_Call BitSet BitFlag) IsAnyBitSetFunctor_Reduce.

(** [vtkDataSet::IsAnyBitSet] *)
Definition IsAnyBitSet (sch : SMP.Schedule) (store : Store)
    (a : option nat) (bitFlag : Z) : bool :=
  match a with
  | Some addr =>
      match store !! addr with
      | Some (mkArray _ (UnsignedCharValues BitSet)) =>
          negb (SMP.For 0 (length BitSet) sch (IsAnyBitSetFunctor BitSet bitFlag) =? 0)
      | _ => false
      end
  | None => false
  end.

(** [vtkDataSet::HasAnyGhostPoints] *)
Definition HasAnyGhostPoints (sch : SMP.Schedule) (st : State) : bool * State :=
  let '(a, st) := GetPointGhostArray st in
  (IsAnyBitSet sch (Heap st) a DUPLICATEPOINT, st).

(** [vtkDataSet::HasAnyGhostCells] *)
Definition HasAnyGhostCells (sch : SMP.Schedule) (st : State) : bool * State :=
  let '(a, st) := GetCellGhostArray st in
  (IsAnyBitSet sch (Heap st) a DUPLICATECELL, st).

(** *** GenerateGhostArray *)

(** The values a loop variable takes: [n] consecutive integers from [lo]. *)
Definition irange (lo : Z) (n : nat) : list Z :=
  map (fun i => lo + Z.of_nat i) (seq 0 n).

(** The comparison loop that sets [sameExtent]. *)
Definition sameExtent (extent zeroExt : Extent) : bool :=
  (e0 extent =? e0 zeroExt) && (e1 extent =? e1 zeroExt) &&
  (e2 extent =? e2 zeroExt) && (e3 extent =? e3 zeroExt) &&
  (e4 extent =? e4 zeroExt) && (e5 extent =? e5 zeroExt).

(** Modelled from the spec: "one tuple per point (resp. per cell)"
    (section 4.5); [vtkStructuredData.h] is outside this translation unit.
    Point extents are inclusive; a cell axis has [hi - lo] cells, and one cell
    when it is degenerate. *)
Definition vtkStructuredData_GetNumberOfPoints (ext : Extent) : nat :=
  (Z.to_nat (e1 ext - e0 ext + 1) * Z.to_nat (e3 ext - e2 ext + 1)
   * Z.to_nat (e5 ext - e4 ext + 1))%nat.

Definition cell_axis_count (lo hi : Z) : nat :=
  if lo =? hi then 1%nat else Z.to_nat (hi - lo).

Definition vtkStructuredData_GetNumberOfCells (ext : Extent) : nat :=
  (cell_axis_count (e0 ext) (e1 ext) * cell_axis_count (e2 ext) (e3 ext)
   * cell_axis_count (e4 ext) (e5 ext))%nat.

(** [dk], [dj], [di] of the point loops. *)
Definition point_axis_dist (zlo zhi a : Z) : Z :=
  let d := 0 in
  let d := if a <? zlo then wrap32 (zlo - a) else d in
  if a >? zhi then wrap32 (wrap32 (a - zhi) + 1) else d.

(** [dk], [dj], [di] of the cell loops. *)
Definition cell_axis_dist (zlo zhi a : Z) : Z :=
  let d := 0 in
  let d := if a <? zlo then wrap32 (zlo - a) else d in
  if a >=? zhi then wrap32 (wrap32 (a - zhi) + 1) else d.

(** [dist] from [di], [dj], [dk]. *)
Definition combine_dist (di dj dk : Z) : Z :=
  let dist := di in
  let dist := if dj >? dist then dj else dist in
  if dk >? dist then dk else dist.

(** The innermost statements: read the entry at [index], OR the flag in when
    [dist > 0], write it back, advance [index]. [None] stands for an access
    outside the buffer. *)
Definition mark_entry (flag dist : Z) (s : option (nat * list Z)) : option (nat * list Z) :=
  match s with
  | Some (index, ghost) =>
      match ghost !! index with
      | Some value =>
          let value := if dist >? 0 then to_uchar (Z.lor value flag) else value in
          Some (S index, <[index := value]> ghost)
      | None => None
      end
  | None => None
  end.

(** The three nested loops over the points, from [index = 0]. *)
Definition point_loops (extent zeroExt : Extent) (ghostPoints : list Z)
    : option (nat * list Z) :=
  fold_left
    (fun s k =>
       let dk := point_axis_dist (e4 zeroExt) (e5 zeroExt) k in
       fold_left
         (fun s j =>
            let dj := point_axis_dist (e2 zeroExt) (e3 zeroExt) j in
            fold_left
              (fun s i =>
                 let di := point_axis_dist (e0 zeroExt) (e1 zeroExt) i in
                 mark_entry DUPLICATEPOINT (combine_dist di dj dk) s)
              (irange (e0 extent) (Z.to_nat (e1 extent - e0 extent + 1))) s)
         (irange (e2 extent) (Z.to_nat (e3 extent - e2 extent + 1))) s)
    (irange (e4 extent) (Z.to_nat (e5 extent - e4 extent + 1)))
    (Some (0%nat, ghostPoints)).

(** The three nested loops over the cells, from [index = 0]; the extents are
    the inflated ones. *)
Definition cell_loops (extent zeroExt : Extent) (ghostCells : list Z)
    : option (nat * list Z) :=
  fold_left
    (fun s k =>
       let dk := cell_axis_dist (e4 zeroExt) (e5 zeroExt) k in
       fold_left
         (fun s j =>
            let dj := cell_axis_dist (e2 zeroExt) (e3 zeroExt) j in
            fold_left
              (fun s i =>
                 let di := cell_axis_dist (e0 zeroExt) (e1 zeroExt) i in
                 mark_entry DUPLICATECELL (combine_dist di dj dk) s)
              (irange (e0 extent) (Z.to_nat (e1 extent - e0 extent))) s)
         (irange (e2 extent) (Z.to_nat (e3 extent - e2 extent))) s)
    (irange (e4 extent) (Z.to_nat (e5 extent - e4 extent)))
    (Some (0%nat, ghostCells)).

(** "Cells may be 2d or 1d ... Treat all as 3D": both the local copy of the
    extent and the caller's [zeroExt] are incremented on a degenerate axis. *)
Definition inflate (extent zeroExt : Extent) : Extent * Extent :=
  let '(extent, zeroExt) :=
    if e0 extent =? e1 extent
    then (mkExtent (e0 extent) (wrap32 (e1 extent + 1)) (e2 extent) (e3 extent) (e4 extent) (e5 extent),
          mkExtent (e0 zeroExt) (wrap32 (e1 zeroExt + 1)) (e2 zeroExt) (e3 zeroExt) (e4 zeroExt) (e5 zeroExt))
    else (extent, zeroExt) in
  let '(extent, zeroExt) :=
    if e2 extent =? e3 extent
    then (mkExtent (e0 extent) (e1 extent) (e2 extent) (wrap32 (e3 extent + 1)) (e4 extent) (e5 extent),
          mkExtent (e0 zeroExt) (e1 zeroExt) (e2 zeroExt) (wrap32 (e3 zeroExt + 1)) (e4 zeroExt) (e5 zeroExt))
    else (extent, zeroExt) in
  if e4 extent =? e5 extent
  then (mkExtent (e0 extent) (e1 extent) (e2 extent) (e3 extent) (e4 extent) (wrap32 (e5 extent + 1)),
        mkExtent (e0 zeroExt) (e1 zeroExt) (e2 zeroExt) (e3 zeroExt) (e4 zeroExt) (wrap32 (e5 zeroExt + 1)))
  else (extent, zeroExt).

(** Run a loop nest on the buffer of the array at [a] and store the result. *)
Definition update_ghost_buffer (a : nat)
    (loops : list Z -> option (nat * list Z)) (st : State) : option State :=
  match Heap st !! a with
  | Some (mkArray name (UnsignedCharValues ghost)) =>
      match loops ghost with
      | Some (_, ghost') =>
          Some (set_Heap st (<[a := mkArray name (UnsignedCharValues ghost')]> (Heap st)))
      | None => None
      end
  | _ => None
  end.

(** The lookup, and the creation "if (!ghostPoints)", of the points part. *)
Definition ghostPoints_array (extent : Extent) (st : State) : nat * State :=
  match lookup_ghost (Heap st) (PointData (Self st)) with
  | Some a => (a, st)
  | None =>
      let '(a, st) := new_ghost_array (vtkStructuredData_GetNumberOfPoints extent) st in
      (a, PointData_AddArray a st)
  end.

Definition ghostCells_array (extent : Extent) (st : State) : nat * State :=
  match lookup_ghost (Heap st) (CellData (Self st)) with
  | Some a => (a, st)
  | None =>
      let '(a, st) := new_ghost_array (vtkStructuredData_GetNumberOfCells extent) st in
      (a, CellData_AddArray a st)
  end.

(** The block under "---- POINTS ----". *)
Definition points_pass (extent zeroExt : Extent) (st : State) : option State :=
  let '(ghostPoints, st) := ghostPoints_array extent st in
  update_ghost_buffer ghostPoints (point_loops extent zeroExt) st.

(** The block under "---- CELLS ----"; it returns the caller's [zeroExt] too. *)
Definition cells_pass (extent zeroExt : Extent) (st : State) : option (State * Extent) :=
  let '(ghostCells, st) := ghostCells_array extent st in
  let '(extent, zeroExt) := inflate extent zeroExt in
  match update_ghost_buffer ghostCells (cell_loops extent zeroExt) st with
  | Some st => Some (st, zeroExt)
  | None => None
  end.

(** [vtkDataSet::GenerateGhostArray(int zeroExt[6], bool cellOnly)]. The
    result holds the state and the caller's [zeroExt] array after the call;
    it is [None] when the call reads or writes outside a ghost buffer. *)
Definition GenerateGhostArray (zeroExt : Extent) (cellOnly : bool) (st : State)
    : option (State * Extent) :=
  if negb (ExtentType (Self st) =? VTK_3D_EXTENT) then Some (st, zeroExt)
  else
    let extent := DataExtent (Self st) in
    if sameExtent extent zeroExt then Some (st, zeroExt)
    else
      let after_points :=
        if negb cellOnly then points_pass extent zeroExt st else Some st in
      match after_points with
      | Some st => cells_pass extent zeroExt st
      | None => None
      end.

(** *** Construction and the subclass *)

(** [vtkDataSet::vtkDataSet()], in a process whose store is [store] and whose
    clock shows [now]. Each [vtkObject] takes a stamp when it is built. *)
Definition New (store : Store) (now : N) : State :=
  let pd := mkAttributes [] (now + 2)%N None 0 in
  let cd := mkAttributes [] (now + 3)%N None 0 in
  mkState store (now + 3)%N []
    (mkDataSet [] 0 0 (mkExtent 0 (-1) 0 (-1) 0 (-1)) (now + 1)%N
       pd cd UninitializedBounds 0%N (of_Z 0, of_Z 1) 0%N
       None false None false).

(** What a concrete subclass does when its points, cells or extent change:
    it stores them and calls [Modified()] on itself. *)
Definition SetGeometry (pts : list double3) (ncells : Z) (ty : Z) (ext : Extent)
    (st : State) : State :=
  let '(t, st) := vtkTimeStamp_Modified st in
  set_Self st (set_Geometry (Self st) pts ncells ty ext t).

End Members.

(** ** The values of the headers

    [vtkDataSetAttributes.h]: DUPLICATEPOINT = 1, DUPLICATECELL = 1, the ghost
    array is named "vtkGhostType"; [vtkType.h]: VTK_DOUBLE_MAX = 1.0e+299,
    VTK_DOUBLE_MIN = -1.0e+299; [vtkMath.h]: uninitialized bounds are
    (1, -1, 1, -1, 1, -1); [vtkDataObject.h]: VTK_3D_EXTENT = 1. The range
    query is a plain minimum/maximum scan that skips masked tuples; it is
    only there to run examples. *)

Definition values_as_doubles (a : vtkAbstractArray) : list double :=
  match Values a with
  | UnsignedCharValues v => map of_Z v
  | DoubleValues v => v
  end.

Fixpoint range_scan (vals : list double) (ghosts : option (list Z)) (skip : Z)
    (i : nat) (r : double * double) : double * double :=
  match vals with
  | [] => r
  | v :: rest =>
      let skipped :=
        match ghosts with
        | Some g => negb (Z.land (default 0 (g !! i)) skip =? 0)
        | None => false
        end in
      let r :=
        if skipped then r
        else (if ltb v (fst r) then v else fst r, if gtb v (snd r) then v else snd r) in
      range_scan rest ghosts skip (S i) r
  end.

Definition VTK_1e299 : double := S754_finite false 5379898476197808 941.
Definition VTK_minus_1e299 : double := S754_finite true 5379898476197808 941.

Definition VTK : Externals :=
  mkExternals 1 1 "vtkGhostType" 1 VTK_1e299 VTK_minus_1e299
    (mk6 (of_Z 1) (of_Z (-1)) (of_Z 1) (of_Z (-1)) (of_Z 1) (of_Z (-1)))
    (fun a ghosts skip =>
       range_scan (values_as_doubles a) ghosts skip 0 (VTK_1e299, VTK_minus_1e299)).

(** ** Notions the statements use *)

Section Notions.

Context `{Externals}.

(** The flags are non-zero bytes. *)
Definition GhostBitsOK : Prop :=
  0 < DUPLICATEPOINT < 256 /\ 0 < DUPLICATECELL < 256.

(** Every bound of the extent is small enough for the differences the loops
    form to stay inside [int]. *)
Definition ExtentInRange (ext : Extent) : Prop :=
  (- 2 ^ 30 < e0 ext < 2 ^ 30) /\ (- 2 ^ 30 < e1 ext < 2 ^ 30) /\
  (- 2 ^ 30 < e2 ext < 2 ^ 30) /\ (- 2 ^ 30 < e3 ext < 2 ^ 30) /\
  (- 2 ^ 30 < e4 ext < 2 ^ 30) /\ (- 2 ^ 30 < e5 ext < 2 ^ 30).

(** The store is well formed for a dataset: its attribute sets hold addresses
    of live objects, and unsigned char buffers hold bytes. *)
Definition StoreOK (st : State) : Prop :=
  (forall a, a ∈ Arrays (PointData (Self st)) -> (a < length (Heap st))%nat) /\
  (forall a, a ∈ Arrays (CellData (Self st)) -> (a < length (Heap st))%nat) /\
  (forall a name v, Heap st !! a = Some (mkArray name (UnsignedCharValues v)) ->
                    Forall is_uchar v).

(** The buffer of the unsigned char array at [a], if there is one. *)
Definition bytes_at (store : Store) (a : nat) : option (list Z) :=
  match store !! a with
  | Some (mkArray _ (UnsignedCharValues v)) => Some v
  | _ => None
  end.

(** The ghost buffers that exist have one entry per point (resp. per cell) of
    the extent, so that the loops stay inside them. *)
Definition GhostBuffersFit (st : State) : Prop :=
  (forall a v, lookup_ghost (Heap st) (PointData (Self st)) = Some a ->
               bytes_at (Heap st) a = Some v ->
               length v = vtkStructuredData_GetNumberOfPoints (DataExtent (Self st))) /\
  (forall a v, lookup_ghost (Heap st) (CellData (Self st)) = Some a ->
               bytes_at (Heap st) a = Some v ->
               length v = vtkStructuredData_GetNumberOfCells (DataExtent (Self st))).

(** The ghost buffer a pass starts from, and where it is: the existing
    array, or a new one filled with 0 at the next free address. *)
Definition points_before (extent : Extent) (st : State) : nat * list Z :=
  match lookup_ghost (Heap st) (PointData (Self st)) with
  | Some a => (a, default [] (bytes_at (Heap st) a))
  | None => (length (Heap st), replicate (vtkStructuredData_GetNumberOfPoints extent) 0)
  end.

Definition cells_before (extent : Extent) (st : State) : nat * list Z :=
  match lookup_ghost (Heap st) (CellData (Self st)) with
  | Some a => (a, default [] (bytes_at (Heap st) a))
  | None => (length (Heap st), replicate (vtkStructuredData_GetNumberOfCells extent) 0)
  end.

(** The point ghost array and the cell ghost array are different objects. *)
Definition GhostArraysDistinct (st : State) : Prop :=
  forall a b, lookup_ghost (Heap st) (PointData (Self st)) = Some a ->
              lookup_ghost (Heap st) (CellData (Self st)) = Some b -> a <> b.

(** The point ghost entry at [idx] before a call: the stored byte, and 0 (the
    fill value of a new array) when the array does not exist yet. *)
Definition point_ghost_entry (st : State) (idx : nat) : Z :=
  match lookup_ghost (Heap st) (PointData (Self st)) with
  | Some a => default 0 (default [] (bytes_at (Heap st) a) !! idx)
  | None => 0
  end.

(** The overflow distance of the specification. Per axis:
    [max(0, Z_lo - axis, axis - Z_hi)], with one added to the last term when
    the index exceeds the canonical upper bound; the axes are combined by
    [max]. *)
Definition overflow_distance (zlo zhi a : Z) : Z :=
  Z.max 0 (Z.max (zlo - a) (if a >? zhi then a - zhi + 1 else a - zhi)).

Definition chebyshev_distance (zeroExt : Extent) (i j k : Z) : Z :=
  Z.max (overflow_distance (e0 zeroExt) (e1 zeroExt) i)
    (Z.max (overflow_distance (e2 zeroExt) (e3 zeroExt) j)
           (overflow_distance (e4 zeroExt) (e5 zeroExt) k)).

Definition in_extent (ext : Extent) (i j k : Z) : Prop :=
  e0 ext <= i <= e1 ext /\ e2 ext <= j <= e3 ext /\ e4 ext <= k <= e5 ext.

(** The position of point (i, j, k) in the buffer: i runs fastest. *)
Definition point_index (ext : Extent) (i j k : Z) : nat :=
  (Z.to_nat (k - e4 ext) * (Z.to_nat (e3 ext - e2 ext + 1) * Z.to_nat (e1 ext - e0 ext + 1))
   + Z.to_nat (j - e2 ext) * Z.to_nat (e1 ext - e0 ext + 1)
   + Z.to_nat (i - e0 ext))%nat.

(** An entry carries the flag. *)
Definition has_flag (v flag : Z) : bool := negb (Z.land v flag =? 0).

(** Every bit set in [v] is set in [v']. *)
Definition bits_included (v v' : Z) : Prop :=
  forall n, 0 <= n -> Z.testbit v n = true -> Z.testbit v' n = true.

(** An entry after the innermost statements of a ghost loop. *)
Definition mark1 (flag dist v : Z) : Z :=
  if dist >? 0 then to_uchar (Z.lor v flag) else v.

(** The values [dist] takes in the point loops, in the order of the loops. *)
Definition point_dists (extent zeroExt : Extent) : list Z :=
  flat_map
    (fun k =>
       flat_map
         (fun j =>
            map (fun i =>
                   combine_dist (point_axis_dist (e0 zeroExt) (e1 zeroExt) i)
                                (point_axis_dist (e2 zeroExt) (e3 zeroExt) j)
                                (point_axis_dist (e4 zeroExt) (e5 zeroExt) k))
                (irange (e0 extent) (Z.to_nat (e1 extent - e0 extent + 1))))
         (irange (e2 extent) (Z.to_nat (e3 extent - e2 extent + 1))))
    (irange (e4 extent) (Z.to_nat (e5 extent - e4 extent + 1))).

(** The values [dist] takes in the cell loops (inflated extents). *)
Definition cell_dists (extent zeroExt : Extent) : list Z :=
  flat_map
    (fun k =>
       flat_map
         (fun j =>
            map (fun i =>
                   combine_dist (cell_axis_dist (e0 zeroExt) (e1 zeroExt) i)
                                (cell_axis_dist (e2 zeroExt) (e3 zeroExt) j)
                                (cell_axis_dist (e4 zeroExt) (e5 zeroExt) k))
                (irange (e0 extent) (Z.to_nat (e1 extent - e0 extent))))
         (irange (e2 extent) (Z.to_nat (e3 extent - e2 extent))))
    (irange (e4 extent) (Z.to_nat (e5 extent - e4 extent))).

(** Two array objects have the same name and the same type. *)
Definition same_kind (x y : vtkAbstractArray) : Prop :=
  Name x = Name y /\
  match Values x, Values y with
  | UnsignedCharValues _, UnsignedCharValues _ => True
  | DoubleValues _, DoubleValues _ => True
  | _, _ => False
  end.

(** Every object of [h] is still in [h'], under its name and with its type. *)
Definition shape_preserved (h h' : Store) : Prop :=
  forall a x, h !! a = Some x -> exists y, h' !! a = Some y /\ same_kind x y.

(** Every unsigned char buffer of [h] is still in [h'], with the same length
    and with at least the bits it had. *)
Definition bits_preserved (h h' : Store) : Prop :=
  forall a name g, h !! a = Some (mkArray name (UnsignedCharValues g)) ->
    exists g', h' !! a = Some (mkArray name (UnsignedCharValues g')) /\
               length g' = length g /\
               forall i v, g !! i = Some v ->
                 exists v', g' !! i = Some v' /\ bits_included v v'.

Definition BytesValid (h : Store) : Prop :=
  forall a name v, h !! a = Some (mkArray name (UnsignedCharValues v)) -> Forall is_uchar v.

(** The stamps of the dataset were all issued by the clock. *)
Definition ClockOK (st : State) : Prop :=
  (ObjectMTime (Self st) <= GlobalTime st)%N /\
  (MTime (PointData (Self st)) <= GlobalTime st)%N /\
  (MTime (CellData (Self st)) <= GlobalTime st)%N /\
  (ComputeTime (Self st) <= GlobalTime st)%N /\
  (ScalarRangeComputeTime (Self st) <= GlobalTime st)%N.

(** A bounds cache the gate accepts holds what [ComputeBounds] computes from
    the points the dataset has now. *)
Definition BoundsCacheCoherent (st : State) : Prop :=
  (GetMTime (Self st) <= ComputeTime (Self st))%N ->
  exists sch, SMP.ValidSchedule 0 (length (Points (Self st))) sch /\
              Bounds (Self st) = fresh_bounds sch (Self st).



(** [m] is the lesser (resp. the greater) of [a] and [b]. *)
Definition is_min_of (m a b : double) : Prop :=
  (m = a \/ m = b) /\ leb m a = true /\ leb m b = true.
Definition is_max_of (m a b : double) : Prop :=
  (m = a \/ m = b) /\ leb a m = true /\ leb b m = true.

(** The selections the two loops over the axes make. *)
Definition lower (v m : double) : double := if ltb v m then v else m.
Definition upper (v m : double) : double := if gtb v m then v else m.

(** The two entries of a box that belong to axis [j]. *)
Definition axis_min (b : double6) (j : nat) : double := get6 b (2 * j).
Definition axis_max (b : double6) (j : nat) : double := get6 b (2 * j + 1).

(** What the thread-local boxes satisfy on axis [j] while the chunks run:
    each box holds numbers that are a start value or a coordinate seen, and
    each point seen whose coordinate is a number lies in the box of some
    worker (a NaN coordinate fails both comparisons of the loop). *)
Definition boxes_invariant (ds : vtkDataSet) (j : nat)
    (tls : gmap nat double6) (visited : list nat) : Prop :=
  (forall w t, tls !! w = Some t ->
     is_nan (axis_min t j) = false /\ is_nan (axis_max t j) = false /\
     (axis_min t j = VTK_DOUBLE_MAX \/
      exists i, i ∈ visited /\ axis_min t j = coord (GetPoint ds i) j) /\
     (axis_max t j = VTK_DOUBLE_MIN \/
      exists i, i ∈ visited /\ axis_max t j = coord (GetPoint ds i) j)) /\
  (forall i, i ∈ visited -> is_nan (coord (GetPoint ds i) j) = false ->
     exists w t, tls !! w = Some t /\
       leb (axis_min t j) (coord (GetPoint ds i) j) = true /\
       leb (coord (GetPoint ds i) j) (axis_max t j) = true).

(** What the thread-local flags of [IsAnyBitSetFunctor] satisfy while the
    chunks run: some flag is set exactly when some entry visited so far meets
    the bit flag. *)
Definition any_bit_invariant (BitSet : list Z) (BitFlag : Z)
    (tls : gmap nat Z) (visited : list nat) : Prop :=
  (exists w t, tls !! w = Some t /\ t <> 0) <->
  (exists i, i ∈ visited /\ bit_test BitSet BitFlag i = true).


(** The arrays of an attribute set, in index order. *)
Definition attribute_arrays (store : Store) (attrs : vtkDataSetAttributes)
    : list vtkAbstractArray :=
  omap (fun a => store !! a) (Arrays attrs).

Definition too_few (count : Z) (a : vtkAbstractArray) : bool := GetNumberOfTuples a <? count.
Definition too_many (count : Z) (a : vtkAbstractArray) : bool := GetNumberOfTuples a >? count.

(** The warnings a loop of [CheckAttributes] emits when it runs to its end. *)
Definition warnings_for (ty : AttributeType) (count : Z)
    (arrays : list vtkAbstractArray) : list Diagnostic :=
  map (fun a => mkDiagnostic WarningSeverity ty (default EmptyString (Name a))
                  (GetNumberOfTuples a) count)
      (List.filter (too_many count) arrays).

(** The error a loop of [CheckAttributes] emits for an array. *)
Definition error_for (ty : AttributeType) (count : Z) (a : vtkAbstractArray) : Diagnostic :=
  mkDiagnostic ErrorSeverity ty (default EmptyString (Name a)) (GetNumberOfTuples a) count.

(** The invariant of the ghost-array pointer cache. *)
Definition GhostCacheInv (st : State) : Prop :=
  (PointGhostArrayCached (Self st) = true ->
   PointGhostArray (Self st) = lookup_ghost (Heap st) (PointData (Self st))) /\
  (CellGhostArrayCached (Self st) = true ->
   CellGhostArray (Self st) = lookup_ghost (Heap st) (CellData (Self st))).

Definition AddressesLive (st : State) : Prop :=
  (forall a, a ∈ Arrays (PointData (Self st)) -> (a < length (Heap st))%nat) /\
  (forall a, a ∈ Arrays (CellData (Self st)) -> (a < length (Heap st))%nat).

(** *** The operations a client can run on a dataset *)

Inductive Op : Type :=
| OpSetGeometry (pts : list double3) (ncells : Z) (ty : Z) (ext : Extent)
| OpNewArray (arr : vtkAbstractArray)
| OpWriteBytes (a : nat) (v : list Z)
| OpPointDataAddArray (a : nat)
| OpCellDataAddArray (a : nat)
| OpPointDataRemoveArray (name : string)
| OpCellDataRemoveArray (name : string)
| OpGetPointGhostArray
| OpGetCellGhostArray
| OpUpdatePointGhostArrayCache
| OpUpdateCellGhostArrayCache
| OpAllocatePointGhostArray
| OpAllocateCellGhostArray
| OpGenerateGhostArray (zeroExt : Extent) (cellOnly : bool)
| OpHasAnyGhostPoints (sch : SMP.Schedule)
| OpHasAnyGhostCells (sch : SMP.Schedule)
| OpComputeBounds (sch : SMP.Schedule)
| OpComputeScalarRange
| OpCheckAttributes.

(** One operation; [None] when the client passes a dangling address or the
    call leaves a buffer. Writing a buffer keeps the name and the type of the
    array object. *)
Definition step (op : Op) (st : State) : option State :=
  match op with
  | OpSetGeometry pts ncells ty ext => Some (SetGeometry pts ncells ty ext st)
  | OpNewArray arr => Some (set_Heap st (Heap st ++ [arr]))
  | OpWriteBytes a v =>
      match Heap st !! a with
      | Some (mkArray name (UnsignedCharValues _)) =>
          Some (set_Heap st (<[a := mkArray name (UnsignedCharValues v)]> (Heap st)))
      | _ => None
      end
  | OpPointDataAddArray a =>
      if (a <? length (Heap st))%nat then Some (PointData_AddArray a st) else None
  | OpCellDataAddArray a =>
      if (a <? length (Heap st))%nat then Some (CellData_AddArray a st) else None
  | OpPointDataRemoveArray name => Some (PointData_RemoveArray name st)
  | OpCellDataRemoveArray name => Some (CellData_RemoveArray name st)
  | OpGetPointGhostArray => Some (snd (GetPointGhostArray st))
  | OpGetCellGhostArray => Some (snd (GetCellGhostArray st))
  | OpUpdatePointGhostArrayCache => Some (UpdatePointGhostArrayCache st)
  | OpUpdateCellGhostArrayCache => Some (UpdateCellGhostArrayCache st)
  | OpAllocatePointGhostArray => Some (snd (AllocatePointGhostArray st))
  | OpAllocateCellGhostArray => Some (snd (AllocateCellGhostArray st))
  | OpGenerateGhostArray zeroExt cellOnly =>
      option_map fst (GenerateGhostArray zeroExt cellOnly st)
  | OpHasAnyGhostPoints sch => Some (snd (HasAnyGhostPoints sch st))
  | OpHasAnyGhostCells sch => Some (snd (HasAnyGhostCells sch st))
  | OpComputeBounds sch => Some (ComputeBounds sch st)
  | OpComputeScalarRange => Some (ComputeScalarRange st)
  | OpCheckAttributes => Some (snd (CheckAttributes st))
  end.

(** The states a dataset goes through from its construction. *)
Inductive Reachable : State -> Prop :=
| Reachable_New store now : Reachable (New store now)
| Reachable_step op st st' : Reachable st -> step op st = Some st' -> Reachable st'.

End Notions.

(** ** More member functions

    The member functions below complete the model: the copy of the cached
    members, and the two default implementations that are written in terms
    of the subclass's cell accessors. The accessors are pure virtual in
    [vtkDataSet]; they are arguments of the model, and so are the member
    functions of the two helper classes the implementations call. *)

(** *** InternalDataSetCopy *)

(** [vtkDataSet::InternalDataSetCopy]: "This copies all the local variables
    (but not objects)". *)
Definition InternalDataSetCopy (src : vtkDataSet) (st : State) : State :=
  let ds := Self st in
  let ds := set_ScalarRange ds (ScalarRange src) (ScalarRangeComputeTime src) in
  let ds :=
    fold_left
      (fun ds idx =>
         let b := set6 (Bounds ds) (2 * idx) (get6 (Bounds src) (2 * idx)) in
         let b := set6 b (2 * idx + 1) (get6 (Bounds src) (2 * idx + 1)) in
         set_Bounds ds b (ComputeTime ds))
      [0; 1; 2]%nat
      (set_Bounds ds (Bounds ds) (ComputeTime src)) in
  set_Self st ds.

(** *** GetCellTypes *)

(** [vtkCellTypes] is a class of its own. [GetCellTypes] uses three of its
    member functions; they are the interface of the model, for any
    representation [T] of the object. *)
Class vtkCellTypes (T : Type) : Type :=
  { Reset : T -> T;
    IsType : T -> Z -> bool;
    InsertNextType : T -> Z -> T }.

(** [vtkDataSet::GetCellTypes]. [GetCellType] is the subclass's accessor
    (an [int], stored in an [unsigned char]); [types] is the caller's
    object. *)
Definition GetCellTypes {T : Type} `{vtkCellTypes T}
    (GetCellType : nat -> Z) (ds : vtkDataSet) (types : T) : T :=
  let numCells := GetNumberOfCells ds in
  let types := Reset types in
  fold_left
    (fun types cellId =>
       let type := to_uchar (GetCellType cellId) in
       if negb (IsType types type) then InsertNextType types type else types)
    (seq 0 (Z.to_nat numCells)) types.

(** *** GetCellNeighbors *)

(** [vtkIdList] is a class of its own. Through [GetNumberOfIds] and [GetId]
    an id list is the list of its ids; the two member functions that change
    it are the interface of the model. *)
Class vtkIdList : Type :=
  { DeleteId : list nat -> nat -> list nat;
    IntersectWith : list nat -> list nat -> list nat }.

(** [vtkDataSet::GetCellNeighbors]. [GetPointCells] is the subclass's
    accessor: the cells that use a point. The result is the content of
    [cellIds] after the call; it is [None] when [ptIds] is empty, where the
    source reads [ptIds->GetId(0)] outside the list. *)
Definition GetCellNeighbors `{vtkIdList} (GetPointCells : nat -> list nat)
    (cellId : nat) (ptIds : list nat) : option (list nat) :=
  match ptIds !! 0%nat with
  | None => None
  | Some p0 =>
      let cellIds := GetPointCells p0 in
      let cellIds := DeleteId cellIds cellId in
      if Z.of_nat (length cellIds) >? 0 then
        let numPts := length ptIds in
        Some (fold_left
                (fun cellIds i =>
                   let otherCells := GetPointCells (default 0%nat (ptIds !! i)) in
                   IntersectWith cellIds otherCells)
                (seq 1 (numPts - 1)) cellIds)
      else Some cellIds
  end.

(** ** The helper classes *)

(** What the member functions of [vtkCellTypes] do, in terms of the types an
    object lists: [Reset] empties the list, [IsType] searches it,
    [InsertNextType] puts a type after the others. *)
Record CellTypesLaws {T : Type} `{vtkCellTypes T} (listed : T -> list Z) : Prop :=
  { listed_Reset : forall t, listed (Reset t) = [];
    listed_IsType : forall t x, IsType t x = true <-> x ∈ listed t;
    listed_InsertNextType : forall t x, listed (InsertNextType t x) = listed t ++ [x] }.

(** What the two member functions of [vtkIdList] do, as the comments of
    [GetCellNeighbors] have it ("remove current cell", "perform multiple
    intersections on list"). Nothing is said about the order of the ids. *)
Record IdListLaws `{vtkIdList} : Prop :=
  { elem_of_DeleteId : forall ids id c, c ∈ DeleteId ids id <-> c ∈ ids /\ c <> id;
    elem_of_IntersectWith :
      forall ids other c, c ∈ IntersectWith ids other <-> c ∈ ids /\ c ∈ other }.

(** The type of a cell as [GetCellTypes] stores it, and the distinct types
    of the first [m] cells in the order in which they first occur. *)
Definition stored_type (GetCellType : nat -> Z) (cellId : nat) : Z :=
  to_uchar (GetCellType cellId).

Definition types_after (GetCellType : nat -> Z) (m : nat) : list Z :=
  fold_left
    (fun types cellId =>
       let type := stored_type GetCellType cellId in
       if bool_decide (type ∈ types) then types else types ++ [type])
    (seq 0 m) [].

(** ** More notions *)

Section MoreNotions.

Context `{Externals}.

(** The cell ghost entry at [idx] before a call: the stored byte, and 0 (the
    fill value of a new array) when the array does not exist yet. *)
Definition cell_ghost_entry (st : State) (idx : nat) : Z :=
  match lookup_ghost (Heap st) (CellData (Self st)) with
  | Some a => default 0 (default [] (bytes_at (Heap st) a) !! idx)
  | None => 0
  end.

(** Cell (i, j, k) of an extent whose upper bounds are exclusive, and its
    position in the buffer: i runs fastest. *)
Definition in_cell_extent (ext : Extent) (i j k : Z) : Prop :=
  e0 ext <= i < e1 ext /\ e2 ext <= j < e3 ext /\ e4 ext <= k < e5 ext.

Definition cell_index (ext : Extent) (i j k : Z) : nat :=
  (Z.to_nat (k - e4 ext) * (Z.to_nat (e3 ext - e2 ext) * Z.to_nat (e1 ext - e0 ext))
   + Z.to_nat (j - e2 ext) * Z.to_nat (e1 ext - e0 ext)
   + Z.to_nat (i - e0 ext))%nat.

(** Point (i, j, k) lies in the canonical extent (bounds inclusive); cell
    (i, j, k) lies in it (upper bounds exclusive). *)
Definition point_inside (z : Extent) (i j k : Z) : bool :=
  (e0 z <=? i) && (i <=? e1 z) && (e2 z <=? j) && (j <=? e3 z) &&
  (e4 z <=? k) && (k <=? e5 z).

Definition cell_inside (z : Extent) (i j k : Z) : bool :=
  (e0 z <=? i) && (i <? e1 z) && (e2 z <=? j) && (j <? e3 z) &&
  (e4 z <=? k) && (k <? e5 z).

(** The first cell of type [t] comes before every cell of type [u]. *)
Definition first_seen_before (type_of : nat -> Z) (n : nat) (t u : Z) : Prop :=
  exists c, (c < n)%nat /\ type_of c = t /\
            forall c', (c' < n)%nat -> type_of c' = u -> (c < c')%nat.

(** The members of a dataset that [GenerateGhostArray] has no business
    with: the geometry, the two caches and their stamps. *)
Definition same_geometry_and_caches (ds ds' : vtkDataSet) : Prop :=
  Points ds' = Points ds /\ NumberOfCells ds' = NumberOfCells ds /\
  ExtentType ds' = ExtentType ds /\ DataExtent ds' = DataExtent ds /\
  ObjectMTime ds' = ObjectMTime ds /\
  Bounds ds' = Bounds ds /\ ComputeTime ds' = ComputeTime ds /\
  ScalarRange ds' = ScalarRange ds /\
  ScalarRangeComputeTime ds' = ScalarRangeComputeTime ds.

End MoreNotions.

(** What a call leaves of a state when it only works on attribute data. *)
Definition same_frame (st st' : State) : Prop :=
  same_geometry_and_caches (Self st) (Self st') /\ Log st' = Log st /\
  (GlobalTime st <= GlobalTime st')%N.

(** A double below zero: a negative number or minus infinity (not -0.0,
    not NaN). *)
Definition is_negative (x : double) : bool :=
  match x with
  | S754_infinity true | S754_finite true _ _ => true
  | _ => false
  end.

(** No stamp of the dataset goes back, and neither does the counter. *)
Definition clocks_advance (st st' : State) : Prop :=
  (GlobalTime st <= GlobalTime st')%N /\
  (ObjectMTime (Self st) <= ObjectMTime (Self st'))%N /\
  (MTime (PointData (Self st)) <= MTime (PointData (Self st')))%N /\
  (MTime (CellData (Self st)) <= MTime (CellData (Self st')))%N /\
  (ComputeTime (Self st) <= ComputeTime (Self st'))%N /\
  (ScalarRangeComputeTime (Self st) <= ScalarRangeComputeTime (Self st'))%N.

(** A transition that keeps the stamps below the counter and takes none of
    them back. *)
Definition clocks_kept (st st' : State) : Prop :=
  ClockOK st -> ClockOK st' /\ clocks_advance st st'.

(** ** Datasets the properties are run on *)

(** A 5 x 5 structured grid in the plane z = 0, just built, with no array. *)
Definition grid_points : list double3 :=
  flat_map (fun j => map (fun i => (of_Z i, of_Z j, of_Z 0)) (irange 0 5)) (irange 0 5).

Definition grid_extent : Extent := mkExtent 0 4 0 4 0 0.
Definition inner_extent : Extent := mkExtent 1 3 1 3 0 0.

Definition grid : State :=
  SetGeometry grid_points 16 1 grid_extent (New (H := VTK) [] 0).

(** The grid after [GenerateGhostArray(inner_extent, false)]. *)
Definition marked_grid : State :=
  match GenerateGhostArray (H := VTK) inner_extent false grid with
  | Some (st, _) => st
  | None => grid
  end.

(** A dataset that was just built. *)
Definition fresh : State := New (H := VTK) [] 0.

(** Three points: (0,0,0), (3,4,12) and (-1,2,5). *)
Definition three_points : State :=
  SetGeometry [(of_Z 0, of_Z 0, of_Z 0); (of_Z 3, of_Z 4, of_Z 12); (of_Z (-1), of_Z 2, of_Z 5)]
    0 0 (mkExtent 0 (-1) 0 (-1) 0 (-1)) (New (H := VTK) [] 0).




(** Two points: (0,0,0) and (3,4,12); the diagonal is 13 long. *)
Definition two_points : State :=
  SetGeometry [(of_Z 0, of_Z 0, of_Z 0); (of_Z 3, of_Z 4, of_Z 12)]
    0 0 (mkExtent 0 (-1) 0 (-1) 0 (-1)) (New (H := VTK) [] 0).

(** Point scalars 0, 4, 10 and cell scalars 5, 20, both active. *)
Definition with_scalars : State :=
  let store :=
    [mkArray (Some "temperature"%string) (DoubleValues [of_Z 0; of_Z 4; of_Z 10]);
     mkArray (Some "pressure"%string) (DoubleValues [of_Z 5; of_Z 20])] in
  let st := New (H := VTK) store 0 in
  let st := PointData_AddArray (H := VTK) 0 st in
  let st := CellData_AddArray (H := VTK) 1 st in
  let ds := Self st in
  set_Self st
    (set_CellData (set_PointData ds (set_Scalars (PointData ds) (Some 0%nat)))
       (set_Scalars (CellData ds) (Some 1%nat))).

(** Three points on a line, extent [0,2] x [0,0] x [0,0], with point scalars
    0, 4, 10 and a point and a cell ghost array that flag nothing yet;
    duplicate points are left out of the range (the mask of the point data is
    DUPLICATEPOINT). *)
Definition line_with_ghosts : State :=
  let store :=
    [mkArray (Some "temperature"%string) (DoubleValues [of_Z 0; of_Z 4; of_Z 10]);
     mkArray (Some "vtkGhostType"%string) (UnsignedCharValues [0; 0; 0]);
     mkArray (Some "vtkGhostType"%string) (UnsignedCharValues [0; 0])] in
  let st := New (H := VTK) store 0 in
  let st := SetGeometry [(of_Z 0, of_Z 0, of_Z 0); (of_Z 1, of_Z 0, of_Z 0);
                         (of_Z 2, of_Z 0, of_Z 0)] 2 1 (mkExtent 0 2 0 0 0 0) st in
  let st := PointData_AddArray (H := VTK) 0 st in
  let st := PointData_AddArray (H := VTK) 1 st in
  let st := CellData_AddArray (H := VTK) 2 st in
  let ds := Self st in
  let pd := PointData ds in
  set_Self st (set_PointData ds (mkAttributes (Arrays pd) (MTime pd) (Some 0%nat) 1)).

(** The line after a query of its scalar range, and then after
    [GenerateGhostArray] with the canonical extent [0,1] x [0,0] x [0,0],
    which flags the third point. *)
Definition line_queried : State := snd (GetScalarRange (H := VTK) line_with_ghosts).

Definition line_marked : State :=
  match GenerateGhostArray (H := VTK) (mkExtent 0 1 0 0 0 0) false line_queried with
  | Some (st, _) => st
  | None => line_queried
  end.

(** Two points and one cell; a point array with three tuples (one too many)
    and a cell array with no tuple (one too few). *)
Definition mismatched : State :=
  let store :=
    [mkArray (Some "ids"%string) (UnsignedCharValues [1; 2; 3]);
     mkArray (Some "flags"%string) (UnsignedCharValues [])] in
  let st := New (H := VTK) store 0 in
  let st := SetGeometry [(of_Z 0, of_Z 0, of_Z 0); (of_Z 1, of_Z 0, of_Z 0)] 1 0
              (mkExtent 0 (-1) 0 (-1) 0 (-1)) st in
  let st := PointData_AddArray (H := VTK) 0 st in
  CellData_AddArray (H := VTK) 1 st.

(** The same with the point array only. *)
Definition oversized : State :=
  let store := [mkArray (Some "ids"%string) (UnsignedCharValues [1; 2; 3])] in
  let st := New (H := VTK) store 0 in
  let st := SetGeometry [(of_Z 0, of_Z 0, of_Z 0); (of_Z 1, of_Z 0, of_Z 0)] 1 0
              (mkExtent 0 (-1) 0 (-1) 0 (-1)) st in
  PointData_AddArray (H := VTK) 0 st.

(** Two ghost arrays in the store. The first is put in the point data and
    looked up, which caches its address; it is then removed. *)
Definition ghost_store : Store :=
  [mkArray (Some "vtkGhostType"%string) (UnsignedCharValues [0; 1]);
   mkArray (Some "vtkGhostType"%string) (UnsignedCharValues [1; 1])].

Definition ghost_history : list Op :=
  [OpPointDataAddArray 0; OpGetPointGhostArray; OpPointDataRemoveArray "vtkGhostType"].

Definition run_history (ops : list Op) (st : State) : option State :=
  fold_left (fun acc op => match acc with Some s => step (H := VTK) op s | None => None end)
            ops (Some st).

Definition ghost_removed : State :=
  match run_history ghost_history (New (H := VTK) ghost_store 0) with
  | Some st => st
  | None => New (H := VTK) ghost_store 0
  end.

(** ** More datasets *)

(** A canonical extent that the grid lies entirely below on the x axis, and
    one inside the grid. *)
Definition far_extent : Extent := mkExtent 10 12 0 4 0 0.
Definition center_extent : Extent := mkExtent 2 2 2 2 0 0.

(** The marked grid after a first query of its bounds. *)
Definition marked_grid_queried : State :=
  snd (GetBounds (H := VTK) (SMP.sequential 0 25) marked_grid).

(** Two points that differ in the sign of a zero: (+0, 1, 2) and (-0, 1, 2);
    and a schedule that visits the second one first. *)
Definition two_zeros : State :=
  SetGeometry [(S754_zero false, of_Z 1, of_Z 2); (S754_zero true, of_Z 1, of_Z 2)]
    0 0 (mkExtent 0 (-1) 0 (-1) 0 (-1)) (New (H := VTK) [] 0).

Definition backwards : SMP.Schedule :=
  SMP.mkSchedule [SMP.mkChunk 0 1 2; SMP.mkChunk 0 0 1] [0%nat].

(** Five cells of types 10, 12, 10, 5, 12 (tetrahedron, hexahedron,
    triangle by their VTK numbers), and a [vtkCellTypes] that keeps its
    types in a list. *)
Definition five_cells : vtkDataSet :=
  Self (SetGeometry [] 5 0 (mkExtent 0 (-1) 0 (-1) 0 (-1)) (New (H := VTK) [] 0)).

Definition five_cell_types (cellId : nat) : Z := nth cellId [10; 12; 10; 5; 12] 0.

Definition types_in_a_list : vtkCellTypes (list Z) :=
  {| Reset := fun _ => [];
     IsType := fun types type => existsb (Z.eqb type) types;
     InsertNextType := fun types type => types ++ [type] |}.

(** Three points and the cells that use them, and a [vtkIdList] that keeps
    the ids it does not remove in their order. *)
Definition cells_of_point (ptId : nat) : list nat :=
  match ptId with
  | 0 => [0; 1; 2]
  | 1 => [1; 2; 3]
  | _ => [2; 1; 4]
  end%nat.

Definition ids_in_order : vtkIdList :=
  {| DeleteId := fun ids id => List.filter (fun c => negb (Nat.eqb c id)) ids;
     IntersectWith := fun ids other => List.filter (fun c => existsb (Nat.eqb c) other) ids |}.

(** The three points after a first query of their bounds. *)
Definition three_points_queried : State :=
  snd (GetBounds (H := VTK) (SMP.sequential 0 3) three_points).

(** ** Tactics for concrete states *)

(** [a ∈ l] for a list that computes to a literal: one case per element. *)
Ltac each_member H :=
  vm_compute in H;
  repeat (apply elem_of_cons in H as [->|H]); [..|inversion H].

(** The three parts of [StoreOK] for a state that computes to a literal with
    at most four objects. *)
Ltac concrete_store_ok :=
  split; [|split];
  [ intros a Ha; each_member Ha; vm_compute; lia
  | intros a Ha; each_member Ha; vm_compute; lia
  | intros a name v Ha;
    destruct a as [|[|[|[|a]]]]; vm_compute in Ha; try discriminate;
    injection Ha as _ <-; repeat constructor; unfold is_uchar; lia ].

(* ===================================================================== *)
(** * Part II: properties                                                  *)
(* ===================================================================== *)

(** ** The order on doubles *)

Lemma SFcompare_key (x y : double) :
  is_nan x = false -> is_nan y = false ->
  SFcompare x y = Some (lex (key x) (key y)).
Proof.
  destruct x as [[|]|[|]| |[|] mx ex], y as [[|]|[|]| |[|] my ey];
    simpl; intros; try discriminate; try reflexivity.
  rewrite Z.compare_opp, (Z.compare_antisym ey ex).
  destruct (ey ?= ex); reflexivity.
Qed.

Lemma lex_le_iff (a b : Z * Z * Z) :
  lex a b <> Gt <->
  (a.1.1 < b.1.1 \/ (a.1.1 = b.1.1 /\ (a.1.2 < b.1.2 \/ (a.1.2 = b.1.2 /\ a.2 <= b.2)))).
Proof.
  destruct a as [[a1 a2] a3], b as [[b1 b2] b3]; simpl.
  destruct (Z.compare_spec a1 b1), (Z.compare_spec a2 b2), (Z.compare_spec a3 b3);
    split; intros; try lia; try congruence.
Qed.

Lemma lex_lt_iff (a b : Z * Z * Z) :
  lex a b = Lt <->
  (a.1.1 < b.1.1 \/ (a.1.1 = b.1.1 /\ (a.1.2 < b.1.2 \/ (a.1.2 = b.1.2 /\ a.2 < b.2)))).
Proof.
  destruct a as [[a1 a2] a3], b as [[b1 b2] b3]; simpl.
  destruct (Z.compare_spec a1 b1), (Z.compare_spec a2 b2), (Z.compare_spec a3 b3);
    split; intros; try lia; try congruence.
Qed.

Lemma leb_not_nan (x y : double) :
  leb x y = true -> is_nan x = false /\ is_nan y = false.
Proof.
  unfold leb, SFleb. destruct x as [| | |], y as [| | |]; simpl; auto; discriminate.
Qed.

Lemma ltb_not_nan (x y : double) :
  ltb x y = true -> is_nan x = false /\ is_nan y = false.
Proof.
  unfold ltb, SFltb. destruct x as [| | |], y as [| | |]; simpl; auto; discriminate.
Qed.

Lemma leb_key (x y : double) :
  is_nan x = false -> is_nan y = false ->
  (leb x y = true <-> lex (key x) (key y) <> Gt).
Proof.
  intros Hx Hy. unfold leb, SFleb. rewrite (SFcompare_key x y Hx Hy).
  destruct (lex (key x) (key y)); split; intros; congruence.
Qed.

Lemma ltb_key (x y : double) :
  is_nan x = false -> is_nan y = false ->
  (ltb x y = true <-> lex (key x) (key y) = Lt).
Proof.
  intros Hx Hy. unfold ltb, SFltb. rewrite (SFcompare_key x y Hx Hy).
  destruct (lex (key x) (key y)); split; intros; congruence.
Qed.

Lemma leb_refl (x : double) : is_nan x = false -> leb x x = true.
Proof. intros Hx. apply leb_key; auto. apply lex_le_iff. lia. Qed.

Lemma leb_trans (x y z : double) :
  leb x y = true -> leb y z = true -> leb x z = true.
Proof.
  intros Hxy Hyz.
  destruct (leb_not_nan _ _ Hxy) as [Hx Hy], (leb_not_nan _ _ Hyz) as [_ Hz].
  apply leb_key in Hxy; auto. apply leb_key in Hyz; auto.
  apply leb_key; auto.
  apply lex_le_iff in Hxy. apply lex_le_iff in Hyz. apply lex_le_iff. lia.
Qed.

Lemma ltb_leb (x y : double) : ltb x y = true -> leb x y = true.
Proof.
  unfold ltb, leb, SFltb, SFleb. destruct (SFcompare x y) as [[| |]|]; congruence.
Qed.

(** On numbers the order is total: [x < y] fails only when [y <= x]. *)
Lemma ltb_false_leb (x y : double) :
  is_nan x = false -> is_nan y = false -> ltb x y = false -> leb y x = true.
Proof.
  intros Hx Hy Hlt. apply leb_key; auto. apply lex_le_iff.
  assert (Hn : lex (key x) (key y) <> Lt).
  { intros E. apply ltb_key in E; auto. congruence. }
  rewrite lex_lt_iff in Hn. lia.
Qed.

Lemma leb_antisym_eqb (x y : double) :
  leb x y = true -> leb y x = true -> eqb x y = true.
Proof.
  intros Hxy Hyx. destruct (leb_not_nan _ _ Hxy) as [Hx Hy].
  apply leb_key in Hxy; auto. apply leb_key in Hyx; auto.
  apply lex_le_iff in Hxy. apply lex_le_iff in Hyx.
  unfold eqb, SFeqb. rewrite (SFcompare_key x y Hx Hy).
  destruct (key x) as [[a1 a2] a3], (key y) as [[b1 b2] b3]; simpl in *.
  assert (a1 = b1 /\ a2 = b2 /\ a3 = b3) as (-> & -> & ->) by lia.
  rewrite !Z.compare_refl. reflexivity.
Qed.

Lemma eqb_leb (x y : double) : eqb x y = true -> leb x y = true.
Proof.
  unfold eqb, leb, SFeqb, SFleb. destruct (SFcompare x y) as [[| |]|]; congruence.
Qed.


(** The lesser and the greater of two doubles, as the source selects them. *)
Lemma select_min_spec (a b : double) :
  is_nan a = false -> is_nan b = false ->
  is_min_of (if ltb a b then a else b) a b.
Proof.
  intros Ha Hb. unfold is_min_of. destruct (ltb a b) eqn:E.
  - split; [auto|]. split; [apply leb_refl; auto | apply ltb_leb; auto].
  - split; [auto|]. split; [apply ltb_false_leb; auto | apply leb_refl; auto].
Qed.

Lemma select_max_spec (a b : double) :
  is_nan a = false -> is_nan b = false ->
  is_max_of (if gtb a b then a else b) a b.
Proof.
  intros Ha Hb. unfold is_max_of, gtb. destruct (SFltb b a) eqn:E.
  - split; [auto|]. split; [apply leb_refl; auto | apply ltb_leb; auto].
  - split; [auto|]. split; [apply ltb_false_leb; auto | apply leb_refl; auto].
Qed.

(** ** vtkSMPTools::For *)

Section SMPFacts.

Context {TL R : Type} (F : SMP.Functor TL R).

Lemma run_chunks_snoc (cs : list SMP.Chunk) (c : SMP.Chunk) :
  SMP.run_chunks F (cs ++ [c]) = SMP.run_chunk F (SMP.run_chunks F cs) c.
Proof. unfold SMP.run_chunks. rewrite fold_left_app. reflexivity. Qed.

(** An invariant on the thread-local values and the indices visited so far
    that holds before the first chunk and that every chunk preserves holds
    when the chunks are done. *)
Lemma run_chunks_invariant (P : gmap nat TL -> list nat -> Prop) :
  P ∅ [] ->
  (forall tls visited c,
      P tls visited -> P (SMP.run_chunk F tls c) (visited ++ SMP.chunk_indices c)) ->
  forall cs, P (SMP.run_chunks F cs) (flat_map SMP.chunk_indices cs).
Proof.
  intros H0 Hstep cs. induction cs as [|c cs IH] using rev_ind.
  - exact H0.
  - rewrite run_chunks_snoc, flat_map_app. simpl. rewrite app_nil_r.
    apply Hstep, IH.
Qed.

(** The workers that hold a thread-local value are those that ran a chunk. *)
Lemma run_chunks_workers (cs : list SMP.Chunk) (w : nat) :
  is_Some (SMP.run_chunks F cs !! w) <-> w ∈ map SMP.worker cs.
Proof.
  induction cs as [|c cs IH] using rev_ind.
  - unfold SMP.run_chunks. simpl. rewrite lookup_empty. split.
    + intros [x Hx]. discriminate.
    + intros Hin. inversion Hin.
  - rewrite run_chunks_snoc, map_app. simpl. unfold SMP.run_chunk.
    rewrite elem_of_app, list_elem_of_singleton.
    destruct (decide (SMP.worker c = w)) as [->|Hne].
    + rewrite lookup_insert_eq. split; eauto.
    + rewrite lookup_insert_ne by exact Hne. rewrite IH. split; [tauto|].
      intros [Hin|Heq]; [exact Hin|congruence].
Qed.

(** The reduction iterates over exactly the thread-local values. *)
Lemma thread_locals_elem (sch : SMP.Schedule) (first last : nat) (t : TL) :
  SMP.ValidSchedule first last sch ->
  (t ∈ SMP.thread_locals (SMP.run_chunks F (SMP.chunks sch)) (SMP.reduce_order sch)
   <-> exists w, SMP.run_chunks F (SMP.chunks sch) !! w = Some t).
Proof.
  intros (_ & _ & Hord). unfold SMP.thread_locals.
  rewrite list_elem_of_omap. split.
  - intros (w & _ & Hw). eauto.
  - intros (w & Hw). exists w. split; [|exact Hw].
    apply Hord. apply run_chunks_workers. eauto.
Qed.

Lemma valid_schedule_visits (sch : SMP.Schedule) (first last : nat) (i : nat) :
  SMP.ValidSchedule first last sch ->
  (i ∈ flat_map SMP.chunk_indices (SMP.chunks sch) <-> (first <= i < last)%nat).
Proof.
  intros (Hperm & _). rewrite Hperm, list_elem_of_In, in_seq. lia.
Qed.

End SMPFacts.

Lemma sequential_valid (first last : nat) :
  SMP.ValidSchedule first last (SMP.sequential first last).
Proof.
  unfold SMP.ValidSchedule, SMP.sequential, SMP.chunk_indices. simpl.
  rewrite app_nil_r. split; [reflexivity|]. split.
  - apply NoDup_singleton.
  - intros w. reflexivity.
Qed.

(** ** The bounding box *)

Lemma lower_spec (v m : double) :
  is_nan v = false -> is_nan m = false -> is_min_of (lower v m) v m.
Proof. apply select_min_spec. Qed.

Lemma upper_spec (v m : double) :
  is_nan v = false -> is_nan m = false -> is_max_of (upper v m) v m.
Proof. apply select_max_spec. Qed.

Lemma is_min_of_not_nan (m a b : double) :
  is_min_of m a b -> is_nan m = false.
Proof. intros (_ & Hle & _). apply (leb_not_nan _ _ Hle). Qed.

Lemma is_max_of_not_nan (m a b : double) :
  is_max_of m a b -> is_nan m = false.
Proof. intros (_ & Hle & _). apply (leb_not_nan _ _ Hle). Qed.

(** A NaN fails both comparisons: it is never selected. *)
Lemma lower_nan (v m : double) : is_nan v = true -> lower v m = m.
Proof.
  intros Hv. unfold lower. destruct (ltb v m) eqn:E; [|reflexivity].
  apply ltb_not_nan in E as [E _]. congruence.
Qed.

Lemma upper_nan (v m : double) : is_nan v = true -> upper v m = m.
Proof.
  intros Hv. unfold upper, gtb. destruct (SFltb m v) eqn:E; [|reflexivity].
  apply (ltb_not_nan m v) in E as [_ E]. congruence.
Qed.

(** A running minimum over a list of doubles, from a start that is a number:
    it is a number below its start and below every element that is a number,
    and it is the start or one of the elements. *)
Lemma fold_lower_spec (vs : list double) : forall (m0 : double),
  is_nan m0 = false ->
  let r := fold_left (fun m v => lower v m) vs m0 in
  is_nan r = false /\ leb r m0 = true /\
  (forall v, v ∈ vs -> is_nan v = false -> leb r v = true) /\ (r = m0 \/ r ∈ vs).
Proof.
  induction vs as [|v vs IH]; intros m0 Hm0; simpl.
  - split; [exact Hm0|]. split; [apply leb_refl; exact Hm0|].
    split; [intros v Hv; inversion Hv | left; reflexivity].
  - destruct (is_nan v) eqn:Hv.
    + rewrite (lower_nan v m0 Hv).
      destruct (IH m0 Hm0) as (Hr & Hle & Hall & Hin).
      split; [exact Hr|]. split; [exact Hle|]. split.
      * intros x Hx Hnx. apply elem_of_cons in Hx as [->|Hx]; [congruence|].
        apply Hall; assumption.
      * destruct Hin as [Heq|Hin]; [left; exact Heq | right; right; exact Hin].
    + pose proof (lower_spec v m0 Hv Hm0) as Hmin.
      pose proof (is_min_of_not_nan _ _ _ Hmin) as Hn.
      destruct Hmin as (Hsel & Hlv & Hlm).
      destruct (IH (lower v m0) Hn) as (Hr & Hle & Hall & Hin).
      split; [exact Hr|]. split; [eapply leb_trans; eauto|]. split.
      * intros x Hx Hnx. apply elem_of_cons in Hx as [->|Hx].
        -- eapply leb_trans; eauto.
        -- apply Hall; assumption.
      * destruct Hin as [Heq|Hin].
        -- rewrite Heq. destruct Hsel as [->| ->]; [right; left | left; reflexivity].
        -- right. right. exact Hin.
Qed.

Lemma fold_upper_spec (vs : list double) : forall (m0 : double),
  is_nan m0 = false ->
  let r := fold_left (fun m v => upper v m) vs m0 in
  is_nan r = false /\ leb m0 r = true /\
  (forall v, v ∈ vs -> is_nan v = false -> leb v r = true) /\ (r = m0 \/ r ∈ vs).
Proof.
  induction vs as [|v vs IH]; intros m0 Hm0; simpl.
  - split; [exact Hm0|]. split; [apply leb_refl; exact Hm0|].
    split; [intros v Hv; inversion Hv | left; reflexivity].
  - destruct (is_nan v) eqn:Hv.
    + rewrite (upper_nan v m0 Hv).
      destruct (IH m0 Hm0) as (Hr & Hle & Hall & Hin).
      split; [exact Hr|]. split; [exact Hle|]. split.
      * intros x Hx Hnx. apply elem_of_cons in Hx as [->|Hx]; [congruence|].
        apply Hall; assumption.
      * destruct Hin as [Heq|Hin]; [left; exact Heq | right; right; exact Hin].
    + pose proof (upper_spec v m0 Hv Hm0) as Hmax.
      pose proof (is_max_of_not_nan _ _ _ Hmax) as Hn.
      destruct Hmax as (Hsel & Hlv & Hlm).
      destruct (IH (upper v m0) Hn) as (Hr & Hle & Hall & Hin).
      split; [exact Hr|]. split; [eapply leb_trans; eauto|]. split.
      * intros x Hx Hnx. apply elem_of_cons in Hx as [->|Hx].
        -- eapply leb_trans; eauto.
        -- apply Hall; assumption.
      * destruct Hin as [Heq|Hin].
        -- rewrite Heq. destruct Hsel as [->| ->]; [right; left | left; reflexivity].
        -- right. right. exact Hin.
Qed.

Lemma fold_left_through_map {A B C : Type} (g : A -> C -> A) (f : B -> C)
    (l : list B) : forall (a : A),
  fold_left (fun a b => g a (f b)) l a = fold_left g (map f l) a.
Proof. induction l as [|b l IH]; intros a; simpl; [reflexivity | apply IH]. Qed.

Section BoundsFacts.

Context `{Externals}.

(** One round of the loop over [j] in [operator()], entry by entry. *)
Lemma include_axis_0 (x : double3) (b : double6) :
  include_axis x b 0 =
  mk6 (lower (coord x 0) (d0 b)) (upper (coord x 0) (d1 b)) (d2 b) (d3 b) (d4 b) (d5 b).
Proof.
  destruct b as [b0 b1 b2 b3 b4 b5]. unfold include_axis, lower, upper. cbn.
  destruct (ltb x.1.1 b0); cbn; destruct (gtb x.1.1 b1); reflexivity.
Qed.

Lemma include_axis_1 (x : double3) (b : double6) :
  include_axis x b 1 =
  mk6 (d0 b) (d1 b) (lower (coord x 1) (d2 b)) (upper (coord x 1) (d3 b)) (d4 b) (d5 b).
Proof.
  destruct b as [b0 b1 b2 b3 b4 b5]. unfold include_axis, lower, upper. cbn.
  destruct (ltb x.1.2 b2); cbn; destruct (gtb x.1.2 b3); reflexivity.
Qed.

Lemma include_axis_2 (x : double3) (b : double6) :
  include_axis x b 2 =
  mk6 (d0 b) (d1 b) (d2 b) (d3 b) (lower (coord x 2) (d4 b)) (upper (coord x 2) (d5 b)).
Proof.
  destruct b as [b0 b1 b2 b3 b4 b5]. unfold include_axis, lower, upper. cbn.
  destruct (ltb x.2 b4); cbn; destruct (gtb x.2 b5); reflexivity.
Qed.

Lemma include_point_fields (x : double3) (b : double6) :
  include_point x b =
  mk6 (lower (coord x 0) (d0 b)) (upper (coord x 0) (d1 b))
      (lower (coord x 1) (d2 b)) (upper (coord x 1) (d3 b))
      (lower (coord x 2) (d4 b)) (upper (coord x 2) (d5 b)).
Proof.
  unfold include_point. cbn [fold_left].
  rewrite include_axis_0, include_axis_1, include_axis_2. reflexivity.
Qed.

(** One round of the loop over [j] in [Reduce], entry by entry. *)
Lemma merge_axis_0 (b B : double6) :
  merge_axis b B 0 =
  mk6 (lower (d0 b) (d0 B)) (upper (d1 b) (d1 B)) (d2 B) (d3 B) (d4 B) (d5 B).
Proof.
  destruct B as [B0 B1 B2 B3 B4 B5], b as [b0 b1 b2 b3 b4 b5].
  unfold merge_axis, lower, upper. cbn.
  destruct (ltb b0 B0); cbn; destruct (gtb b1 B1); reflexivity.
Qed.

Lemma merge_axis_1 (b B : double6) :
  merge_axis b B 1 =
  mk6 (d0 B) (d1 B) (lower (d2 b) (d2 B)) (upper (d3 b) (d3 B)) (d4 B) (d5 B).
Proof.
  destruct B as [B0 B1 B2 B3 B4 B5], b as [b0 b1 b2 b3 b4 b5].
  unfold merge_axis, lower, upper. cbn.
  destruct (ltb b2 B2); cbn; destruct (gtb b3 B3); reflexivity.
Qed.

Lemma merge_axis_2 (b B : double6) :
  merge_axis b B 2 =
  mk6 (d0 B) (d1 B) (d2 B) (d3 B) (lower (d4 b) (d4 B)) (upper (d5 b) (d5 B)).
Proof.
  destruct B as [B0 B1 B2 B3 B4 B5], b as [b0 b1 b2 b3 b4 b5].
  unfold merge_axis, lower, upper. cbn.
  destruct (ltb b4 B4); cbn; destruct (gtb b5 B5); reflexivity.
Qed.

Lemma merge_bounds_fields (B b : double6) :
  merge_bounds B b =
  mk6 (lower (d0 b) (d0 B)) (upper (d1 b) (d1 B))
      (lower (d2 b) (d2 B)) (upper (d3 b) (d3 B))
      (lower (d4 b) (d4 B)) (upper (d5 b) (d5 B)).
Proof.
  unfold merge_bounds. cbn [fold_left].
  rewrite merge_axis_0, merge_axis_1, merge_axis_2. reflexivity.
Qed.

Lemma Call_axis_min (ds : vtkDataSet) (j : nat) (idxs : list nat) :
  (j < 3)%nat -> forall b : double6,
  axis_min (fold_left (fun b pointId => include_point (GetPoint ds pointId) b) idxs b) j
  = fold_left (fun m i => lower (coord (GetPoint ds i) j) m) idxs (axis_min b j).
Proof.
  intros Hj. induction idxs as [|i idxs IH]; intros b; simpl; [reflexivity|].
  rewrite IH. f_equal. rewrite include_point_fields.
  destruct j as [|[|[|j]]]; try lia; reflexivity.
Qed.

Lemma Call_axis_max (ds : vtkDataSet) (j : nat) (idxs : list nat) :
  (j < 3)%nat -> forall b : double6,
  axis_max (fold_left (fun b pointId => include_point (GetPoint ds pointId) b) idxs b) j
  = fold_left (fun m i => upper (coord (GetPoint ds i) j) m) idxs (axis_max b j).
Proof.
  intros Hj. induction idxs as [|i idxs IH]; intros b; simpl; [reflexivity|].
  rewrite IH. f_equal. rewrite include_point_fields.
  destruct j as [|[|[|j]]]; try lia; reflexivity.
Qed.

Lemma Reduce_axis_min (j : nat) (tls : list double6) :
  (j < 3)%nat -> forall B : double6,
  axis_min (fold_left merge_bounds tls B) j
  = fold_left (fun m t => lower (axis_min t j) m) tls (axis_min B j).
Proof.
  intros Hj. induction tls as [|t tls IH]; intros B; simpl; [reflexivity|].
  rewrite IH. f_equal. rewrite merge_bounds_fields.
  destruct j as [|[|[|j]]]; try lia; reflexivity.
Qed.

Lemma Reduce_axis_max (j : nat) (tls : list double6) :
  (j < 3)%nat -> forall B : double6,
  axis_max (fold_left merge_bounds tls B) j
  = fold_left (fun m t => upper (axis_max t j) m) tls (axis_max B j).
Proof.
  intros Hj. induction tls as [|t tls IH]; intros B; simpl; [reflexivity|].
  rewrite IH. f_equal. rewrite merge_bounds_fields.
  destruct j as [|[|[|j]]]; try lia; reflexivity.
Qed.

Lemma Initialize_axis (j : nat) :
  (j < 3)%nat ->
  axis_min ComputeBoundsFunctor_Initialize j = VTK_DOUBLE_MAX /\
  axis_max ComputeBoundsFunctor_Initialize j = VTK_DOUBLE_MIN.
Proof. intros Hj. destruct j as [|[|[|j]]]; try lia; split; reflexivity. Qed.

End BoundsFacts.

Section BoundsReduction.

Context `{Externals}.
Variable ds : vtkDataSet.
Variable j : nat.
Hypothesis Hj : (j < 3)%nat.
Hypothesis Hmax : is_nan VTK_DOUBLE_MAX = false.
Hypothesis Hmin : is_nan VTK_DOUBLE_MIN = false.

Let f (i : nat) : double := coord (GetPoint ds i) j.

Lemma boxes_invariant_step (tls : gmap nat double6) (visited : list nat) (c : SMP.Chunk) :
  boxes_invariant ds j tls visited ->
  boxes_invariant ds j (SMP.run_chunk (ComputeBoundsFunctor ds) tls c)
                  (visited ++ SMP.chunk_indices c).
Proof.
  intros [Hbox Hcov]. unfold SMP.run_chunk. cbn [SMP.Initialize SMP.Call ComputeBoundsFunctor].
  set (w := SMP.worker c). set (idxs := SMP.chunk_indices c).
  set (t0 := default ComputeBoundsFunctor_Initialize (tls !! w)).
  assert (Ht0 : is_nan (axis_min t0 j) = false /\ is_nan (axis_max t0 j) = false /\
     (axis_min t0 j = VTK_DOUBLE_MAX \/ exists i, i ∈ visited /\ axis_min t0 j = f i) /\
     (axis_max t0 j = VTK_DOUBLE_MIN \/ exists i, i ∈ visited /\ axis_max t0 j = f i)).
  { subst t0. destruct (tls !! w) as [t|] eqn:E; simpl.
    - apply (Hbox w t E).
    - destruct (Initialize_axis j Hj) as [-> ->]. auto. }
  destruct Ht0 as (Hn0 & Hx0 & Hp0 & Hq0).
  set (t' := ComputeBoundsFunctor_Call ds (SMP.chunk_begin c) (SMP.chunk_end c) t0).
  assert (Emin : axis_min t' j = fold_left (fun m v => lower v m) (map f idxs) (axis_min t0 j)).
  { subst t'. unfold ComputeBoundsFunctor_Call. rewrite (Call_axis_min ds j _ Hj).
    apply (fold_left_through_map (fun m v => lower v m) f). }
  assert (Emax : axis_max t' j = fold_left (fun m v => upper v m) (map f idxs) (axis_max t0 j)).
  { subst t'. unfold ComputeBoundsFunctor_Call. rewrite (Call_axis_max ds j _ Hj).
    apply (fold_left_through_map (fun m v => upper v m) f). }
  destruct (fold_lower_spec (map f idxs) (axis_min t0 j) Hn0) as (Lnan & Lle & Lall & Lin).
  destruct (fold_upper_spec (map f idxs) (axis_max t0 j) Hx0) as (Unan & Ule & Uall & Uin).
  rewrite <- Emin in Lnan, Lle, Lall, Lin. rewrite <- Emax in Unan, Ule, Uall, Uin.
  split.
  - intros w' t Hw'. destruct (decide (w = w')) as [<-|Hne].
    + rewrite lookup_insert_eq in Hw'. injection Hw' as <-.
      split; [exact Lnan|]. split; [exact Unan|]. split.
      * destruct Lin as [Heq|Hin].
        { rewrite Heq. destruct Hp0 as [Hp0|(i & Hi & Hp0)]; [left; exact Hp0|].
          right. exists i. split; [apply elem_of_app; left; exact Hi | exact Hp0]. }
        { right. apply list_elem_of_In, in_map_iff in Hin as (i & Hfi & Hi).
          exists i. split; [apply elem_of_app; right; apply list_elem_of_In, Hi | symmetry; exact Hfi]. }
      * destruct Uin as [Heq|Hin].
        { rewrite Heq. destruct Hq0 as [Hq0|(i & Hi & Hq0)]; [left; exact Hq0|].
          right. exists i. split; [apply elem_of_app; left; exact Hi | exact Hq0]. }
        { right. apply list_elem_of_In, in_map_iff in Hin as (i & Hfi & Hi).
          exists i. split; [apply elem_of_app; right; apply list_elem_of_In, Hi | symmetry; exact Hfi]. }
    + rewrite lookup_insert_ne in Hw' by exact Hne.
      destruct (Hbox w' t Hw') as (A & B & C & D).
      split; [exact A|]. split; [exact B|]. split.
      * destruct C as [C|(i & Hi & C)]; [left; exact C|].
        right. exists i. split; [apply elem_of_app; left; exact Hi | exact C].
      * destruct D as [D|(i & Hi & D)]; [left; exact D|].
        right. exists i. split; [apply elem_of_app; left; exact Hi | exact D].
  - intros i Hi Hni. apply elem_of_app in Hi as [Hi|Hi].
    + destruct (Hcov i Hi Hni) as (w0 & t & Hw0 & Hlo & Hhi).
      destruct (decide (w = w0)) as [<-|Hne].
      * exists w, t'. rewrite lookup_insert_eq. split; [reflexivity|].
        assert (t0 = t) as -> by (subst t0; rewrite Hw0; reflexivity).
        split; eapply leb_trans; eauto.
      * exists w0, t. rewrite lookup_insert_ne by exact Hne. auto.
    + exists w, t'. rewrite lookup_insert_eq. split; [reflexivity|].
      assert (Hfi : f i ∈ map f idxs) by (apply list_elem_of_In, in_map, list_elem_of_In, Hi).
      split; [apply Lall | apply Uall]; assumption.
Qed.

Lemma boxes_invariant_chunks (cs : list SMP.Chunk) :
  boxes_invariant ds j (SMP.run_chunks (ComputeBoundsFunctor ds) cs)
                  (flat_map SMP.chunk_indices cs).
Proof.
  apply (run_chunks_invariant (ComputeBoundsFunctor ds) (boxes_invariant ds j)).
  - split.
    + intros w t Hw. rewrite lookup_empty in Hw. discriminate.
    + intros i Hi. inversion Hi.
  - apply boxes_invariant_step.
Qed.

(** The box [vtkSMPTools::For] leaves in the functor, on axis [j]: its two
    entries are numbers, each the start value or a coordinate of a point; the
    lower one is below VTK_DOUBLE_MAX and the upper one above VTK_DOUBLE_MIN;
    and the box holds every point whose coordinate is a number. *)
Lemma For_bounds_axis (sch : SMP.Schedule) (n : nat) :
  SMP.ValidSchedule 0 n sch ->
  let B := SMP.For 0 n sch (ComputeBoundsFunctor ds) in
  (forall i, (i < n)%nat -> is_nan (f i) = false ->
     leb (axis_min B j) (f i) = true /\ leb (f i) (axis_max B j) = true) /\
  (is_nan (axis_min B j) = false /\ is_nan (axis_max B j) = false) /\
  (leb (axis_min B j) VTK_DOUBLE_MAX = true /\ leb VTK_DOUBLE_MIN (axis_max B j) = true) /\
  (axis_min B j = VTK_DOUBLE_MAX \/ exists i, (i < n)%nat /\ axis_min B j = f i) /\
  (axis_max B j = VTK_DOUBLE_MIN \/ exists i, (i < n)%nat /\ axis_max B j = f i).
Proof.
  intros Hvalid B.
  destruct (boxes_invariant_chunks (SMP.chunks sch)) as [Hbox Hcov].
  set (tls := SMP.run_chunks (ComputeBoundsFunctor ds) (SMP.chunks sch)) in *.
  set (TLs := SMP.thread_locals tls (SMP.reduce_order sch)).
  assert (Hmem : forall t, t ∈ TLs <-> exists w, tls !! w = Some t).
  { intros t. apply (thread_locals_elem (ComputeBoundsFunctor ds) sch 0 n t Hvalid). }
  assert (Hvis : forall i, i ∈ flat_map SMP.chunk_indices (SMP.chunks sch) <-> (i < n)%nat).
  { intros i. rewrite (valid_schedule_visits sch 0 n i Hvalid). lia. }
  assert (Emin : axis_min B j =
            fold_left (fun m v => lower v m) (map (fun t => axis_min t j) TLs) VTK_DOUBLE_MAX).
  { subst B. unfold SMP.For. cbn [SMP.Reduce ComputeBoundsFunctor].
    unfold ComputeBoundsFunctor_Reduce. rewrite (Reduce_axis_min j _ Hj).
    rewrite (proj1 (Initialize_axis j Hj)).
    apply (fold_left_through_map (fun m v => lower v m) (fun t => axis_min t j)). }
  assert (Emax : axis_max B j =
            fold_left (fun m v => upper v m) (map (fun t => axis_max t j) TLs) VTK_DOUBLE_MIN).
  { subst B. unfold SMP.For. cbn [SMP.Reduce ComputeBoundsFunctor].
    unfold ComputeBoundsFunctor_Reduce. rewrite (Reduce_axis_max j _ Hj).
    rewrite (proj2 (Initialize_axis j Hj)).
    apply (fold_left_through_map (fun m v => upper v m) (fun t => axis_max t j)). }
  assert (Nmin : forall t, t ∈ TLs -> is_nan (axis_min t j) = false).
  { intros t Ht. apply Hmem in Ht as (w & Hw). apply (Hbox w t Hw). }
  assert (Nmax : forall t, t ∈ TLs -> is_nan (axis_max t j) = false).
  { intros t Ht. apply Hmem in Ht as (w & Hw). apply (Hbox w t Hw). }
  destruct (fold_lower_spec (map (fun t => axis_min t j) TLs) VTK_DOUBLE_MAX Hmax)
    as (Lnan & Lle & Lall & Lin).
  destruct (fold_upper_spec (map (fun t => axis_max t j) TLs) VTK_DOUBLE_MIN Hmin)
    as (Unan & Ule & Uall & Uin).
  rewrite <- Emin in Lnan, Lle, Lall, Lin. rewrite <- Emax in Unan, Ule, Uall, Uin.
  split; [|split; [auto|split; [auto|split]]].
  - intros i Hi Hni. apply Hvis in Hi. destruct (Hcov i Hi Hni) as (w & t & Hw & Hlo & Hhi).
    assert (Ht : t ∈ TLs) by (apply Hmem; eauto).
    split.
    + eapply leb_trans; [|exact Hlo]. apply Lall; [|apply Nmin, Ht].
      apply list_elem_of_In, in_map_iff. exists t. split; [reflexivity | apply list_elem_of_In, Ht].
    + eapply leb_trans; [exact Hhi|]. apply Uall; [|apply Nmax, Ht].
      apply list_elem_of_In, in_map_iff. exists t. split; [reflexivity | apply list_elem_of_In, Ht].
  - destruct Lin as [Heq|Hin]; [left; exact Heq|].
    apply list_elem_of_In, in_map_iff in Hin as (t & Ht & Hin).
    apply list_elem_of_In, Hmem in Hin as (w & Hw).
    destruct (Hbox w t Hw) as (_ & _ & [C|(i & Hi & C)] & _).
    + left. simpl in Ht. congruence.
    + right. exists i. split; [apply Hvis, Hi | simpl in Ht; unfold f; congruence].
  - destruct Uin as [Heq|Hin]; [left; exact Heq|].
    apply list_elem_of_In, in_map_iff in Hin as (t & Ht & Hin).
    apply list_elem_of_In, Hmem in Hin as (w & Hw).
    destruct (Hbox w t Hw) as (_ & _ & _ & [C|(i & Hi & C)]).
    + left. simpl in Ht. congruence.
    + right. exists i. split; [apply Hvis, Hi | simpl in Ht; unfold f; congruence].
Qed.

End BoundsReduction.

Section BoundsClaims.

Context `{Externals}.


(** [ComputeBounds] leaves a coherent cache behind when the clock is sane. *)
Lemma ComputeBounds_coherent (sch : SMP.Schedule) (st : State) :
  SMP.ValidSchedule 0 (length (Points (Self st))) sch ->
  BoundsCacheCoherent st ->
  BoundsCacheCoherent (ComputeBounds sch st).
Proof.
  intros Hsch Hcoh. unfold ComputeBounds.
  destruct (ComputeTime (Self st) <? GetMTime (Self st))%N eqn:E; [|exact Hcoh].
  intros _. exists sch. simpl. split; [exact Hsch | reflexivity].
Qed.


(** What the functor computes from the points of [ds], axis by axis: the
    lower entry is the least of VTK_DOUBLE_MAX and the coordinates that are
    numbers, the upper entry the greatest of VTK_DOUBLE_MIN and these. *)
Lemma fresh_bounds_box (sch : SMP.Schedule) (ds : vtkDataSet) :
  SMP.ValidSchedule 0 (length (Points ds)) sch ->
  is_nan VTK_DOUBLE_MAX = false ->
  is_nan VTK_DOUBLE_MIN = false ->
  let b := fresh_bounds sch ds in
  (0 < GetNumberOfPoints ds ->
   forall j, (j < 3)%nat ->
     (is_nan (axis_min b j) = false /\ is_nan (axis_max b j) = false) /\
     (leb (axis_min b j) VTK_DOUBLE_MAX = true /\ leb VTK_DOUBLE_MIN (axis_max b j) = true) /\
     (forall p, p ∈ Points ds -> is_nan (coord p j) = false ->
        leb (axis_min b j) (coord p j) = true /\ leb (coord p j) (axis_max b j) = true) /\
     (axis_min b j = VTK_DOUBLE_MAX \/ exists p, p ∈ Points ds /\ coord p j = axis_min b j) /\
     (axis_max b j = VTK_DOUBLE_MIN \/ exists p, p ∈ Points ds /\ coord p j = axis_max b j)) /\
  (GetNumberOfPoints ds = 0 -> b = UninitializedBounds).
Proof.
  intros Hv Hmax Hmin b. subst b. unfold fresh_bounds, GetNumberOfPoints.
  split.
  - intros Hpos j Hj.
    assert (Hne : negb (Z.of_nat (length (Points ds)) =? 0) = true).
    { apply negb_true_iff, Z.eqb_neq. lia. }
    rewrite Hne.
    destruct (For_bounds_axis ds j Hj Hmax Hmin sch (length (Points ds)) Hv)
      as (Hall & Hnum & Hstart & Hlo & Hhi).
    set (B := SMP.For 0 (length (Points ds)) sch (ComputeBoundsFunctor ds)) in *.
    assert (Hpt : forall p, p ∈ Points ds ->
              exists i, (i < length (Points ds))%nat /\ GetPoint ds i = p).
    { intros p Hp. apply list_elem_of_lookup in Hp as (i & Hi). exists i. split.
      - eapply lookup_lt_Some; eauto.
      - unfold GetPoint. rewrite Hi. reflexivity. }
    assert (Hin : forall i, (i < length (Points ds))%nat -> GetPoint ds i ∈ Points ds).
    { intros i Hi. destruct (lookup_lt_is_Some_2 (Points ds) i Hi) as (p & Hp).
      unfold GetPoint. rewrite Hp. simpl. apply list_elem_of_lookup. eauto. }
    split; [exact Hnum|]. split; [exact Hstart|]. split; [|split].
    + intros p Hp Hnp. destruct (Hpt p Hp) as (i & Hi & <-). apply Hall; assumption.
    + destruct Hlo as [Heq|(i & Hi & Heq)]; [left; exact Heq|].
      right. exists (GetPoint ds i). split; [apply Hin, Hi | symmetry; exact Heq].
    + destruct Hhi as [Heq|(i & Hi & Heq)]; [left; exact Heq|].
      right. exists (GetPoint ds i). split; [apply Hin, Hi | symmetry; exact Heq].
  - intros Hz. rewrite Hz. reflexivity.
Qed.


(** A square is never the negative zero, so adding it to [0.0] returns it. *)
Lemma square_not_negative_zero (d : double) : mul d d <> S754_zero true.
Proof.
  unfold mul, SFmul. destruct d as [[|]|[|]| |[|] m e]; try discriminate;
    simpl; unfold binary_round_aux;
    destruct (shr_fexp _ _ _ _ _) as [mrs' e'];
    destruct (shr_fexp _ _ _ _ _) as [mrs'' e''];
    destruct (shr_m mrs''); try discriminate;
    destruct (Z.leb _ _); discriminate.
Qed.

Lemma add_zero_square (d : double) : add zero (mul d d) = mul d d.
Proof.
  pose proof (square_not_negative_zero d) as Hn.
  unfold add, zero, SFadd. destruct (mul d d) as [[|]|[|]| |[|] m e]; try reflexivity.
  congruence.
Qed.

(** C8. [GetLength2] returns the sum over the three axes of the squared
    extent (max - min)^2 of the box [GetBounds] returns when the point count
    is positive, and leaves the state [GetBounds] leaves; when the point count
    is 0 it returns exactly 0 and does not touch the bounds cache; and
    [GetLength] returns the square root of what [GetLength2] returns. *)
Theorem GetLength2_sum_of_squares (sch : SMP.Schedule) (st : State) :
  (0 < GetNumberOfPoints (Self st) ->
   let b := fst (GetBounds sch st) in
   let dx := sub (d1 b) (d0 b) in
   let dy := sub (d3 b) (d2 b) in
   let dz := sub (d5 b) (d4 b) in
   GetLength2 sch st = (add (add (mul dx dx) (mul dy dy)) (mul dz dz), snd (GetBounds sch st)))
  /\ (GetNumberOfPoints (Self st) = 0 -> GetLength2 sch st = (zero, st))
  /\ GetLength sch st = (sqrt (fst (GetLength2 sch st)), snd (GetLength2 sch st)).
Proof.
  split; [|split].
  - intros Hpos. unfold GetLength2, GetBounds.
    assert (E : (GetNumberOfPoints (Self st) =? 0) = false) by (apply Z.eqb_neq; lia).
    rewrite E. cbn [fold_left fst snd get6 Nat.mul Nat.add].
    rewrite add_zero_square. reflexivity.
  - intros Hz. unfold GetLength2. rewrite Hz. reflexivity.
  - unfold GetLength. destruct (GetLength2 sch st) as [l2 st']. reflexivity.
Qed.

End BoundsClaims.

(** ** IsAnyBitSet and HasAnyGhostPoints *)

Section AnyBit.

Context `{Externals}.

Lemma scan_bits_spec (BitSet : list Z) (BitFlag : Z) (idxs : list nat) (tl : Z) :
  (exists i, i ∈ idxs /\ bit_test BitSet BitFlag i = true) /\ scan_bits BitSet BitFlag idxs tl = 1
  \/ (forall i, i ∈ idxs -> bit_test BitSet BitFlag i = false) /\ scan_bits BitSet BitFlag idxs tl = tl.
Proof.
  induction idxs as [|i idxs IH]; simpl.
  - right. split; [intros i Hi; inversion Hi | reflexivity].
  - destruct (bit_test BitSet BitFlag i) eqn:E.
    + left. split; [|reflexivity]. exists i. split; [left | exact E].
    + destruct IH as [[(k & Hk & Hb) Hs]|[Hall Hs]].
      * left. split; [|exact Hs]. exists k. split; [right; exact Hk | exact Hb].
      * right. split; [|exact Hs]. intros k Hk.
        apply elem_of_cons in Hk as [->|Hk]; [exact E | apply Hall, Hk].
Qed.

Lemma any_bit_invariant_step (BitSet : list Z) (BitFlag : Z)
    (tls : gmap nat Z) (visited : list nat) (c : SMP.Chunk) :
  any_bit_invariant BitSet BitFlag tls visited ->
  any_bit_invariant BitSet BitFlag
    (SMP.run_chunk (IsAnyBitSetFunctor BitSet BitFlag) tls c)
    (visited ++ SMP.chunk_indices c).
Proof.
  intros Hinv. unfold any_bit_invariant, SMP.run_chunk.
  cbn [SMP.Initialize SMP.Call IsAnyBitSetFunctor].
  set (w := SMP.worker c). set (idxs := SMP.chunk_indices c).
  set (t0 := default 0 (tls !! w)).
  set (t' := IsAnyBitSetFunctor_Call BitSet BitFlag (SMP.chunk_begin c) (SMP.chunk_end c) t0).
  assert (Ht' : (t0 <> 0 /\ t' = t0) \/
                (t0 = 0 /\ t' = scan_bits BitSet BitFlag idxs 0)).
  { subst t'. unfold IsAnyBitSetFunctor_Call. destruct (Z.eqb_spec t0 0) as [E|E]; simpl.
    - right. rewrite E. auto.
    - left. auto. }
  assert (Hold : t0 <> 0 -> tls !! w = Some t0).
  { subst t0. destruct (tls !! w); simpl; congruence. }
  split.
  - intros (w' & t & Hw' & Ht). destruct (decide (w = w')) as [<-|Hne].
    + rewrite lookup_insert_eq in Hw'. injection Hw' as <-.
      destruct Ht' as [[Hn Ht']|[Hz Ht']].
      * destruct (proj1 Hinv) as (i & Hi & Hb); [exists w, t0; auto|].
        exists i. split; [apply elem_of_app; left; exact Hi | exact Hb].
      * destruct (scan_bits_spec BitSet BitFlag idxs 0) as [[(i & Hi & Hb) _]|[_ Hs]].
        { exists i. split; [apply elem_of_app; right; exact Hi | exact Hb]. }
        { congruence. }
    + rewrite lookup_insert_ne in Hw' by exact Hne.
      destruct (proj1 Hinv) as (i & Hi & Hb); [exists w', t; auto|].
      exists i. split; [apply elem_of_app; left; exact Hi | exact Hb].
  - intros (i & Hi & Hb). apply elem_of_app in Hi as [Hi|Hi].
    + destruct (proj2 Hinv) as (w0 & t & Hw0 & Ht); [exists i; auto|].
      destruct (decide (w = w0)) as [<-|Hne].
      * exists w, t'. rewrite lookup_insert_eq. split; [reflexivity|].
        assert (t0 = t) as Heq by (subst t0; rewrite Hw0; reflexivity).
        destruct Ht' as [[Hn ->]|[Hz _]]; congruence.
      * exists w0, t. rewrite lookup_insert_ne by exact Hne. auto.
    + exists w, t'. rewrite lookup_insert_eq. split; [reflexivity|].
      destruct Ht' as [[Hn ->]|[Hz ->]]; [exact Hn|].
      destruct (scan_bits_spec BitSet BitFlag idxs 0) as [[_ Hs]|[Hall _]].
      * rewrite Hs. discriminate.
      * rewrite (Hall i Hi) in Hb. discriminate.
Qed.

Lemma IsAnyBitSetFunctor_Reduce_spec (tls : list Z) :
  IsAnyBitSetFunctor_Reduce tls <> 0 <-> exists t, t ∈ tls /\ t <> 0.
Proof.
  induction tls as [|t tls IH]; simpl.
  - split; [congruence | intros (t & Ht & _); inversion Ht].
  - destruct (Z.eqb_spec t 0) as [E|E]; simpl.
    + rewrite IH. split.
      * intros (x & Hx & Hn). exists x. split; [right; exact Hx | exact Hn].
      * intros (x & Hx & Hn). apply elem_of_cons in Hx as [->|Hx]; [congruence|eauto].
    + split; [|discriminate]. intros _. exists t. split; [left | exact E].
Qed.

(** The result of the parallel scan does not depend on the schedule: it is
    non-zero exactly when some entry of the buffer meets the flag. *)
Lemma IsAnyBitSet_For (sch : SMP.Schedule) (BitSet : list Z) (BitFlag : Z) :
  SMP.ValidSchedule 0 (length BitSet) sch ->
  (SMP.For 0 (length BitSet) sch (IsAnyBitSetFunctor BitSet BitFlag) <> 0
   <-> exists i v, BitSet !! i = Some v /\ has_flag v BitFlag = true).
Proof.
  intros Hvalid.
  pose proof (run_chunks_invariant (IsAnyBitSetFunctor BitSet BitFlag)
                (any_bit_invariant BitSet BitFlag)) as Hinv.
  specialize (Hinv ltac:(split;
    [intros (w & t & Hw & _); rewrite lookup_empty in Hw; discriminate
    |intros (i & Hi & _); inversion Hi])).
  specialize (Hinv (any_bit_invariant_step BitSet BitFlag) (SMP.chunks sch)).
  unfold SMP.For. cbn [SMP.Reduce IsAnyBitSetFunctor].
  rewrite IsAnyBitSetFunctor_Reduce_spec.
  transitivity (exists w t, SMP.run_chunks (IsAnyBitSetFunctor BitSet BitFlag)
                              (SMP.chunks sch) !! w = Some t /\ t <> 0).
  - split.
    + intros (t & Ht & Hn).
      apply (thread_locals_elem _ sch 0 (length BitSet) t Hvalid) in Ht as (w & Hw). eauto.
    + intros (w & t & Hw & Hn). exists t. split; [|exact Hn].
      apply (thread_locals_elem _ sch 0 (length BitSet) t Hvalid). eauto.
  - unfold any_bit_invariant in Hinv. rewrite Hinv. split.
    + intros (i & Hi & Hb).
      apply (valid_schedule_visits sch 0 (length BitSet) i Hvalid) in Hi.
      destruct (lookup_lt_is_Some_2 BitSet i ltac:(lia)) as (v & Hv).
      exists i, v. split; [exact Hv|]. unfold bit_test in Hb. rewrite Hv in Hb. exact Hb.
    + intros (i & v & Hv & Hb). exists i. split.
      * apply (valid_schedule_visits sch 0 (length BitSet) i Hvalid).
        apply lookup_lt_Some in Hv. lia.
      * unfold bit_test. rewrite Hv. exact Hb.
Qed.

Lemma lookup_ghost_is_uchar (store : Store) (attrs : vtkDataSetAttributes) (a : nat) :
  lookup_ghost store attrs = Some a ->
  exists name v, store !! a = Some (mkArray name (UnsignedCharValues v)).
Proof.
  unfold lookup_ghost, DownCastUnsignedChar.
  destruct (GetArray store attrs GhostArrayName) as [b|]; [|discriminate].
  destruct (store !! b) as [[name [v|v]]|] eqn:E; try discriminate.
  intros [= <-]. eauto.
Qed.

Lemma GetGhostBytes_lookup (store : Store) (attrs : vtkDataSetAttributes) :
  GetGhostBytes store attrs =
  match lookup_ghost store attrs with
  | Some a => bytes_at store a
  | None => None
  end.
Proof. reflexivity. Qed.

(** With a sound cache, [GetPointGhostArray] returns the current lookup. *)
Lemma GetPointGhostArray_current (st : State) :
  GhostCacheInv st ->
  fst (GetPointGhostArray st) = lookup_ghost (Heap st) (PointData (Self st))
  /\ Heap (snd (GetPointGhostArray st)) = Heap st.
Proof.
  intros [Hp _]. unfold GetPointGhostArray.
  destruct (PointGhostArrayCached (Self st)) eqn:E; simpl; auto.
Qed.

Lemma GetCellGhostArray_current (st : State) :
  GhostCacheInv st ->
  fst (GetCellGhostArray st) = lookup_ghost (Heap st) (CellData (Self st))
  /\ Heap (snd (GetCellGhostArray st)) = Heap st.
Proof.
  intros [_ Hc]. unfold GetCellGhostArray.
  destruct (CellGhostArrayCached (Self st)) eqn:E; simpl; auto.
Qed.

Lemma HasAnyGhostPoints_unfold (sch : SMP.Schedule) (st : State) :
  GhostCacheInv st ->
  fst (HasAnyGhostPoints sch st) =
  IsAnyBitSet sch (Heap st) (lookup_ghost (Heap st) (PointData (Self st))) DUPLICATEPOINT.
Proof.
  intros Hinv. destruct (GetPointGhostArray_current st Hinv) as [Ha Hh].
  unfold HasAnyGhostPoints. destruct (GetPointGhostArray st) as [a st'].
  simpl in *. rewrite Ha, Hh. reflexivity.
Qed.

Lemma sameExtent_refl (ext : Extent) : sameExtent ext ext = true.
Proof. unfold sameExtent. rewrite !Z.eqb_refl. reflexivity. Qed.

Lemma sameExtent_eq (a b : Extent) : sameExtent a b = true <-> a = b.
Proof.
  split; [|intros ->; apply sameExtent_refl].
  unfold sameExtent. destruct a, b; simpl. intros Hs.
  repeat (apply andb_true_iff in Hs as [Hs ?]).
  f_equal; apply Z.eqb_eq; assumption.
Qed.

(** C6. [HasAnyGhostPoints] returns false when the point ghost array is
    absent; in particular for a dataset that was just built, and after
    [GenerateGhostArray] is called with a canonical extent equal to the true
    extent, a call that changes nothing and creates no array. When the array
    is present, the result is true exactly when some entry has the
    DUPLICATEPOINT bit set, whatever the schedule of the scan. *)
Theorem HasAnyGhostPoints_spec (sch : SMP.Schedule) (st : State) :
  GhostCacheInv st ->
  (forall v, GetGhostBytes (Heap st) (PointData (Self st)) = Some v ->
             SMP.ValidSchedule 0 (length v) sch) ->
  (lookup_ghost (Heap st) (PointData (Self st)) = None ->
   fst (HasAnyGhostPoints sch st) = false) /\
  (forall store now, fst (HasAnyGhostPoints sch (New store now)) = false) /\
  (forall cellOnly,
     exists st',
       GenerateGhostArray (DataExtent (Self st)) cellOnly st
         = Some (st', DataExtent (Self st)) /\
       st' = st /\
       (lookup_ghost (Heap st) (PointData (Self st)) = None ->
        lookup_ghost (Heap st') (PointData (Self st')) = None /\
        fst (HasAnyGhostPoints sch st') = false)) /\
  (forall v, GetGhostBytes (Heap st) (PointData (Self st)) = Some v ->
     (fst (HasAnyGhostPoints sch st) = true
      <-> exists i e, v !! i = Some e /\ has_flag e DUPLICATEPOINT = true)).
Proof.
  intros Hinv Hsch. split; [|split; [|split]].
  - intros Habs. rewrite (HasAnyGhostPoints_unfold sch st Hinv), Habs. reflexivity.
  - intros store now. reflexivity.
  - intros cellOnly. exists st. split; [|split; [reflexivity|]].
    + unfold GenerateGhostArray.
      destruct (negb _); [reflexivity|]. rewrite sameExtent_refl. reflexivity.
    + intros Habs. split; [exact Habs|].
      rewrite (HasAnyGhostPoints_unfold sch st Hinv), Habs. reflexivity.
  - intros v Hv. rewrite (HasAnyGhostPoints_unfold sch st Hinv).
    specialize (Hsch v Hv). rewrite GetGhostBytes_lookup in Hv.
    destruct (lookup_ghost (Heap st) (PointData (Self st))) as [a|] eqn:Ea; [|discriminate].
    destruct (lookup_ghost_is_uchar _ _ _ Ea) as (name & v' & Hst).
    unfold bytes_at in Hv. rewrite Hst in Hv. injection Hv as ->.
    unfold IsAnyBitSet. rewrite Hst. rewrite negb_true_iff, Z.eqb_neq.
    apply IsAnyBitSet_For, Hsch.
Qed.

End AnyBit.

(** ** The modification-time gate *)

Section Caches.

Context `{Externals}.

Lemma GetMTime_upper (st : State) :
  ClockOK st -> (GetMTime (Self st) <= GlobalTime st)%N.
Proof.
  intros (Ho & Hp & Hc & _). unfold GetMTime.
  destruct (_ <? MTime (PointData (Self st)))%N; destruct (_ <? MTime (CellData (Self st)))%N; lia.
Qed.

(** [GetMTime] is the greatest of the three clocks. *)
Lemma GetMTime_max (ds : vtkDataSet) :
  GetMTime ds = N.max (N.max (ObjectMTime ds) (MTime (PointData ds))) (MTime (CellData ds)).
Proof.
  unfold GetMTime.
  destruct (N.ltb_spec (ObjectMTime ds) (MTime (PointData ds))) as [E1|E1].
  - destruct (N.ltb_spec (MTime (PointData ds)) (MTime (CellData ds))); lia.
  - destruct (N.ltb_spec (ObjectMTime ds) (MTime (CellData ds))); lia.
Qed.

(** The stamp a recomputation writes is drawn from the process-wide counter:
    datasets whose clocks differ get the same stamp when the counter is the
    same. *)
Lemma ComputeBounds_stamp_from_counter (sch sch' : SMP.Schedule) (st st' : State) :
  (ComputeTime (Self st) < GetMTime (Self st))%N ->
  (ComputeTime (Self st') < GetMTime (Self st'))%N ->
  GlobalTime st = GlobalTime st' ->
  ComputeTime (Self (ComputeBounds sch st)) = ComputeTime (Self (ComputeBounds sch' st')).
Proof.
  intros H1 H2 Hg. unfold ComputeBounds.
  apply N.ltb_lt in H1. apply N.ltb_lt in H2. rewrite H1, H2. simpl. rewrite Hg. reflexivity.
Qed.

(** C2 (amended). For the two cached queries, bounds and scalar range: the
    query returns the cached value and changes nothing when the cache stamp
    is >= current, the greatest of the dataset's clocks; otherwise it
    recomputes, and the stamp it then writes is the next value of the
    process-wide counter, a value strictly greater than current, the clocks
    themselves being unchanged. *)
Theorem cache_gate_and_stamp (sch : SMP.Schedule) (st : State) :
  ClockOK st ->
  let current := GetMTime (Self st) in
  current = N.max (N.max (ObjectMTime (Self st)) (MTime (PointData (Self st))))
                  (MTime (CellData (Self st))) /\
  ((current <= ComputeTime (Self st))%N -> GetBounds sch st = (Bounds (Self st), st)) /\
  ((ComputeTime (Self st) < current)%N ->
     let st' := snd (GetBounds sch st) in
     fst (GetBounds sch st) = fresh_bounds sch (Self st) /\
     ComputeTime (Self st') = (GlobalTime st + 1)%N /\
     (current < ComputeTime (Self st'))%N /\
     GetMTime (Self st') = current) /\
  ((current <= ScalarRangeComputeTime (Self st))%N ->
     GetScalarRange st = (ScalarRange (Self st), st)) /\
  ((ScalarRangeComputeTime (Self st) < current)%N ->
     let st' := snd (GetScalarRange st) in
     fst (GetScalarRange st) = fresh_scalar_range (Heap st) (Self st) /\
     ScalarRangeComputeTime (Self st') = (GlobalTime st + 1)%N /\
     (current < ScalarRangeComputeTime (Self st'))%N /\
     GetMTime (Self st') = current).
Proof.
  intros Hclock current. pose proof (GetMTime_upper st Hclock) as Hup.
  split; [apply GetMTime_max|]. split; [|split; [|split]].
  - intros Hle. unfold GetBounds, ComputeBounds.
    apply N.ltb_ge in Hle. fold current. rewrite Hle. reflexivity.
  - intros Hlt. unfold GetBounds, ComputeBounds.
    apply N.ltb_lt in Hlt. fold current. rewrite Hlt. simpl.
    repeat split; try reflexivity. subst current. lia.
  - intros Hle. unfold GetScalarRange, ComputeScalarRange.
    apply N.ltb_ge in Hle. fold current. rewrite Hle. reflexivity.
  - intros Hlt. unfold GetScalarRange, ComputeScalarRange.
    apply N.ltb_lt in Hlt. fold current. rewrite Hlt. simpl.
    repeat split; try reflexivity. subst current. lia.
Qed.

(** ** The gates *)

Lemma ComputeBounds_noop (sch : SMP.Schedule) (st : State) :
  (GetMTime (Self st) <= ComputeTime (Self st))%N -> ComputeBounds sch st = st.
Proof. intros Hg. unfold ComputeBounds. apply N.ltb_ge in Hg. rewrite Hg. reflexivity. Qed.

Lemma ComputeScalarRange_noop (st : State) :
  (GetMTime (Self st) <= ScalarRangeComputeTime (Self st))%N -> ComputeScalarRange st = st.
Proof. intros Hg. unfold ComputeScalarRange. apply N.ltb_ge in Hg. rewrite Hg. reflexivity. Qed.

(** After [ComputeBounds] the bounds cache is valid; the clocks of the
    dataset and the scalar range cache are what they were. *)
Lemma ComputeBounds_valid (sch : SMP.Schedule) (st : State) :
  ClockOK st ->
  let st1 := ComputeBounds sch st in
  (GetMTime (Self st1) <= ComputeTime (Self st1))%N /\ ClockOK st1 /\
  GetMTime (Self st1) = GetMTime (Self st) /\
  ScalarRange (Self st1) = ScalarRange (Self st) /\
  ScalarRangeComputeTime (Self st1) = ScalarRangeComputeTime (Self st) /\
  Heap st1 = Heap st /\
  PointData (Self st1) = PointData (Self st) /\ CellData (Self st1) = CellData (Self st) /\
  Points (Self st1) = Points (Self st).
Proof.
  intros Hclock st1. pose proof (GetMTime_upper st Hclock) as Hup.
  subst st1. unfold ComputeBounds.
  destruct (ComputeTime (Self st) <? GetMTime (Self st))%N eqn:Eg.
  - destruct Hclock as (C1 & C2 & C3 & C4 & C5).
    unfold ClockOK, GetMTime in *. simpl. repeat split; try reflexivity; lia.
  - apply N.ltb_ge in Eg. repeat split; try reflexivity; try exact Eg; apply Hclock.
Qed.

Lemma ComputeScalarRange_valid (st : State) :
  ClockOK st ->
  let st1 := ComputeScalarRange st in
  (GetMTime (Self st1) <= ScalarRangeComputeTime (Self st1))%N /\ ClockOK st1 /\
  GetMTime (Self st1) = GetMTime (Self st) /\
  Bounds (Self st1) = Bounds (Self st) /\
  ComputeTime (Self st1) = ComputeTime (Self st) /\
  Heap st1 = Heap st /\
  PointData (Self st1) = PointData (Self st) /\ CellData (Self st1) = CellData (Self st) /\
  Points (Self st1) = Points (Self st).
Proof.
  intros Hclock st1. pose proof (GetMTime_upper st Hclock) as Hup.
  subst st1. unfold ComputeScalarRange.
  destruct (ScalarRangeComputeTime (Self st) <? GetMTime (Self st))%N eqn:Eg.
  - destruct Hclock as (C1 & C2 & C3 & C4 & C5).
    unfold ClockOK, GetMTime in *. simpl. repeat split; try reflexivity; lia.
  - apply N.ltb_ge in Eg. repeat split; try reflexivity; try exact Eg; apply Hclock.
Qed.

(** ** The scalar range *)

(** C3 (amended). [GetScalarRange] returns the cached scalar range. When the
    cache is stale (its stamp is older than [GetMTime]) the range is first
    recomputed from the scalars and the ghost arrays as they are now: with
    both an active point and an active cell scalar array, the result is (the
    lesser of the two minima, the greater of the two maxima) of the two
    ghost-excluded ranges, selected with [<] and [>] (the lesser and the
    greater when the ranges are numbers); with exactly one, that array's
    range; with none,
    the sentinel (0.0, 1.0). When the cache is valid the cached pair is
    returned as it is; and the pair a call returns stays the answer as long
    as the dataset's clocks and cache are what the call left, whatever the
    arrays hold by then. *)
Theorem GetScalarRange_combination (st : State) :
  let ds := Self st in
  let r := fst (GetScalarRange st) in
  let r_point a :=
    GetRange a (GetGhostBytes (Heap st) (PointData ds)) (GhostsToSkip (PointData ds)) in
  let r_cell a :=
    GetRange a (GetGhostBytes (Heap st) (CellData ds)) (GhostsToSkip (CellData ds)) in
  ((ScalarRangeComputeTime ds < GetMTime ds)%N ->
   match GetScalars (Heap st) (PointData ds), GetScalars (Heap st) (CellData ds) with
   | Some pt, Some cell =>
       r = (if ltb (fst (r_point pt)) (fst (r_cell cell))
            then fst (r_point pt) else fst (r_cell cell),
            if gtb (snd (r_point pt)) (snd (r_cell cell))
            then snd (r_point pt) else snd (r_cell cell)) /\
       (is_nan (fst (r_point pt)) = false -> is_nan (snd (r_point pt)) = false ->
        is_nan (fst (r_cell cell)) = false -> is_nan (snd (r_cell cell)) = false ->
        is_min_of (fst r) (fst (r_point pt)) (fst (r_cell cell)) /\
        is_max_of (snd r) (snd (r_point pt)) (snd (r_cell cell)))
   | Some pt, None => r = r_point pt
   | None, Some cell => r = r_cell cell
   | None, None => r = (of_Z 0, of_Z 1)
   end) /\
  ((GetMTime ds <= ScalarRangeComputeTime ds)%N ->
   GetScalarRange st = (ScalarRange ds, st)) /\
  (ClockOK st ->
   let st' := snd (GetScalarRange st) in
   forall st2,
     GetMTime (Self st2) = GetMTime (Self st') ->
     ScalarRangeComputeTime (Self st2) = ScalarRangeComputeTime (Self st') ->
     ScalarRange (Self st2) = ScalarRange (Self st') ->
     GetScalarRange st2 = (r, st2)).
Proof.
  intros ds r r_point r_cell. split; [|split].
  - intros Hstale. subst r. unfold GetScalarRange, ComputeScalarRange. fold ds.
    apply N.ltb_lt in Hstale. rewrite Hstale. cbn [vtkTimeStamp_Modified fst].
    change (ScalarRange (Self (set_Self _ (set_ScalarRange ds ?x _)))) with x.
    unfold fresh_scalar_range.
    destruct (GetScalars (Heap st) (PointData ds)) as [pt|];
      destruct (GetScalars (Heap st) (CellData ds)) as [cell|]; try reflexivity.
    split; [reflexivity|].
    intros N1 N2 N3 N4. cbn [fst snd]. split.
    + apply select_min_spec; assumption.
    + apply select_max_spec; assumption.
  - intros Hvalid. unfold GetScalarRange. rewrite (ComputeScalarRange_noop st Hvalid).
    reflexivity.
  - intros Hclock st' st2 HM HT HR.
    destruct (ComputeScalarRange_valid st Hclock) as (Hgate & _).
    cbv zeta in Hgate. subst st'.
    change (snd (GetScalarRange st)) with (ComputeScalarRange st) in HM, HT, HR.
    rewrite <- HM, <- HT in Hgate.
    unfold GetScalarRange at 1. rewrite (ComputeScalarRange_noop st2 Hgate).
    rewrite HR. reflexivity.
Qed.

End Caches.

(** ** CheckAttributes *)

Section Check.

Context `{Externals}.

(** Visiting the indices of a list is visiting its elements. *)
Lemma omap_lookup_seq {A B : Type} (f : A -> option B) (l2 : list A) :
  forall l1 : list A,
  omap (fun i => match (l1 ++ l2) !! i with Some a => f a | None => None end)
       (seq (length l1) (length l2))
  = omap f l2.
Proof.
  induction l2 as [|a l2 IH]; intros l1; [reflexivity|].
  specialize (IH (l1 ++ [a])). rewrite <- app_assoc, length_app in IH. simpl in IH.
  rewrite Nat.add_1_r in IH.
  cbn [length seq]. cbn [omap list_omap].
  rewrite (list_lookup_middle l1 l2 a (length l1) eq_refl).
  rewrite IH. reflexivity.
Qed.

Lemma arrays_by_index (store : Store) (attrs : vtkDataSetAttributes) :
  omap (GetAbstractArray store attrs) (seq 0 (length (Arrays attrs)))
  = attribute_arrays store attrs.
Proof.
  unfold attribute_arrays, GetAbstractArray.
  apply (omap_lookup_seq (fun a => store !! a) (Arrays attrs) []).
Qed.

(** One loop of [CheckAttributes]: it stops with an error at the first array
    with too few tuples, after a warning for each array with too many that
    comes before it; without such an array it runs to its end. *)
Lemma check_arrays_spec (store : Store) (attrs : vtkDataSetAttributes)
    (ty : AttributeType) (count : Z) (idxs : list nat) :
  forall log,
  let arrays := omap (GetAbstractArray store attrs) idxs in
  ((forall a, a ∈ arrays -> too_few count a = false) /\
   check_arrays store attrs ty count idxs log = (false, log ++ warnings_for ty count arrays))
  \/
  (exists pre a post,
     arrays = pre ++ a :: post /\ too_few count a = true /\
     (forall x, x ∈ pre -> too_few count x = false) /\
     check_arrays store attrs ty count idxs log
       = (true, log ++ warnings_for ty count pre ++ [error_for ty count a])).
Proof.
  induction idxs as [|idx idxs IH]; intros log; simpl.
  - left. split; [intros a Ha; inversion Ha|]. unfold warnings_for. simpl.
    rewrite app_nil_r. reflexivity.
  - destruct (GetAbstractArray store attrs idx) as [array|] eqn:E; [|apply IH].
    destruct (GetNumberOfTuples array <? count) eqn:Efew.
    + right. exists [], array, (omap (GetAbstractArray store attrs) idxs).
      split; [reflexivity|]. split; [exact Efew|]. split; [intros x Hx; inversion Hx|].
      reflexivity.
    + set (log' := if GetNumberOfTuples array >? count
                   then log ++ [mkDiagnostic WarningSeverity ty (default EmptyString (Name array))
                                  (GetNumberOfTuples array) count]
                   else log).
      assert (Hlog : forall rest, log' ++ rest = log ++ warnings_for ty count [array] ++ rest).
      { intros rest. subst log'. unfold warnings_for, too_many. simpl.
        destruct (GetNumberOfTuples array >? count) eqn:Emany.
        - simpl. rewrite <- app_assoc. reflexivity.
        - reflexivity. }
      assert (Hw : forall l, warnings_for ty count (array :: l)
                            = warnings_for ty count [array] ++ warnings_for ty count l).
      { intros l. unfold warnings_for. rewrite <- map_app. f_equal.
        change (array :: l) with ([array] ++ l). apply List.filter_app. }
      destruct (IH log') as [[Hall Hres]|(pre & a & post & Harr & Hfew & Hpre & Hres)].
      * left. split.
        { intros a Ha. apply elem_of_cons in Ha as [->|Ha]; [exact Efew | apply Hall, Ha]. }
        { rewrite Hres, Hlog. f_equal. f_equal. symmetry. apply Hw. }
      * right. exists (array :: pre), a, post. split; [simpl; f_equal; exact Harr|].
        split; [exact Hfew|]. split.
        { intros x Hx. apply elem_of_cons in Hx as [->|Hx]; [exact Efew | apply Hpre, Hx]. }
        { rewrite Hres, Hlog, (Hw pre), <- !app_assoc. reflexivity. }
Qed.

Lemma check_attribute_set_spec (store : Store) (attrs : vtkDataSetAttributes)
    (ty : AttributeType) (count : Z) (log : list Diagnostic) :
  let arrays := attribute_arrays store attrs in
  ((forall a, a ∈ arrays -> too_few count a = false) /\
   check_attribute_set store attrs ty count log = (false, log ++ warnings_for ty count arrays))
  \/
  (exists pre a post,
     arrays = pre ++ a :: post /\ too_few count a = true /\
     (forall x, x ∈ pre -> too_few count x = false) /\
     check_attribute_set store attrs ty count log
       = (true, log ++ warnings_for ty count pre ++ [error_for ty count a])).
Proof.
  intros arrays. subst arrays. unfold check_attribute_set, GetNumberOfArrays.
  destruct (Z.of_nat (length (Arrays attrs)) >? 0) eqn:E.
  - rewrite Nat2Z.id. rewrite <- arrays_by_index. apply check_arrays_spec.
  - left. assert (Hnil : Arrays attrs = []).
    { destruct (Arrays attrs); [reflexivity|]. exfalso.
      rewrite Z.gtb_ltb in E. apply Z.ltb_ge in E. rewrite length_cons in E. lia. }
    unfold attribute_arrays. rewrite Hnil. simpl. split.
    + intros a Ha. inversion Ha.
    + unfold warnings_for. simpl. rewrite app_nil_r. reflexivity.
Qed.

Lemma warnings_are_warnings (ty : AttributeType) (count : Z) (l : list vtkAbstractArray) :
  Forall (fun d => severity d = WarningSeverity) (warnings_for ty count l).
Proof.
  unfold warnings_for. apply Forall_forall. intros d Hd.
  apply list_elem_of_In, in_map_iff in Hd as (a & <- & _). reflexivity.
Qed.

(** C5. [CheckAttributes] returns 1, after an error-severity message, when a
    point array has fewer tuples than there are points or a cell array has
    fewer tuples than there are cells. When no array has too few tuples it
    returns 0, and its messages are one warning for each array that has more
    tuples than the element count, and nothing else. In every case it returns
    (it neither throws nor aborts), and the arrays, the dataset with its
    counts and caches, and the clock are the same after the call; only the
    diagnostic output grew. *)
Theorem CheckAttributes_spec (st : State) :
  let result := fst (CheckAttributes st) in
  let st' := snd (CheckAttributes st) in
  let point_arrays := attribute_arrays (Heap st) (PointData (Self st)) in
  let cell_arrays := attribute_arrays (Heap st) (CellData (Self st)) in
  let numPts := GetNumberOfPoints (Self st) in
  let numCells := GetNumberOfCells (Self st) in
  (Heap st' = Heap st /\ Self st' = Self st /\ GlobalTime st' = GlobalTime st) /\
  ((exists a, a ∈ point_arrays /\ GetNumberOfTuples a < numPts) \/
   (exists a, a ∈ cell_arrays /\ GetNumberOfTuples a < numCells) ->
   result = 1 /\
   exists warnings d,
     Log st' = Log st ++ warnings ++ [d] /\ severity d = ErrorSeverity /\
     Forall (fun w => severity w = WarningSeverity) warnings) /\
  ((forall a, a ∈ point_arrays -> numPts <= GetNumberOfTuples a) ->
   (forall a, a ∈ cell_arrays -> numCells <= GetNumberOfTuples a) ->
   result = 0 /\
   Log st' = Log st ++ warnings_for POINT numPts point_arrays
                    ++ warnings_for CELL numCells cell_arrays /\
   (forall a, a ∈ point_arrays -> numPts < GetNumberOfTuples a ->
      mkDiagnostic WarningSeverity POINT (default EmptyString (Name a))
        (GetNumberOfTuples a) numPts ∈ Log st') /\
   (forall a, a ∈ cell_arrays -> numCells < GetNumberOfTuples a ->
      mkDiagnostic WarningSeverity CELL (default EmptyString (Name a))
        (GetNumberOfTuples a) numCells ∈ Log st') /\
   (forall d, d ∈ Log st' -> d ∈ Log st \/ severity d = WarningSeverity)).
Proof.
  intros result st' point_arrays cell_arrays numPts numCells.
  subst result st'. unfold CheckAttributes.
  pose proof (check_attribute_set_spec (Heap st) (PointData (Self st)) POINT numPts (Log st))
    as Hp.
  fold numPts numCells. fold point_arrays in Hp.
  destruct (check_attribute_set (Heap st) (PointData (Self st)) POINT numPts (Log st))
    as [failedP logP] eqn:EP.
  destruct Hp as [[HallP HresP]|(pre & a & post & Harr & Hfew & Hpre & HresP)];
    injection HresP as -> ->.
  - pose proof (check_attribute_set_spec (Heap st) (CellData (Self st)) CELL numCells
                  (Log st ++ warnings_for POINT numPts point_arrays)) as Hc.
    fold cell_arrays in Hc.
    destruct (check_attribute_set (Heap st) (CellData (Self st)) CELL numCells _)
      as [failedC logC] eqn:EC.
    destruct Hc as [[HallC HresC]|(pre & a & post & Harr & Hfew & Hpre & HresC)];
      injection HresC as -> ->; simpl.
    + split; [auto|]. split.
      * intros [(a & Ha & Hlt)|(a & Ha & Hlt)]; exfalso.
        { specialize (HallP a Ha). unfold too_few in HallP. lia. }
        { specialize (HallC a Ha). unfold too_few in HallC. lia. }
      * intros _ _. split; [reflexivity|]. split; [rewrite app_assoc; reflexivity|].
        split; [|split].
        { intros a Ha Hlt. apply elem_of_app. left. apply elem_of_app. right.
          unfold warnings_for. apply list_elem_of_In, in_map_iff. exists a.
          split; [reflexivity|]. apply filter_In.
          split; [apply list_elem_of_In, Ha | unfold too_many; lia]. }
        { intros a Ha Hlt. apply elem_of_app. right.
          unfold warnings_for. apply list_elem_of_In, in_map_iff. exists a.
          split; [reflexivity|]. apply filter_In.
          split; [apply list_elem_of_In, Ha | unfold too_many; lia]. }
        { intros d Hd. apply elem_of_app in Hd as [Hd|Hd].
          - apply elem_of_app in Hd as [Hd|Hd]; [left; exact Hd|right].
            pose proof (warnings_are_warnings POINT numPts point_arrays) as Hw.
            rewrite Forall_forall in Hw. apply Hw, Hd.
          - right. pose proof (warnings_are_warnings CELL numCells cell_arrays) as Hw.
            rewrite Forall_forall in Hw. apply Hw, Hd. }
    + split; [auto|]. split.
      * intros _. split; [reflexivity|].
        exists (warnings_for POINT numPts point_arrays ++ warnings_for CELL numCells pre),
               (error_for CELL numCells a).
        split; [rewrite <- !app_assoc; reflexivity|]. split; [reflexivity|].
        apply Forall_app. split; apply warnings_are_warnings.
      * intros _ HC. exfalso.
        assert (Ha : a ∈ cell_arrays) by (rewrite Harr; apply elem_of_app; right; left).
        specialize (HC a Ha). unfold too_few in Hfew. lia.
  - simpl. split; [auto|]. split.
    + intros _. split; [reflexivity|].
      exists (warnings_for POINT numPts pre), (error_for POINT numPts a).
      split; [reflexivity|]. split; [reflexivity | apply warnings_are_warnings].
    + intros HP _. exfalso.
      assert (Ha : a ∈ point_arrays) by (rewrite Harr; apply elem_of_app; right; left).
      specialize (HP a Ha). unfold too_few in Hfew. lia.
Qed.

End Check.

(** ** The ghost loops *)

Lemma wrap32_id (z : Z) : int_range z -> wrap32 z = z.
Proof.
  unfold int_range, wrap32. intros Hz.
  rewrite Z.mod_small by lia. lia.
Qed.

(** Without overflow, the distance of the point loops on one axis. *)
Lemma point_axis_dist_value (zlo zhi a : Z) :
  - 2 ^ 30 < zlo < 2 ^ 30 -> - 2 ^ 30 < zhi < 2 ^ 30 -> - 2 ^ 30 < a < 2 ^ 30 ->
  point_axis_dist zlo zhi a =
  if a >? zhi then a - zhi + 1 else if a <? zlo then zlo - a else 0.
Proof.
  intros Hlo Hhi Ha. unfold point_axis_dist.
  destruct (a >? zhi) eqn:E1.
  - rewrite (wrap32_id (a - zhi)) by (unfold int_range; lia).
    apply wrap32_id. unfold int_range. lia.
  - destruct (a <? zlo) eqn:E2; [|reflexivity].
    apply wrap32_id. unfold int_range. lia.
Qed.

Lemma cell_axis_dist_value (zlo zhi a : Z) :
  - 2 ^ 30 < zlo < 2 ^ 30 -> - 2 ^ 30 < zhi <= 2 ^ 30 -> - 2 ^ 30 < a < 2 ^ 30 ->
  cell_axis_dist zlo zhi a =
  if a >=? zhi then a - zhi + 1 else if a <? zlo then zlo - a else 0.
Proof.
  intros Hlo Hhi Ha. unfold cell_axis_dist.
  destruct (a >=? zhi) eqn:E1.
  - rewrite (wrap32_id (a - zhi)) by (unfold int_range; lia).
    apply wrap32_id. unfold int_range. lia.
  - destruct (a <? zlo) eqn:E2; [|reflexivity].
    apply wrap32_id. unfold int_range. lia.
Qed.

(** The distance of the loops is positive exactly when the specification's
    is; the two are equal when the canonical bounds are in order. *)
Lemma point_axis_dist_positive (zlo zhi a : Z) :
  - 2 ^ 30 < zlo < 2 ^ 30 -> - 2 ^ 30 < zhi < 2 ^ 30 -> - 2 ^ 30 < a < 2 ^ 30 ->
  0 <= point_axis_dist zlo zhi a /\
  (0 < point_axis_dist zlo zhi a <-> 0 < overflow_distance zlo zhi a) /\
  (zlo <= zhi + 1 -> point_axis_dist zlo zhi a = overflow_distance zlo zhi a).
Proof.
  intros Hlo Hhi Ha. rewrite (point_axis_dist_value zlo zhi a Hlo Hhi Ha).
  unfold overflow_distance.
  destruct (Z.gtb_spec a zhi), (Z.ltb_spec a zlo); lia.
Qed.

Lemma combine_dist_max (di dj dk : Z) :
  combine_dist di dj dk = Z.max di (Z.max dj dk).
Proof.
  unfold combine_dist. destruct (Z.gtb_spec dj di).
  - destruct (Z.gtb_spec dk dj); lia.
  - destruct (Z.gtb_spec dk di); lia.
Qed.

(** The test of the point loops is the specification's test. *)
Lemma point_dist_test (zeroExt : Extent) (i j k : Z) :
  ExtentInRange zeroExt ->
  - 2 ^ 30 < i < 2 ^ 30 -> - 2 ^ 30 < j < 2 ^ 30 -> - 2 ^ 30 < k < 2 ^ 30 ->
  (combine_dist (point_axis_dist (e0 zeroExt) (e1 zeroExt) i)
                (point_axis_dist (e2 zeroExt) (e3 zeroExt) j)
                (point_axis_dist (e4 zeroExt) (e5 zeroExt) k) >? 0)
  = (chebyshev_distance zeroExt i j k >? 0).
Proof.
  intros (R0 & R1 & R2 & R3 & R4 & R5) Hi Hj Hk.
  destruct (point_axis_dist_positive (e0 zeroExt) (e1 zeroExt) i R0 R1 Hi) as (A1 & A2 & _).
  destruct (point_axis_dist_positive (e2 zeroExt) (e3 zeroExt) j R2 R3 Hj) as (B1 & B2 & _).
  destruct (point_axis_dist_positive (e4 zeroExt) (e5 zeroExt) k R4 R5 Hk) as (C1 & C2 & _).
  rewrite combine_dist_max. unfold chebyshev_distance.
  destruct (Z.gtb_spec (Z.max (point_axis_dist (e0 zeroExt) (e1 zeroExt) i)
                         (Z.max (point_axis_dist (e2 zeroExt) (e3 zeroExt) j)
                                (point_axis_dist (e4 zeroExt) (e5 zeroExt) k))) 0);
  destruct (Z.gtb_spec (Z.max (overflow_distance (e0 zeroExt) (e1 zeroExt) i)
                         (Z.max (overflow_distance (e2 zeroExt) (e3 zeroExt) j)
                                (overflow_distance (e4 zeroExt) (e5 zeroExt) k))) 0);
  try reflexivity; exfalso; lia.
Qed.

(** *** Loops as folds over one list *)

Lemma fold_left_flat_map {A B S : Type} (f : S -> B -> S) (g : A -> list B) (l : list A) :
  forall s, fold_left (fun s x => fold_left f (g x) s) l s = fold_left f (flat_map g l) s.
Proof.
  induction l as [|x l IH]; intros s; simpl; [reflexivity|].
  rewrite fold_left_app. apply IH.
Qed.

Lemma fold_left_ext_in {A S : Type} (f g : S -> A -> S) (l : list A) :
  (forall s x, f s x = g s x) -> forall s, fold_left f l s = fold_left g l s.
Proof.
  intros Hfg. induction l as [|x l IH]; intros s; simpl; [reflexivity|].
  rewrite Hfg. apply IH.
Qed.

Lemma irange_length (lo : Z) (n : nat) : length (irange lo n) = n.
Proof. unfold irange. rewrite length_map, length_seq. reflexivity. Qed.

Lemma irange_lookup (lo : Z) (n t : nat) :
  (t < n)%nat -> irange lo n !! t = Some (lo + Z.of_nat t).
Proof.
  intros Ht. unfold irange. rewrite list_lookup_fmap.
  rewrite lookup_seq_lt by exact Ht. reflexivity.
Qed.

Lemma irange_elem (lo : Z) (n : nat) (x : Z) :
  x ∈ irange lo n -> lo <= x < lo + Z.of_nat n.
Proof.
  unfold irange. intros Hx. apply list_elem_of_In, in_map_iff in Hx as (t & <- & Ht).
  apply in_seq in Ht. lia.
Qed.

(** Rows of one length laid end to end. *)
Lemma flat_map_uniform_length {A B : Type} (g : A -> list B) (m : nat) (l : list A) :
  (forall x, x ∈ l -> length (g x) = m) -> length (flat_map g l) = (length l * m)%nat.
Proof.
  induction l as [|x l IH]; intros Hg; simpl; [reflexivity|].
  rewrite length_app, Hg by left. rewrite IH; [reflexivity|].
  intros y Hy. apply Hg. right. exact Hy.
Qed.

Lemma flat_map_uniform_lookup {A B : Type} (g : A -> list B) (m : nat) (l : list A) :
  (forall x, x ∈ l -> length (g x) = m) ->
  forall a b x, l !! a = Some x -> (b < m)%nat ->
  flat_map g l !! (a * m + b)%nat = g x !! b.
Proof.
  induction l as [|y l IH]; intros Hg a b x Ha Hb; [discriminate|].
  simpl. destruct a as [|a]; simpl in *.
  - injection Ha as ->. rewrite lookup_app_l; [reflexivity|]. rewrite Hg by left. exact Hb.
  - rewrite lookup_app_r by (rewrite Hg by left; lia). rewrite Hg by left.
    replace (m + a * m + b - m)%nat with (a * m + b)%nat by lia.
    apply IH; auto. intros z Hz. apply Hg. right. exact Hz.
Qed.

Section GhostLoops.

Context `{Externals}.

Lemma mark_entry_step (flag d v : Z) (pre g : list Z) :
  mark_entry flag d (Some (length pre, pre ++ v :: g))
  = Some (S (length pre), pre ++ mark1 flag d v :: g).
Proof.
  unfold mark_entry. rewrite (list_lookup_middle pre g v (length pre) eq_refl).
  rewrite insert_app_r_alt by lia. rewrite Nat.sub_diag. reflexivity.
Qed.

Lemma mark_entry_fold (flag : Z) (dists : list Z) :
  forall (pre g : list Z),
  length g = length dists ->
  fold_left (fun s d => mark_entry flag d s) dists (Some (length pre, pre ++ g))
  = Some ((length pre + length dists)%nat, pre ++ zip_with (mark1 flag) dists g).
Proof.
  induction dists as [|d dists IH]; intros pre g Hlen.
  - destruct g; [|discriminate]. simpl. rewrite Nat.add_0_r. reflexivity.
  - destruct g as [|v g]; [discriminate|]. simpl in Hlen. injection Hlen as Hlen.
    cbn [fold_left]. rewrite mark_entry_step.
    specialize (IH (pre ++ [mark1 flag d v]) g Hlen).
    rewrite length_app in IH. simpl in IH. rewrite Nat.add_1_r in IH.
    rewrite <- app_assoc in IH. simpl in IH.
    rewrite IH. simpl. rewrite <- app_assoc. simpl.
    f_equal. f_equal. lia.
Qed.

(** A loop nest over a buffer of the right length marks it entry by entry. *)
Lemma mark_entry_fold_all (flag : Z) (dists g : list Z) :
  length g = length dists ->
  fold_left (fun s d => mark_entry flag d s) dists (Some (0%nat, g))
  = Some (length dists, zip_with (mark1 flag) dists g).
Proof. intros Hlen. apply (mark_entry_fold flag dists [] g Hlen). Qed.

Lemma point_loops_fold (extent zeroExt : Extent) (g : list Z) :
  point_loops extent zeroExt g =
  fold_left (fun s d => mark_entry DUPLICATEPOINT d s) (point_dists extent zeroExt) (Some (0%nat, g)).
Proof.
  unfold point_loops, point_dists.
  rewrite <- fold_left_flat_map. apply fold_left_ext_in. intros s k.
  rewrite <- fold_left_flat_map. apply fold_left_ext_in. intros s' j.
  rewrite <- (fold_left_through_map (fun s d => mark_entry DUPLICATEPOINT d s)).
  reflexivity.
Qed.

Lemma cell_loops_fold (extent zeroExt : Extent) (g : list Z) :
  cell_loops extent zeroExt g =
  fold_left (fun s d => mark_entry DUPLICATECELL d s) (cell_dists extent zeroExt) (Some (0%nat, g)).
Proof.
  unfold cell_loops, cell_dists.
  rewrite <- fold_left_flat_map. apply fold_left_ext_in. intros s k.
  rewrite <- fold_left_flat_map. apply fold_left_ext_in. intros s' j.
  rewrite <- (fold_left_through_map (fun s d => mark_entry DUPLICATECELL d s)).
  reflexivity.
Qed.

Lemma point_dists_length (extent zeroExt : Extent) :
  length (point_dists extent zeroExt) = vtkStructuredData_GetNumberOfPoints extent.
Proof.
  unfold point_dists, vtkStructuredData_GetNumberOfPoints.
  rewrite (flat_map_uniform_length _
             (Z.to_nat (e3 extent - e2 extent + 1) * Z.to_nat (e1 extent - e0 extent + 1))).
  - rewrite irange_length. lia.
  - intros k _. rewrite (flat_map_uniform_length _ (Z.to_nat (e1 extent - e0 extent + 1))).
    + rewrite irange_length. reflexivity.
    + intros j _. rewrite length_map, irange_length. reflexivity.
Qed.

(** The loops meet point (i, j, k) at position [point_index]. *)
Lemma point_dists_lookup (extent zeroExt : Extent) (i j k : Z) :
  in_extent extent i j k ->
  point_dists extent zeroExt !! point_index extent i j k =
  Some (combine_dist (point_axis_dist (e0 zeroExt) (e1 zeroExt) i)
                     (point_axis_dist (e2 zeroExt) (e3 zeroExt) j)
                     (point_axis_dist (e4 zeroExt) (e5 zeroExt) k)).
Proof.
  intros (Hi & Hj & Hk). unfold point_dists, point_index.
  set (nx := Z.to_nat (e1 extent - e0 extent + 1)).
  set (ny := Z.to_nat (e3 extent - e2 extent + 1)).
  rewrite <- Nat.add_assoc.
  assert (Hbi : (Z.to_nat (i - e0 extent) < nx)%nat) by (subst nx; lia).
  assert (Hbj : (Z.to_nat (j - e2 extent) < ny)%nat) by (subst ny; lia).
  rewrite (flat_map_uniform_lookup _ (ny * nx)) with (x := k).
  - rewrite (flat_map_uniform_lookup _ nx) with (x := j).
    + rewrite list_lookup_fmap, irange_lookup by exact Hbi.
      cbn [fmap option_fmap option_map]. rewrite Z2Nat.id by lia.
      replace (e0 extent + (i - e0 extent)) with i by lia. reflexivity.
    + intros j' _. rewrite length_map, irange_length. reflexivity.
    + rewrite irange_lookup by exact Hbj. f_equal. rewrite Z2Nat.id by lia. lia.
    + exact Hbi.
  - intros k' _. rewrite (flat_map_uniform_length _ nx).
    + rewrite irange_length. reflexivity.
    + intros j' _. rewrite length_map, irange_length. reflexivity.
  - rewrite irange_lookup by lia. f_equal. rewrite Z2Nat.id by lia. lia.
  - nia.
Qed.

Lemma cell_axis_count_inflated (lo hi : Z) :
  - 2 ^ 30 < hi < 2 ^ 30 ->
  Z.to_nat ((if lo =? hi then wrap32 (hi + 1) else hi) - lo) = cell_axis_count lo hi.
Proof.
  intros Hr. unfold cell_axis_count. destruct (Z.eqb_spec lo hi) as [->|Hne]; [|reflexivity].
  rewrite wrap32_id by (unfold int_range; lia). lia.
Qed.

Lemma inflate_fields (extent zeroExt : Extent) :
  inflate extent zeroExt =
  (mkExtent (e0 extent) (if e0 extent =? e1 extent then wrap32 (e1 extent + 1) else e1 extent)
            (e2 extent) (if e2 extent =? e3 extent then wrap32 (e3 extent + 1) else e3 extent)
            (e4 extent) (if e4 extent =? e5 extent then wrap32 (e5 extent + 1) else e5 extent),
   mkExtent (e0 zeroExt) (if e0 extent =? e1 extent then wrap32 (e1 zeroExt + 1) else e1 zeroExt)
            (e2 zeroExt) (if e2 extent =? e3 extent then wrap32 (e3 zeroExt + 1) else e3 zeroExt)
            (e4 zeroExt) (if e4 extent =? e5 extent then wrap32 (e5 zeroExt + 1) else e5 zeroExt)).
Proof.
  destruct extent as [a0 a1 a2 a3 a4 a5], zeroExt as [z0 z1 z2 z3 z4 z5].
  unfold inflate. simpl.
  destruct (a0 =? a1); simpl; destruct (a2 =? a3); simpl; destruct (a4 =? a5); reflexivity.
Qed.

Lemma cell_dists_length (extent zeroExt : Extent) :
  ExtentInRange extent ->
  length (cell_dists (fst (inflate extent zeroExt)) (snd (inflate extent zeroExt)))
  = vtkStructuredData_GetNumberOfCells extent.
Proof.
  intros (R0 & R1 & R2 & R3 & R4 & R5). rewrite inflate_fields. cbn [fst snd].
  unfold cell_dists, vtkStructuredData_GetNumberOfCells. cbn [e0 e1 e2 e3 e4 e5].
  rewrite !cell_axis_count_inflated by assumption.
  rewrite (flat_map_uniform_length _
             (cell_axis_count (e2 extent) (e3 extent) * cell_axis_count (e0 extent) (e1 extent))).
  - rewrite irange_length. lia.
  - intros k _. rewrite (flat_map_uniform_length _ (cell_axis_count (e0 extent) (e1 extent))).
    + rewrite irange_length. reflexivity.
    + intros j _. rewrite length_map, irange_length. reflexivity.
Qed.

(** Marking keeps a byte a byte and keeps its bits. *)
Lemma to_uchar_lor (v flag : Z) :
  is_uchar v -> 0 <= flag < 256 -> to_uchar (Z.lor v flag) = Z.lor v flag.
Proof.
  unfold is_uchar, to_uchar. intros Hv Hf. apply Z.mod_small.
  split; [apply Z.lor_nonneg; lia|].
  destruct (Z.eq_dec (Z.lor v flag) 0) as [->|Hne]; [lia|].
  apply Z.log2_lt_cancel. change (Z.log2 256) with 8.
  rewrite Z.log2_lor by lia.
  assert (Hl : forall x, 0 <= x < 256 -> Z.log2 x < 8).
  { intros x Hx. destruct (Z.eq_dec x 0) as [->|Hx0]; [simpl; lia|].
    apply Z.log2_lt_pow2; lia. }
  pose proof (Hl v Hv). pose proof (Hl flag Hf). lia.
Qed.

Lemma mark1_valid (flag dist v : Z) : is_uchar v -> is_uchar (mark1 flag dist v).
Proof.
  unfold mark1, is_uchar, to_uchar. intros Hv.
  destruct (dist >? 0); [|exact Hv]. apply Z.mod_pos_bound. lia.
Qed.

Lemma mark1_bits (flag dist v : Z) : is_uchar v -> bits_included v (mark1 flag dist v).
Proof.
  unfold mark1, bits_included. intros Hv n Hn Hbit.
  destruct (dist >? 0); [|exact Hbit].
  unfold to_uchar. change 256 with (2 ^ 8).
  assert (n < 8).
  { destruct (Z.lt_ge_cases n 8) as [Hlt|Hge]; [exact Hlt|]. exfalso.
    unfold is_uchar in Hv.
    destruct (Z.eq_dec v 0) as [->|Hv0]; [rewrite Z.bits_0 in Hbit; discriminate|].
    assert (Z.log2 v < 8) by (apply Z.log2_lt_pow2; lia).
    rewrite Z.bits_above_log2 in Hbit by lia. discriminate. }
  rewrite Z.mod_pow2_bits_low by lia. rewrite Z.lor_spec, Hbit. reflexivity.
Qed.

End GhostLoops.

(** ** The object store under the ghost passes *)

Lemma same_kind_refl (x : vtkAbstractArray) : same_kind x x.
Proof. split; [reflexivity|]. destruct (Values x); exact I. Qed.

Lemma same_kind_trans (x y z : vtkAbstractArray) :
  same_kind x y -> same_kind y z -> same_kind x z.
Proof.
  intros [N1 K1] [N2 K2]. split; [congruence|].
  destruct (Values x), (Values y), (Values z); tauto.
Qed.

Lemma shape_preserved_refl (h : Store) : shape_preserved h h.
Proof. intros a x Hx. exists x. split; [exact Hx | apply same_kind_refl]. Qed.

Lemma shape_preserved_trans (h1 h2 h3 : Store) :
  shape_preserved h1 h2 -> shape_preserved h2 h3 -> shape_preserved h1 h3.
Proof.
  intros H12 H23 a x Hx. destruct (H12 a x Hx) as (y & Hy & Kxy).
  destruct (H23 a y Hy) as (z & Hz & Kyz). exists z. split; [exact Hz|].
  eapply same_kind_trans; eauto.
Qed.

Lemma shape_preserved_app (h : Store) (x : vtkAbstractArray) : shape_preserved h (h ++ [x]).
Proof.
  intros a y Hy. exists y. split; [|apply same_kind_refl].
  apply lookup_app_l_Some. exact Hy.
Qed.

Lemma shape_preserved_insert (h : Store) (a : nat) (name : option string) (g g' : list Z) :
  h !! a = Some (mkArray name (UnsignedCharValues g)) ->
  shape_preserved h (<[a := mkArray name (UnsignedCharValues g')]> h).
Proof.
  intros Ha b y Hy. destruct (decide (a = b)) as [<-|Hne].
  - exists (mkArray name (UnsignedCharValues g')). split.
    + apply list_lookup_insert_eq. eapply lookup_lt_Some; eauto.
    + rewrite Ha in Hy. injection Hy as <-. split; [reflexivity | exact I].
  - exists y. split; [|apply same_kind_refl].
    rewrite list_lookup_insert_ne by exact Hne. exact Hy.
Qed.

Lemma shape_preserved_length (h h' : Store) :
  shape_preserved h h' -> (length h <= length h')%nat.
Proof.
  intros Hs. destruct h as [|x h0] eqn:E; [simpl; lia|]. rewrite <- E in *.
  assert (Hlast : is_Some (h !! (length h - 1)%nat)).
  { apply lookup_lt_is_Some_2. rewrite E. simpl. lia. }
  destruct Hlast as (y & Hy). destruct (Hs _ _ Hy) as (z & Hz & _).
  apply lookup_lt_Some in Hz. lia.
Qed.

Lemma has_name_preserved (h h' : Store) (name : string) (a : nat) :
  shape_preserved h h' -> (a < length h)%nat ->
  has_name h' name a = has_name h name a.
Proof.
  intros Hs Ha. destruct (lookup_lt_is_Some_2 h a Ha) as (x & Hx).
  destruct (Hs a x Hx) as (y & Hy & [Hn _]). unfold has_name. rewrite Hx, Hy, Hn. reflexivity.
Qed.

Lemma find_has_name_preserved (h h' : Store) (name : string) (l : list nat) :
  shape_preserved h h' -> (forall a, a ∈ l -> (a < length h)%nat) ->
  List.find (has_name h' name) l = List.find (has_name h name) l.
Proof.
  intros Hs. induction l as [|a l IH]; intros Hl; simpl; [reflexivity|].
  rewrite (has_name_preserved h h' name a Hs) by (apply Hl; left).
  rewrite IH; [reflexivity|]. intros b Hb. apply Hl. right. exact Hb.
Qed.

Lemma find_elem {A : Type} (f : A -> bool) (l : list A) (x : A) :
  List.find f l = Some x -> x ∈ l /\ f x = true.
Proof. intros Hf. apply find_some in Hf as [Hin Hx]. split; [apply list_elem_of_In, Hin | exact Hx]. Qed.

Lemma DownCast_preserved (h h' : Store) (p : option nat) :
  shape_preserved h h' -> (forall a, p = Some a -> (a < length h)%nat) ->
  DownCastUnsignedChar h' p = DownCastUnsignedChar h p.
Proof.
  intros Hs Hp. destruct p as [a|]; [|reflexivity]. simpl.
  destruct (lookup_lt_is_Some_2 h a (Hp a eq_refl)) as (x & Hx).
  destruct (Hs a x Hx) as (y & Hy & [_ Hk]). rewrite Hx, Hy.
  destruct x as [nx [vx|vx]], y as [ny [vy|vy]]; simpl in Hk; tauto.
Qed.

Section GhostStore.

Context `{Externals}.

(** A lookup of the ghost array sees the same object after the store changed
    without renaming or retyping the objects of the attribute set. *)
Lemma lookup_ghost_preserved (h h' : Store) (attrs : vtkDataSetAttributes) :
  shape_preserved h h' ->
  (forall a, a ∈ Arrays attrs -> (a < length h)%nat) ->
  lookup_ghost h' attrs = lookup_ghost h attrs.
Proof.
  intros Hs Hl. unfold lookup_ghost, GetArray.
  rewrite (find_has_name_preserved h h' GhostArrayName _ Hs Hl).
  apply DownCast_preserved; [exact Hs|].
  intros a Ha. apply find_elem in Ha as [Hin _]. apply Hl, Hin.
Qed.

Lemma lookup_ghost_bytes (store : Store) (attrs : vtkDataSetAttributes) (a : nat) :
  lookup_ghost store attrs = Some a ->
  exists name v, store !! a = Some (mkArray name (UnsignedCharValues v))
                 /\ bytes_at store a = Some v /\ (a < length store)%nat.
Proof.
  intros Ha. destruct (lookup_ghost_is_uchar store attrs a Ha) as (name & v & Hv).
  exists name, v. split; [exact Hv|]. split.
  - unfold bytes_at. rewrite Hv. reflexivity.
  - eapply lookup_lt_Some; eauto.
Qed.

Lemma replace_named_find (store : Store) (name : string) (a : nat) (l : list nat) :
  has_name store name a = true ->
  match replace_named store name a l with
  | Some l' => List.find (has_name store name) l' = Some a
               /\ (forall b, b ∈ l' -> b = a \/ b ∈ l)
  | None => List.find (has_name store name) l = None
  end.
Proof.
  intros Ha. induction l as [|b l IH]; simpl; [reflexivity|].
  destruct (has_name store name b) eqn:Eb.
  - simpl. rewrite Ha. split; [reflexivity|].
    intros c Hc. apply elem_of_cons in Hc as [->|Hc]; [left; reflexivity | right; right; exact Hc].
  - destruct (replace_named store name a l) as [l'|]; simpl.
    + destruct IH as [Hf Hin]. rewrite Eb. split; [exact Hf|].
      intros c Hc. apply elem_of_cons in Hc as [->|Hc]; [right; left|].
      destruct (Hin c Hc) as [->|Hc']; [left; reflexivity | right; right; exact Hc'].
    + exact IH.
Qed.

Lemma find_app_none {A : Type} (f : A -> bool) (l : list A) (x : A) :
  List.find f l = None -> f x = true -> List.find f (l ++ [x]) = Some x.
Proof.
  induction l as [|y l IH]; simpl; intros Hn Hx.
  - rewrite Hx. reflexivity.
  - destruct (f y); [discriminate|]. apply IH; assumption.
Qed.

(** After an array named [name] is added, the lookup by [name] finds it. *)
Lemma AddArray_list_find (store : Store) (name : string) (vals : ArrayValues)
    (l : list nat) (a : nat) :
  store !! a = Some (mkArray (Some name) vals) ->
  List.find (has_name store name) (AddArray_list store l a) = Some a
  /\ (forall b, b ∈ AddArray_list store l a -> b = a \/ b ∈ l).
Proof.
  intros Ha. assert (Hn : has_name store name a = true).
  { unfold has_name. rewrite Ha. simpl. apply String.eqb_refl. }
  unfold AddArray_list. rewrite Ha.
  pose proof (replace_named_find store name a l Hn) as Hr.
  destruct (replace_named store name a l) as [l'|].
  - exact Hr.
  - split; [apply find_app_none; assumption|].
    intros b Hb. apply elem_of_app in Hb as [Hb|Hb]; [right; exact Hb|].
    apply list_elem_of_singleton in Hb. left. exact Hb.
Qed.

Lemma AddArray_list_elem (store : Store) (l : list nat) (a b : nat) :
  b ∈ AddArray_list store l a -> b = a \/ b ∈ l.
Proof.
  unfold AddArray_list. intros Hb.
  assert (Happ : b ∈ l ++ [a] -> b = a \/ b ∈ l).
  { intros Hx. apply elem_of_app in Hx as [Hx|Hx]; [right; exact Hx|].
    apply list_elem_of_singleton in Hx. left. exact Hx. }
  destruct (store !! a) as [[[name|] vals]|] eqn:Ea; auto.
  pose proof (replace_named_find store name a l) as Hr.
  destruct (replace_named store name a l) as [l'|]; auto.
  apply Hr; [|exact Hb]. unfold has_name. rewrite Ea. simpl. apply String.eqb_refl.
Qed.

Lemma RemoveArray_list_elem (store : Store) (l : list nat) (name : string) (b : nat) :
  b ∈ RemoveArray_list store l name -> b ∈ l.
Proof.
  unfold RemoveArray_list. destruct (List.find (has_name store name) l); [|auto].
  intros Hb. apply list_elem_of_In, in_remove in Hb as [Hb _]. apply list_elem_of_In, Hb.
Qed.

End GhostStore.

(** ** The two passes of GenerateGhostArray *)

Section GhostPass.

Context `{Externals}.

Lemma update_ghost_buffer_spec (a : nat) (name : option string) (g g' : list Z) (n : nat)
    (loops : list Z -> option (nat * list Z)) (st : State) :
  Heap st !! a = Some (mkArray name (UnsignedCharValues g)) ->
  loops g = Some (n, g') ->
  update_ghost_buffer a loops st
  = Some (set_Heap st (<[a := mkArray name (UnsignedCharValues g')]> (Heap st))).
Proof. intros Ha Hl. unfold update_ghost_buffer. rewrite Ha, Hl. reflexivity. Qed.

Lemma bytes_at_insert (h : Store) (a : nat) (name : option string) (g : list Z) :
  (a < length h)%nat ->
  bytes_at (<[a := mkArray name (UnsignedCharValues g)]> h) a = Some g.
Proof. intros Ha. unfold bytes_at. rewrite list_lookup_insert_eq by exact Ha. reflexivity. Qed.

(** The point pass: it ends, the point data then holds a ghost array, and the
    buffer of that array is the one the pass started from, marked entry by
    entry; no other object of the store changed. *)
Lemma points_pass_spec (zeroExt : Extent) (st : State) :
  AddressesLive st ->
  (forall a v, lookup_ghost (Heap st) (PointData (Self st)) = Some a ->
               bytes_at (Heap st) a = Some v ->
               length v = vtkStructuredData_GetNumberOfPoints (DataExtent (Self st))) ->
  let extent := DataExtent (Self st) in
  let a := fst (points_before extent st) in
  let old := snd (points_before extent st) in
  exists st1,
    points_pass extent zeroExt st = Some st1 /\
    lookup_ghost (Heap st1) (PointData (Self st1)) = Some a /\
    bytes_at (Heap st1) a
      = Some (zip_with (mark1 DUPLICATEPOINT) (point_dists extent zeroExt) old) /\
    length old = vtkStructuredData_GetNumberOfPoints extent /\
    (forall b, b <> a -> (b < length (Heap st))%nat -> Heap st1 !! b = Heap st !! b) /\
    (forall b, (b < length (Heap st1))%nat -> b = a \/ (b < length (Heap st))%nat) /\
    shape_preserved (Heap st) (Heap st1) /\
    CellData (Self st1) = CellData (Self st) /\
    DataExtent (Self st1) = DataExtent (Self st) /\
    ExtentType (Self st1) = ExtentType (Self st) /\
    AddressesLive st1.
Proof.
  intros [LiveP LiveC] Hfit extent a old. subst a old.
  unfold points_pass, ghostPoints_array, points_before.
  destruct (lookup_ghost (Heap st) (PointData (Self st))) as [a|] eqn:Ea.
  - destruct (lookup_ghost_bytes _ _ _ Ea) as (name & v & Hv & Hb & Hlt).
    cbn [fst snd]. rewrite Hb. cbn [default from_option id].
    assert (Hlen : length v = length (point_dists extent zeroExt)).
    { rewrite point_dists_length. apply (Hfit a v eq_refl Hb). }
    assert (Hshape : shape_preserved (Heap st)
              (<[a := mkArray name (UnsignedCharValues
                   (zip_with (mark1 DUPLICATEPOINT) (point_dists extent zeroExt) v))]> (Heap st))).
    { eapply shape_preserved_insert; eauto. }
    eexists. split.
    { eapply update_ghost_buffer_spec; [exact Hv|].
      rewrite point_loops_fold. apply mark_entry_fold_all, Hlen. }
    cbn [Heap Self set_Heap].
    split; [rewrite (lookup_ghost_preserved _ _ _ Hshape LiveP); exact Ea|].
    split; [apply bytes_at_insert, Hlt|].
    split; [rewrite Hlen; apply point_dists_length|].
    split; [intros b Hne _; apply list_lookup_insert_ne; congruence|].
    split; [intros b Hb'; right; rewrite length_insert in Hb'; exact Hb'|].
    split; [exact Hshape|].
    split; [reflexivity|]. split; [reflexivity|]. split; [reflexivity|].
    split; intros b Hb'; cbn [Heap Self set_Heap]; rewrite length_insert; auto.
  - cbn [fst snd]. unfold new_ghost_array.
    set (n := vtkStructuredData_GetNumberOfPoints extent).
    set (a := length (Heap st)).
    set (new := mkArray (Some GhostArrayName) (UnsignedCharValues (replicate n 0))).
    set (h1 := Heap st ++ [new]).
    assert (Hnew : h1 !! a = Some new).
    { subst h1 a. apply (list_lookup_middle (Heap st) [] new). reflexivity. }
    assert (Hlen : length (replicate n 0) = length (point_dists extent zeroExt)).
    { rewrite length_replicate, point_dists_length. reflexivity. }
    set (g' := zip_with (mark1 DUPLICATEPOINT) (point_dists extent zeroExt) (replicate n 0)).
    set (h2 := <[a := mkArray (Some GhostArrayName) (UnsignedCharValues g')]> h1).
    assert (Hs01 : shape_preserved (Heap st) h1) by apply shape_preserved_app.
    assert (Hs12 : shape_preserved h1 h2) by (eapply shape_preserved_insert; exact Hnew).
    assert (Hlen1 : length h1 = S a) by (subst h1 a; rewrite length_app; simpl; lia).
    destruct (AddArray_list_find h1 GhostArrayName _ (Arrays (PointData (Self st))) a Hnew)
      as [Hfind Helem].
    assert (Hlive1 : forall b, b ∈ AddArray_list h1 (Arrays (PointData (Self st))) a ->
                               (b < length h1)%nat).
    { intros b Hb. destruct (Helem b Hb) as [->|Hb']; [lia|].
      specialize (LiveP b Hb'). fold a in LiveP. lia. }
    eexists. split.
    { eapply update_ghost_buffer_spec.
      - cbn. exact Hnew.
      - rewrite point_loops_fold. apply mark_entry_fold_all, Hlen. }
    cbn [Heap Self set_Heap]. cbn. fold h1. fold h2.
    split.
    { unfold lookup_ghost, GetArray. cbn [Arrays].
      rewrite (find_has_name_preserved h1 h2 GhostArrayName _ Hs12 Hlive1), Hfind.
      assert (H2 : h2 !! a = Some (mkArray (Some GhostArrayName) (UnsignedCharValues g')))
        by (apply list_lookup_insert_eq; lia).
      try unfold DownCastUnsignedChar. subst h2 g'. rewrite H2. reflexivity. }
    split; [apply bytes_at_insert; lia|].
    split; [apply length_replicate|].
    split.
    { intros b Hne Hb. subst h2. rewrite list_lookup_insert_ne by congruence.
      subst h1. apply lookup_app_l. exact Hb. }
    split.
    { intros b Hb. subst h2. rewrite length_insert, Hlen1 in Hb.
      destruct (decide (b = a)) as [->|Hne]; [left; reflexivity | right; fold a; lia]. }
    split; [eapply shape_preserved_trans; eauto|].
    split; [reflexivity|]. split; [reflexivity|]. split; [reflexivity|].
    split.
    + intros b Hb. cbn in Hb |- *. rewrite length_insert. exact (Hlive1 b Hb).
    + intros b Hb. cbn in Hb |- *. rewrite length_insert.
      assert (Hx : (b < length h1)%nat)
        by (rewrite Hlen1; specialize (LiveC b Hb); fold a in LiveC; lia).
      exact Hx.
Qed.

(** The cell pass: it ends, the cell data then holds a ghost array whose
    buffer is the one the pass started from, marked entry by entry; no other
    object of the store changed; and the caller's [zeroExt] is the inflated
    one. *)
Lemma cells_pass_spec (zeroExt : Extent) (st : State) :
  ExtentInRange (DataExtent (Self st)) ->
  AddressesLive st ->
  (forall a v, lookup_ghost (Heap st) (CellData (Self st)) = Some a ->
               bytes_at (Heap st) a = Some v ->
               length v = vtkStructuredData_GetNumberOfCells (DataExtent (Self st))) ->
  let extent := DataExtent (Self st) in
  let a := fst (cells_before extent st) in
  let old := snd (cells_before extent st) in
  let ext' := fst (inflate extent zeroExt) in
  let z' := snd (inflate extent zeroExt) in
  exists st1,
    cells_pass extent zeroExt st = Some (st1, z') /\
    lookup_ghost (Heap st1) (CellData (Self st1)) = Some a /\
    bytes_at (Heap st1) a
      = Some (zip_with (mark1 DUPLICATECELL) (cell_dists ext' z') old) /\
    length old = vtkStructuredData_GetNumberOfCells extent /\
    (forall b, b <> a -> (b < length (Heap st))%nat -> Heap st1 !! b = Heap st !! b) /\
    (forall b, (b < length (Heap st1))%nat -> b = a \/ (b < length (Heap st))%nat) /\
    shape_preserved (Heap st) (Heap st1) /\
    PointData (Self st1) = PointData (Self st) /\
    DataExtent (Self st1) = DataExtent (Self st) /\
    ExtentType (Self st1) = ExtentType (Self st) /\
    AddressesLive st1.
Proof.
  intros Hrange [LiveC LiveP] Hfit extent a old ext' z'. subst a old.
  pose proof (cell_dists_length extent zeroExt Hrange) as Hdl. fold ext' z' in Hdl.
  unfold cells_pass, ghostCells_array, cells_before.
  rewrite (surjective_pairing (inflate extent zeroExt)). fold ext' z'.
  destruct (lookup_ghost (Heap st) (CellData (Self st))) as [a|] eqn:Ea.
  - destruct (lookup_ghost_bytes _ _ _ Ea) as (name & v & Hv & Hb & Hlt).
    cbn [fst snd]. rewrite Hb. cbn [default from_option id].
    assert (Hlen : length v = length (cell_dists ext' z')).
    { rewrite Hdl. apply (Hfit a v eq_refl Hb). }
    assert (Hshape : shape_preserved (Heap st)
              (<[a := mkArray name (UnsignedCharValues
                   (zip_with (mark1 DUPLICATECELL) (cell_dists ext' z') v))]> (Heap st))).
    { eapply shape_preserved_insert; eauto. }
    eexists. split.
    { erewrite update_ghost_buffer_spec; [reflexivity | exact Hv |].
      rewrite cell_loops_fold. apply mark_entry_fold_all, Hlen. }
    cbn [Heap Self set_Heap].
    split; [rewrite (lookup_ghost_preserved _ _ _ Hshape LiveP); exact Ea|].
    split; [apply bytes_at_insert, Hlt|].
    split; [rewrite Hlen; exact Hdl|].
    split; [intros b Hne _; apply list_lookup_insert_ne; congruence|].
    split; [intros b Hb'; right; rewrite length_insert in Hb'; exact Hb'|].
    split; [exact Hshape|].
    split; [reflexivity|]. split; [reflexivity|]. split; [reflexivity|].
    split; intros b Hb'; cbn [Heap Self set_Heap]; rewrite length_insert; auto.
  - cbn [fst snd]. unfold new_ghost_array.
    set (n := vtkStructuredData_GetNumberOfCells extent).
    set (a := length (Heap st)).
    set (new := mkArray (Some GhostArrayName) (UnsignedCharValues (replicate n 0))).
    set (h1 := Heap st ++ [new]).
    assert (Hnew : h1 !! a = Some new).
    { subst h1 a. apply (list_lookup_middle (Heap st) [] new). reflexivity. }
    assert (Hlen : length (replicate n 0) = length (cell_dists ext' z')).
    { rewrite length_replicate, Hdl. reflexivity. }
    set (g' := zip_with (mark1 DUPLICATECELL) (cell_dists ext' z') (replicate n 0)).
    set (h2 := <[a := mkArray (Some GhostArrayName) (UnsignedCharValues g')]> h1).
    assert (Hs01 : shape_preserved (Heap st) h1) by apply shape_preserved_app.
    assert (Hs12 : shape_preserved h1 h2) by (eapply shape_preserved_insert; exact Hnew).
    assert (Hlen1 : length h1 = S a) by (subst h1 a; rewrite length_app; simpl; lia).
    destruct (AddArray_list_find h1 GhostArrayName _ (Arrays (CellData (Self st))) a Hnew)
      as [Hfind Helem].
    assert (Hlive1 : forall b, b ∈ AddArray_list h1 (Arrays (CellData (Self st))) a ->
                               (b < length h1)%nat).
    { intros b Hb. destruct (Helem b Hb) as [->|Hb']; [lia|].
      specialize (LiveP b Hb'). fold a in LiveP. lia. }
    eexists. split.
    { erewrite update_ghost_buffer_spec; [reflexivity | cbn; exact Hnew |].
      rewrite cell_loops_fold. apply mark_entry_fold_all, Hlen. }
    cbn [Heap Self set_Heap]. cbn. fold h1. fold h2.
    split.
    { unfold lookup_ghost, GetArray. cbn [Arrays].
      rewrite (find_has_name_preserved h1 h2 GhostArrayName _ Hs12 Hlive1), Hfind.
      assert (H2 : h2 !! a = Some (mkArray (Some GhostArrayName) (UnsignedCharValues g')))
        by (apply list_lookup_insert_eq; lia).
      try unfold DownCastUnsignedChar. subst h2 g'. rewrite H2. reflexivity. }
    split; [apply bytes_at_insert; lia|].
    split; [apply length_replicate|].
    split.
    { intros b Hne Hb. subst h2. rewrite list_lookup_insert_ne by congruence.
      subst h1. apply lookup_app_l. exact Hb. }
    split.
    { intros b Hb. subst h2. rewrite length_insert, Hlen1 in Hb.
      destruct (decide (b = a)) as [->|Hne]; [left; reflexivity | right; fold a; lia]. }
    split; [eapply shape_preserved_trans; eauto|].
    split; [reflexivity|]. split; [reflexivity|]. split; [reflexivity|].
    split.
    + intros b Hb. cbn in Hb |- *. rewrite length_insert.
      assert (Hx : (b < length h1)%nat)
        by (rewrite Hlen1; specialize (LiveC b Hb); fold a in LiveC; lia).
      exact Hx.
    + intros b Hb. cbn in Hb |- *. rewrite length_insert. exact (Hlive1 b Hb).
Qed.

End GhostPass.

(** ** What a pass does to the store *)

Lemma bits_included_refl (v : Z) : bits_included v v.
Proof. intros n _ Hb. exact Hb. Qed.

Lemma bits_included_trans (u v w : Z) :
  bits_included u v -> bits_included v w -> bits_included u w.
Proof. intros Huv Hvw n Hn Hb. apply Hvw, Huv; assumption. Qed.

Lemma bits_preserved_refl (h : Store) : bits_preserved h h.
Proof.
  intros a name g Hg. exists g. split; [exact Hg|]. split; [reflexivity|].
  intros i v Hv. exists v. split; [exact Hv | apply bits_included_refl].
Qed.

Lemma bits_preserved_trans (h1 h2 h3 : Store) :
  bits_preserved h1 h2 -> bits_preserved h2 h3 -> bits_preserved h1 h3.
Proof.
  intros H12 H23 a name g Hg.
  destruct (H12 a name g Hg) as (g2 & Hg2 & Hl2 & Hb2).
  destruct (H23 a name g2 Hg2) as (g3 & Hg3 & Hl3 & Hb3).
  exists g3. split; [exact Hg3|]. split; [congruence|].
  intros i v Hv. destruct (Hb2 i v Hv) as (v2 & Hv2 & Hi2).
  destruct (Hb3 i v2 Hv2) as (v3 & Hv3 & Hi3).
  exists v3. split; [exact Hv3 | eapply bits_included_trans; eauto].
Qed.

Lemma zip_mark_valid (flag : Z) (dists : list Z) :
  forall old, Forall is_uchar old -> Forall is_uchar (zip_with (mark1 flag) dists old).
Proof.
  induction dists as [|d dists IH]; intros old Hold; simpl; [constructor|].
  destruct old as [|v old]; [constructor|].
  inversion Hold; subst. constructor; [apply mark1_valid; assumption | apply IH; assumption].
Qed.

Lemma bytes_at_Some (h : Store) (a : nat) (g : list Z) :
  bytes_at h a = Some g <-> exists name, h !! a = Some (mkArray name (UnsignedCharValues g)).
Proof.
  unfold bytes_at. split.
  - destruct (h !! a) as [[name [v|v]]|]; try discriminate. intros [= ->]. eauto.
  - intros (name & ->). reflexivity.
Qed.

(** The store after a pass that marked the buffer at [a]: every unsigned
    char buffer kept its length and its bits, and still holds bytes. *)
Lemma pass_bits (flag : Z) (h h1 : Store) (a : nat) (dists old : list Z) :
  BytesValid h ->
  length old = length dists ->
  ((a < length h)%nat -> bytes_at h a = Some old) ->
  Forall is_uchar old ->
  bytes_at h1 a = Some (zip_with (mark1 flag) dists old) ->
  (forall b, b <> a -> (b < length h)%nat -> h1 !! b = h !! b) ->
  (forall b, (b < length h1)%nat -> b = a \/ (b < length h)%nat) ->
  shape_preserved h h1 ->
  bits_preserved h h1 /\ BytesValid h1.
Proof.
  intros Hvalid Hlen Hold Hvold Hnew Hother Hdom Hshape. split.
  - intros b name g Hg. assert (Hb : (b < length h)%nat) by (eapply lookup_lt_Some; eauto).
    destruct (decide (b = a)) as [->|Hne].
    + assert (g = old) as ->.
      { specialize (Hold Hb). unfold bytes_at in Hold. rewrite Hg in Hold. congruence. }
      destruct (Hshape a _ Hg) as (y & Hy & [Hn Hk]).
      apply bytes_at_Some in Hnew as (name' & Hnew).
      rewrite Hnew in Hy. injection Hy as <-. simpl in Hn. subst name'.
      eexists. split; [exact Hnew|]. split; [apply length_zip_with_r_eq; exact Hlen|].
      intros i v Hv.
      destruct (lookup_lt_is_Some_2 dists i) as (d & Hd).
      { rewrite <- Hlen. eapply lookup_lt_Some; eauto. }
      exists (mark1 flag d v). split.
      * rewrite lookup_zip_with, Hd, Hv. reflexivity.
      * apply mark1_bits. rewrite Forall_forall in Hvold. apply Hvold.
        apply list_elem_of_lookup. eauto.
    + exists g. split; [rewrite (Hother b Hne Hb); exact Hg|]. split; [reflexivity|].
      intros i v Hv. exists v. split; [exact Hv | apply bits_included_refl].
  - intros b name v Hv. assert (Hb : (b < length h1)%nat) by (eapply lookup_lt_Some; eauto).
    destruct (decide (b = a)) as [->|Hne].
    + unfold bytes_at in Hnew. rewrite Hv in Hnew. injection Hnew as ->.
      apply zip_mark_valid, Hvold.
    + destruct (Hdom b Hb) as [?|Hlt]; [contradiction|].
      rewrite (Hother b Hne Hlt) in Hv. eapply Hvalid; eauto.
Qed.

Section GhostEffects.

Context `{Externals}.

Lemma points_before_facts (extent : Extent) (st : State) :
  BytesValid (Heap st) ->
  let a := fst (points_before extent st) in
  let old := snd (points_before extent st) in
  ((a < length (Heap st))%nat -> bytes_at (Heap st) a = Some old) /\
  Forall is_uchar old /\
  (lookup_ghost (Heap st) (PointData (Self st)) = None -> a = length (Heap st)) /\
  (forall b, lookup_ghost (Heap st) (PointData (Self st)) = Some b -> a = b).
Proof.
  intros Hvalid. unfold points_before.
  destruct (lookup_ghost (Heap st) (PointData (Self st))) as [b|] eqn:E; cbn [fst snd].
  - destruct (lookup_ghost_bytes _ _ _ E) as (name & v & Hv & Hb & Hlt).
    rewrite Hb. simpl. split; [intros _; reflexivity|]. split; [eapply Hvalid; eauto|].
    split; [discriminate | intros ? [= <-]; reflexivity].
  - split; [lia|]. split.
    + apply Forall_forall. intros x Hx. apply elem_of_replicate in Hx as [-> _].
      unfold is_uchar. lia.
    + split; [reflexivity | discriminate].
Qed.

Lemma cells_before_facts (extent : Extent) (st : State) :
  BytesValid (Heap st) ->
  let a := fst (cells_before extent st) in
  let old := snd (cells_before extent st) in
  ((a < length (Heap st))%nat -> bytes_at (Heap st) a = Some old) /\
  Forall is_uchar old /\
  (lookup_ghost (Heap st) (CellData (Self st)) = None -> a = length (Heap st)) /\
  (forall b, lookup_ghost (Heap st) (CellData (Self st)) = Some b -> a = b).
Proof.
  intros Hvalid. unfold cells_before.
  destruct (lookup_ghost (Heap st) (CellData (Self st))) as [b|] eqn:E; cbn [fst snd].
  - destruct (lookup_ghost_bytes _ _ _ E) as (name & v & Hv & Hb & Hlt).
    rewrite Hb. simpl. split; [intros _; reflexivity|]. split; [eapply Hvalid; eauto|].
    split; [discriminate | intros ? [= <-]; reflexivity].
  - split; [lia|]. split.
    + apply Forall_forall. intros x Hx. apply elem_of_replicate in Hx as [-> _].
      unfold is_uchar. lia.
    + split; [reflexivity | discriminate].
Qed.

End GhostEffects.

(** ** GenerateGhostArray as a whole *)

Section GhostRun.

Context `{Externals}.

Lemma StoreOK_parts (st : State) :
  StoreOK st <-> AddressesLive st /\ BytesValid (Heap st).
Proof. unfold StoreOK, AddressesLive, BytesValid. tauto. Qed.

(** The first stage of a call that passes the two guards: the point pass,
    unless [cellOnly] is set. *)
Lemma first_stage (zeroExt : Extent) (cellOnly : bool) (st : State) :
  StoreOK st -> GhostBuffersFit st ->
  let E := DataExtent (Self st) in
  let ap := fst (points_before E st) in
  exists st1,
    (if negb cellOnly then points_pass E zeroExt st else Some st) = Some st1 /\
    (if cellOnly then st1 = st
     else lookup_ghost (Heap st1) (PointData (Self st1)) = Some ap /\
          bytes_at (Heap st1) ap
            = Some (zip_with (mark1 DUPLICATEPOINT) (point_dists E zeroExt)
                      (snd (points_before E st))) /\
          length (snd (points_before E st)) = vtkStructuredData_GetNumberOfPoints E) /\
    bits_preserved (Heap st) (Heap st1) /\
    shape_preserved (Heap st) (Heap st1) /\
    (forall b, (b < length (Heap st1))%nat -> b = ap \/ (b < length (Heap st))%nat) /\
    CellData (Self st1) = CellData (Self st) /\
    DataExtent (Self st1) = DataExtent (Self st) /\
    StoreOK st1.
Proof.
  intros Hok Hfit E ap. pose proof (proj1 (StoreOK_parts st) Hok) as [Hlive Hvalid].
  destruct cellOnly; simpl.
  - exists st. split; [reflexivity|]. split; [reflexivity|].
    split; [apply bits_preserved_refl|]. split; [apply shape_preserved_refl|].
    split; [intros b Hb; right; exact Hb|]. auto.
  - destruct (points_pass_spec zeroExt st Hlive (proj1 Hfit))
      as (st1 & Hrun & Hlook & Hbytes & Hlen & Hother & Hdom & Hshape & HCD & HE & HT & Hlive1).
    fold E in Hrun, Hlook, Hbytes, Hlen, Hother, Hdom. fold ap in Hlook, Hbytes, Hother, Hdom.
    destruct (points_before_facts E st Hvalid) as (Hold & Hvold & _ & _). fold ap in Hold.
    destruct (pass_bits DUPLICATEPOINT (Heap st) (Heap st1) ap (point_dists E zeroExt)
                (snd (points_before E st)) Hvalid
                ltac:(rewrite Hlen, point_dists_length; reflexivity)
                Hold Hvold Hbytes Hother Hdom Hshape) as [Hbits Hvalid1].
    exists st1. split; [exact Hrun|]. split; [auto|].
    split; [exact Hbits|]. split; [exact Hshape|]. split; [exact Hdom|].
    split; [exact HCD|]. split; [exact HE|].
    apply StoreOK_parts. split; assumption.
Qed.

(** A fitting cell buffer still fits after the first stage. *)
Lemma cells_fit_after (st st1 : State) :
  StoreOK st -> GhostBuffersFit st ->
  bits_preserved (Heap st) (Heap st1) ->
  shape_preserved (Heap st) (Heap st1) ->
  CellData (Self st1) = CellData (Self st) ->
  DataExtent (Self st1) = DataExtent (Self st) ->
  lookup_ghost (Heap st1) (CellData (Self st1)) = lookup_ghost (Heap st) (CellData (Self st))
  /\ forall a v, lookup_ghost (Heap st1) (CellData (Self st1)) = Some a ->
                 bytes_at (Heap st1) a = Some v ->
                 length v = vtkStructuredData_GetNumberOfCells (DataExtent (Self st1)).
Proof.
  intros Hok Hfit Hbits Hshape HCD HE.
  pose proof (proj1 (StoreOK_parts st) Hok) as [[_ LiveC] Hvalid].
  assert (Hlook : lookup_ghost (Heap st1) (CellData (Self st1))
                  = lookup_ghost (Heap st) (CellData (Self st))).
  { rewrite HCD. apply lookup_ghost_preserved; assumption. }
  split; [exact Hlook|].
  intros a v Ha Hv. rewrite Hlook in Ha. rewrite HE.
  destruct (lookup_ghost_bytes _ _ _ Ha) as (name & v0 & Hv0 & Hb0 & _).
  destruct (Hbits a name v0 Hv0) as (g' & Hg' & Hl & _).
  unfold bytes_at in Hv. rewrite Hg' in Hv. injection Hv as <-.
  rewrite Hl. apply (proj2 Hfit a v0 Ha Hb0).
Qed.

(** A call that passes the two guards: it ends, and this is what its two
    stages leave. *)
Lemma GenerateGhostArray_runs (zeroExt : Extent) (cellOnly : bool) (st : State) :
  ExtentType (Self st) = VTK_3D_EXTENT ->
  sameExtent (DataExtent (Self st)) zeroExt = false ->
  ExtentInRange (DataExtent (Self st)) ->
  StoreOK st -> GhostBuffersFit st ->
  let E := DataExtent (Self st) in
  let ap := fst (points_before E st) in
  let z' := snd (inflate E zeroExt) in
  exists st1 st2,
    GenerateGhostArray zeroExt cellOnly st = Some (st2, z') /\
    ((if cellOnly then st1 = st
      else lookup_ghost (Heap st1) (PointData (Self st1)) = Some ap /\
           bytes_at (Heap st1) ap
             = Some (zip_with (mark1 DUPLICATEPOINT) (point_dists E zeroExt)
                       (snd (points_before E st))) /\
           length (snd (points_before E st)) = vtkStructuredData_GetNumberOfPoints E) /\
     bits_preserved (Heap st) (Heap st1) /\
     shape_preserved (Heap st) (Heap st1) /\
     (forall b, (b < length (Heap st1))%nat -> b = ap \/ (b < length (Heap st))%nat) /\
     lookup_ghost (Heap st1) (CellData (Self st1))
       = lookup_ghost (Heap st) (CellData (Self st)) /\
     StoreOK st1) /\
    (let ac := fst (cells_before E st1) in
     lookup_ghost (Heap st2) (CellData (Self st2)) = Some ac /\
     bytes_at (Heap st2) ac
       = Some (zip_with (mark1 DUPLICATECELL) (cell_dists (fst (inflate E zeroExt)) z')
                 (snd (cells_before E st1))) /\
     length (snd (cells_before E st1)) = vtkStructuredData_GetNumberOfCells E /\
     (forall b, b <> ac -> (b < length (Heap st1))%nat -> Heap st2 !! b = Heap st1 !! b) /\
     bits_preserved (Heap st1) (Heap st2) /\
     shape_preserved (Heap st1) (Heap st2) /\
     PointData (Self st2) = PointData (Self st1) /\
     StoreOK st2).
Proof.
  intros H3D Hdiff Hrange Hok Hfit E ap z'.
  destruct (first_stage zeroExt cellOnly st Hok Hfit)
    as (st1 & Hrun1 & Hpts & Hbits1 & Hshape1 & Hdom1 & HCD & HE & Hok1).
  fold E in Hrun1, Hpts. fold ap in Hpts, Hdom1.
  destruct (cells_fit_after st st1 Hok Hfit Hbits1 Hshape1 HCD HE) as [Hlook1 Hfit1].
  pose proof (proj1 (StoreOK_parts st1) Hok1) as [Hlive1 Hvalid1].
  assert (Hrange1 : ExtentInRange (DataExtent (Self st1))) by (rewrite HE; exact Hrange).
  destruct (cells_pass_spec zeroExt st1 Hrange1 Hlive1 Hfit1)
    as (st2 & Hrun2 & Hlook2 & Hbytes2 & Hlen2 & Hother2 & Hdom2 & Hshape2 & HPD & _ & _ & Hlive2).
  rewrite HE in Hrun2, Hlook2, Hbytes2, Hlen2, Hother2, Hdom2. fold E in Hrun2, Hlook2, Hbytes2, Hlen2, Hother2, Hdom2.
  destruct (cells_before_facts E st1 Hvalid1) as (Hold & Hvold & _ & _).
  destruct (pass_bits DUPLICATECELL (Heap st1) (Heap st2) (fst (cells_before E st1))
              (cell_dists (fst (inflate E zeroExt)) (snd (inflate E zeroExt)))
              (snd (cells_before E st1)) Hvalid1
              ltac:(rewrite Hlen2; symmetry; apply cell_dists_length; exact Hrange)
              Hold Hvold Hbytes2 Hother2 Hdom2 Hshape2) as [Hbits2 Hvalid2].
  exists st1, st2. split.
  { unfold GenerateGhostArray. rewrite H3D, Z.eqb_refl. simpl. rewrite Hdiff. fold E.
    rewrite Hrun1. exact Hrun2. }
  split.
  { split; [exact Hpts|]. split; [exact Hbits1|]. split; [exact Hshape1|].
    split; [exact Hdom1|]. split; [exact Hlook1 | exact Hok1]. }
  split; [exact Hlook2|]. split; [exact Hbytes2|]. split; [exact Hlen2|].
  split; [exact Hother2|]. split; [exact Hbits2|]. split; [exact Hshape2|].
  split; [exact HPD|]. apply StoreOK_parts. split; assumption.
Qed.

End GhostRun.

(** ** The claims about GenerateGhostArray *)

Section GhostClaims.

Context `{Externals}.

Lemma sameExtent_false (a b : Extent) : a <> b -> sameExtent a b = false.
Proof.
  intros Hne. destruct (sameExtent a b) eqn:E; [|reflexivity].
  apply sameExtent_eq in E. contradiction.
Qed.

Lemma early_return (zeroExt : Extent) (cellOnly : bool) (st : State) :
  ExtentType (Self st) <> VTK_3D_EXTENT \/ DataExtent (Self st) = zeroExt ->
  GenerateGhostArray zeroExt cellOnly st = Some (st, zeroExt).
Proof.
  intros Hg. unfold GenerateGhostArray.
  destruct (Z.eqb_spec (ExtentType (Self st)) VTK_3D_EXTENT) as [E3|E3]; simpl; [|reflexivity].
  destruct Hg as [Hg| ->]; [contradiction|]. rewrite sameExtent_refl. reflexivity.
Qed.

Lemma lookup_ghost_named (store : Store) (attrs : vtkDataSetAttributes) (a : nat) :
  lookup_ghost store attrs = Some a ->
  a ∈ Arrays attrs /\
  exists v, store !! a = Some (mkArray (Some GhostArrayName) (UnsignedCharValues v)).
Proof.
  intros Ha. destruct (lookup_ghost_is_uchar store attrs a Ha) as (name & v & Hv).
  unfold lookup_ghost, DownCastUnsignedChar in Ha.
  destruct (GetArray store attrs GhostArrayName) as [b|] eqn:Eb; [|discriminate].
  assert (b = a) as ->.
  { destruct (store !! b) as [[n [w|w]]|]; try discriminate. congruence. }
  unfold GetArray in Eb. apply find_elem in Eb as [Hin Hn]. split; [exact Hin|].
  unfold has_name in Hn. rewrite Hv in Hn. simpl in Hn.
  destruct name as [n|]; [|discriminate]. apply String.eqb_eq in Hn. subst n. eauto.
Qed.

(** The cell pass works on another object than the point pass. *)
Lemma cell_array_elsewhere (E : Extent) (st st1 : State) :
  BytesValid (Heap st) -> BytesValid (Heap st1) ->
  lookup_ghost (Heap st1) (CellData (Self st1))
    = lookup_ghost (Heap st) (CellData (Self st)) ->
  (fst (points_before E st) < length (Heap st1))%nat ->
  (lookup_ghost (Heap st) (PointData (Self st)) = None \/ GhostArraysDistinct st) ->
  fst (cells_before E st1) <> fst (points_before E st).
Proof.
  intros Hv Hv1 Hlook Hlt Hdist.
  destruct (points_before_facts E st Hv) as (_ & _ & HPn & HPs).
  destruct (cells_before_facts E st1 Hv1) as (_ & _ & HCn & HCs).
  destruct (lookup_ghost (Heap st1) (CellData (Self st1))) as [b|] eqn:Ec.
  - rewrite (HCs b eq_refl). symmetry in Hlook.
    destruct (lookup_ghost_bytes _ _ _ Hlook) as (_ & _ & _ & _ & Hb).
    destruct (lookup_ghost (Heap st) (PointData (Self st))) as [a|] eqn:Ep.
    + rewrite (HPs a eq_refl). destruct Hdist as [Hd|Hd]; [discriminate|].
      intros ->. exact (Hd a a Ep Hlook eq_refl).
    + rewrite (HPn eq_refl). lia.
  - rewrite (HCn eq_refl). lia.
Qed.

Lemma zip_mark_zero (flag : Z) (dists : list Z) (n : nat) :
  0 <= flag < 256 ->
  Forall (fun v => v = 0 \/ v = flag) (zip_with (mark1 flag) dists (replicate n 0)).
Proof.
  intros Hf. revert n. induction dists as [|d dists IH]; intros n; simpl; [constructor|].
  destruct n as [|n]; simpl; [constructor|]. constructor; [|apply IH].
  unfold mark1. destruct (d >? 0); [right | left; reflexivity].
  rewrite to_uchar_lor by (unfold is_uchar; lia). reflexivity.
Qed.

(** C9 (amended). When the dataset has a 3D extent type and its true extent
    differs from [zeroExt], [GenerateGhostArray] changes the caller's
    [zeroExt] in place: on every axis on which the true extent is degenerate
    (lower bound equal to upper bound) the upper bound of [zeroExt] is one
    more after the call, and no other entry changes. When the call returns
    at one of its two guards (the extent type is not 3D, or the true extent
    equals [zeroExt]) it changes neither [zeroExt] nor the dataset. *)
Theorem GenerateGhostArray_zeroExt (zeroExt : Extent) (cellOnly : bool) (st : State) :
  ExtentInRange (DataExtent (Self st)) -> ExtentInRange zeroExt ->
  StoreOK st -> GhostBuffersFit st ->
  let E := DataExtent (Self st) in
  exists st' zeroExt',
    GenerateGhostArray zeroExt cellOnly st = Some (st', zeroExt') /\
    (ExtentType (Self st) = VTK_3D_EXTENT -> E <> zeroExt ->
     zeroExt' =
     mkExtent (e0 zeroExt) (if e0 E =? e1 E then e1 zeroExt + 1 else e1 zeroExt)
              (e2 zeroExt) (if e2 E =? e3 E then e3 zeroExt + 1 else e3 zeroExt)
              (e4 zeroExt) (if e4 E =? e5 E then e5 zeroExt + 1 else e5 zeroExt)) /\
    (ExtentType (Self st) <> VTK_3D_EXTENT \/ E = zeroExt ->
     zeroExt' = zeroExt /\ st' = st).
Proof.
  intros Hrange (R0 & R1 & R2 & R3 & R4 & R5) Hok Hfit E.
  destruct (Z.eq_dec (ExtentType (Self st)) VTK_3D_EXTENT) as [H3D|H3D].
  - destruct (sameExtent E zeroExt) eqn:Hsame.
    + apply sameExtent_eq in Hsame.
      exists st, zeroExt. split; [apply early_return; right; exact Hsame|].
      split; [intros _ Hne; contradiction | auto].
    + destruct (GenerateGhostArray_runs zeroExt cellOnly st H3D Hsame Hrange Hok Hfit)
        as (st1 & st2 & Hrun & _ & _).
      exists st2, (snd (inflate E zeroExt)). split; [exact Hrun|]. split.
      * intros _ _. rewrite inflate_fields. cbn [snd].
        rewrite !wrap32_id by (unfold int_range; lia). reflexivity.
      * intros [Hc|Hc]; [contradiction|]. exfalso.
        rewrite Hc, sameExtent_refl in Hsame. discriminate.
  - exists st, zeroExt. split; [apply early_return; left; exact H3D|].
    split; [intros Hc; contradiction | auto].
Qed.

(** C7. [GenerateGhostArray] creates each ghost array when the pass that
    uses it runs and finds none: the new array has one entry per point (resp.
    per cell) of the extent, is filled with 0 before the pass marks it (so
    its entries are 0 or the duplicate flag), and is then found under the
    reserved ghost name in the point (resp. cell) data. Arrays that exist
    keep their entries: whatever the arguments, every unsigned char buffer of
    the store has the same length after the call and each entry has at least
    the bits it had; bits are OR-ed in, never cleared. *)
Theorem GenerateGhostArray_arrays (zeroExt : Extent) (cellOnly : bool) (st : State) :
  GhostBitsOK ->
  ExtentInRange (DataExtent (Self st)) ->
  StoreOK st -> GhostBuffersFit st ->
  let E := DataExtent (Self st) in
  exists st' zeroExt',
    GenerateGhostArray zeroExt cellOnly st = Some (st', zeroExt') /\
    bits_preserved (Heap st) (Heap st') /\
    (ExtentType (Self st) = VTK_3D_EXTENT -> E <> zeroExt -> cellOnly = false ->
     lookup_ghost (Heap st) (PointData (Self st)) = None ->
     exists g,
       lookup_ghost (Heap st') (PointData (Self st')) = Some (length (Heap st)) /\
       length (Heap st) ∈ Arrays (PointData (Self st')) /\
       Heap st' !! length (Heap st)
         = Some (mkArray (Some GhostArrayName) (UnsignedCharValues g)) /\
       length g = vtkStructuredData_GetNumberOfPoints E /\
       Forall (fun v => v = 0 \/ v = DUPLICATEPOINT) g) /\
    (ExtentType (Self st) = VTK_3D_EXTENT -> E <> zeroExt ->
     lookup_ghost (Heap st) (CellData (Self st)) = None ->
     exists a g,
       (length (Heap st) <= a)%nat /\
       lookup_ghost (Heap st') (CellData (Self st')) = Some a /\
       a ∈ Arrays (CellData (Self st')) /\
       Heap st' !! a = Some (mkArray (Some GhostArrayName) (UnsignedCharValues g)) /\
       length g = vtkStructuredData_GetNumberOfCells E /\
       Forall (fun v => v = 0 \/ v = DUPLICATECELL) g).
Proof.
  intros [HbP HbC] Hrange Hok Hfit E.
  assert (Hearly : ExtentType (Self st) <> VTK_3D_EXTENT \/ E = zeroExt ->
          exists st' zeroExt',
            GenerateGhostArray zeroExt cellOnly st = Some (st', zeroExt') /\
            bits_preserved (Heap st) (Heap st') /\
            (ExtentType (Self st) = VTK_3D_EXTENT -> E <> zeroExt -> cellOnly = false ->
             lookup_ghost (Heap st) (PointData (Self st)) = None ->
             exists g,
               lookup_ghost (Heap st') (PointData (Self st')) = Some (length (Heap st)) /\
               length (Heap st) ∈ Arrays (PointData (Self st')) /\
               Heap st' !! length (Heap st)
                 = Some (mkArray (Some GhostArrayName) (UnsignedCharValues g)) /\
               length g = vtkStructuredData_GetNumberOfPoints E /\
               Forall (fun v => v = 0 \/ v = DUPLICATEPOINT) g) /\
            (ExtentType (Self st) = VTK_3D_EXTENT -> E <> zeroExt ->
             lookup_ghost (Heap st) (CellData (Self st)) = None ->
             exists a g,
               (length (Heap st) <= a)%nat /\
               lookup_ghost (Heap st') (CellData (Self st')) = Some a /\
               a ∈ Arrays (CellData (Self st')) /\
               Heap st' !! a = Some (mkArray (Some GhostArrayName) (UnsignedCharValues g)) /\
               length g = vtkStructuredData_GetNumberOfCells E /\
               Forall (fun v => v = 0 \/ v = DUPLICATECELL) g)).
  { intros Hg. exists st, zeroExt. split; [apply early_return; exact Hg|].
    split; [apply bits_preserved_refl|].
    split; intros H3 Hne; exfalso; destruct Hg; contradiction. }
  destruct (Z.eq_dec (ExtentType (Self st)) VTK_3D_EXTENT) as [H3D|H3D]; [|apply Hearly; auto].
  destruct (sameExtent E zeroExt) eqn:Hsame;
    [apply Hearly; right; apply sameExtent_eq; exact Hsame|].
  clear Hearly.
  destruct (GenerateGhostArray_runs zeroExt cellOnly st H3D Hsame Hrange Hok Hfit)
    as (st1 & st2 & Hrun & (Hpts & Hbits1 & Hshape1 & Hdom1 & Hlook1 & Hok1)
        & Hlook2 & Hbytes2 & Hlen2 & Hother2 & Hbits2 & Hshape2 & HPD & Hok2).
  fold E in Hpts, Hdom1, Hlook2, Hbytes2, Hlen2, Hother2.
  pose proof (proj1 (StoreOK_parts st) Hok) as [Hlive Hvalid].
  pose proof (proj1 (StoreOK_parts st1) Hok1) as [Hlive1 Hvalid1].
  exists st2, (snd (inflate E zeroExt)). split; [exact Hrun|].
  split; [eapply bits_preserved_trans; eauto|]. split.
  - intros _ _ -> Habs. destruct Hpts as (HlookP & HbytesP & HlenP).
    destruct (points_before_facts E st Hvalid) as (_ & _ & HPn & _).
    assert (Hap : fst (points_before E st) = length (Heap st)) by (apply HPn, Habs).
    assert (Hold : snd (points_before E st)
                   = replicate (vtkStructuredData_GetNumberOfPoints E) 0).
    { unfold points_before. rewrite Habs. reflexivity. }
    rewrite Hap in HlookP, HbytesP. rewrite Hold in HbytesP.
    assert (Hlt : (length (Heap st) < length (Heap st1))%nat).
    { apply bytes_at_Some in HbytesP as (nm & Hnm). eapply lookup_lt_Some; eauto. }
    assert (Hne : fst (cells_before E st1) <> length (Heap st)).
    { rewrite <- Hap. apply cell_array_elsewhere; auto. rewrite Hap. exact Hlt. }
    assert (HlookP2 : lookup_ghost (Heap st2) (PointData (Self st2)) = Some (length (Heap st))).
    { rewrite HPD. rewrite (lookup_ghost_preserved _ _ _ Hshape2 (proj1 Hlive1)). exact HlookP. }
    destruct (lookup_ghost_named _ _ _ HlookP2) as (Hin & v & Hv).
    eexists. split; [exact HlookP2|]. split; [exact Hin|].
    assert (Hsame2 : Heap st2 !! length (Heap st) = Heap st1 !! length (Heap st)).
    { apply Hother2; [congruence | exact Hlt]. }
    assert (v = zip_with (mark1 DUPLICATEPOINT) (point_dists E zeroExt)
                  (replicate (vtkStructuredData_GetNumberOfPoints E) 0)) as Hveq.
    { unfold bytes_at in HbytesP. rewrite <- Hsame2, Hv in HbytesP. congruence. }
    split; [exact Hv|]. subst v. split.
    + rewrite length_zip_with_r_eq;
        rewrite length_replicate; [reflexivity | rewrite point_dists_length; reflexivity].
    + apply zip_mark_zero. lia.
  - intros _ _ Habs.
    destruct (cells_before_facts E st1 Hvalid1) as (_ & _ & HCn & _).
    rewrite <- Hlook1 in Habs.
    assert (Hac : fst (cells_before E st1) = length (Heap st1)) by (apply HCn, Habs).
    assert (Hold : snd (cells_before E st1)
                   = replicate (vtkStructuredData_GetNumberOfCells E) 0).
    { unfold cells_before. rewrite Habs. reflexivity. }
    rewrite Hac in Hlook2, Hbytes2. rewrite Hold in Hbytes2.
    destruct (lookup_ghost_named _ _ _ Hlook2) as (Hin & v & Hv).
    exists (length (Heap st1)), v.
    split; [apply shape_preserved_length, Hshape1|].
    split; [exact Hlook2|]. split; [exact Hin|]. split; [exact Hv|].
    assert (v = zip_with (mark1 DUPLICATECELL)
                  (cell_dists (fst (inflate E zeroExt)) (snd (inflate E zeroExt)))
                  (replicate (vtkStructuredData_GetNumberOfCells E) 0)) as ->.
    { unfold bytes_at in Hbytes2. rewrite Hv in Hbytes2. congruence. }
    split.
    + rewrite length_zip_with_r_eq;
        rewrite length_replicate; [reflexivity | rewrite cell_dists_length; [reflexivity | exact Hrange]].
    + apply zip_mark_zero. lia.
Qed.

End GhostClaims.

(** ** The guard on the point pass *)

Section GhostGuard.

Context `{Externals}.

(** The stages of a call that produced a result. *)
Lemma GenerateGhostArray_stages (zeroExt : Extent) (cellOnly : bool)
    (st st' : State) (z' : Extent) :
  GenerateGhostArray zeroExt cellOnly st = Some (st', z') ->
  ((ExtentType (Self st) <> VTK_3D_EXTENT \/ DataExtent (Self st) = zeroExt)
   /\ st' = st /\ z' = zeroExt)
  \/
  (ExtentType (Self st) = VTK_3D_EXTENT /\ DataExtent (Self st) <> zeroExt /\
   exists st1,
     (if cellOnly then st1 = st
      else points_pass (DataExtent (Self st)) zeroExt st = Some st1) /\
     cells_pass (DataExtent (Self st)) zeroExt st1 = Some (st', z')).
Proof.
  unfold GenerateGhostArray. intros Hrun.
  destruct (Z.eqb_spec (ExtentType (Self st)) VTK_3D_EXTENT) as [H3D|H3D]; cbn [negb] in Hrun.
  - destruct (sameExtent (DataExtent (Self st)) zeroExt) eqn:Hsame.
    + apply sameExtent_eq in Hsame. injection Hrun as <- <-. left. auto.
    + right. split; [exact H3D|]. split.
      { intros Heq. rewrite Heq, sameExtent_refl in Hsame. discriminate. }
      destruct cellOnly; cbn [negb] in Hrun.
      * exists st. auto.
      * destruct (points_pass (DataExtent (Self st)) zeroExt st) as [st1|]; [|discriminate].
        exists st1. auto.
  - injection Hrun as <- <-. left. auto.
Qed.

(** A call ends, whatever its arguments, on a well-formed state. *)
Lemma GenerateGhostArray_total (zeroExt : Extent) (cellOnly : bool) (st : State) :
  ExtentInRange (DataExtent (Self st)) -> StoreOK st -> GhostBuffersFit st ->
  exists st' z', GenerateGhostArray zeroExt cellOnly st = Some (st', z').
Proof.
  intros Hrange Hok Hfit.
  destruct (Z.eq_dec (ExtentType (Self st)) VTK_3D_EXTENT) as [H3D|H3D].
  - destruct (sameExtent (DataExtent (Self st)) zeroExt) eqn:Hsame.
    + apply sameExtent_eq in Hsame. exists st, zeroExt. apply early_return. right. exact Hsame.
    + destruct (GenerateGhostArray_runs zeroExt cellOnly st H3D Hsame Hrange Hok Hfit)
        as (st1 & st2 & Hrun & _). eauto.
  - exists st, zeroExt. apply early_return. left. exact H3D.
Qed.

(** A call with [cellOnly = true] skips the point pass: the point data is
    the same, and every object of the store other than the cell ghost array
    is what it was. *)
Lemma cellOnly_frame (zeroExt : Extent) (st : State) :
  ExtentInRange (DataExtent (Self st)) -> StoreOK st -> GhostBuffersFit st ->
  exists st' zeroExt',
    GenerateGhostArray zeroExt true st = Some (st', zeroExt') /\
    PointData (Self st') = PointData (Self st) /\
    shape_preserved (Heap st) (Heap st') /\
    (forall b, (b < length (Heap st))%nat ->
               lookup_ghost (Heap st) (CellData (Self st)) <> Some b ->
               Heap st' !! b = Heap st !! b).
Proof.
  intros Hrange Hok Hfit.
  pose proof (proj1 (StoreOK_parts st) Hok) as [Hlive Hvalid].
  destruct (GenerateGhostArray_total zeroExt true st Hrange Hok Hfit) as (st' & z' & Hrun).
  exists st', z'. split; [exact Hrun|].
  destruct (GenerateGhostArray_stages _ _ _ _ _ Hrun)
    as [(_ & -> & ->)|(H3D & Hne & st1 & -> & Hcells)].
  - split; [reflexivity|]. split; [apply shape_preserved_refl | auto].
  - destruct (cells_pass_spec zeroExt st Hrange Hlive (proj2 Hfit))
      as (s2 & Hrun2 & _ & _ & _ & Hother2 & _ & Hshape2 & HPD & _).
    rewrite Hcells in Hrun2. injection Hrun2 as <- _.
    split; [exact HPD|]. split; [exact Hshape2|].
    intros b Hb Hnot. apply Hother2; [|exact Hb].
    destruct (cells_before_facts (DataExtent (Self st)) st Hvalid) as (_ & _ & Hn & Hs).
    destruct (lookup_ghost (Heap st) (CellData (Self st))) as [c|] eqn:Ec.
    + rewrite (Hs c eq_refl). intros ->. apply Hnot. reflexivity.
    + rewrite (Hn eq_refl). lia.
Qed.

End GhostGuard.

Section GhostPoints.

Context `{Externals}.

Lemma points_before_entry (E : Extent) (st : State) (idx : nat) :
  (idx < length (snd (points_before E st)))%nat ->
  snd (points_before E st) !! idx = Some (point_ghost_entry st idx).
Proof.
  unfold points_before, point_ghost_entry.
  destruct (lookup_ghost (Heap st) (PointData (Self st))) as [a|]; cbn [snd]; intros Hlt.
  - destruct (lookup_lt_is_Some_2 _ _ Hlt) as (v & Hv). rewrite Hv. reflexivity.
  - rewrite length_replicate in Hlt. apply lookup_replicate_2, Hlt.
Qed.

Lemma point_index_bound (E : Extent) (i j k : Z) :
  in_extent E i j k -> (point_index E i j k < vtkStructuredData_GetNumberOfPoints E)%nat.
Proof.
  intros Hin. rewrite <- (point_dists_length E E).
  eapply lookup_lt_Some. apply (point_dists_lookup E E i j k Hin).
Qed.

(** C1 (amended). For a structured dataset whose true extent differs from the
    canonical extent, [GenerateGhostArray] called with [cellOnly = false]
    marks exactly the points whose Chebyshev overflow distance is positive.
    Per axis the distance is max(0, Z_lo - axis, axis - Z_hi), with one added
    when the index exceeds the canonical upper bound; the axes are combined
    by max. The entry of every point with distance > 0 is its former value
    with the DUPLICATEPOINT bit OR-ed in, the entry of every point with
    distance 0 is its former value (0 for a buffer the call creates). Called
    with [cellOnly = true] it neither creates nor changes the point ghost
    array: the point data is the same, it has a ghost array after the call
    exactly when it had one before, and that array holds the same bytes. For
    the true extent [0,4,0,4,0,0] and the canonical extent [1,3,1,3,0,0],
    with [cellOnly = false] and no ghost array before the call, the 16 border
    entries are DUPLICATEPOINT and the 9 interior entries are 0. *)
Theorem GenerateGhostArray_points (zeroExt : Extent) (st : State) :
  GhostBitsOK ->
  ExtentType (Self st) = VTK_3D_EXTENT ->
  DataExtent (Self st) <> zeroExt ->
  ExtentInRange (DataExtent (Self st)) -> ExtentInRange zeroExt ->
  StoreOK st -> GhostBuffersFit st -> GhostArraysDistinct st ->
  let E := DataExtent (Self st) in
  (exists st' zeroExt' a g,
    GenerateGhostArray zeroExt false st = Some (st', zeroExt') /\
    lookup_ghost (Heap st') (PointData (Self st')) = Some a /\
    bytes_at (Heap st') a = Some g /\
    length g = vtkStructuredData_GetNumberOfPoints E /\
    (forall i j k, in_extent E i j k ->
       let idx := point_index E i j k in
       g !! idx = Some (if chebyshev_distance zeroExt i j k >? 0
                        then Z.lor (point_ghost_entry st idx) DUPLICATEPOINT
                        else point_ghost_entry st idx)) /\
    (E = mkExtent 0 4 0 4 0 0 -> zeroExt = mkExtent 1 3 1 3 0 0 ->
     lookup_ghost (Heap st) (PointData (Self st)) = None ->
     let D := DUPLICATEPOINT in
     g = [D; D; D; D; D;
          D; 0; 0; 0; D;
          D; 0; 0; 0; D;
          D; 0; 0; 0; D;
          D; D; D; D; D])) /\
  (exists st' zeroExt',
    GenerateGhostArray zeroExt true st = Some (st', zeroExt') /\
    PointData (Self st') = PointData (Self st) /\
    lookup_ghost (Heap st') (PointData (Self st'))
      = lookup_ghost (Heap st) (PointData (Self st)) /\
    (forall a, lookup_ghost (Heap st) (PointData (Self st)) = Some a ->
               bytes_at (Heap st') a = bytes_at (Heap st) a)).
Proof.
  intros [HbP HbC] H3D Hne Hrange Hzrange Hok Hfit Hdist E.
  split; [|
    destruct (cellOnly_frame zeroExt st Hrange Hok Hfit)
      as (st' & z' & Hrun & HPD & Hshape & Hother);
    exists st', z'; split; [exact Hrun|]; split; [exact HPD|]; split;
    [ rewrite HPD; apply lookup_ghost_preserved;
      [exact Hshape | exact (proj1 (proj1 (proj1 (StoreOK_parts st) Hok)))]
    | intros a Ha; unfold bytes_at;
      destruct (lookup_ghost_bytes _ _ _ Ha) as (_ & _ & _ & _ & Hlt);
      rewrite (Hother a Hlt); [reflexivity|];
      intros Hc; exact (Hdist a a Ha Hc eq_refl) ] ].
  pose proof (sameExtent_false _ _ Hne) as Hsame.
  destruct (GenerateGhostArray_runs zeroExt false st H3D Hsame Hrange Hok Hfit)
    as (st1 & st2 & Hrun & ((HlookP & HbytesP & HlenP) & Hbits1 & Hshape1 & Hdom1 & Hlook1 & Hok1)
        & Hlook2 & Hbytes2 & Hlen2 & Hother2 & Hbits2 & Hshape2 & HPD & Hok2).
  fold E in HlookP, HbytesP, HlenP, Hdom1, Hlook2, Hbytes2, Hlen2, Hother2.
  pose proof (proj1 (StoreOK_parts st) Hok) as [Hlive Hvalid].
  pose proof (proj1 (StoreOK_parts st1) Hok1) as [Hlive1 Hvalid1].
  set (ap := fst (points_before E st)) in *.
  set (old := snd (points_before E st)) in *.
  set (g := zip_with (mark1 DUPLICATEPOINT) (point_dists E zeroExt) old) in *.
  assert (Hlt : (ap < length (Heap st1))%nat).
  { apply bytes_at_Some in HbytesP as (nm & Hnm). eapply lookup_lt_Some; eauto. }
  assert (Hac : fst (cells_before E st1) <> ap).
  { apply cell_array_elsewhere; auto. }
  assert (Hfinal : bytes_at (Heap st2) ap = Some g).
  { unfold bytes_at. rewrite (Hother2 ap (fun e => Hac (eq_sym e)) Hlt). exact HbytesP. }
  assert (HlookP2 : lookup_ghost (Heap st2) (PointData (Self st2)) = Some ap).
  { rewrite HPD. rewrite (lookup_ghost_preserved _ _ _ Hshape2 (proj1 Hlive1)). exact HlookP. }
  assert (Hglen : length g = vtkStructuredData_GetNumberOfPoints E).
  { subst g. rewrite length_zip_with_r_eq; [exact HlenP|].
    rewrite HlenP, point_dists_length. reflexivity. }
  destruct (points_before_facts E st Hvalid) as (_ & Hvold & _ & _). fold old in Hvold.
  exists st2, (snd (inflate E zeroExt)), ap, g.
  split; [exact Hrun|]. split; [exact HlookP2|]. split; [exact Hfinal|].
  split; [exact Hglen|]. split.
  - intros i j k Hin idx.
    assert (Hidx : (idx < vtkStructuredData_GetNumberOfPoints E)%nat)
      by (apply point_index_bound, Hin).
    assert (Hentry : old !! idx = Some (point_ghost_entry st idx)).
    { apply points_before_entry. fold old. rewrite HlenP. exact Hidx. }
    subst g. rewrite lookup_zip_with. subst idx.
    rewrite (point_dists_lookup E zeroExt i j k Hin), Hentry.
    cbn [mbind option_bind]. f_equal. unfold mark1.
    destruct Hrange as (R0 & R1 & R2 & R3 & R4 & R5). destruct Hin as (Hi & Hj & Hk).
    rewrite (point_dist_test zeroExt i j k Hzrange) by (fold E in R0, R1, R2, R3, R4, R5; lia).
    destruct (chebyshev_distance zeroExt i j k >? 0); [|reflexivity].
    apply to_uchar_lor; [|lia].
    rewrite Forall_forall in Hvold. apply Hvold. apply list_elem_of_lookup. eauto.
  - intros HE Hz Habs D. subst g old. unfold points_before. rewrite Habs. cbn [snd].
    rewrite HE, Hz. vm_compute point_dists.
    vm_compute vtkStructuredData_GetNumberOfPoints. cbn [replicate zip_with].
    unfold mark1. cbn [Z.gtb Z.compare].
    rewrite to_uchar_lor by (unfold is_uchar; lia). rewrite Z.lor_0_l. reflexivity.
Qed.

End GhostPoints.

(** ** The ghost-array pointer cache *)

Section GhostCache.

Context `{Externals}.

(** A change of the store that neither renames nor retypes an object, with
    the attribute sets and the cache left alone, keeps the cache sound. *)
Lemma cache_sound_store_change (st st' : State) :
  GhostCacheInv st /\ AddressesLive st ->
  shape_preserved (Heap st) (Heap st') ->
  PointData (Self st') = PointData (Self st) ->
  CellData (Self st') = CellData (Self st) ->
  PointGhostArray (Self st') = PointGhostArray (Self st) ->
  PointGhostArrayCached (Self st') = PointGhostArrayCached (Self st) ->
  CellGhostArray (Self st') = CellGhostArray (Self st) ->
  CellGhostArrayCached (Self st') = CellGhostArrayCached (Self st) ->
  GhostCacheInv st' /\ AddressesLive st'.
Proof.
  intros [[Hp Hc] [Lp Lc]] Hshape EP EC E1 E2 E3 E4.
  pose proof (shape_preserved_length _ _ Hshape) as Hlen.
  split; split.
  - rewrite E1, E2, EP. intros Hcached.
    rewrite (lookup_ghost_preserved _ _ _ Hshape Lp). apply Hp, Hcached.
  - rewrite E3, E4, EC. intros Hcached.
    rewrite (lookup_ghost_preserved _ _ _ Hshape Lc). apply Hc, Hcached.
  - rewrite EP. intros a Ha. specialize (Lp a Ha). lia.
  - rewrite EC. intros a Ha. specialize (Lc a Ha). lia.
Qed.

(** After [Modified()] on the point data the observer has run: whatever the
    point data holds now, the cached pointer is the current lookup. *)
Lemma cache_sound_PointData_Modified (st : State) :
  (CellGhostArrayCached (Self st) = true ->
   CellGhostArray (Self st) = lookup_ghost (Heap st) (CellData (Self st))) ->
  AddressesLive st ->
  GhostCacheInv (PointData_Modified st) /\ AddressesLive (PointData_Modified st)
  /\ PointGhostArray (Self (PointData_Modified st))
     = lookup_ghost (Heap st) (PointData (Self st)).
Proof.
  intros Hc [Lp Lc]. unfold PointData_Modified, GhostCacheInv, AddressesLive. cbn.
  split; [split|split].
  - intros _. reflexivity.
  - exact Hc.
  - split; assumption.
  - reflexivity.
Qed.

Lemma cache_sound_CellData_Modified (st : State) :
  (PointGhostArrayCached (Self st) = true ->
   PointGhostArray (Self st) = lookup_ghost (Heap st) (PointData (Self st))) ->
  AddressesLive st ->
  GhostCacheInv (CellData_Modified st) /\ AddressesLive (CellData_Modified st)
  /\ CellGhostArray (Self (CellData_Modified st))
     = lookup_ghost (Heap st) (CellData (Self st)).
Proof.
  intros Hp [Lp Lc]. unfold CellData_Modified, GhostCacheInv, AddressesLive. cbn.
  split; [split|split].
  - exact Hp.
  - intros _. reflexivity.
  - split; assumption.
  - reflexivity.
Qed.

Lemma cache_sound_PointData_AddArray (a : nat) (st : State) :
  GhostCacheInv st /\ AddressesLive st -> (a < length (Heap st))%nat ->
  GhostCacheInv (PointData_AddArray a st) /\ AddressesLive (PointData_AddArray a st).
Proof.
  intros [[Hp Hc] [Lp Lc]] Ha. unfold PointData_AddArray.
  match goal with |- GhostCacheInv (PointData_Modified ?s) /\ _ =>
    destruct (cache_sound_PointData_Modified s) as (A & B & _) end; auto.
  split; cbn; [|exact Lc].
  intros b Hb. destruct (AddArray_list_elem _ _ _ _ Hb) as [->|Hb']; auto.
Qed.

Lemma cache_sound_CellData_AddArray (a : nat) (st : State) :
  GhostCacheInv st /\ AddressesLive st -> (a < length (Heap st))%nat ->
  GhostCacheInv (CellData_AddArray a st) /\ AddressesLive (CellData_AddArray a st).
Proof.
  intros [[Hp Hc] [Lp Lc]] Ha. unfold CellData_AddArray.
  match goal with |- GhostCacheInv (CellData_Modified ?s) /\ _ =>
    destruct (cache_sound_CellData_Modified s) as (A & B & _) end; auto.
  split; cbn; [exact Lp|].
  intros b Hb. destruct (AddArray_list_elem _ _ _ _ Hb) as [->|Hb']; auto.
Qed.

Lemma cache_sound_PointData_RemoveArray (name : string) (st : State) :
  GhostCacheInv st /\ AddressesLive st ->
  GhostCacheInv (PointData_RemoveArray name st)
  /\ AddressesLive (PointData_RemoveArray name st).
Proof.
  intros [[Hp Hc] [Lp Lc]]. unfold PointData_RemoveArray.
  match goal with |- GhostCacheInv (PointData_Modified ?s) /\ _ =>
    destruct (cache_sound_PointData_Modified s) as (A & B & _) end; auto.
  split; cbn; [|exact Lc].
  intros b Hb. apply Lp. eapply RemoveArray_list_elem; eauto.
Qed.

Lemma cache_sound_CellData_RemoveArray (name : string) (st : State) :
  GhostCacheInv st /\ AddressesLive st ->
  GhostCacheInv (CellData_RemoveArray name st)
  /\ AddressesLive (CellData_RemoveArray name st).
Proof.
  intros [[Hp Hc] [Lp Lc]]. unfold CellData_RemoveArray.
  match goal with |- GhostCacheInv (CellData_Modified ?s) /\ _ =>
    destruct (cache_sound_CellData_Modified s) as (A & B & _) end; auto.
  split; cbn; [exact Lp|].
  intros b Hb. apply Lc. eapply RemoveArray_list_elem; eauto.
Qed.

Lemma cache_sound_GetPointGhostArray (st : State) :
  GhostCacheInv st /\ AddressesLive st ->
  GhostCacheInv (snd (GetPointGhostArray st)) /\ AddressesLive (snd (GetPointGhostArray st)).
Proof.
  intros [[Hp Hc] Hl]. unfold GetPointGhostArray.
  destruct (PointGhostArrayCached (Self st)) eqn:E; cbn.
  - split; [split|]; auto.
  - split; [split|]; auto; cbn; intros _; reflexivity.
Qed.

Lemma cache_sound_GetCellGhostArray (st : State) :
  GhostCacheInv st /\ AddressesLive st ->
  GhostCacheInv (snd (GetCellGhostArray st)) /\ AddressesLive (snd (GetCellGhostArray st)).
Proof.
  intros [[Hp Hc] Hl]. unfold GetCellGhostArray.
  destruct (CellGhostArrayCached (Self st)) eqn:E; cbn.
  - split; [split|]; auto.
  - split; [split|]; auto; cbn; intros _; reflexivity.
Qed.

Lemma cache_sound_Update_point (st : State) :
  GhostCacheInv st /\ AddressesLive st ->
  GhostCacheInv (UpdatePointGhostArrayCache st) /\ AddressesLive (UpdatePointGhostArrayCache st).
Proof.
  intros [[Hp Hc] Hl]. unfold UpdatePointGhostArrayCache.
  split; [split|]; auto; cbn; intros _; reflexivity.
Qed.

Lemma cache_sound_Update_cell (st : State) :
  GhostCacheInv st /\ AddressesLive st ->
  GhostCacheInv (UpdateCellGhostArrayCache st) /\ AddressesLive (UpdateCellGhostArrayCache st).
Proof.
  intros [[Hp Hc] Hl]. unfold UpdateCellGhostArrayCache.
  split; [split|]; auto; cbn; intros _; reflexivity.
Qed.

(** A new array object does not disturb the cache. *)
Lemma cache_sound_new_object (arr : vtkAbstractArray) (st : State) :
  GhostCacheInv st /\ AddressesLive st ->
  GhostCacheInv (set_Heap st (Heap st ++ [arr]))
  /\ AddressesLive (set_Heap st (Heap st ++ [arr])).
Proof.
  intros Hinv. apply (cache_sound_store_change st); auto.
  apply shape_preserved_app.
Qed.

Lemma cache_sound_new_ghost_points (n : nat) (st : State) :
  GhostCacheInv st /\ AddressesLive st ->
  let st' := PointData_AddArray (fst (new_ghost_array n st)) (snd (new_ghost_array n st)) in
  GhostCacheInv st' /\ AddressesLive st' /\
  lookup_ghost (Heap st') (PointData (Self st')) = Some (length (Heap st)).
Proof.
  intros Hinv st'. subst st'. unfold new_ghost_array. cbn [fst snd].
  pose proof (cache_sound_new_object
                (mkArray (Some GhostArrayName) (UnsignedCharValues (replicate n 0))) st Hinv)
    as Hinv1.
  set (new := mkArray (Some GhostArrayName) (UnsignedCharValues (replicate n 0))) in *.
  set (st1 := set_Heap st (Heap st ++ [new])) in *.
  assert (Hnew : Heap st1 !! length (Heap st) = Some new).
  { subst st1. cbn. apply (list_lookup_middle (Heap st) [] new). reflexivity. }
  assert (Hlt : (length (Heap st) < length (Heap st1))%nat).
  { eapply lookup_lt_Some; eauto. }
  destruct (cache_sound_PointData_AddArray (length (Heap st)) st1 Hinv1 Hlt) as [A B].
  split; [exact A|]. split; [exact B|].
  destruct (AddArray_list_find (Heap st1) GhostArrayName _
              (Arrays (PointData (Self st1))) (length (Heap st)) Hnew) as [Hfind _].
  unfold lookup_ghost, GetArray.
  change (Heap (PointData_AddArray (length (Heap st)) st1)) with (Heap st1).
  change (Arrays (PointData (Self (PointData_AddArray (length (Heap st)) st1))))
    with (AddArray_list (Heap st1) (Arrays (PointData (Self st1))) (length (Heap st))).
  rewrite Hfind. unfold DownCastUnsignedChar. rewrite Hnew. reflexivity.
Qed.

Lemma cache_sound_new_ghost_cells (n : nat) (st : State) :
  GhostCacheInv st /\ AddressesLive st ->
  let st' := CellData_AddArray (fst (new_ghost_array n st)) (snd (new_ghost_array n st)) in
  GhostCacheInv st' /\ AddressesLive st' /\
  lookup_ghost (Heap st') (CellData (Self st')) = Some (length (Heap st)).
Proof.
  intros Hinv st'. subst st'. unfold new_ghost_array. cbn [fst snd].
  pose proof (cache_sound_new_object
                (mkArray (Some GhostArrayName) (UnsignedCharValues (replicate n 0))) st Hinv)
    as Hinv1.
  set (new := mkArray (Some GhostArrayName) (UnsignedCharValues (replicate n 0))) in *.
  set (st1 := set_Heap st (Heap st ++ [new])) in *.
  assert (Hnew : Heap st1 !! length (Heap st) = Some new).
  { subst st1. cbn. apply (list_lookup_middle (Heap st) [] new). reflexivity. }
  assert (Hlt : (length (Heap st) < length (Heap st1))%nat).
  { eapply lookup_lt_Some; eauto. }
  destruct (cache_sound_CellData_AddArray (length (Heap st)) st1 Hinv1 Hlt) as [A B].
  split; [exact A|]. split; [exact B|].
  destruct (AddArray_list_find (Heap st1) GhostArrayName _
              (Arrays (CellData (Self st1))) (length (Heap st)) Hnew) as [Hfind _].
  unfold lookup_ghost, GetArray.
  change (Heap (CellData_AddArray (length (Heap st)) st1)) with (Heap st1).
  change (Arrays (CellData (Self (CellData_AddArray (length (Heap st)) st1))))
    with (AddArray_list (Heap st1) (Arrays (CellData (Self st1))) (length (Heap st))).
  rewrite Hfind. unfold DownCastUnsignedChar. rewrite Hnew. reflexivity.
Qed.

Lemma cache_sound_AllocatePointGhostArray (st : State) :
  GhostCacheInv st /\ AddressesLive st ->
  GhostCacheInv (snd (AllocatePointGhostArray st))
  /\ AddressesLive (snd (AllocatePointGhostArray st)).
Proof.
  intros Hinv. unfold AllocatePointGhostArray.
  pose proof (cache_sound_GetPointGhostArray st Hinv) as Hinv1.
  destruct (GetPointGhostArray st) as [p st1]. cbn [snd] in Hinv1.
  destruct p as [a|]; [exact Hinv1|].
  pose proof (cache_sound_new_ghost_points (length (Points (Self st1))) st1 Hinv1)
    as ([Hp Hc] & Hl & Hlook).
  destruct (new_ghost_array (length (Points (Self st1))) st1) as [ghosts st2] eqn:Enew.
  assert (ghosts = length (Heap st1)) as -> by (unfold new_ghost_array in Enew; congruence).
  cbn [fst snd] in *.
  split; [split|]; cbn.
  - intros _. symmetry. exact Hlook.
  - exact Hc.
  - exact Hl.
Qed.

Lemma cache_sound_AllocateCellGhostArray (st : State) :
  GhostCacheInv st /\ AddressesLive st ->
  GhostCacheInv (snd (AllocateCellGhostArray st))
  /\ AddressesLive (snd (AllocateCellGhostArray st)).
Proof.
  intros Hinv. unfold AllocateCellGhostArray.
  pose proof (cache_sound_GetCellGhostArray st Hinv) as Hinv1.
  destruct (GetCellGhostArray st) as [p st1]. cbn [snd] in Hinv1.
  destruct p as [a|]; [exact Hinv1|].
  pose proof (cache_sound_new_ghost_cells (Z.to_nat (GetNumberOfCells (Self st1))) st1 Hinv1)
    as ([Hp Hc] & Hl & Hlook).
  destruct (new_ghost_array (Z.to_nat (GetNumberOfCells (Self st1))) st1) as [ghosts st2] eqn:Enew.
  assert (ghosts = length (Heap st1)) as -> by (unfold new_ghost_array in Enew; congruence).
  cbn [fst snd] in *.
  split; [split|]; cbn.
  - exact Hp.
  - intros _. symmetry. exact Hlook.
  - exact Hl.
Qed.

Lemma cache_sound_update_ghost_buffer (a : nat)
    (loops : list Z -> option (nat * list Z)) (st st' : State) :
  GhostCacheInv st /\ AddressesLive st ->
  update_ghost_buffer a loops st = Some st' ->
  GhostCacheInv st' /\ AddressesLive st'.
Proof.
  intros Hinv. unfold update_ghost_buffer.
  destruct (Heap st !! a) as [[name [g|g]]|] eqn:Ea; try discriminate.
  destruct (loops g) as [[n g']|]; [|discriminate]. intros [= <-].
  apply (cache_sound_store_change st); auto.
  cbn. eapply shape_preserved_insert; eauto.
Qed.

Lemma cache_sound_GenerateGhostArray (zeroExt : Extent) (cellOnly : bool)
    (st st' : State) (zeroExt' : Extent) :
  GhostCacheInv st /\ AddressesLive st ->
  GenerateGhostArray zeroExt cellOnly st = Some (st', zeroExt') ->
  GhostCacheInv st' /\ AddressesLive st'.
Proof.
  intros Hinv. unfold GenerateGhostArray.
  destruct (negb (ExtentType (Self st) =? VTK_3D_EXTENT)); [intros [= <- _]; exact Hinv|].
  destruct (sameExtent (DataExtent (Self st)) zeroExt); [intros [= <- _]; exact Hinv|].
  set (E := DataExtent (Self st)).
  assert (Hstage1 : forall st1,
            (if negb cellOnly then points_pass E zeroExt st else Some st) = Some st1 ->
            GhostCacheInv st1 /\ AddressesLive st1).
  { intros st1. destruct cellOnly; simpl; [intros [= <-]; exact Hinv|].
    unfold points_pass, ghostPoints_array.
    destruct (lookup_ghost (Heap st) (PointData (Self st))) as [a|].
    - apply cache_sound_update_ghost_buffer, Hinv.
    - pose proof (cache_sound_new_ghost_points
                    (vtkStructuredData_GetNumberOfPoints E) st Hinv) as (A & B & _).
      destruct (new_ghost_array (vtkStructuredData_GetNumberOfPoints E) st) as [a sta].
      cbn [fst snd] in A, B. apply cache_sound_update_ghost_buffer. split; assumption. }
  destruct (if negb cellOnly then points_pass E zeroExt st else Some st) as [st1|];
    [|discriminate].
  specialize (Hstage1 st1 eq_refl).
  unfold cells_pass, ghostCells_array.
  destruct (lookup_ghost (Heap st1) (CellData (Self st1))) as [a|].
  - destruct (inflate E zeroExt) as [ext' z'].
    destruct (update_ghost_buffer a (cell_loops ext' z') st1) as [st2|] eqn:Eu; [|discriminate].
    intros [= <- _]. eapply cache_sound_update_ghost_buffer; eauto.
  - pose proof (cache_sound_new_ghost_cells
                  (vtkStructuredData_GetNumberOfCells E) st1 Hstage1) as (A & B & _).
    destruct (new_ghost_array (vtkStructuredData_GetNumberOfCells E) st1) as [a sta].
    cbn [fst snd] in A, B.
    destruct (inflate E zeroExt) as [ext' z'].
    destruct (update_ghost_buffer a (cell_loops ext' z') (CellData_AddArray a sta))
      as [st2|] eqn:Eu; [|discriminate].
    intros [= <- _]. eapply cache_sound_update_ghost_buffer; [|exact Eu]. split; assumption.
Qed.

(** Every operation keeps the cache sound. *)
Lemma cache_sound_step (op : Op) (st st' : State) :
  GhostCacheInv st /\ AddressesLive st ->
  step op st = Some st' ->
  GhostCacheInv st' /\ AddressesLive st'.
Proof.
  intros Hinv. destruct op; cbn [step].
  - intros [= <-]. apply (cache_sound_store_change st); auto. apply shape_preserved_refl.
  - intros [= <-]. apply cache_sound_new_object, Hinv.
  - destruct (Heap st !! a) as [[name [g|g]]|] eqn:Ea; try discriminate.
    intros [= <-]. apply (cache_sound_store_change st); auto.
    cbn. eapply shape_preserved_insert; eauto.
  - destruct (Nat.ltb_spec a (length (Heap st))); [|discriminate].
    intros [= <-]. apply cache_sound_PointData_AddArray; assumption.
  - destruct (Nat.ltb_spec a (length (Heap st))); [|discriminate].
    intros [= <-]. apply cache_sound_CellData_AddArray; assumption.
  - intros [= <-]. apply cache_sound_PointData_RemoveArray, Hinv.
  - intros [= <-]. apply cache_sound_CellData_RemoveArray, Hinv.
  - intros [= <-]. apply cache_sound_GetPointGhostArray, Hinv.
  - intros [= <-]. apply cache_sound_GetCellGhostArray, Hinv.
  - intros [= <-]. apply cache_sound_Update_point, Hinv.
  - intros [= <-]. apply cache_sound_Update_cell, Hinv.
  - intros [= <-]. apply cache_sound_AllocatePointGhostArray, Hinv.
  - intros [= <-]. apply cache_sound_AllocateCellGhostArray, Hinv.
  - destruct (GenerateGhostArray zeroExt cellOnly st) as [[st2 z2]|] eqn:Eg; [|discriminate].
    simpl. intros [= <-]. eapply cache_sound_GenerateGhostArray; eauto.
  - intros [= <-]. exact (cache_sound_GetPointGhostArray st Hinv).
  - intros [= <-]. exact (cache_sound_GetCellGhostArray st Hinv).
  - intros [= <-]. unfold ComputeBounds.
    destruct (ComputeTime (Self st) <? GetMTime (Self st))%N; [|exact Hinv].
    apply (cache_sound_store_change st); auto. apply shape_preserved_refl.
  - intros [= <-]. unfold ComputeScalarRange.
    destruct (ScalarRangeComputeTime (Self st) <? GetMTime (Self st))%N; [|exact Hinv].
    apply (cache_sound_store_change st); auto. apply shape_preserved_refl.
  - intros [= <-]. unfold CheckAttributes.
    destruct (check_attribute_set _ _ _ _ _) as [[|] log].
    + apply (cache_sound_store_change st); auto. apply shape_preserved_refl.
    + destruct (check_attribute_set _ _ _ _ _) as [[|] log'];
        apply (cache_sound_store_change st); auto; apply shape_preserved_refl.
Qed.

(** C10. In every state a dataset reaches from its construction, whenever a
    cached flag ([PointGhostArrayCached] / [CellGhostArrayCached]) is true the
    cached pointer is the array now stored under the reserved ghost name in
    that attribute set; every modification of the point or cell attribute set
    runs the observer callback, which re-resolves the cached pointer; and a
    lookup through [GetPointGhostArray] / [GetCellGhostArray] returns the
    current array, never a stale pointer to an array that was removed or
    replaced. *)
Theorem ghost_cache_never_stale (st : State) :
  Reachable st ->
  (PointGhostArrayCached (Self st) = true ->
   PointGhostArray (Self st) = lookup_ghost (Heap st) (PointData (Self st))) /\
  (CellGhostArrayCached (Self st) = true ->
   CellGhostArray (Self st) = lookup_ghost (Heap st) (CellData (Self st))) /\
  fst (GetPointGhostArray st) = lookup_ghost (Heap st) (PointData (Self st)) /\
  fst (GetCellGhostArray st) = lookup_ghost (Heap st) (CellData (Self st)) /\
  (forall a, (a < length (Heap st))%nat ->
     let st' := PointData_AddArray a st in
     PointGhostArray (Self st') = lookup_ghost (Heap st') (PointData (Self st'))) /\
  (forall name,
     let st' := PointData_RemoveArray name st in
     PointGhostArray (Self st') = lookup_ghost (Heap st') (PointData (Self st'))) /\
  (forall a, (a < length (Heap st))%nat ->
     let st' := CellData_AddArray a st in
     CellGhostArray (Self st') = lookup_ghost (Heap st') (CellData (Self st'))) /\
  (forall name,
     let st' := CellData_RemoveArray name st in
     CellGhostArray (Self st') = lookup_ghost (Heap st') (CellData (Self st'))).
Proof.
  intros Hreach.
  assert (Hinv : GhostCacheInv st /\ AddressesLive st).
  { induction Hreach as [store now|op st st' Hreach IH Hstep].
    - split; split; cbn; try discriminate; intros a Ha; inversion Ha.
    - eapply cache_sound_step; eauto. }
  destruct Hinv as [Hinv Hlive]. pose proof Hinv as [Hp Hc].
  split; [exact Hp|]. split; [exact Hc|].
  split; [apply GetPointGhostArray_current, Hinv|].
  split; [apply GetCellGhostArray_current, Hinv|].
  repeat split; intros; reflexivity.
Qed.

End GhostCache.

(* ===================================================================== *)
(** * Part III: the properties on concrete datasets                        *)
(* ===================================================================== *)

Lemma VTK_bits_ok : GhostBitsOK (H := VTK).
Proof. unfold GhostBitsOK. simpl. lia. Qed.

Lemma grid_store_ok : StoreOK grid.
Proof.
  split; [|split].
  - intros a Ha. inversion Ha.
  - intros a Ha. inversion Ha.
  - intros a name v Ha. destruct a; discriminate.
Qed.

Lemma grid_buffers_fit : GhostBuffersFit (H := VTK) grid.
Proof. split; intros a v Ha; discriminate. Qed.

Lemma grid_in_range : ExtentInRange grid_extent /\ ExtentInRange inner_extent.
Proof. unfold ExtentInRange. simpl. lia. Qed.

(** C1 (amended) on the grid: with [cellOnly = false] the 16 border points
    carry DUPLICATEPOINT (= 1), the 9 interior points do not; with
    [cellOnly = true] the point data has no ghost array after the call, as
    before it. *)
Lemma GenerateGhostArray_points_grid :
  GhostBitsOK (H := VTK) /\ StoreOK grid /\ GhostBuffersFit (H := VTK) grid /\
  (exists st' zeroExt' a,
    GenerateGhostArray (H := VTK) inner_extent false grid = Some (st', zeroExt') /\
    lookup_ghost (H := VTK) (Heap st') (PointData (Self st')) = Some a /\
    bytes_at (Heap st') a
    = Some [1; 1; 1; 1; 1;
            1; 0; 0; 0; 1;
            1; 0; 0; 0; 1;
            1; 0; 0; 0; 1;
            1; 1; 1; 1; 1]) /\
  (exists st' zeroExt',
    GenerateGhostArray (H := VTK) inner_extent true grid = Some (st', zeroExt') /\
    lookup_ghost (H := VTK) (Heap st') (PointData (Self st')) = None).
Proof.
  split; [exact VTK_bits_ok|]. split; [exact grid_store_ok|].
  split; [exact grid_buffers_fit|].
  destruct (GenerateGhostArray_points (H := VTK) inner_extent grid
              VTK_bits_ok eq_refl ltac:(discriminate)
              (proj1 grid_in_range) (proj2 grid_in_range)
              grid_store_ok grid_buffers_fit ltac:(intros a b Ha; discriminate))
    as ((st' & z' & a & g & Hrun & Hlook & Hbytes & _ & _ & Hscenario) &
        (st2 & z2 & Hrun2 & _ & Hlook2 & _)).
  split.
  - exists st', z', a. split; [exact Hrun|]. split; [exact Hlook|].
    rewrite Hbytes. f_equal. apply Hscenario; reflexivity.
  - exists st2, z2. split; [exact Hrun2|]. rewrite Hlook2. reflexivity.
Defined.

(** C1 as first stated fails on the grid: the corner point (0,0,0) lies
    outside the canonical extent, at distance 1, yet a call with
    [cellOnly = true] runs the cell pass only; the point data has no ghost
    array after it, so no point is marked. *)
Lemma GenerateGhostArray_cellOnly_marks_no_point :
  DataExtent (Self grid) <> inner_extent /\
  chebyshev_distance inner_extent 0 0 0 = 1 /\
  (exists st' zeroExt',
     GenerateGhostArray (H := VTK) inner_extent true grid = Some (st', zeroExt') /\
     lookup_ghost (H := VTK) (Heap st') (PointData (Self st')) = None) /\
  ~ (exists st' zeroExt' a g,
       GenerateGhostArray (H := VTK) inner_extent true grid = Some (st', zeroExt') /\
       lookup_ghost (H := VTK) (Heap st') (PointData (Self st')) = Some a /\
       bytes_at (Heap st') a = Some g /\
       g !! point_index (DataExtent (Self grid)) 0 0 0
         = Some (Z.lor (point_ghost_entry (H := VTK) grid 0)
                       (DUPLICATEPOINT (Externals := VTK)))).
Proof.
  split; [discriminate|]. split; [reflexivity|]. split.
  - destruct (GenerateGhostArray (H := VTK) inner_extent true grid) as [[st' z']|] eqn:Hrun;
      [|vm_compute in Hrun; discriminate].
    exists st', z'. split; [reflexivity|].
    vm_compute in Hrun. injection Hrun as <- <-. vm_compute. reflexivity.
  - intros (st' & z' & a & g & Hrun & Hlook & _).
    vm_compute in Hrun. injection Hrun as <- <-.
    vm_compute in Hlook. discriminate.
Qed.

Lemma fresh_clock_ok : ClockOK fresh.
Proof. unfold ClockOK. simpl. lia. Qed.

(** C2 (amended) on a dataset that was just built: its clocks show 1, 2 and
    3, the bounds cache is stale, and the recomputation stamps it 4. *)
Lemma cache_gate_and_stamp_fresh :
  ClockOK fresh /\
  GetMTime (Self fresh) = 3%N /\
  ComputeTime (Self (snd (GetBounds (H := VTK) (SMP.sequential 0 0) fresh))) = 4%N /\
  ScalarRangeComputeTime (Self (snd (GetScalarRange (H := VTK) fresh))) = 4%N.
Proof.
  split; [exact fresh_clock_ok|]. split; [reflexivity|].
  destruct (cache_gate_and_stamp (H := VTK) (SMP.sequential 0 0) fresh fresh_clock_ok)
    as (_ & _ & Hb & _ & Hs).
  split.
  - apply (Hb ltac:(vm_compute; reflexivity)).
  - apply (Hs ltac:(vm_compute; reflexivity)).
Defined.

(** C2 as first stated fails there: the cache is stale (stamp 0, clocks up
    to 3), and the stamp written by the recomputation is 4, not the snapshot
    [current = 3] read before it; the recorded stamp exceeds the snapshot. *)
Lemma stamp_is_not_the_snapshot :
  (GetMTime (Self fresh) = 3)%N /\
  (ComputeTime (Self fresh) = 0)%N /\
  (ComputeTime (Self (ComputeBounds (H := VTK) (SMP.sequential 0 0) fresh)) = 4)%N /\
  (ScalarRangeComputeTime (Self (ComputeScalarRange (H := VTK) fresh)) = 4)%N /\
  ~ (let current := GetMTime (Self fresh) in
     let st' := ComputeBounds (H := VTK) (SMP.sequential 0 0) fresh in
     (ComputeTime (Self fresh) < current)%N ->
     ComputeTime (Self st') = current /\ (ComputeTime (Self st') <= current)%N).
Proof.
  repeat (split; [reflexivity|]).
  intros Hclaim. destruct (Hclaim ltac:(vm_compute; reflexivity)) as [Heq _].
  vm_compute in Heq. discriminate.
Qed.

Lemma line_clock_ok : ClockOK line_with_ghosts.
Proof. unfold ClockOK. simpl. lia. Qed.

(** C3 (amended) on point scalars in [0, 10] and cell scalars in [5, 20],
    never queried before: the combined range is [0, 20]. On the line, whose
    range was queried before [GenerateGhostArray] flagged the third point,
    the next query still returns 0 to 10 and changes nothing. *)
Lemma GetScalarRange_combination_both :
  is_min_of (fst (fst (GetScalarRange (H := VTK) with_scalars))) (of_Z 0) (of_Z 5) /\
  is_max_of (snd (fst (GetScalarRange (H := VTK) with_scalars))) (of_Z 10) (of_Z 20) /\
  fst (GetScalarRange (H := VTK) with_scalars) = (of_Z 0, of_Z 20) /\
  GetScalarRange (H := VTK) line_marked = ((of_Z 0, of_Z 10), line_marked).
Proof.
  destruct (GetScalarRange_combination (H := VTK) with_scalars) as (Hstale & _ & _).
  destruct (proj2 (Hstale ltac:(vm_compute; reflexivity)) eq_refl eq_refl eq_refl eq_refl)
    as [Hmin Hmax].
  split; [exact Hmin|]. split; [exact Hmax|]. split; [vm_compute; reflexivity|].
  destruct (GetScalarRange_combination (H := VTK) line_with_ghosts) as (_ & _ & Hkept).
  pose proof (Hkept line_clock_ok line_marked
                ltac:(vm_compute; reflexivity) ltac:(vm_compute; reflexivity)
                ltac:(vm_compute; reflexivity)) as Hsame.
  etransitivity; [exact Hsame|]. f_equal; vm_compute; reflexivity.
Defined.

(** C3 as first stated fails on the line: the range was queried (0 to 10,
    stamp 8, clocks up to 7), then [GenerateGhostArray] flagged the third
    point in the existing ghost array without advancing a clock. The
    ghost-excluded range of the point scalars is now 0 to 4, the gate is
    closed, and [GetScalarRange] still returns 0 to 10. *)
Lemma cached_range_survives_ghost_marking :
  let st := line_marked in
  let ds := Self st in
  let temperature := mkArray (Some "temperature"%string)
                             (DoubleValues [of_Z 0; of_Z 4; of_Z 10]) in
  GetScalars (Heap st) (PointData ds) = Some temperature /\
  GetScalars (Heap st) (CellData ds) = None /\
  GetGhostBytes (H := VTK) (Heap st) (PointData ds) = Some [0; 0; 1] /\
  GetRange (Externals := VTK) temperature
    (GetGhostBytes (H := VTK) (Heap st) (PointData ds)) (GhostsToSkip (PointData ds))
    = (of_Z 0, of_Z 4) /\
  GetMTime (Self st) = 7%N /\ ScalarRangeComputeTime (Self st) = 8%N /\
  fst (GetScalarRange (H := VTK) st) = (of_Z 0, of_Z 10) /\
  ~ (fst (GetScalarRange (H := VTK) st)
     = GetRange (Externals := VTK) temperature
         (GetGhostBytes (H := VTK) (Heap st) (PointData ds)) (GhostsToSkip (PointData ds))).
Proof.
  intros st ds temperature.
  repeat (split; [vm_compute; reflexivity|]).
  intros Hclaim. vm_compute in Hclaim. discriminate.
Qed.




Lemma marked_grid_cache : GhostCacheInv (H := VTK) marked_grid.
Proof. split; intros _; vm_compute; reflexivity. Qed.

(** C6 on the grid: before any ghost array exists the answer is false; after
    the border was marked it is true, for a scan split between two workers. *)
Lemma HasAnyGhostPoints_spec_grid :
  let sch := SMP.mkSchedule [SMP.mkChunk 1 10 25; SMP.mkChunk 0 0 10] [0; 1]%nat in
  GhostCacheInv (H := VTK) marked_grid /\
  SMP.ValidSchedule 0 25 sch /\
  fst (HasAnyGhostPoints (H := VTK) sch grid) = false /\
  fst (HasAnyGhostPoints (H := VTK) sch marked_grid) = true.
Proof.
  intros sch.
  assert (Hvalid : SMP.ValidSchedule 0 25 sch).
  { split; [|split].
    - vm_compute.
      apply (Permutation_app_comm (seq 10 15) (seq 0 10)).
    - repeat constructor; intros Hin; repeat (apply elem_of_cons in Hin as [Hin|Hin]);
        try discriminate; inversion Hin.
    - intros w. simpl. split; intros Hw;
        repeat (apply elem_of_cons in Hw as [->|Hw]); try inversion Hw;
        repeat constructor. }
  split; [exact marked_grid_cache|]. split; [exact Hvalid|]. split.
  - vm_compute. reflexivity.
  - destruct (HasAnyGhostPoints_spec (H := VTK) sch marked_grid marked_grid_cache)
      as (_ & _ & _ & Hpresent).
    + intros v Hv. vm_compute in Hv. injection Hv as <-. exact Hvalid.
    + eapply Hpresent; [vm_compute; reflexivity|].
      exists 0%nat, 1. split; reflexivity.
Defined.

(** C7 on the grid, which has no ghost array: the call creates both, with 25
    and 16 entries, all 0 or the duplicate flag. *)
Lemma GenerateGhostArray_arrays_grid :
  GhostBitsOK (H := VTK) /\ ExtentInRange grid_extent /\
  StoreOK grid /\ GhostBuffersFit (H := VTK) grid /\
  exists st' zeroExt' gp a gc,
    GenerateGhostArray (H := VTK) inner_extent false grid = Some (st', zeroExt') /\
    Heap st' !! 0%nat = Some (mkArray (Some "vtkGhostType"%string) (UnsignedCharValues gp)) /\
    length gp = 25%nat /\
    lookup_ghost (H := VTK) (Heap st') (CellData (Self st')) = Some a /\
    Heap st' !! a = Some (mkArray (Some "vtkGhostType"%string) (UnsignedCharValues gc)) /\
    length gc = 16%nat.
Proof.
  split; [exact VTK_bits_ok|]. split; [exact (proj1 grid_in_range)|].
  split; [exact grid_store_ok|]. split; [exact grid_buffers_fit|].
  destruct (GenerateGhostArray_arrays (H := VTK) inner_extent false grid VTK_bits_ok
              (proj1 grid_in_range) grid_store_ok grid_buffers_fit)
    as (st' & z' & Hrun & _ & Hpoints & Hcells).
  destruct (Hpoints eq_refl ltac:(discriminate) eq_refl eq_refl)
    as (gp & _ & _ & Hgp & Hlen & _).
  destruct (Hcells eq_refl ltac:(discriminate) eq_refl)
    as (a & gc & _ & Hlook & _ & Hgc & Hlenc & _).
  exists st', z', gp, a, gc.
  split; [exact Hrun|]. split; [exact Hgp|]. split; [exact Hlen|].
  split; [exact Hlook|]. split; [exact Hgc|]. exact Hlenc.
Defined.

(** C9 (amended) on the grid, whose z axis is degenerate: the caller's
    [zeroExt] comes back with its upper z bound raised from 0 to 1. *)
Lemma GenerateGhostArray_zeroExt_grid :
  ExtentInRange grid_extent /\ ExtentInRange inner_extent /\
  StoreOK grid /\ GhostBuffersFit (H := VTK) grid /\
  exists st',
    GenerateGhostArray (H := VTK) inner_extent false grid
      = Some (st', mkExtent 1 3 1 3 0 1).
Proof.
  split; [exact (proj1 grid_in_range)|]. split; [exact (proj2 grid_in_range)|].
  split; [exact grid_store_ok|]. split; [exact grid_buffers_fit|].
  destruct (GenerateGhostArray_zeroExt (H := VTK) inner_extent false grid
              (proj1 grid_in_range) (proj2 grid_in_range) grid_store_ok grid_buffers_fit)
    as (st' & z' & Hrun & Hz & _).
  exists st'. rewrite Hrun, (Hz eq_refl ltac:(discriminate)). reflexivity.
Defined.

(** C9 as first stated fails on the grid: called with the grid's own extent
    the function returns at its guard, and the upper z bound of [zeroExt]
    stays 0 although the z axis of the true extent is degenerate. *)
Lemma zeroExt_untouched_on_same_extent :
  e4 (DataExtent (Self grid)) = e5 (DataExtent (Self grid)) /\
  GenerateGhostArray (H := VTK) grid_extent false grid = Some (grid, grid_extent) /\
  ~ (forall st' zeroExt',
       GenerateGhostArray (H := VTK) grid_extent false grid = Some (st', zeroExt') ->
       e4 (DataExtent (Self grid)) = e5 (DataExtent (Self grid)) ->
       e5 zeroExt' = e5 grid_extent + 1).
Proof.
  split; [reflexivity|]. split; [vm_compute; reflexivity|].
  intros Hclaim.
  specialize (Hclaim grid grid_extent ltac:(vm_compute; reflexivity) eq_refl).
  discriminate.
Qed.

Lemma run_history_reachable (ops : list Op) (st st' : State) :
  Reachable (H := VTK) st -> run_history ops st = Some st' -> Reachable (H := VTK) st'.
Proof.
  unfold run_history. revert st.
  induction ops as [|op ops IH]; intros st Hreach Hrun; simpl in Hrun.
  - injection Hrun as <-. exact Hreach.
  - destruct (step (H := VTK) op st) as [s|] eqn:Hstep.
    + apply (IH s); [|exact Hrun]. exact (Reachable_step op st s Hreach Hstep).
    + exfalso. clear -Hrun. induction ops as [|o ops IHo]; simpl in Hrun;
        [discriminate | auto].
Qed.

Lemma ghost_removed_reachable : Reachable (H := VTK) ghost_removed.
Proof.
  apply (run_history_reachable ghost_history (New (H := VTK) ghost_store 0));
    [apply Reachable_New | vm_compute; reflexivity].
Qed.

(** C10 on a history that caches a ghost array and then removes it: the
    lookup answers "no array", and after the second ghost array is added the
    cached pointer is that array's address. *)
Lemma ghost_cache_never_stale_history :
  Reachable (H := VTK) ghost_removed /\
  fst (GetPointGhostArray (H := VTK) ghost_removed) = None /\
  PointGhostArray (Self (PointData_AddArray (H := VTK) 1 ghost_removed)) = Some 1%nat.
Proof.
  split; [exact ghost_removed_reachable|].
  destruct (ghost_cache_never_stale (H := VTK) ghost_removed ghost_removed_reachable)
    as (_ & _ & Hget & _ & Hadd & _).
  split.
  - rewrite Hget. vm_compute. reflexivity.
  - rewrite (Hadd 1%nat ltac:(vm_compute; lia)). vm_compute. reflexivity.
Defined.

(** C5 on a dataset with two points and one cell: a cell array with no tuple
    makes the check fail with result 1; with only a point array that has one
    tuple too many the result is 0 and the output is one warning. *)
Lemma CheckAttributes_spec_mismatched :
  fst (CheckAttributes mismatched) = 1 /\
  fst (CheckAttributes oversized) = 0 /\
  Log (snd (CheckAttributes oversized))
    = [mkDiagnostic WarningSeverity POINT "ids"%string 3 2].
Proof.
  destruct (CheckAttributes_spec mismatched) as (_ & Hfew & _).
  destruct (CheckAttributes_spec oversized) as (_ & _ & Hmany).
  split; [|split].
  - apply Hfew. right.
    exists (mkArray (Some "flags"%string) (UnsignedCharValues [])).
    split; [vm_compute; repeat constructor | vm_compute; reflexivity].
  - apply Hmany.
    + intros a Ha. vm_compute in Ha. apply list_elem_of_singleton in Ha as ->.
      vm_compute. discriminate.
    + intros a Ha. vm_compute in Ha. inversion Ha.
  - destruct Hmany as (_ & Hlog & _).
    + intros a Ha. vm_compute in Ha. apply list_elem_of_singleton in Ha as ->.
      vm_compute. discriminate.
    + intros a Ha. vm_compute in Ha. inversion Ha.
    + rewrite Hlog. vm_compute. reflexivity.
Defined.

(** C8 on the two points (0,0,0) and (3,4,12): the squared diagonal is
    9 + 16 + 144 = 169 and the diagonal is 13; with no point the squared
    diagonal is 0 and the dataset is untouched. *)
Lemma GetLength2_sum_of_squares_two_points :
  fst (GetLength2 (H := VTK) (SMP.sequential 0 2) two_points) = of_Z 169 /\
  fst (GetLength (H := VTK) (SMP.sequential 0 2) two_points) = of_Z 13 /\
  GetLength2 (H := VTK) (SMP.sequential 0 0) fresh = (zero, fresh).
Proof.
  destruct (GetLength2_sum_of_squares (H := VTK) (SMP.sequential 0 2) two_points)
    as (Hsum & _ & Hroot).
  destruct (GetLength2_sum_of_squares (H := VTK) (SMP.sequential 0 0) fresh)
    as (_ & Hnone & _).
  split; [|split].
  - rewrite (Hsum ltac:(vm_compute; reflexivity)). vm_compute. reflexivity.
  - rewrite Hroot. vm_compute. reflexivity.
  - apply Hnone. reflexivity.
Defined.

(* ===================================================================== *)
(** * Part IV: further properties of the code                             *)
(* ===================================================================== *)

(** ** What GenerateGhostArray leaves alone *)

Section GhostFrame.

Context `{Externals}.

Lemma same_frame_refl (st : State) : same_frame st st.
Proof. unfold same_frame, same_geometry_and_caches. repeat split; try reflexivity; lia. Qed.

Lemma same_frame_trans (st1 st2 st3 : State) :
  same_frame st1 st2 -> same_frame st2 st3 -> same_frame st1 st3.
Proof.
  unfold same_frame, same_geometry_and_caches.
  intros ((A1 & A2 & A3 & A4 & A5 & A6 & A7 & A8 & A9) & AL & AT)
         ((B1 & B2 & B3 & B4 & B5 & B6 & B7 & B8 & B9) & BL & BT).
  repeat split; try congruence; lia.
Qed.

Lemma update_ghost_buffer_members (a : nat)
    (loops : list Z -> option (nat * list Z)) (st st' : State) :
  update_ghost_buffer a loops st = Some st' ->
  Self st' = Self st /\ GlobalTime st' = GlobalTime st /\ Log st' = Log st.
Proof.
  unfold update_ghost_buffer. intros Hrun.
  destruct (Heap st !! a) as [[name [g|g]]|]; try discriminate.
  destruct (loops g) as [[n g']|]; [|discriminate].
  injection Hrun as <-. auto.
Qed.

Lemma same_frame_update_ghost_buffer (a : nat)
    (loops : list Z -> option (nat * list Z)) (st st' : State) :
  update_ghost_buffer a loops st = Some st' -> same_frame st st'.
Proof.
  intros Hrun. destruct (update_ghost_buffer_members a loops st st' Hrun) as (HS & HT & HL).
  unfold same_frame, same_geometry_and_caches. rewrite HS, HT, HL.
  repeat split; try reflexivity; lia.
Qed.

Lemma same_frame_PointData_AddArray (a : nat) (st : State) :
  same_frame st (PointData_AddArray a st) /\
  Heap (PointData_AddArray a st) = Heap st /\
  GlobalTime (PointData_AddArray a st) = (GlobalTime st + 1)%N /\
  MTime (PointData (Self (PointData_AddArray a st))) = (GlobalTime st + 1)%N /\
  CellData (Self (PointData_AddArray a st)) = CellData (Self st).
Proof.
  unfold same_frame, same_geometry_and_caches. simpl. repeat split; try reflexivity; lia.
Qed.

Lemma same_frame_CellData_AddArray (a : nat) (st : State) :
  same_frame st (CellData_AddArray a st) /\
  Heap (CellData_AddArray a st) = Heap st /\
  GlobalTime (CellData_AddArray a st) = (GlobalTime st + 1)%N /\
  MTime (CellData (Self (CellData_AddArray a st))) = (GlobalTime st + 1)%N /\
  PointData (Self (CellData_AddArray a st)) = PointData (Self st).
Proof.
  unfold same_frame, same_geometry_and_caches. simpl. repeat split; try reflexivity; lia.
Qed.

Lemma same_frame_new_ghost_array (n : nat) (st : State) :
  same_frame st (snd (new_ghost_array n st)) /\
  Self (snd (new_ghost_array n st)) = Self st /\
  GlobalTime (snd (new_ghost_array n st)) = GlobalTime st.
Proof.
  unfold same_frame, same_geometry_and_caches. simpl. repeat split; try reflexivity; lia.
Qed.

Lemma same_frame_points_pass (extent zeroExt : Extent) (st st' : State) :
  points_pass extent zeroExt st = Some st' -> same_frame st st'.
Proof.
  unfold points_pass, ghostPoints_array. intros Hrun.
  destruct (lookup_ghost (Heap st) (PointData (Self st))) as [a|].
  - eapply same_frame_update_ghost_buffer; eauto.
  - cbv zeta in Hrun.
    destruct (new_ghost_array (vtkStructuredData_GetNumberOfPoints extent) st)
      as [a st0] eqn:Enew.
    pose proof (same_frame_new_ghost_array (vtkStructuredData_GetNumberOfPoints extent) st)
      as (F0 & _). rewrite Enew in F0. cbn [snd] in F0.
    pose proof (same_frame_PointData_AddArray a st0) as (F1 & _).
    pose proof (same_frame_update_ghost_buffer _ _ _ _ Hrun) as F2.
    eapply same_frame_trans; [|exact F2]. eapply same_frame_trans; eauto.
Qed.

Lemma same_frame_cells_pass (extent zeroExt : Extent) (st st' : State) (z' : Extent) :
  cells_pass extent zeroExt st = Some (st', z') -> same_frame st st'.
Proof.
  unfold cells_pass, ghostCells_array. intros Hrun.
  destruct (lookup_ghost (Heap st) (CellData (Self st))) as [a|].
  - destruct (inflate extent zeroExt) as [e z].
    destruct (update_ghost_buffer a (cell_loops e z) st) as [s|] eqn:Hu; [|discriminate].
    injection Hrun as <- <-. eapply same_frame_update_ghost_buffer; eauto.
  - cbv zeta in Hrun.
    destruct (new_ghost_array (vtkStructuredData_GetNumberOfCells extent) st)
      as [a st0] eqn:Enew.
    pose proof (same_frame_new_ghost_array (vtkStructuredData_GetNumberOfCells extent) st)
      as (F0 & _). rewrite Enew in F0. cbn [snd] in F0.
    pose proof (same_frame_CellData_AddArray a st0) as (F1 & _).
    destruct (inflate extent zeroExt) as [e z].
    destruct (update_ghost_buffer a (cell_loops e z) (CellData_AddArray a st0))
      as [s|] eqn:Hu; [|discriminate].
    injection Hrun as <- <-.
    pose proof (same_frame_update_ghost_buffer _ _ _ _ Hu) as F2.
    eapply same_frame_trans; [|exact F2]. eapply same_frame_trans; eauto.
Qed.

(** Whatever a call does, it leaves the geometry, the two caches and their
    stamps, and the diagnostic output as they were. *)
Lemma same_frame_GenerateGhostArray (zeroExt : Extent) (cellOnly : bool)
    (st st' : State) (z' : Extent) :
  GenerateGhostArray zeroExt cellOnly st = Some (st', z') -> same_frame st st'.
Proof.
  unfold GenerateGhostArray. intros Hrun.
  destruct (negb (ExtentType (Self st) =? VTK_3D_EXTENT)).
  { injection Hrun as <- <-. apply same_frame_refl. }
  destruct (sameExtent (DataExtent (Self st)) zeroExt).
  { injection Hrun as <- <-. apply same_frame_refl. }
  destruct cellOnly; cbn [negb] in Hrun.
  - eapply same_frame_cells_pass; eauto.
  - destruct (points_pass (DataExtent (Self st)) zeroExt st) as [st1|] eqn:Hp; [|discriminate].
    eapply same_frame_trans; [eapply same_frame_points_pass; eauto|].
    eapply same_frame_cells_pass; eauto.
Qed.

End GhostFrame.

(** ** GenerateGhostArray: the two buffers after a call *)

Section GhostResult.

Context `{Externals}.

Lemma cells_before_entry (E : Extent) (st : State) (idx : nat) :
  (idx < length (snd (cells_before E st)))%nat ->
  snd (cells_before E st) !! idx = Some (cell_ghost_entry st idx).
Proof.
  unfold cells_before, cell_ghost_entry.
  destruct (lookup_ghost (Heap st) (CellData (Self st))) as [a|]; cbn [snd]; intros Hlt.
  - destruct (lookup_lt_is_Some_2 _ _ Hlt) as (v & Hv). rewrite Hv. reflexivity.
  - rewrite length_replicate in Hlt. apply lookup_replicate_2, Hlt.
Qed.

(** A call that passes the two guards, seen from the state it starts in:
    where the two ghost buffers are afterwards and what they hold. *)
Lemma GenerateGhostArray_buffers (zeroExt : Extent) (cellOnly : bool) (st : State) :
  ExtentType (Self st) = VTK_3D_EXTENT ->
  DataExtent (Self st) <> zeroExt ->
  ExtentInRange (DataExtent (Self st)) ->
  StoreOK st -> GhostBuffersFit st ->
  (cellOnly = false -> GhostArraysDistinct st) ->
  let E := DataExtent (Self st) in
  let E' := fst (inflate E zeroExt) in
  let z' := snd (inflate E zeroExt) in
  exists st' ap ac,
    GenerateGhostArray zeroExt cellOnly st = Some (st', z') /\
    lookup_ghost (Heap st') (CellData (Self st')) = Some ac /\
    bytes_at (Heap st') ac
      = Some (zip_with (mark1 DUPLICATECELL) (cell_dists E' z') (snd (cells_before E st))) /\
    length (snd (cells_before E st)) = vtkStructuredData_GetNumberOfCells E /\
    (cellOnly = false ->
       lookup_ghost (Heap st') (PointData (Self st')) = Some ap /\
       bytes_at (Heap st') ap
         = Some (zip_with (mark1 DUPLICATEPOINT) (point_dists E zeroExt)
                   (snd (points_before E st))) /\
       length (snd (points_before E st)) = vtkStructuredData_GetNumberOfPoints E /\
       ap <> ac) /\
    (cellOnly = true ->
       PointData (Self st') = PointData (Self st) /\
       forall b, b <> ac -> (b < length (Heap st))%nat -> Heap st' !! b = Heap st !! b) /\
    StoreOK st' /\ bits_preserved (Heap st) (Heap st') /\
    shape_preserved (Heap st) (Heap st').
Proof.
  intros H3D Hne Hrange Hok Hfit Hdist E E' z'.
  pose proof (sameExtent_false _ _ Hne) as Hsame.
  pose proof (proj1 (StoreOK_parts st) Hok) as [Hlive Hvalid].
  assert (Hunfold : forall r,
    (match (if negb cellOnly then points_pass E zeroExt st else Some st) with
     | Some s => cells_pass E zeroExt s
     | None => None
     end) = r -> GenerateGhostArray zeroExt cellOnly st = r).
  { intros r Hr. unfold GenerateGhostArray. rewrite H3D, Z.eqb_refl. cbn [negb].
    rewrite Hsame. exact Hr. }
  destruct cellOnly.
  - (* the cell pass alone *)
    destruct (cells_pass_spec zeroExt st Hrange Hlive (proj2 Hfit))
      as (st2 & Hrun2 & Hlook2 & Hbytes2 & Hlen2 & Hother2 & Hdom2 & Hshape2 & HPD & _ & _ & Hlive2).
    fold E in Hrun2, Hlook2, Hbytes2, Hlen2, Hother2, Hdom2. fold E' z' in Hrun2, Hbytes2.
    destruct (cells_before_facts E st Hvalid) as (Hold & Hvold & _ & _).
    destruct (pass_bits DUPLICATECELL (Heap st) (Heap st2) (fst (cells_before E st))
                (cell_dists E' z') (snd (cells_before E st)) Hvalid
                ltac:(rewrite Hlen2; symmetry; apply cell_dists_length; exact Hrange)
                Hold Hvold Hbytes2 Hother2 Hdom2 Hshape2) as [Hbits2 Hvalid2].
    exists st2, 0%nat, (fst (cells_before E st)).
    split; [apply Hunfold; exact Hrun2|].
    split; [exact Hlook2|]. split; [exact Hbytes2|]. split; [exact Hlen2|].
    split; [discriminate|]. split; [intros _; split; [exact HPD | exact Hother2]|].
    split; [apply StoreOK_parts; split; assumption|]. split; assumption.
  - (* the point pass, then the cell pass *)
    specialize (Hdist eq_refl).
    destruct (points_pass_spec zeroExt st Hlive (proj1 Hfit))
      as (st1 & Hrun1 & HlookP & HbytesP & HlenP & Hother1 & Hdom1 & Hshape1 & HCD & HE & HT & Hlive1).
    fold E in Hrun1, HlookP, HbytesP, HlenP, Hother1, Hdom1.
    set (ap := fst (points_before E st)) in *.
    destruct (points_before_facts E st Hvalid) as (HoldP & HvoldP & HPn & HPs). fold ap in HoldP, HPn, HPs.
    destruct (pass_bits DUPLICATEPOINT (Heap st) (Heap st1) ap (point_dists E zeroExt)
                (snd (points_before E st)) Hvalid
                ltac:(rewrite HlenP, point_dists_length; reflexivity)
                HoldP HvoldP HbytesP Hother1 Hdom1 Hshape1) as [Hbits1 Hvalid1].
    assert (Hok1 : StoreOK st1) by (apply StoreOK_parts; split; assumption).
    destruct (cells_fit_after st st1 Hok Hfit Hbits1 Hshape1 HCD HE) as [Hlook1 Hfit1].
    assert (Hrange1 : ExtentInRange (DataExtent (Self st1))) by (rewrite HE; exact Hrange).
    destruct (cells_pass_spec zeroExt st1 Hrange1 Hlive1 Hfit1)
      as (st2 & Hrun2 & Hlook2 & Hbytes2 & Hlen2 & Hother2 & Hdom2 & Hshape2 & HPD & _ & _ & Hlive2).
    rewrite HE in Hrun2, Hlook2, Hbytes2, Hlen2, Hother2, Hdom2.
    fold E in Hrun2, Hlook2, Hbytes2, Hlen2, Hother2, Hdom2. fold E' z' in Hrun2, Hbytes2.
    set (ac := fst (cells_before E st1)) in *.
    destruct (cells_before_facts E st1 Hvalid1) as (HoldC & HvoldC & _ & _). fold ac in HoldC.
    destruct (pass_bits DUPLICATECELL (Heap st1) (Heap st2) ac
                (cell_dists E' z') (snd (cells_before E st1)) Hvalid1
                ltac:(rewrite Hlen2; symmetry; apply cell_dists_length; exact Hrange)
                HoldC HvoldC Hbytes2 Hother2 Hdom2 Hshape2) as [Hbits2 Hvalid2].
    assert (Hlt : (ap < length (Heap st1))%nat).
    { apply bytes_at_Some in HbytesP as (nm & Hnm). eapply lookup_lt_Some; eauto. }
    assert (Hac : ac <> ap).
    { apply cell_array_elsewhere; auto. }
    assert (Hsame_old : snd (cells_before E st1) = snd (cells_before E st)).
    { unfold cells_before. rewrite Hlook1.
      destruct (lookup_ghost (Heap st) (CellData (Self st))) as [b|] eqn:Eb; [|reflexivity].
      cbn [snd]. f_equal.
      destruct (lookup_ghost_bytes _ _ _ Eb) as (_ & _ & _ & _ & Hb).
      assert (Hbne : b <> ap).
      { destruct (lookup_ghost (Heap st) (PointData (Self st))) as [a|] eqn:Ea.
        - rewrite (HPs a eq_refl). intros Heq. exact (Hdist a b Ea Eb (eq_sym Heq)).
        - rewrite (HPn eq_refl). lia. }
      unfold bytes_at. rewrite (Hother1 b Hbne Hb). reflexivity. }
    exists st2, ap, ac.
    split; [apply Hunfold; cbn [negb]; rewrite Hrun1; exact Hrun2|].
    split; [exact Hlook2|].
    split; [rewrite <- Hsame_old; exact Hbytes2|].
    split; [rewrite <- Hsame_old; exact Hlen2|].
    split.
    { intros _. split; [|split; [|split]].
      - rewrite HPD. rewrite (lookup_ghost_preserved _ _ _ Hshape2 (proj1 Hlive1)). exact HlookP.
      - unfold bytes_at. rewrite (Hother2 ap (fun e => Hac (eq_sym e)) Hlt). exact HbytesP.
      - exact HlenP.
      - intros e. apply Hac. symmetry. exact e. }
    split; [discriminate|].
    split; [apply StoreOK_parts; split; assumption|].
    split; [eapply bits_preserved_trans; eauto | eapply shape_preserved_trans; eauto].
Qed.

End GhostResult.

(** ** GenerateGhostArray: the cell pass *)

Section GhostCells.

Context `{Externals}.

(** The loops meet cell (i, j, k) at position [cell_index]. *)
Lemma cell_dists_lookup (extent zeroExt : Extent) (i j k : Z) :
  in_cell_extent extent i j k ->
  cell_dists extent zeroExt !! cell_index extent i j k =
  Some (combine_dist (cell_axis_dist (e0 zeroExt) (e1 zeroExt) i)
                     (cell_axis_dist (e2 zeroExt) (e3 zeroExt) j)
                     (cell_axis_dist (e4 zeroExt) (e5 zeroExt) k)).
Proof.
  intros (Hi & Hj & Hk). unfold cell_dists, cell_index.
  set (nx := Z.to_nat (e1 extent - e0 extent)).
  set (ny := Z.to_nat (e3 extent - e2 extent)).
  rewrite <- Nat.add_assoc.
  assert (Hbi : (Z.to_nat (i - e0 extent) < nx)%nat) by (subst nx; lia).
  assert (Hbj : (Z.to_nat (j - e2 extent) < ny)%nat) by (subst ny; lia).
  rewrite (flat_map_uniform_lookup _ (ny * nx)) with (x := k).
  - rewrite (flat_map_uniform_lookup _ nx) with (x := j).
    + rewrite list_lookup_fmap, irange_lookup by exact Hbi.
      cbn [fmap option_fmap option_map]. rewrite Z2Nat.id by lia.
      replace (e0 extent + (i - e0 extent)) with i by lia. reflexivity.
    + intros j' _. rewrite length_map, irange_length. reflexivity.
    + rewrite irange_lookup by exact Hbj. f_equal. rewrite Z2Nat.id by lia. lia.
    + exact Hbi.
  - intros k' _. rewrite (flat_map_uniform_length _ nx).
    + rewrite irange_length. reflexivity.
    + intros j' _. rewrite length_map, irange_length. reflexivity.
  - rewrite irange_lookup by lia. f_equal. rewrite Z2Nat.id by lia. lia.
  - nia.
Qed.

Lemma cell_dists_length_raw (ext z : Extent) :
  length (cell_dists ext z)
  = (Z.to_nat (e5 ext - e4 ext) * (Z.to_nat (e3 ext - e2 ext) * Z.to_nat (e1 ext - e0 ext)))%nat.
Proof.
  unfold cell_dists.
  rewrite (flat_map_uniform_length _
             (Z.to_nat (e3 ext - e2 ext) * Z.to_nat (e1 ext - e0 ext))).
  - rewrite irange_length. reflexivity.
  - intros k _. rewrite (flat_map_uniform_length _ (Z.to_nat (e1 ext - e0 ext))).
    + rewrite irange_length. reflexivity.
    + intros j _. rewrite length_map, irange_length. reflexivity.
Qed.

Lemma cell_index_bound (ext : Extent) (i j k : Z) :
  in_cell_extent ext i j k ->
  (cell_index ext i j k
   < Z.to_nat (e5 ext - e4 ext) * (Z.to_nat (e3 ext - e2 ext) * Z.to_nat (e1 ext - e0 ext)))%nat.
Proof.
  intros Hin. rewrite <- (cell_dists_length_raw ext ext).
  eapply lookup_lt_Some. apply (cell_dists_lookup ext ext i j k Hin).
Qed.

(** One axis of the cell loops: the distance is positive exactly when the
    index is outside the half-open canonical range. *)
Lemma cell_axis_dist_positive (zlo zhi a : Z) :
  - 2 ^ 30 < zlo < 2 ^ 30 -> - 2 ^ 30 < zhi <= 2 ^ 30 -> - 2 ^ 30 < a < 2 ^ 30 ->
  0 <= cell_axis_dist zlo zhi a /\
  (0 < cell_axis_dist zlo zhi a <-> ~ (zlo <= a < zhi)).
Proof.
  intros Hlo Hhi Ha. rewrite (cell_axis_dist_value zlo zhi a Hlo Hhi Ha).
  destruct (Z.geb_spec a zhi), (Z.ltb_spec a zlo); lia.
Qed.

Lemma cell_dist_test (z : Extent) (i j k : Z) :
  - 2 ^ 30 < e0 z < 2 ^ 30 -> - 2 ^ 30 < e1 z <= 2 ^ 30 ->
  - 2 ^ 30 < e2 z < 2 ^ 30 -> - 2 ^ 30 < e3 z <= 2 ^ 30 ->
  - 2 ^ 30 < e4 z < 2 ^ 30 -> - 2 ^ 30 < e5 z <= 2 ^ 30 ->
  - 2 ^ 30 < i < 2 ^ 30 -> - 2 ^ 30 < j < 2 ^ 30 -> - 2 ^ 30 < k < 2 ^ 30 ->
  (combine_dist (cell_axis_dist (e0 z) (e1 z) i)
                (cell_axis_dist (e2 z) (e3 z) j)
                (cell_axis_dist (e4 z) (e5 z) k) >? 0)
  = negb (cell_inside z i j k).
Proof.
  intros R0 R1 R2 R3 R4 R5 Hi Hj Hk.
  destruct (cell_axis_dist_positive (e0 z) (e1 z) i R0 R1 Hi) as (A1 & A2).
  destruct (cell_axis_dist_positive (e2 z) (e3 z) j R2 R3 Hj) as (B1 & B2).
  destruct (cell_axis_dist_positive (e4 z) (e5 z) k R4 R5 Hk) as (C1 & C2).
  rewrite combine_dist_max. unfold cell_inside.
  destruct (Z.gtb_spec (Z.max (cell_axis_dist (e0 z) (e1 z) i)
                         (Z.max (cell_axis_dist (e2 z) (e3 z) j)
                                (cell_axis_dist (e4 z) (e5 z) k))) 0);
    destruct (Z.leb_spec (e0 z) i), (Z.ltb_spec i (e1 z)),
             (Z.leb_spec (e2 z) j), (Z.ltb_spec j (e3 z)),
             (Z.leb_spec (e4 z) k), (Z.ltb_spec k (e5 z));
    cbn [andb negb]; try reflexivity; exfalso; lia.
Qed.

(** The inflated extents of a call whose extents are in range. *)
Lemma inflate_in_range (E z : Extent) :
  ExtentInRange E -> ExtentInRange z ->
  let E' := fst (inflate E z) in
  let z' := snd (inflate E z) in
  (e0 E' = e0 E /\ e2 E' = e2 E /\ e4 E' = e4 E /\
   e1 E' = (if e0 E =? e1 E then e1 E + 1 else e1 E) /\
   e3 E' = (if e2 E =? e3 E then e3 E + 1 else e3 E) /\
   e5 E' = (if e4 E =? e5 E then e5 E + 1 else e5 E)) /\
  (e0 z' = e0 z /\ e2 z' = e2 z /\ e4 z' = e4 z /\
   e1 z' = (if e0 E =? e1 E then e1 z + 1 else e1 z) /\
   e3 z' = (if e2 E =? e3 E then e3 z + 1 else e3 z) /\
   e5 z' = (if e4 E =? e5 E then e5 z + 1 else e5 z)).
Proof.
  intros (R0 & R1 & R2 & R3 & R4 & R5) (Z0 & Z1 & Z2 & Z3 & Z4 & Z5).
  rewrite inflate_fields. cbn [fst snd e0 e1 e2 e3 e4 e5].
  rewrite !wrap32_id by (unfold int_range; lia). repeat split; reflexivity.
Qed.

Lemma cell_count_inflated (E z : Extent) :
  ExtentInRange E ->
  let E' := fst (inflate E z) in
  (Z.to_nat (e5 E' - e4 E') * (Z.to_nat (e3 E' - e2 E') * Z.to_nat (e1 E' - e0 E')))%nat
  = vtkStructuredData_GetNumberOfCells E.
Proof.
  intros (R0 & R1 & R2 & R3 & R4 & R5). rewrite inflate_fields.
  cbn [fst e0 e1 e2 e3 e4 e5]. unfold vtkStructuredData_GetNumberOfCells.
  rewrite !cell_axis_count_inflated by assumption. lia.
Qed.

(** X1. The cell pass of [GenerateGhostArray]. When the call passes its two
    guards, the cell ghost array has one entry per cell of the extent, and
    the entry of cell (i, j, k) is its former value (0 for an array the call
    creates) when the cell lies in the canonical extent, upper bounds
    excluded, and its former value with the DUPLICATECELL bit OR-ed in
    otherwise. Both extents are the inflated ones: on every axis where the
    true extent is degenerate, the upper bounds of both are one more. *)
Theorem GenerateGhostArray_cells (zeroExt : Extent) (cellOnly : bool) (st : State) :
  GhostBitsOK ->
  ExtentType (Self st) = VTK_3D_EXTENT ->
  DataExtent (Self st) <> zeroExt ->
  ExtentInRange (DataExtent (Self st)) -> ExtentInRange zeroExt ->
  StoreOK st -> GhostBuffersFit st ->
  (cellOnly = false -> GhostArraysDistinct st) ->
  let E' := fst (inflate (DataExtent (Self st)) zeroExt) in
  exists st' zeroExt' a g,
    GenerateGhostArray zeroExt cellOnly st = Some (st', zeroExt') /\
    lookup_ghost (Heap st') (CellData (Self st')) = Some a /\
    bytes_at (Heap st') a = Some g /\
    length g = vtkStructuredData_GetNumberOfCells (DataExtent (Self st)) /\
    (forall i j k, in_cell_extent E' i j k ->
       let idx := cell_index E' i j k in
       (idx < length g)%nat /\
       g !! idx = Some (if cell_inside zeroExt' i j k
                        then cell_ghost_entry st idx
                        else Z.lor (cell_ghost_entry st idx) DUPLICATECELL)).
Proof.
  intros [HbP HbC] H3D Hne Hrange Hzrange Hok Hfit Hdist E'.
  destruct (GenerateGhostArray_buffers zeroExt cellOnly st H3D Hne Hrange Hok Hfit Hdist)
    as (st' & ap & ac & Hrun & Hlook & Hbytes & Hlen & _ & _ & _ & _ & _).
  set (E := DataExtent (Self st)) in *. fold E' in Hbytes.
  set (z' := snd (inflate E zeroExt)) in *.
  set (old := snd (cells_before E st)) in *.
  pose proof (proj1 (StoreOK_parts st) Hok) as [Hlive Hvalid].
  destruct (cells_before_facts E st Hvalid) as (_ & Hvold & _ & _). fold old in Hvold.
  destruct (inflate_in_range E zeroExt Hrange Hzrange) as (HE' & Hz'). fold E' in HE'. fold z' in Hz'.
  pose proof (cell_count_inflated E zeroExt Hrange) as Hcount. fold E' in Hcount.
  assert (Hglen : length (zip_with (mark1 DUPLICATECELL) (cell_dists E' z') old)
                  = vtkStructuredData_GetNumberOfCells E).
  { rewrite length_zip_with_r_eq; [exact Hlen|].
    rewrite Hlen. unfold E', z'. rewrite cell_dists_length by exact Hrange. reflexivity. }
  exists st', z', ac, (zip_with (mark1 DUPLICATECELL) (cell_dists E' z') old).
  split; [exact Hrun|]. split; [exact Hlook|]. split; [exact Hbytes|].
  split; [exact Hglen|].
  intros i j k Hin idx.
  assert (Hidx : (idx < vtkStructuredData_GetNumberOfCells E)%nat).
  { rewrite <- Hcount. apply cell_index_bound, Hin. }
  split; [rewrite Hglen; exact Hidx|].
  assert (Hentry : old !! idx = Some (cell_ghost_entry st idx)).
  { apply cells_before_entry. fold E old. rewrite Hlen. exact Hidx. }
  rewrite lookup_zip_with. subst idx.
  rewrite (cell_dists_lookup E' z' i j k Hin), Hentry.
  cbn [mbind option_bind]. f_equal. unfold mark1.
  destruct Hrange as (R0 & R1 & R2 & R3 & R4 & R5).
  destruct Hzrange as (Z0 & Z1 & Z2 & Z3 & Z4 & Z5).
  destruct HE' as (A0 & A2 & A4 & A1 & A3 & A5).
  destruct Hz' as (B0 & B2 & B4 & B1 & B3 & B5).
  destruct Hin as (Hi & Hj & Hk).
  rewrite cell_dist_test.
  - destruct (cell_inside z' i j k); cbn [negb]; [reflexivity|].
    apply to_uchar_lor; [|lia].
    rewrite Forall_forall in Hvold. apply Hvold. apply list_elem_of_lookup. eauto.
  - rewrite B0. exact Z0.
  - rewrite B1. destruct (e0 E =? e1 E); lia.
  - rewrite B2. exact Z2.
  - rewrite B3. destruct (e2 E =? e3 E); lia.
  - rewrite B4. exact Z4.
  - rewrite B5. destruct (e4 E =? e5 E); lia.
  - rewrite A0 in Hi. rewrite A1 in Hi. destruct (e0 E =? e1 E); lia.
  - rewrite A2 in Hj. rewrite A3 in Hj. destruct (e2 E =? e3 E); lia.
  - rewrite A4 in Hk. rewrite A5 in Hk. destruct (e4 E =? e5 E); lia.
Qed.

End GhostCells.

(** ** GenerateGhostArray and the two caches *)

Section GhostClocks.

Context `{Externals}.

Lemma points_pass_existing (extent zeroExt : Extent) (st st1 : State) :
  lookup_ghost (Heap st) (PointData (Self st)) <> None ->
  points_pass extent zeroExt st = Some st1 ->
  Self st1 = Self st /\ GlobalTime st1 = GlobalTime st.
Proof.
  unfold points_pass, ghostPoints_array. intros Hex Hrun.
  destruct (lookup_ghost (Heap st) (PointData (Self st))) as [a|]; [|contradiction].
  destruct (update_ghost_buffer_members _ _ _ _ Hrun) as (HS & HT & _). auto.
Qed.

Lemma cells_pass_existing (extent zeroExt : Extent) (st st1 : State) (z' : Extent) :
  lookup_ghost (Heap st) (CellData (Self st)) <> None ->
  cells_pass extent zeroExt st = Some (st1, z') ->
  Self st1 = Self st /\ GlobalTime st1 = GlobalTime st.
Proof.
  unfold cells_pass, ghostCells_array. intros Hex Hrun.
  destruct (lookup_ghost (Heap st) (CellData (Self st))) as [a|]; [|contradiction].
  destruct (inflate extent zeroExt) as [e z].
  destruct (update_ghost_buffer a (cell_loops e z) st) as [s|] eqn:Hu; [|discriminate].
  injection Hrun as <- <-.
  destruct (update_ghost_buffer_members _ _ _ _ Hu) as (HS & HT & _). auto.
Qed.

Lemma points_pass_creating (extent zeroExt : Extent) (st st1 : State) :
  lookup_ghost (Heap st) (PointData (Self st)) = None ->
  points_pass extent zeroExt st = Some st1 ->
  MTime (PointData (Self st1)) = (GlobalTime st + 1)%N /\
  GlobalTime st1 = (GlobalTime st + 1)%N.
Proof.
  unfold points_pass, ghostPoints_array. intros Hex Hrun. rewrite Hex in Hrun.
  cbv zeta in Hrun.
  destruct (new_ghost_array (vtkStructuredData_GetNumberOfPoints extent) st)
    as [a st0] eqn:Enew.
  destruct (update_ghost_buffer_members _ _ _ _ Hrun) as (HS & HT & _).
  rewrite HS, HT.
  destruct (same_frame_PointData_AddArray a st0) as (_ & _ & HG & HM & _).
  rewrite HG, HM.
  pose proof (same_frame_new_ghost_array (vtkStructuredData_GetNumberOfPoints extent) st)
    as (_ & _ & H0). rewrite Enew in H0. cbn [snd] in H0. rewrite H0. auto.
Qed.

Lemma cells_pass_creating (extent zeroExt : Extent) (st st1 : State) (z' : Extent) :
  lookup_ghost (Heap st) (CellData (Self st)) = None ->
  cells_pass extent zeroExt st = Some (st1, z') ->
  MTime (CellData (Self st1)) = (GlobalTime st + 1)%N /\
  GlobalTime st1 = (GlobalTime st + 1)%N.
Proof.
  unfold cells_pass, ghostCells_array. intros Hex Hrun. rewrite Hex in Hrun.
  cbv zeta in Hrun.
  destruct (new_ghost_array (vtkStructuredData_GetNumberOfCells extent) st)
    as [a st0] eqn:Enew.
  destruct (inflate extent zeroExt) as [e z].
  destruct (update_ghost_buffer a (cell_loops e z) (CellData_AddArray a st0))
    as [s|] eqn:Hu; [|discriminate].
  injection Hrun as <- <-.
  destruct (update_ghost_buffer_members _ _ _ _ Hu) as (HS & HT & _).
  rewrite HS, HT.
  destruct (same_frame_CellData_AddArray a st0) as (_ & _ & HG & HM & _).
  rewrite HG, HM.
  pose proof (same_frame_new_ghost_array (vtkStructuredData_GetNumberOfCells extent) st)
    as (_ & _ & H0). rewrite Enew in H0. cbn [snd] in H0. rewrite H0. auto.
Qed.

Lemma GetMTime_lower (ds : vtkDataSet) :
  (MTime (PointData ds) <= GetMTime ds)%N /\ (MTime (CellData ds) <= GetMTime ds)%N.
Proof. rewrite GetMTime_max. lia. Qed.

(** X2. [GenerateGhostArray] and the caches. A call never touches the
    geometry, the cached bounds and scalar range or their stamps. When the
    ghost arrays it works on exist already, it changes buffers only: no clock
    advances, so a bounds or scalar-range cache that was valid is still
    served afterwards, although ghost bytes may have changed. When it has to
    create a ghost array, the clock of that attribute set advances: both
    caches are stale after the call. *)
Theorem GenerateGhostArray_and_the_caches (zeroExt : Extent) (cellOnly : bool) (st : State) :
  ExtentInRange (DataExtent (Self st)) -> StoreOK st -> GhostBuffersFit st ->
  exists st' zeroExt',
    GenerateGhostArray zeroExt cellOnly st = Some (st', zeroExt') /\
    same_geometry_and_caches (Self st) (Self st') /\ Log st' = Log st /\
    ((cellOnly = true \/ lookup_ghost (Heap st) (PointData (Self st)) <> None) ->
     lookup_ghost (Heap st) (CellData (Self st)) <> None ->
     Self st' = Self st /\ GlobalTime st' = GlobalTime st /\
     (forall sch, (GetMTime (Self st) <= ComputeTime (Self st))%N ->
                  GetBounds sch st' = (Bounds (Self st), st')) /\
     ((GetMTime (Self st) <= ScalarRangeComputeTime (Self st))%N ->
      GetScalarRange st' = (ScalarRange (Self st), st'))) /\
    (ExtentType (Self st) = VTK_3D_EXTENT -> DataExtent (Self st) <> zeroExt ->
     ClockOK st ->
     (cellOnly = false /\ lookup_ghost (Heap st) (PointData (Self st)) = None) \/
     lookup_ghost (Heap st) (CellData (Self st)) = None ->
     (GlobalTime st < GetMTime (Self st'))%N /\
     (ComputeTime (Self st') < GetMTime (Self st'))%N /\
     (ScalarRangeComputeTime (Self st') < GetMTime (Self st'))%N).
Proof.
  intros Hrange Hok Hfit.
  destruct (GenerateGhostArray_total zeroExt cellOnly st Hrange Hok Hfit) as (st' & z' & Hrun).
  exists st', z'. split; [exact Hrun|].
  destruct (same_frame_GenerateGhostArray _ _ _ _ _ Hrun) as (Hgeo & Hlog & Htime).
  split; [exact Hgeo|]. split; [exact Hlog|].
  pose proof (proj1 (StoreOK_parts st) Hok) as [Hlive Hvalid].
  assert (Hserved : Self st' = Self st ->
    (forall sch, (GetMTime (Self st) <= ComputeTime (Self st))%N ->
                 GetBounds sch st' = (Bounds (Self st), st')) /\
    ((GetMTime (Self st) <= ScalarRangeComputeTime (Self st))%N ->
     GetScalarRange st' = (ScalarRange (Self st), st'))).
  { intros HS. split.
    - intros sch Hgate. unfold GetBounds, ComputeBounds. rewrite HS.
      apply N.ltb_ge in Hgate. rewrite Hgate. rewrite HS. reflexivity.
    - intros Hgate. unfold GetScalarRange, ComputeScalarRange. rewrite HS.
      apply N.ltb_ge in Hgate. rewrite Hgate. rewrite HS. reflexivity. }
  destruct (GenerateGhostArray_stages _ _ _ _ _ Hrun)
    as [(Hguard & -> & ->)|(H3D & Hne & st1 & Hst1 & Hcells)].
  { (* the call returned at a guard *)
    split.
    - intros _ _. split; [reflexivity|]. split; [reflexivity|]. apply Hserved. reflexivity.
    - intros H3D Hne. destruct Hguard; contradiction. }
  (* the call ran its passes *)
  destruct (first_stage zeroExt cellOnly st Hok Hfit)
    as (s1 & Hrun1 & _ & Hbits1 & Hshape1 & _ & HCD & HE & Hok1).
  assert (s1 = st1) as ->.
  { destruct cellOnly; cbn [negb] in Hrun1.
    - injection Hrun1 as <-. symmetry. exact Hst1.
    - rewrite Hst1 in Hrun1. injection Hrun1 as <-. reflexivity. }
  destruct (cells_fit_after st st1 Hok Hfit Hbits1 Hshape1 HCD HE) as [Hlook1 _].
  assert (F1 : same_frame st st1).
  { destruct cellOnly; [subst st1; apply same_frame_refl|].
    eapply same_frame_points_pass; eauto. }
  split.
  - intros Hpoint Hcell.
    assert (HS1 : Self st1 = Self st /\ GlobalTime st1 = GlobalTime st).
    { destruct cellOnly; [subst st1; auto|].
      destruct Hpoint as [Hc|Hp]; [discriminate|].
      eapply points_pass_existing; eauto. }
    destruct HS1 as [HS1 HT1].
    destruct (cells_pass_existing _ _ st1 st' z' ltac:(rewrite Hlook1; exact Hcell) Hcells)
      as [HS2 HT2].
    assert (HS : Self st' = Self st) by congruence.
    split; [exact HS|]. split; [congruence|]. apply Hserved, HS.
  - intros _ _ Hclock Hmissing.
    destruct Hgeo as (_ & _ & _ & _ & _ & _ & HCT & _ & HST).
    destruct Hclock as (_ & _ & _ & HC & HSR).
    destruct (GetMTime_lower (Self st')) as [HlowP HlowC].
    destruct F1 as (_ & _ & Ht1).
    assert (Hlate : (GlobalTime st < MTime (PointData (Self st')))%N
                    \/ (GlobalTime st < MTime (CellData (Self st')))%N).
    { destruct (lookup_ghost (Heap st) (CellData (Self st))) as [c|] eqn:Ec.
      - destruct Hmissing as [[-> Hp]|Hc]; [|discriminate].
        destruct (points_pass_creating _ _ _ _ Hp Hst1) as [HM1 _].
        destruct (cells_pass_existing _ _ st1 st' z'
                    ltac:(rewrite Hlook1; discriminate) Hcells) as [HS2 _].
        left. rewrite HS2, HM1. lia.
      - destruct (cells_pass_creating _ _ st1 st' z'
                    ltac:(rewrite Hlook1; reflexivity) Hcells) as [HM2 _].
        right. rewrite HM2. lia. }
    rewrite HCT, HST. destruct Hlate; lia.
Qed.

End GhostClocks.

Section GhostCellOnly.

Context `{Externals}.

(** X6. A call of [GenerateGhostArray] with [cellOnly = true] never creates
    or changes anything on the point side: the point data (its arrays, its
    clock) is the same, its ghost array, if any, is the same array, and every
    object of the store other than the cell ghost array is what it was. *)
Theorem GenerateGhostArray_cellOnly (zeroExt : Extent) (st : State) :
  ExtentInRange (DataExtent (Self st)) -> StoreOK st -> GhostBuffersFit st ->
  exists st' zeroExt',
    GenerateGhostArray zeroExt true st = Some (st', zeroExt') /\
    PointData (Self st') = PointData (Self st) /\
    lookup_ghost (Heap st') (PointData (Self st'))
      = lookup_ghost (Heap st) (PointData (Self st)) /\
    (forall b, (b < length (Heap st))%nat ->
               lookup_ghost (Heap st) (CellData (Self st)) <> Some b ->
               Heap st' !! b = Heap st !! b) /\
    (forall b v, lookup_ghost (Heap st) (PointData (Self st)) = Some b ->
                 lookup_ghost (Heap st) (CellData (Self st)) <> Some b ->
                 bytes_at (Heap st) b = Some v -> bytes_at (Heap st') b = Some v).
Proof.
  intros Hrange Hok Hfit.
  pose proof (proj1 (StoreOK_parts st) Hok) as [Hlive Hvalid].
  destruct (cellOnly_frame zeroExt st Hrange Hok Hfit)
    as (st' & z' & Hrun & HPD & Hshape & Hother).
  exists st', z'. split; [exact Hrun|].
  split; [exact HPD|]. split.
  - rewrite HPD. apply lookup_ghost_preserved; [exact Hshape | exact (proj1 Hlive)].
  - split; [exact Hother|].
    intros b v Hb Hnot Hv. unfold bytes_at in *.
    destruct (lookup_ghost_bytes _ _ _ Hb) as (_ & _ & _ & _ & Hlt).
    rewrite (Hother b Hlt Hnot). exact Hv.
Qed.

End GhostCellOnly.

(** ** GenerateGhostArray called again *)

Lemma Forall2_flat_map_same {A B C : Type} (R : B -> C -> Prop)
    (f : A -> list B) (g : A -> list C) (l : list A) :
  (forall x, x ∈ l -> Forall2 R (f x) (g x)) ->
  Forall2 R (flat_map f l) (flat_map g l).
Proof.
  induction l as [|x l IH]; intros Hfg; simpl; [constructor|].
  apply Forall2_app; [apply Hfg; left|]. apply IH. intros y Hy. apply Hfg. right. exact Hy.
Qed.

Lemma Forall2_map_same {A B C : Type} (R : B -> C -> Prop)
    (f : A -> B) (g : A -> C) (l : list A) :
  (forall x, x ∈ l -> R (f x) (g x)) -> Forall2 R (map f l) (map g l).
Proof.
  induction l as [|x l IH]; intros Hfg; simpl; constructor.
  - apply Hfg. left.
  - apply IH. intros y Hy. apply Hfg. right. exact Hy.
Qed.

Lemma set_Heap_same (st : State) (h : Store) : h = Heap st -> set_Heap st h = st.
Proof. intros ->. destruct st. reflexivity. Qed.

Section GhostAgain.

Context `{Externals}.

(** Marking an entry that was marked for a distance at least as selective
    changes nothing. *)
Lemma mark1_absorb (flag d1 d2 v : Z) :
  is_uchar v -> 0 <= flag < 256 -> (d2 > 0 -> d1 > 0) ->
  mark1 flag d2 (mark1 flag d1 v) = mark1 flag d1 v.
Proof.
  intros Hv Hf Himp. unfold mark1.
  destruct (Z.gtb_spec d2 0) as [H2|H2]; [|reflexivity].
  destruct (Z.gtb_spec d1 0) as [H1|H1]; [|lia].
  rewrite (to_uchar_lor v flag Hv Hf).
  rewrite <- Z.lor_assoc, Z.lor_diag. apply to_uchar_lor; assumption.
Qed.

Lemma zip_mark_absorb (flag : Z) (ds2 ds1 : list Z) :
  0 <= flag < 256 ->
  Forall2 (fun d2 d1 => d2 > 0 -> d1 > 0) ds2 ds1 ->
  forall old, Forall is_uchar old ->
  zip_with (mark1 flag) ds2 (zip_with (mark1 flag) ds1 old)
  = zip_with (mark1 flag) ds1 old.
Proof.
  intros Hf Hds. induction Hds as [|d2 d1 ds2 ds1 Hd Hrest IH]; intros old Hold.
  - reflexivity.
  - destruct old as [|v old]; [reflexivity|]. simpl.
    apply Forall_cons in Hold as [Hv Hold].
    rewrite (mark1_absorb flag d1 d2 v Hv Hf Hd). f_equal. apply IH, Hold.
Qed.

Lemma Forall2_same_dists (ds : list Z) : Forall2 (fun d2 d1 => d2 > 0 -> d1 > 0) ds ds.
Proof. induction ds; constructor; auto. Qed.

(** The point pass on a buffer that already carries its marks. *)
Lemma points_pass_noop (extent zeroExt : Extent) (st : State) (a : nat) (g : list Z) :
  lookup_ghost (Heap st) (PointData (Self st)) = Some a ->
  bytes_at (Heap st) a = Some g ->
  length g = vtkStructuredData_GetNumberOfPoints extent ->
  zip_with (mark1 DUPLICATEPOINT) (point_dists extent zeroExt) g = g ->
  points_pass extent zeroExt st = Some st.
Proof.
  intros Hlook Hbytes Hlen Hsame. unfold points_pass, ghostPoints_array. rewrite Hlook.
  apply bytes_at_Some in Hbytes as (name & Ha).
  rewrite (update_ghost_buffer_spec a name g g
             (length (point_dists extent zeroExt)) _ st Ha).
  - f_equal. apply set_Heap_same. apply list_insert_id. exact Ha.
  - rewrite point_loops_fold, mark_entry_fold_all.
    + rewrite Hsame. reflexivity.
    + rewrite Hlen, point_dists_length. reflexivity.
Qed.

(** The cell pass on a buffer that already carries its marks. *)
Lemma cells_pass_noop (extent zeroExt : Extent) (st : State) (a : nat) (g : list Z) :
  ExtentInRange extent ->
  lookup_ghost (Heap st) (CellData (Self st)) = Some a ->
  bytes_at (Heap st) a = Some g ->
  length g = vtkStructuredData_GetNumberOfCells extent ->
  zip_with (mark1 DUPLICATECELL)
    (cell_dists (fst (inflate extent zeroExt)) (snd (inflate extent zeroExt))) g = g ->
  cells_pass extent zeroExt st = Some (st, snd (inflate extent zeroExt)).
Proof.
  intros Hrange Hlook Hbytes Hlen Hsame. unfold cells_pass, ghostCells_array. rewrite Hlook.
  pose proof (cell_dists_length extent zeroExt Hrange) as Hdl.
  destruct (inflate extent zeroExt) as [e z]. cbn [fst snd] in *.
  apply bytes_at_Some in Hbytes as (name & Ha).
  rewrite (update_ghost_buffer_spec a name g g (length (cell_dists e z)) _ st Ha).
  - f_equal. f_equal. apply set_Heap_same. apply list_insert_id. exact Ha.
  - rewrite cell_loops_fold, mark_entry_fold_all.
    + rewrite Hsame. reflexivity.
    + rewrite Hlen, Hdl. reflexivity.
Qed.

Lemma point_axis_wider (zlo zhi zhi2 a : Z) :
  - 2 ^ 30 < zlo < 2 ^ 30 -> - 2 ^ 30 < zhi < 2 ^ 30 -> - 2 ^ 30 < zhi2 < 2 ^ 30 ->
  - 2 ^ 30 < a < 2 ^ 30 -> zhi <= zhi2 ->
  point_axis_dist zlo zhi2 a > 0 -> point_axis_dist zlo zhi a > 0.
Proof.
  intros Hlo Hhi Hhi2 Ha Hle. rewrite !point_axis_dist_value by assumption.
  destruct (Z.gtb_spec a zhi2), (Z.gtb_spec a zhi), (Z.ltb_spec a zlo); lia.
Qed.

Lemma cell_axis_wider (zlo zhi zhi2 a : Z) :
  - 2 ^ 30 < zlo < 2 ^ 30 -> - 2 ^ 30 < zhi <= 2 ^ 30 -> - 2 ^ 30 < zhi2 <= 2 ^ 30 ->
  - 2 ^ 30 < a < 2 ^ 30 -> zhi <= zhi2 ->
  cell_axis_dist zlo zhi2 a > 0 -> cell_axis_dist zlo zhi a > 0.
Proof.
  intros Hlo Hhi Hhi2 Ha Hle. rewrite !cell_axis_dist_value by assumption.
  destruct (Z.geb_spec a zhi2), (Z.geb_spec a zhi), (Z.ltb_spec a zlo); lia.
Qed.

Lemma combine_dist_positive (di dj dk : Z) :
  combine_dist di dj dk > 0 <-> di > 0 \/ dj > 0 \/ dk > 0.
Proof. rewrite combine_dist_max. lia. Qed.

(** With a canonical extent whose upper bounds are not below, the point
    loops mark no point that the first extent leaves unmarked. *)
Lemma point_dists_wider (E z z2 : Extent) :
  ExtentInRange E -> ExtentInRange z -> ExtentInRange z2 ->
  e0 z2 = e0 z -> e2 z2 = e2 z -> e4 z2 = e4 z ->
  e1 z <= e1 z2 -> e3 z <= e3 z2 -> e5 z <= e5 z2 ->
  Forall2 (fun d2 d1 => d2 > 0 -> d1 > 0) (point_dists E z2) (point_dists E z).
Proof.
  intros (R0 & R1 & R2 & R3 & R4 & R5) (Z0 & Z1 & Z2 & Z3 & Z4 & Z5)
         (W0 & W1 & W2 & W3 & W4 & W5) L0 L2 L4 U1 U3 U5.
  unfold point_dists.
  apply Forall2_flat_map_same. intros k Hk. apply irange_elem in Hk.
  apply Forall2_flat_map_same. intros j Hj. apply irange_elem in Hj.
  apply Forall2_map_same. intros i Hi. apply irange_elem in Hi.
  rewrite !combine_dist_positive. rewrite L0, L2, L4.
  intros [Hd|[Hd|Hd]].
  - left. apply (point_axis_wider _ _ (e1 z2)); (assumption || lia).
  - right. left. apply (point_axis_wider _ _ (e3 z2)); (assumption || lia).
  - right. right. apply (point_axis_wider _ _ (e5 z2)); (assumption || lia).
Qed.

Lemma cell_dists_wider (E z z2 : Extent) :
  (- 2 ^ 30 < e0 E < 2 ^ 30) -> (- 2 ^ 30 < e1 E <= 2 ^ 30) ->
  (- 2 ^ 30 < e2 E < 2 ^ 30) -> (- 2 ^ 30 < e3 E <= 2 ^ 30) ->
  (- 2 ^ 30 < e4 E < 2 ^ 30) -> (- 2 ^ 30 < e5 E <= 2 ^ 30) ->
  (- 2 ^ 30 < e0 z < 2 ^ 30) -> (- 2 ^ 30 < e1 z <= 2 ^ 30) ->
  (- 2 ^ 30 < e2 z < 2 ^ 30) -> (- 2 ^ 30 < e3 z <= 2 ^ 30) ->
  (- 2 ^ 30 < e4 z < 2 ^ 30) -> (- 2 ^ 30 < e5 z <= 2 ^ 30) ->
  e0 z2 = e0 z -> e2 z2 = e2 z -> e4 z2 = e4 z ->
  e1 z <= e1 z2 <= 2 ^ 30 -> e3 z <= e3 z2 <= 2 ^ 30 -> e5 z <= e5 z2 <= 2 ^ 30 ->
  Forall2 (fun d2 d1 => d2 > 0 -> d1 > 0) (cell_dists E z2) (cell_dists E z).
Proof.
  intros R0 R1 R2 R3 R4 R5 Z0 Z1 Z2 Z3 Z4 Z5 L0 L2 L4 U1 U3 U5.
  unfold cell_dists.
  apply Forall2_flat_map_same. intros k Hk. apply irange_elem in Hk.
  apply Forall2_flat_map_same. intros j Hj. apply irange_elem in Hj.
  apply Forall2_map_same. intros i Hi. apply irange_elem in Hi.
  rewrite !combine_dist_positive. rewrite L0, L2, L4.
  intros [Hd|[Hd|Hd]].
  - left. apply (cell_axis_wider _ _ (e1 z2)); (assumption || lia).
  - right. left. apply (cell_axis_wider _ _ (e3 z2)); (assumption || lia).
  - right. right. apply (cell_axis_wider _ _ (e5 z2)); (assumption || lia).
Qed.

(** A call on a state whose buffers carry the marks already. *)
Lemma GenerateGhostArray_noop (z2 : Extent) (cellOnly : bool) (st : State)
    (ap ac : nat) (gp gc : list Z) :
  ExtentInRange (DataExtent (Self st)) ->
  let E := DataExtent (Self st) in
  lookup_ghost (Heap st) (CellData (Self st)) = Some ac ->
  bytes_at (Heap st) ac = Some gc ->
  length gc = vtkStructuredData_GetNumberOfCells E ->
  zip_with (mark1 DUPLICATECELL)
    (cell_dists (fst (inflate E z2)) (snd (inflate E z2))) gc = gc ->
  (cellOnly = false ->
   lookup_ghost (Heap st) (PointData (Self st)) = Some ap /\
   bytes_at (Heap st) ap = Some gp /\
   length gp = vtkStructuredData_GetNumberOfPoints E /\
   zip_with (mark1 DUPLICATEPOINT) (point_dists E z2) gp = gp) ->
  exists z3, GenerateGhostArray z2 cellOnly st = Some (st, z3).
Proof.
  intros Hrange E HlookC HbytesC HlenC HzipC Hpoints.
  unfold GenerateGhostArray.
  destruct (negb (ExtentType (Self st) =? VTK_3D_EXTENT)); [eauto|].
  fold E. destruct (sameExtent E z2); [eauto|].
  exists (snd (inflate E z2)).
  destruct cellOnly; cbn [negb].
  - apply (cells_pass_noop E z2 st ac gc); assumption.
  - destruct (Hpoints eq_refl) as (HlookP & HbytesP & HlenP & HzipP).
    rewrite (points_pass_noop E z2 st ap gp HlookP HbytesP HlenP HzipP).
    apply (cells_pass_noop E z2 st ac gc); assumption.
Qed.

(** X3. Calling [GenerateGhostArray] again changes nothing. After a call
    that passed its guards, a second call with the same arguments returns
    the state it was given, bit for bit; and so does a second call with the
    [zeroExt] array as the first call left it (its upper bounds raised on
    the degenerate axes), which is what a caller that reuses its array
    passes. *)
Theorem GenerateGhostArray_again (zeroExt : Extent) (cellOnly : bool) (st : State) :
  GhostBitsOK ->
  ExtentType (Self st) = VTK_3D_EXTENT ->
  DataExtent (Self st) <> zeroExt ->
  ExtentInRange (DataExtent (Self st)) -> ExtentInRange zeroExt ->
  StoreOK st -> GhostBuffersFit st ->
  (cellOnly = false -> GhostArraysDistinct st) ->
  exists st' zeroExt',
    GenerateGhostArray zeroExt cellOnly st = Some (st', zeroExt') /\
    GenerateGhostArray zeroExt cellOnly st' = Some (st', zeroExt') /\
    (ExtentInRange zeroExt' ->
     exists zeroExt'', GenerateGhostArray zeroExt' cellOnly st' = Some (st', zeroExt'')).
Proof.
  intros [HbP HbC] H3D Hne Hrange Hzrange Hok Hfit Hdist.
  destruct (GenerateGhostArray_buffers zeroExt cellOnly st H3D Hne Hrange Hok Hfit Hdist)
    as (st' & ap & ac & Hrun & HlookC & HbytesC & HlenC & Hpts & _ & Hok' & _ & _).
  set (E := DataExtent (Self st)) in *.
  set (E' := fst (inflate E zeroExt)) in *.
  set (z' := snd (inflate E zeroExt)) in *.
  destruct (same_frame_GenerateGhostArray _ _ _ _ _ Hrun)
    as ((_ & _ & HT & HE & _) & _ & _).
  fold E in HE.
  pose proof (proj1 (StoreOK_parts st) Hok) as [Hlive Hvalid].
  destruct (cells_before_facts E st Hvalid) as (_ & HvoldC & _ & _).
  destruct (points_before_facts E st Hvalid) as (_ & HvoldP & _ & _).
  destruct (inflate_in_range E zeroExt Hrange Hzrange) as (HE' & Hz').
  fold E' in HE'. fold z' in Hz'.
  assert (HfstE : forall z2, fst (inflate E z2) = E').
  { intros z2. unfold E'. rewrite !inflate_fields. reflexivity. }
  assert (Hrange' : ExtentInRange (DataExtent (Self st'))) by (rewrite HE; exact Hrange).
  exists st', z'. split; [exact Hrun|]. split.
  - (* the same arguments *)
    assert (Hnoop : exists z3, GenerateGhostArray zeroExt cellOnly st' = Some (st', z3)).
    { apply (GenerateGhostArray_noop zeroExt cellOnly st' ap ac
               (zip_with (mark1 DUPLICATEPOINT) (point_dists E zeroExt)
                  (snd (points_before E st)))
               (zip_with (mark1 DUPLICATECELL) (cell_dists E' z')
                  (snd (cells_before E st)))).
      - exact Hrange'.
      - exact HlookC.
      - exact HbytesC.
      - rewrite HE. rewrite length_zip_with_r_eq; [exact HlenC|].
        rewrite HlenC. unfold E', z'. rewrite cell_dists_length by exact Hrange. reflexivity.
      - rewrite HE. fold E' z'.
        apply zip_mark_absorb; [lia | apply Forall2_same_dists | exact HvoldC].
      - intros Hc. destruct (Hpts Hc) as (HlookP & HbytesP & HlenP & _).
        split; [exact HlookP|]. split; [exact HbytesP|]. rewrite HE. split.
        + rewrite length_zip_with_r_eq; [exact HlenP|].
          rewrite HlenP, point_dists_length. reflexivity.
        + apply zip_mark_absorb; [lia | apply Forall2_same_dists | exact HvoldP]. }
    destruct Hnoop as (z3 & Hz3). rewrite Hz3. f_equal. f_equal.
    destruct (GenerateGhostArray_stages _ _ _ _ _ Hz3)
      as [(Hguard & _ & _)|(_ & _ & s1 & _ & Hcells)].
    + destruct Hguard as [Hg|Hg]; [rewrite HT in Hg; contradiction|].
      rewrite HE in Hg. contradiction.
    + rewrite HE in Hcells. fold E in Hcells.
      unfold cells_pass in Hcells.
      destruct (ghostCells_array E s1) as [gcells s2].
      fold z'. destruct (inflate E zeroExt) as [e z] eqn:Einf. cbn [snd] in *.
      destruct (update_ghost_buffer gcells (cell_loops e z) s2); [|discriminate].
      injection Hcells as _ <-. reflexivity.
  - (* the array the first call left *)
    intros Hz'range.
    destruct Hrange as (R0 & R1 & R2 & R3 & R4 & R5).
    destruct Hzrange as (Z0 & Z1 & Z2 & Z3 & Z4 & Z5).
    destruct HE' as (A0 & A2 & A4 & A1 & A3 & A5).
    destruct Hz' as (B0 & B2 & B4 & B1 & B3 & B5).
    pose proof Hz'range as (W0 & W1 & W2 & W3 & W4 & W5).
    assert (Hrange : ExtentInRange E) by (repeat split; lia).
    destruct (inflate_in_range E z' Hrange Hz'range) as (_ & (C0 & C2 & C4 & C1 & C3 & C5)).
    apply (GenerateGhostArray_noop z' cellOnly st' ap ac
             (zip_with (mark1 DUPLICATEPOINT) (point_dists E zeroExt)
                (snd (points_before E st)))
             (zip_with (mark1 DUPLICATECELL) (cell_dists E' z')
                (snd (cells_before E st)))).
    + exact Hrange'.
    + exact HlookC.
    + exact HbytesC.
    + rewrite HE. rewrite length_zip_with_r_eq; [exact HlenC|].
      rewrite HlenC. unfold E', z'. rewrite cell_dists_length by exact Hrange. reflexivity.
    + rewrite HE. rewrite (HfstE z').
      apply zip_mark_absorb; [lia | | exact HvoldC].
      apply cell_dists_wider.
      * rewrite A0. lia.
      * rewrite A1. destruct (e0 E =? e1 E); lia.
      * rewrite A2. lia.
      * rewrite A3. destruct (e2 E =? e3 E); lia.
      * rewrite A4. lia.
      * rewrite A5. destruct (e4 E =? e5 E); lia.
      * lia.
      * lia.
      * lia.
      * lia.
      * lia.
      * lia.
      * exact C0.
      * exact C2.
      * exact C4.
      * rewrite C1. destruct (e0 E =? e1 E); lia.
      * rewrite C3. destruct (e2 E =? e3 E); lia.
      * rewrite C5. destruct (e4 E =? e5 E); lia.
    + intros Hc. destruct (Hpts Hc) as (HlookP & HbytesP & HlenP & _).
      split; [exact HlookP|]. split; [exact HbytesP|]. rewrite HE. split.
      * rewrite length_zip_with_r_eq; [exact HlenP|].
        rewrite HlenP, point_dists_length. reflexivity.
      * apply zip_mark_absorb; [lia | | exact HvoldP].
        apply point_dists_wider; try assumption.
        -- repeat split; lia.
        -- rewrite B1. destruct (e0 E =? e1 E); lia.
        -- rewrite B3. destruct (e2 E =? e3 E); lia.
        -- rewrite B5. destruct (e4 E =? e5 E); lia.
Qed.

End GhostAgain.

(** ** The ghost scans *)

Section AnyBitMore.

Context `{Externals}.

Lemma HasAnyGhostCells_unfold (sch : SMP.Schedule) (st : State) :
  GhostCacheInv st ->
  fst (HasAnyGhostCells sch st) =
  IsAnyBitSet sch (Heap st) (lookup_ghost (Heap st) (CellData (Self st))) DUPLICATECELL.
Proof.
  intros Hinv. destruct (GetCellGhostArray_current st Hinv) as [Ha Hh].
  unfold HasAnyGhostCells. destruct (GetCellGhostArray st) as [a st'].
  simpl in *. rewrite Ha, Hh. reflexivity.
Qed.

Lemma IsAnyBitSet_present (sch : SMP.Schedule) (store : Store) (a : nat)
    (v : list Z) (flag : Z) :
  bytes_at store a = Some v ->
  SMP.ValidSchedule 0 (length v) sch ->
  (IsAnyBitSet sch store (Some a) flag = true
   <-> exists i e, v !! i = Some e /\ has_flag e flag = true).
Proof.
  intros Hv Hsch. apply bytes_at_Some in Hv as (name & Hst).
  unfold IsAnyBitSet. rewrite Hst. rewrite negb_true_iff, Z.eqb_neq.
  apply IsAnyBitSet_For, Hsch.
Qed.

(** X5. [HasAnyGhostCells] returns false when the cell data has no ghost
    array, and otherwise true exactly when some entry of the array has the
    DUPLICATECELL bit, whatever the schedule of the scan and whatever other
    bits the entries carry. The call changes nothing but the cached pointer,
    which is the array it looked at. *)
Theorem HasAnyGhostCells_spec (sch : SMP.Schedule) (st : State) :
  GhostCacheInv st ->
  (forall v, GetGhostBytes (Heap st) (CellData (Self st)) = Some v ->
             SMP.ValidSchedule 0 (length v) sch) ->
  let st' := snd (HasAnyGhostCells sch st) in
  (lookup_ghost (Heap st) (CellData (Self st)) = None ->
   fst (HasAnyGhostCells sch st) = false) /\
  (forall v, GetGhostBytes (Heap st) (CellData (Self st)) = Some v ->
     (fst (HasAnyGhostCells sch st) = true
      <-> exists i e, v !! i = Some e /\ has_flag e DUPLICATECELL = true)) /\
  Heap st' = Heap st /\ GlobalTime st' = GlobalTime st /\ Log st' = Log st /\
  PointData (Self st') = PointData (Self st) /\ CellData (Self st') = CellData (Self st) /\
  same_geometry_and_caches (Self st) (Self st') /\
  CellGhostArrayCached (Self st') = true /\
  CellGhostArray (Self st') = lookup_ghost (Heap st) (CellData (Self st)).
Proof.
  intros Hinv Hsch st'. split; [|split].
  - intros Habs. rewrite (HasAnyGhostCells_unfold sch st Hinv), Habs. reflexivity.
  - intros v Hv. rewrite (HasAnyGhostCells_unfold sch st Hinv).
    specialize (Hsch v Hv). rewrite GetGhostBytes_lookup in Hv.
    destruct (lookup_ghost (Heap st) (CellData (Self st))) as [a|] eqn:Ea; [|discriminate].
    apply IsAnyBitSet_present; assumption.
  - subst st'. destruct Hinv as [_ Hc]. unfold HasAnyGhostCells, GetCellGhostArray.
    unfold same_geometry_and_caches.
    destruct (CellGhostArrayCached (Self st)) eqn:E; simpl.
    + rewrite E. repeat split; try reflexivity. apply Hc. reflexivity.
    + repeat split; reflexivity.
Qed.

(** The flag after the innermost statements of a ghost loop. *)
Lemma has_flag_mark1 (flag d v : Z) :
  is_uchar v -> 0 < flag < 256 ->
  has_flag (mark1 flag d v) flag = (d >? 0) || has_flag v flag.
Proof.
  intros Hv Hf. unfold mark1. destruct (d >? 0); [|reflexivity].
  rewrite to_uchar_lor by (assumption || lia). cbn [orb].
  unfold has_flag. rewrite Z.land_lor_distr_l, Z.land_diag.
  apply negb_true_iff, Z.eqb_neq. intros H0. apply Z.lor_eq_0_iff in H0 as [_ H0]. lia.
Qed.

(** After a pass, some entry carries the flag exactly when some distance was
    positive or some entry carried the flag before. *)
Lemma flagged_after_marking (flag : Z) (ds old : list Z) :
  0 < flag < 256 -> Forall is_uchar old -> length old = length ds ->
  ((exists i v, zip_with (mark1 flag) ds old !! i = Some v /\ has_flag v flag = true)
   <-> (exists i d, ds !! i = Some d /\ d > 0)
       \/ (exists i o, old !! i = Some o /\ has_flag o flag = true)).
Proof.
  intros Hf Hold Hlen. rewrite Forall_forall in Hold. split.
  - intros (i & v & Hv & Hflag). rewrite lookup_zip_with in Hv.
    destruct (ds !! i) as [d|] eqn:Ed; [|discriminate].
    destruct (old !! i) as [o|] eqn:Eo; [|discriminate].
    cbn [mbind option_bind] in Hv. injection Hv as <-.
    rewrite has_flag_mark1 in Hflag; [|apply Hold; apply list_elem_of_lookup; eauto|exact Hf].
    apply orb_true_iff in Hflag as [Hd|Ho].
    + left. exists i, d. split; [exact Ed|]. apply Z.gtb_lt in Hd. lia.
    + right. eauto.
  - intros [(i & d & Hd & Hpos)|(i & o & Ho & Hflag)].
    + assert (Hlt : (i < length old)%nat) by (rewrite Hlen; eapply lookup_lt_Some; eauto).
      destruct (lookup_lt_is_Some_2 _ _ Hlt) as (o & Ho).
      exists i, (mark1 flag d o). split.
      * rewrite lookup_zip_with, Hd, Ho. reflexivity.
      * rewrite has_flag_mark1; [|apply Hold; apply list_elem_of_lookup; eauto|exact Hf].
        apply orb_true_iff. left. apply Z.gtb_lt. lia.
    + assert (Hlt : (i < length ds)%nat) by (rewrite <- Hlen; eapply lookup_lt_Some; eauto).
      destruct (lookup_lt_is_Some_2 _ _ Hlt) as (d & Hd).
      exists i, (mark1 flag d o). split.
      * rewrite lookup_zip_with, Hd, Ho. reflexivity.
      * rewrite has_flag_mark1; [|apply Hold; apply list_elem_of_lookup; eauto|exact Hf].
        apply orb_true_iff. right. exact Hflag.
Qed.

Lemma irange_elem_of (lo : Z) (n : nat) (x : Z) :
  x ∈ irange lo n <-> lo <= x < lo + Z.of_nat n.
Proof.
  split; [apply irange_elem|]. intros Hx. unfold irange.
  apply list_elem_of_In, in_map_iff. exists (Z.to_nat (x - lo)). split; [lia|].
  apply in_seq. lia.
Qed.

(** The distances of the point loops are those of the points of the extent. *)
Lemma point_dists_elem (E z : Extent) (d : Z) :
  d ∈ point_dists E z <->
  exists i j k, in_extent E i j k /\
    d = combine_dist (point_axis_dist (e0 z) (e1 z) i)
                     (point_axis_dist (e2 z) (e3 z) j)
                     (point_axis_dist (e4 z) (e5 z) k).
Proof.
  unfold point_dists, in_extent. rewrite list_elem_of_In, in_flat_map. split.
  - intros (k & Hk & Hd). apply in_flat_map in Hd as (j & Hj & Hd).
    apply in_map_iff in Hd as (i & <- & Hi).
    apply list_elem_of_In, irange_elem in Hk, Hj, Hi.
    exists i, j, k. split; [lia | reflexivity].
  - intros (i & j & k & (Hi & Hj & Hk) & ->).
    exists k. split; [apply list_elem_of_In, irange_elem_of; lia|].
    apply in_flat_map. exists j. split; [apply list_elem_of_In, irange_elem_of; lia|].
    apply in_map_iff. exists i. split; [reflexivity|].
    apply list_elem_of_In, irange_elem_of. lia.
Qed.

Lemma cell_dists_elem (E z : Extent) (d : Z) :
  d ∈ cell_dists E z <->
  exists i j k, in_cell_extent E i j k /\
    d = combine_dist (cell_axis_dist (e0 z) (e1 z) i)
                     (cell_axis_dist (e2 z) (e3 z) j)
                     (cell_axis_dist (e4 z) (e5 z) k).
Proof.
  unfold cell_dists, in_cell_extent. rewrite list_elem_of_In, in_flat_map. split.
  - intros (k & Hk & Hd). apply in_flat_map in Hd as (j & Hj & Hd).
    apply in_map_iff in Hd as (i & <- & Hi).
    apply list_elem_of_In, irange_elem in Hk, Hj, Hi.
    exists i, j, k. split; [lia | reflexivity].
  - intros (i & j & k & (Hi & Hj & Hk) & ->).
    exists k. split; [apply list_elem_of_In, irange_elem_of; lia|].
    apply in_flat_map. exists j. split; [apply list_elem_of_In, irange_elem_of; lia|].
    apply in_map_iff. exists i. split; [reflexivity|].
    apply list_elem_of_In, irange_elem_of. lia.
Qed.

(** The test of the point loops: the point is outside the canonical extent. *)
Lemma point_outside_test (z : Extent) (i j k : Z) :
  ExtentInRange z ->
  - 2 ^ 30 < i < 2 ^ 30 -> - 2 ^ 30 < j < 2 ^ 30 -> - 2 ^ 30 < k < 2 ^ 30 ->
  (combine_dist (point_axis_dist (e0 z) (e1 z) i)
                (point_axis_dist (e2 z) (e3 z) j)
                (point_axis_dist (e4 z) (e5 z) k) > 0
   <-> point_inside z i j k = false).
Proof.
  intros (R0 & R1 & R2 & R3 & R4 & R5) Hi Hj Hk.
  rewrite combine_dist_positive. rewrite !point_axis_dist_value by assumption.
  unfold point_inside. rewrite !andb_false_iff.
  rewrite !Z.leb_gt.
  destruct (Z.gtb_spec i (e1 z)), (Z.ltb_spec i (e0 z));
    destruct (Z.gtb_spec j (e3 z)), (Z.ltb_spec j (e2 z));
    destruct (Z.gtb_spec k (e5 z)), (Z.ltb_spec k (e4 z)); lia.
Qed.

End AnyBitMore.

(** ** The ghost scans after GenerateGhostArray *)

Section GhostScans.

Context `{Externals}.

Lemma some_distance_positive (ds : list Z) :
  (exists i d, ds !! i = Some d /\ d > 0) <-> (exists d, d ∈ ds /\ d > 0).
Proof.
  split.
  - intros (i & d & Hd & Hpos). exists d. split; [|exact Hpos].
    apply list_elem_of_lookup. eauto.
  - intros (d & Hd & Hpos). apply list_elem_of_lookup in Hd as (i & Hi). eauto.
Qed.

Lemma some_point_entry_flagged (E : Extent) (st : State) (flag : Z) :
  (exists i o, snd (points_before E st) !! i = Some o /\ has_flag o flag = true)
  <-> exists idx, (idx < length (snd (points_before E st)))%nat /\
                  has_flag (point_ghost_entry st idx) flag = true.
Proof.
  split.
  - intros (i & o & Ho & Hflag). exists i.
    assert (Hlt : (i < length (snd (points_before E st)))%nat)
      by (eapply lookup_lt_Some; eauto).
    split; [exact Hlt|]. rewrite (points_before_entry E st i Hlt) in Ho.
    injection Ho as ->. exact Hflag.
  - intros (idx & Hlt & Hflag). exists idx, (point_ghost_entry st idx).
    split; [apply points_before_entry, Hlt | exact Hflag].
Qed.

Lemma some_cell_entry_flagged (E : Extent) (st : State) (flag : Z) :
  (exists i o, snd (cells_before E st) !! i = Some o /\ has_flag o flag = true)
  <-> exists idx, (idx < length (snd (cells_before E st)))%nat /\
                  has_flag (cell_ghost_entry st idx) flag = true.
Proof.
  split.
  - intros (i & o & Ho & Hflag). exists i.
    assert (Hlt : (i < length (snd (cells_before E st)))%nat)
      by (eapply lookup_lt_Some; eauto).
    split; [exact Hlt|]. rewrite (cells_before_entry E st i Hlt) in Ho.
    injection Ho as ->. exact Hflag.
  - intros (idx & Hlt & Hflag). exists idx, (cell_ghost_entry st idx).
    split; [apply cells_before_entry, Hlt | exact Hflag].
Qed.

(** X4. The two scans after a call of [GenerateGhostArray] that passed its
    guards with [cellOnly = false]. [HasAnyGhostPoints] answers true exactly
    when some point of the extent lies outside the canonical extent, or some
    entry of the point ghost array carried the DUPLICATEPOINT bit before the
    call. [HasAnyGhostCells] answers true exactly when some cell of the
    (inflated) extent lies outside the (inflated) canonical extent, or some
    entry of the cell ghost array carried the DUPLICATECELL bit before. *)
Theorem scans_after_GenerateGhostArray (zeroExt : Extent) (st : State)
    (schP schC : SMP.Schedule) :
  GhostBitsOK ->
  ExtentType (Self st) = VTK_3D_EXTENT ->
  DataExtent (Self st) <> zeroExt ->
  ExtentInRange (DataExtent (Self st)) -> ExtentInRange zeroExt ->
  StoreOK st -> GhostBuffersFit st -> GhostArraysDistinct st ->
  GhostCacheInv st ->
  let E := DataExtent (Self st) in
  let E' := fst (inflate E zeroExt) in
  SMP.ValidSchedule 0 (vtkStructuredData_GetNumberOfPoints E) schP ->
  SMP.ValidSchedule 0 (vtkStructuredData_GetNumberOfCells E) schC ->
  exists st' zeroExt',
    GenerateGhostArray zeroExt false st = Some (st', zeroExt') /\
    (fst (HasAnyGhostPoints schP st') = true <->
     (exists i j k, in_extent E i j k /\ point_inside zeroExt i j k = false) \/
     (exists idx, (idx < vtkStructuredData_GetNumberOfPoints E)%nat /\
                  has_flag (point_ghost_entry st idx) DUPLICATEPOINT = true)) /\
    (fst (HasAnyGhostCells schC st') = true <->
     (exists i j k, in_cell_extent E' i j k /\ cell_inside zeroExt' i j k = false) \/
     (exists idx, (idx < vtkStructuredData_GetNumberOfCells E)%nat /\
                  has_flag (cell_ghost_entry st idx) DUPLICATECELL = true)).
Proof.
  intros [HbP HbC] H3D Hne Hrange Hzrange Hok Hfit Hdist Hinv E E' HschP HschC.
  destruct (GenerateGhostArray_buffers zeroExt false st H3D Hne Hrange Hok Hfit (fun _ => Hdist))
    as (st' & ap & ac & Hrun & HlookC & HbytesC & HlenC & Hpts & _ & Hok' & _ & _).
  fold E in Hrun, HbytesC, HlenC, Hpts. fold E' in HbytesC.
  set (z' := snd (inflate E zeroExt)) in *.
  destruct (Hpts eq_refl) as (HlookP & HbytesP & HlenP & _).
  pose proof (proj1 (StoreOK_parts st) Hok) as [Hlive Hvalid].
  destruct (cache_sound_GenerateGhostArray zeroExt false st st' z' (conj Hinv Hlive) Hrun)
    as [Hinv' _].
  destruct (cells_before_facts E st Hvalid) as (_ & HvoldC & _ & _).
  destruct (points_before_facts E st Hvalid) as (_ & HvoldP & _ & _).
  destruct (inflate_in_range E zeroExt Hrange Hzrange) as (HE' & Hz').
  fold E' in HE'. fold z' in Hz'.
  assert (HdlP : length (point_dists E zeroExt) = vtkStructuredData_GetNumberOfPoints E)
    by apply point_dists_length.
  assert (HdlC : length (cell_dists E' z') = vtkStructuredData_GetNumberOfCells E)
    by (unfold E', z'; apply cell_dists_length; exact Hrange).
  exists st', z'. split; [exact Hrun|]. split.
  - rewrite (HasAnyGhostPoints_unfold schP st' Hinv'), HlookP.
    rewrite (IsAnyBitSet_present schP (Heap st') ap _ DUPLICATEPOINT HbytesP).
    + rewrite flagged_after_marking by (lia || assumption || congruence).
      rewrite some_distance_positive, some_point_entry_flagged, HlenP.
      apply or_iff_compat_r. split.
      * intros (d & Hd & Hpos). apply point_dists_elem in Hd as (i & j & k & Hin & ->).
        exists i, j, k. split; [exact Hin|].
        destruct Hrange as (R0 & R1 & R2 & R3 & R4 & R5). destruct Hin as (Hi & Hj & Hk).
        fold E in R0, R1, R2, R3, R4, R5.
        apply (point_outside_test zeroExt i j k Hzrange); (lia || assumption).
      * intros (i & j & k & Hin & Hout). eexists. split.
        { apply point_dists_elem. exists i, j, k. split; [exact Hin | reflexivity]. }
        destruct Hrange as (R0 & R1 & R2 & R3 & R4 & R5). destruct Hin as (Hi & Hj & Hk).
        fold E in R0, R1, R2, R3, R4, R5.
        apply (point_outside_test zeroExt i j k Hzrange); (lia || assumption).
    + rewrite length_zip_with_r_eq; [rewrite HlenP; exact HschP|]. congruence.
  - rewrite (HasAnyGhostCells_unfold schC st' Hinv'), HlookC.
    rewrite (IsAnyBitSet_present schC (Heap st') ac _ DUPLICATECELL HbytesC).
    + rewrite flagged_after_marking by (lia || assumption || congruence).
      rewrite some_distance_positive, some_cell_entry_flagged, HlenC.
      apply or_iff_compat_r.
      destruct Hrange as (R0 & R1 & R2 & R3 & R4 & R5).
      destruct Hzrange as (Z0 & Z1 & Z2 & Z3 & Z4 & Z5).
      fold E in R0, R1, R2, R3, R4, R5.
      destruct HE' as (A0 & A2 & A4 & A1 & A3 & A5).
      destruct Hz' as (B0 & B2 & B4 & B1 & B3 & B5).
      assert (Htest : forall i j k, in_cell_extent E' i j k ->
        (combine_dist (cell_axis_dist (e0 z') (e1 z') i)
                      (cell_axis_dist (e2 z') (e3 z') j)
                      (cell_axis_dist (e4 z') (e5 z') k) >? 0)
        = negb (cell_inside z' i j k)).
      { intros i j k (Hi & Hj & Hk). apply cell_dist_test.
        - rewrite B0. exact Z0.
        - rewrite B1. destruct (e0 E =? e1 E); lia.
        - rewrite B2. exact Z2.
        - rewrite B3. destruct (e2 E =? e3 E); lia.
        - rewrite B4. exact Z4.
        - rewrite B5. destruct (e4 E =? e5 E); lia.
        - rewrite A0 in Hi. rewrite A1 in Hi. destruct (e0 E =? e1 E); lia.
        - rewrite A2 in Hj. rewrite A3 in Hj. destruct (e2 E =? e3 E); lia.
        - rewrite A4 in Hk. rewrite A5 in Hk. destruct (e4 E =? e5 E); lia. }
      split.
      * intros (d & Hd & Hpos). apply cell_dists_elem in Hd as (i & j & k & Hin & ->).
        exists i, j, k. split; [exact Hin|].
        specialize (Htest i j k Hin).
        destruct (cell_inside z' i j k); [|reflexivity].
        cbn [negb] in Htest. rewrite Z.gtb_ltb in Htest. apply Z.ltb_ge in Htest. lia.
      * intros (i & j & k & Hin & Hout). eexists. split.
        { apply cell_dists_elem. exists i, j, k. split; [exact Hin | reflexivity]. }
        specialize (Htest i j k Hin). rewrite Hout in Htest. cbn [negb] in Htest.
        apply Z.gtb_lt in Htest. lia.
    + rewrite length_zip_with_r_eq; [rewrite HlenC; exact HschC|]. congruence.
Qed.

End GhostScans.

Section GhostOutside.

Context `{Externals}.

Lemma all_flagged_after_marking (flag : Z) (ds : list Z) :
  0 < flag < 256 -> (forall d, d ∈ ds -> d > 0) ->
  forall old, Forall is_uchar old ->
  Forall (fun v => has_flag v flag = true) (zip_with (mark1 flag) ds old).
Proof.
  intros Hf. induction ds as [|d ds IH]; intros Hpos old Hold; [constructor|].
  destruct old as [|o old]; [constructor|]. simpl.
  apply Forall_cons in Hold as [Ho Hold]. constructor.
  - rewrite has_flag_mark1 by assumption. apply orb_true_iff. left.
    apply Z.gtb_lt. specialize (Hpos d ltac:(left)). lia.
  - apply IH; [|exact Hold]. intros d' Hd'. apply Hpos. right. exact Hd'.
Qed.

(** X15. A block whose true extent lies entirely beyond the canonical
    extent on some axis: after [GenerateGhostArray] every entry of the point
    ghost array carries the DUPLICATEPOINT bit and every entry of the cell
    ghost array carries the DUPLICATECELL bit. *)
Theorem everything_is_ghost_outside (zeroExt : Extent) (st : State) :
  GhostBitsOK ->
  ExtentType (Self st) = VTK_3D_EXTENT ->
  DataExtent (Self st) <> zeroExt ->
  ExtentInRange (DataExtent (Self st)) -> ExtentInRange zeroExt ->
  StoreOK st -> GhostBuffersFit st -> GhostArraysDistinct st ->
  let E := DataExtent (Self st) in
  (e1 E < e0 zeroExt \/ e1 zeroExt < e0 E \/
   e3 E < e2 zeroExt \/ e3 zeroExt < e2 E \/
   e5 E < e4 zeroExt \/ e5 zeroExt < e4 E) ->
  exists st' zeroExt' ap gp ac gc,
    GenerateGhostArray zeroExt false st = Some (st', zeroExt') /\
    lookup_ghost (Heap st') (PointData (Self st')) = Some ap /\
    bytes_at (Heap st') ap = Some gp /\
    length gp = vtkStructuredData_GetNumberOfPoints E /\
    Forall (fun v => has_flag v DUPLICATEPOINT = true) gp /\
    lookup_ghost (Heap st') (CellData (Self st')) = Some ac /\
    bytes_at (Heap st') ac = Some gc /\
    length gc = vtkStructuredData_GetNumberOfCells E /\
    Forall (fun v => has_flag v DUPLICATECELL = true) gc.
Proof.
  intros [HbP HbC] H3D Hne Hrange Hzrange Hok Hfit Hdist E Hout.
  destruct (GenerateGhostArray_buffers zeroExt false st H3D Hne Hrange Hok Hfit (fun _ => Hdist))
    as (st' & ap & ac & Hrun & HlookC & HbytesC & HlenC & Hpts & _ & _ & _ & _).
  fold E in Hrun, HbytesC, HlenC, Hpts.
  set (E' := fst (inflate E zeroExt)) in *.
  set (z' := snd (inflate E zeroExt)) in *.
  destruct (Hpts eq_refl) as (HlookP & HbytesP & HlenP & _).
  pose proof (proj1 (StoreOK_parts st) Hok) as [Hlive Hvalid].
  destruct (cells_before_facts E st Hvalid) as (_ & HvoldC & _ & _).
  destruct (points_before_facts E st Hvalid) as (_ & HvoldP & _ & _).
  destruct (inflate_in_range E zeroExt Hrange Hzrange) as (HE' & Hz').
  fold E' in HE'. fold z' in Hz'.
  exists st', z', ap,
    (zip_with (mark1 DUPLICATEPOINT) (point_dists E zeroExt) (snd (points_before E st))),
    ac,
    (zip_with (mark1 DUPLICATECELL) (cell_dists E' z') (snd (cells_before E st))).
  split; [exact Hrun|]. split; [exact HlookP|]. split; [exact HbytesP|].
  split.
  { rewrite length_zip_with_r_eq; [exact HlenP|].
    rewrite HlenP, point_dists_length. reflexivity. }
  split.
  { apply all_flagged_after_marking; [lia| |exact HvoldP].
    intros d Hd. apply point_dists_elem in Hd as (i & j & k & Hin & ->).
    destruct Hrange as (R0 & R1 & R2 & R3 & R4 & R5). fold E in R0, R1, R2, R3, R4, R5.
    pose proof Hin as (Hi & Hj & Hk).
    apply (point_outside_test zeroExt i j k Hzrange); try lia.
    unfold point_inside. rewrite !andb_false_iff, !Z.leb_gt. lia. }
  split; [exact HlookC|]. split; [exact HbytesC|].
  split.
  { rewrite length_zip_with_r_eq; [exact HlenC|].
    rewrite HlenC. unfold E', z'. rewrite cell_dists_length by exact Hrange. reflexivity. }
  apply all_flagged_after_marking; [lia| |exact HvoldC].
  intros d Hd. apply cell_dists_elem in Hd as (i & j & k & Hin & ->).
  destruct Hrange as (R0 & R1 & R2 & R3 & R4 & R5). fold E in R0, R1, R2, R3, R4, R5.
  destruct Hzrange as (Z0 & Z1 & Z2 & Z3 & Z4 & Z5).
  destruct HE' as (A0 & A2 & A4 & A1 & A3 & A5).
  destruct Hz' as (B0 & B2 & B4 & B1 & B3 & B5).
  destruct Hin as (Hi & Hj & Hk).
  rewrite A0, A1 in Hi. rewrite A2, A3 in Hj. rewrite A4, A5 in Hk.
  assert (Htest : (combine_dist (cell_axis_dist (e0 z') (e1 z') i)
                      (cell_axis_dist (e2 z') (e3 z') j)
                      (cell_axis_dist (e4 z') (e5 z') k) >? 0)
                  = negb (cell_inside z' i j k)).
  { apply cell_dist_test.
    - rewrite B0. exact Z0.
    - rewrite B1. destruct (e0 E =? e1 E); lia.
    - rewrite B2. exact Z2.
    - rewrite B3. destruct (e2 E =? e3 E); lia.
    - rewrite B4. exact Z4.
    - rewrite B5. destruct (e4 E =? e5 E); lia.
    - destruct (e0 E =? e1 E); lia.
    - destruct (e2 E =? e3 E); lia.
    - destruct (e4 E =? e5 E); lia. }
  assert (Hinside : cell_inside z' i j k = false).
  { unfold cell_inside. rewrite B0, B1, B2, B3, B4, B5.
    rewrite !andb_false_iff, !Z.leb_gt, !Z.ltb_ge.
    destruct (Z.eqb_spec (e0 E) (e1 E)), (Z.eqb_spec (e2 E) (e3 E)),
             (Z.eqb_spec (e4 E) (e5 E)); lia. }
  rewrite Hinside in Htest. cbn [negb] in Htest. apply Z.gtb_lt in Htest. lia.
Qed.

End GhostOutside.

(** ** AllocatePointGhostArray and AllocateCellGhostArray *)

Section Allocate.

Context `{Externals}.

Lemma set_Self_same (st : State) : set_Self st (Self st) = st.
Proof. destruct st. reflexivity. Qed.

Lemma GetPointGhostArray_cached (st : State) :
  PointGhostArrayCached (Self st) = true ->
  GetPointGhostArray st = (PointGhostArray (Self st), st).
Proof.
  intros Hc. unfold GetPointGhostArray. rewrite Hc. cbn [negb].
  rewrite set_Self_same. reflexivity.
Qed.

Lemma GetCellGhostArray_cached (st : State) :
  CellGhostArrayCached (Self st) = true ->
  GetCellGhostArray st = (CellGhostArray (Self st), st).
Proof.
  intros Hc. unfold GetCellGhostArray. rewrite Hc. cbn [negb].
  rewrite set_Self_same. reflexivity.
Qed.

Lemma GetPointGhostArray_members (st : State) :
  let st1 := snd (GetPointGhostArray st) in
  PointGhostArray (Self st1) = fst (GetPointGhostArray st) /\
  PointGhostArrayCached (Self st1) = true /\
  PointData (Self st1) = PointData (Self st) /\
  Points (Self st1) = Points (Self st) /\
  GlobalTime st1 = GlobalTime st /\ Heap st1 = Heap st.
Proof.
  unfold GetPointGhostArray.
  destruct (PointGhostArrayCached (Self st)) eqn:E; simpl; rewrite ?E; auto 10.
Qed.

Lemma GetCellGhostArray_members (st : State) :
  let st1 := snd (GetCellGhostArray st) in
  CellGhostArray (Self st1) = fst (GetCellGhostArray st) /\
  CellGhostArrayCached (Self st1) = true /\
  CellData (Self st1) = CellData (Self st) /\
  NumberOfCells (Self st1) = NumberOfCells (Self st) /\
  GlobalTime st1 = GlobalTime st /\ Heap st1 = Heap st.
Proof.
  unfold GetCellGhostArray.
  destruct (CellGhostArrayCached (Self st)) eqn:E; simpl; rewrite ?E; auto 10.
Qed.

(** X7. [AllocatePointGhostArray] always returns an array, which is then the
    ghost array of the point data and the cached pointer. When the point
    data has a ghost array already, that array is returned and nothing is
    created or stamped. When it has none, one new array is created, named as
    the ghost array, with one entry per point, all 0, and added to the point
    data (the clock advances once). A second call returns the same array and
    the same state. *)
Theorem AllocatePointGhostArray_spec (st : State) :
  GhostCacheInv st -> AddressesLive st ->
  let st' := snd (AllocatePointGhostArray st) in
  exists a,
    fst (AllocatePointGhostArray st) = Some a /\
    lookup_ghost (Heap st') (PointData (Self st')) = Some a /\
    PointGhostArray (Self st') = Some a /\
    PointGhostArrayCached (Self st') = true /\
    match lookup_ghost (Heap st) (PointData (Self st)) with
    | Some a0 =>
        a = a0 /\ Heap st' = Heap st /\
        PointData (Self st') = PointData (Self st) /\ GlobalTime st' = GlobalTime st
    | None =>
        a = length (Heap st) /\
        Heap st' = Heap st ++ [mkArray (Some GhostArrayName)
                                 (UnsignedCharValues (replicate (length (Points (Self st))) 0))] /\
        GlobalTime st' = (GlobalTime st + 1)%N /\
        MTime (PointData (Self st')) = (GlobalTime st + 1)%N
    end /\
    AllocatePointGhostArray st' = (Some a, st').
Proof.
  intros Hinv Hlive st'.
  destruct (GetPointGhostArray_current st Hinv) as [Ha _].
  destruct (GetPointGhostArray_members st) as (M1 & M2 & M3 & M4 & M5 & M6).
  pose proof (cache_sound_GetPointGhostArray st (conj Hinv Hlive)) as Hinv1.
  subst st'. unfold AllocatePointGhostArray.
  destruct (GetPointGhostArray st) as [p st1] eqn:EG. cbn [fst snd] in *.
  subst p. destruct (lookup_ghost (Heap st) (PointData (Self st))) as [a0|] eqn:El.
  - exists a0. cbn [fst snd]. rewrite M3, M6, El.
    split; [exact M1|]. split; [reflexivity|]. split; [exact M1|]. split; [exact M2|].
    split; [auto|].
    rewrite (GetPointGhostArray_cached st1 M2), M1. reflexivity.
  - pose proof (cache_sound_new_ghost_points (length (Points (Self st1))) st1 Hinv1)
      as (_ & _ & Hlook).
    unfold new_ghost_array in *. cbn [fst snd] in *.
    set (new := mkArray (Some GhostArrayName)
                  (UnsignedCharValues (replicate (length (Points (Self st1))) 0))) in *.
    set (st3 := PointData_AddArray (length (Heap st1)) (set_Heap st1 (Heap st1 ++ [new]))) in *.
    exists (length (Heap st)). cbn [fst snd].
    change (Heap (set_Self st3 (set_PointGhostArray (Self st3) (Some (length (Heap st1))) true)))
      with (Heap st3).
    change (PointData (Self (set_Self st3
              (set_PointGhostArray (Self st3) (Some (length (Heap st1))) true))))
      with (PointData (Self st3)).
    rewrite M6 in *.
    split; [reflexivity|]. split; [exact Hlook|]. split; [reflexivity|].
    split; [reflexivity|]. split.
    + split; [reflexivity|]. split.
      * subst st3 new. cbn. rewrite M4, M6. reflexivity.
      * subst st3. cbn. rewrite M5. auto.
    + rewrite GetPointGhostArray_cached by reflexivity. reflexivity.
Qed.

(** X8. [AllocateCellGhostArray], likewise: the array it returns is the
    ghost array of the cell data afterwards; an existing one is returned as
    it is; a new one has one entry per cell, all 0; a second call changes
    nothing. *)
Theorem AllocateCellGhostArray_spec (st : State) :
  GhostCacheInv st -> AddressesLive st ->
  let st' := snd (AllocateCellGhostArray st) in
  exists a,
    fst (AllocateCellGhostArray st) = Some a /\
    lookup_ghost (Heap st') (CellData (Self st')) = Some a /\
    CellGhostArray (Self st') = Some a /\
    CellGhostArrayCached (Self st') = true /\
    match lookup_ghost (Heap st) (CellData (Self st)) with
    | Some a0 =>
        a = a0 /\ Heap st' = Heap st /\
        CellData (Self st') = CellData (Self st) /\ GlobalTime st' = GlobalTime st
    | None =>
        a = length (Heap st) /\
        Heap st' = Heap st ++ [mkArray (Some GhostArrayName)
                                 (UnsignedCharValues
                                    (replicate (Z.to_nat (GetNumberOfCells (Self st))) 0))] /\
        GlobalTime st' = (GlobalTime st + 1)%N /\
        MTime (CellData (Self st')) = (GlobalTime st + 1)%N
    end /\
    AllocateCellGhostArray st' = (Some a, st').
Proof.
  intros Hinv Hlive st'.
  destruct (GetCellGhostArray_current st Hinv) as [Ha _].
  destruct (GetCellGhostArray_members st) as (M1 & M2 & M3 & M4 & M5 & M6).
  pose proof (cache_sound_GetCellGhostArray st (conj Hinv Hlive)) as Hinv1.
  subst st'. unfold AllocateCellGhostArray.
  destruct (GetCellGhostArray st) as [p st1] eqn:EG. cbn [fst snd] in *.
  subst p. destruct (lookup_ghost (Heap st) (CellData (Self st))) as [a0|] eqn:El.
  - exists a0. cbn [fst snd]. rewrite M3, M6, El.
    split; [exact M1|]. split; [reflexivity|]. split; [exact M1|]. split; [exact M2|].
    split; [auto|].
    rewrite (GetCellGhostArray_cached st1 M2), M1. reflexivity.
  - pose proof (cache_sound_new_ghost_cells (Z.to_nat (GetNumberOfCells (Self st1))) st1 Hinv1)
      as (_ & _ & Hlook).
    unfold new_ghost_array in *. cbn [fst snd] in *.
    set (new := mkArray (Some GhostArrayName)
                  (UnsignedCharValues (replicate (Z.to_nat (GetNumberOfCells (Self st1))) 0))) in *.
    set (st3 := CellData_AddArray (length (Heap st1)) (set_Heap st1 (Heap st1 ++ [new]))) in *.
    exists (length (Heap st)). cbn [fst snd].
    change (Heap (set_Self st3 (set_CellGhostArray (Self st3) (Some (length (Heap st1))) true)))
      with (Heap st3).
    change (CellData (Self (set_Self st3
              (set_CellGhostArray (Self st3) (Some (length (Heap st1))) true))))
      with (CellData (Self st3)).
    rewrite M6 in *.
    split; [reflexivity|]. split; [exact Hlook|]. split; [reflexivity|].
    split; [reflexivity|]. split.
    + split; [reflexivity|]. split.
      * subst st3 new. cbn. unfold GetNumberOfCells. rewrite M4, M6. reflexivity.
      * subst st3. cbn. rewrite M5. auto.
    + rewrite GetCellGhostArray_cached by reflexivity. reflexivity.
Qed.

End Allocate.

(** ** The cached queries, one after the other *)

Section CachesMore.

Context `{Externals}.

(** X9. The cached queries compose. After [GetBounds], a second [GetBounds]
    returns the same box and the same state and runs no reduction, whatever
    its schedule; [GetCenter], [GetLength2] and [GetLength] then leave the
    state as it is; and the two caches do not disturb one another: after
    [GetScalarRange] the bounds are still served from the cache, and a second
    [GetScalarRange] returns the same range and the same state. *)
Theorem cached_queries_compose (sch1 sch2 : SMP.Schedule) (st : State) :
  ClockOK st ->
  let b := fst (GetBounds sch1 st) in
  let st1 := snd (GetBounds sch1 st) in
  let r := fst (GetScalarRange st1) in
  let st2 := snd (GetScalarRange st1) in
  GetBounds sch2 st1 = (b, st1) /\
  snd (GetCenter sch2 st1) = st1 /\
  snd (GetLength2 sch2 st1) = st1 /\
  snd (GetLength sch2 st1) = st1 /\
  GetBounds sch2 st2 = (b, st2) /\
  GetScalarRange st2 = (r, st2) /\
  ClockOK st2.
Proof.
  intros Hclock b st1 r st2.
  destruct (ComputeBounds_valid sch1 st Hclock) as (V1 & C1 & _).
  change (ComputeBounds sch1 st) with st1 in V1, C1.
  destruct (ComputeScalarRange_valid st1 C1) as (V2 & C2 & M2 & B2 & T2 & _).
  change (ComputeScalarRange st1) with st2 in V2, C2, M2, B2, T2.
  assert (N1 : ComputeBounds sch2 st1 = st1) by (apply ComputeBounds_noop, V1).
  assert (N2 : ComputeBounds sch2 st2 = st2).
  { apply ComputeBounds_noop. rewrite M2, T2. exact V1. }
  assert (N3 : ComputeScalarRange st2 = st2) by (apply ComputeScalarRange_noop, V2).
  split; [unfold GetBounds; rewrite N1; reflexivity|].
  split; [unfold GetCenter; rewrite N1; reflexivity|].
  assert (HL2 : snd (GetLength2 sch2 st1) = st1).
  { unfold GetLength2. destruct (GetNumberOfPoints (Self st1) =? 0); [reflexivity|].
    cbv zeta. rewrite N1. reflexivity. }
  split; [exact HL2|].
  split.
  { unfold GetLength. destruct (GetLength2 sch2 st1) as [l2 s]. exact HL2. }
  split; [unfold GetBounds; rewrite N2, B2; reflexivity|].
  split; [unfold GetScalarRange; rewrite N3; reflexivity|].
  exact C2.
Qed.

End CachesMore.

(** ** The bounds and the schedule of the reduction *)

Lemma lex_eq_iff (a b : Z * Z * Z) :
  lex a b = Eq <-> (a.1.1 = b.1.1 /\ a.1.2 = b.1.2 /\ a.2 = b.2).
Proof.
  destruct a as [[a1 a2] a3], b as [[b1 b2] b3]; simpl.
  destruct (Z.compare_spec a1 b1), (Z.compare_spec a2 b2), (Z.compare_spec a3 b3);
    split; intros; try lia; try congruence.
Qed.

Lemma eqb_not_nan (x y : double) :
  eqb x y = true -> is_nan x = false /\ is_nan y = false.
Proof.
  unfold eqb, SFeqb. destruct x as [| | |], y as [| | |]; simpl; auto; discriminate.
Qed.

Lemma eqb_leb_rev (x y : double) : eqb x y = true -> leb y x = true.
Proof.
  intros He. destruct (eqb_not_nan _ _ He) as [Hx Hy].
  apply leb_key; auto. apply lex_le_iff.
  unfold eqb, SFeqb in He. rewrite (SFcompare_key x y Hx Hy) in He.
  destruct (lex (key x) (key y)) eqn:El; try discriminate.
  apply lex_eq_iff in El. lia.
Qed.

Section BoundsMore.

Context `{Externals}.

(** X10. The box [GetBounds] computes does not depend on how
    [vtkSMPTools::For] splits the points, which worker takes which chunk, or
    the order of the final reduction: for two valid schedules the two boxes
    are numerically equal entry by entry (they can differ in the sign of a
    zero), and they are the same sentinel when there is no point. *)
Theorem bounds_do_not_depend_on_schedule (sch1 sch2 : SMP.Schedule) (st : State) :
  SMP.ValidSchedule 0 (length (Points (Self st))) sch1 ->
  SMP.ValidSchedule 0 (length (Points (Self st))) sch2 ->
  (ComputeTime (Self st) < GetMTime (Self st))%N ->
  is_nan VTK_DOUBLE_MAX = false -> is_nan VTK_DOUBLE_MIN = false ->
  let b1 := fst (GetBounds sch1 st) in
  let b2 := fst (GetBounds sch2 st) in
  (0 < GetNumberOfPoints (Self st) ->
   forall j, (j < 3)%nat ->
     eqb (axis_min b1 j) (axis_min b2 j) = true /\
     eqb (axis_max b1 j) (axis_max b2 j) = true) /\
  (GetNumberOfPoints (Self st) = 0 -> b1 = b2).
Proof.
  intros Hv1 Hv2 Hstale Hmax Hmin b1 b2.
  assert (Hb : forall sch, fst (GetBounds sch st) = fresh_bounds sch (Self st)).
  { intros sch. unfold GetBounds, ComputeBounds.
    apply N.ltb_lt in Hstale. rewrite Hstale. reflexivity. }
  subst b1 b2. rewrite !Hb.
  destruct (fresh_bounds_box sch1 (Self st) Hv1 Hmax Hmin) as [P1 Z1].
  destruct (fresh_bounds_box sch2 (Self st) Hv2 Hmax Hmin) as [P2 Z2].
  split.
  - intros Hpos j Hj.
    destruct (P1 Hpos j Hj) as ((Nlo1 & Nhi1) & (Slo1 & Shi1) & Hall1 & Hlo1 & Hhi1).
    destruct (P2 Hpos j Hj) as ((Nlo2 & Nhi2) & (Slo2 & Shi2) & Hall2 & Hlo2 & Hhi2).
    split; apply leb_antisym_eqb.
    + destruct Hlo2 as [E|(p & Hp & E)]; [rewrite E; exact Slo1|].
      rewrite <- E in Nlo2 |- *. apply (Hall1 p Hp Nlo2).
    + destruct Hlo1 as [E|(p & Hp & E)]; [rewrite E; exact Slo2|].
      rewrite <- E in Nlo1 |- *. apply (Hall2 p Hp Nlo1).
    + destruct Hhi1 as [E|(p & Hp & E)]; [rewrite E; exact Shi2|].
      rewrite <- E in Nhi1 |- *. apply (Hall2 p Hp Nhi1).
    + destruct Hhi2 as [E|(p & Hp & E)]; [rewrite E; exact Shi1|].
      rewrite <- E in Nhi2 |- *. apply (Hall1 p Hp Nhi2).
  - intros Hz. rewrite (Z1 Hz), (Z2 Hz). reflexivity.
Qed.

End BoundsMore.

(** ** GetCellTypes and GetCellNeighbors *)

Section CellTypes.

Variable GetCellType : nat -> Z.

Local Abbreviation type_of := (stored_type GetCellType).
Local Abbreviation types_after := (types_after GetCellType).

Lemma types_after_S (m : nat) :
  types_after (S m) =
  if bool_decide (type_of m ∈ types_after m)
  then types_after m else types_after m ++ [type_of m].
Proof.
  unfold types_after. rewrite seq_S, fold_left_app. reflexivity.
Qed.

Lemma types_after_spec (m : nat) :
  NoDup (types_after m) /\
  (forall t, t ∈ types_after m <-> exists c, (c < m)%nat /\ type_of c = t) /\
  (forall a b ta tb, types_after m !! a = Some ta -> types_after m !! b = Some tb ->
     (a < b)%nat -> first_seen_before type_of m ta tb).
Proof.
  induction m as [|m (IHd & IHm & IHo)].
  - split; [constructor|]. split.
    + intros t. split; [intros Hin; inversion Hin | intros (c & Hc & _); lia].
    + intros a b ta tb Ha. discriminate.
  - rewrite types_after_S. case_bool_decide as Eis.
    + (* a type already listed *)
      split; [exact IHd|]. split.
      * intros t. rewrite IHm. split.
        -- intros (c & Hc & Ht). exists c. split; [lia | exact Ht].
        -- intros (c & Hc & Ht). destruct (decide (c = m)) as [->|Hne].
           ++ rewrite <- Ht. apply IHm, Eis.
           ++ exists c. split; [lia | exact Ht].
      * intros a b ta tb Ha Hb Hab.
        destruct (IHo a b ta tb Ha Hb Hab) as (c & Hc & Hta & Hfirst).
        exists c. split; [lia|]. split; [exact Hta|].
        intros c' Hc' Htb. destruct (decide (c' = m)) as [->|Hne]; [lia|].
        apply Hfirst; [lia | exact Htb].
    + (* a new type *)
      rename Eis into Hnew.
      split; [|split].
      * apply NoDup_app. split; [exact IHd|]. split.
        -- intros x Hx Hx'. apply list_elem_of_singleton in Hx'. subst x. contradiction.
        -- apply NoDup_singleton.
      * intros t. rewrite elem_of_app, list_elem_of_singleton, IHm. split.
        -- intros [(c & Hc & Ht)| ->]; [exists c; split; [lia | exact Ht]|].
           exists m. split; [lia | reflexivity].
        -- intros (c & Hc & Ht). destruct (decide (c = m)) as [->|Hne].
           ++ right. symmetry. exact Ht.
           ++ left. exists c. split; [lia | exact Ht].
      * intros a b ta tb Ha Hb Hab.
        assert (Hla : (a < length (types_after m))%nat).
        { apply lookup_lt_Some in Hb. rewrite length_app in Hb. simpl in Hb. lia. }
        rewrite lookup_app_l in Ha by exact Hla.
        destruct (decide (b < length (types_after m))%nat) as [Hlb|Hlb].
        -- rewrite lookup_app_l in Hb by exact Hlb.
           destruct (IHo a b ta tb Ha Hb Hab) as (c & Hc & Hta & Hfirst).
           exists c. split; [lia|]. split; [exact Hta|].
           intros c' Hc' Htb. destruct (decide (c' = m)) as [->|Hne].
           ++ exfalso. apply Hnew. rewrite Htb. apply list_elem_of_lookup. eauto.
           ++ apply Hfirst; [lia | exact Htb].
        -- rewrite lookup_app_r in Hb by lia.
           apply list_lookup_singleton_Some in Hb as [_ <-].
           assert (Hin : ta ∈ types_after m) by (apply list_elem_of_lookup; eauto).
           apply IHm in Hin as (c & Hc & Hta).
           exists c. split; [lia|]. split; [exact Hta|].
           intros c' Hc' Htb. destruct (decide (c' = m)) as [->|Hne]; [exact Hc|].
           exfalso. apply Hnew. apply IHm. exists c'. split; [lia | exact Htb].
Qed.

Context {T : Type} `{vtkCellTypes T}.

Variable listed : T -> list Z.

(** The loop of [GetCellTypes] on an object that lists nothing. *)
Lemma GetCellTypes_loop (m : nat) (types : T) :
  CellTypesLaws listed -> listed types = [] ->
  listed (fold_left
            (fun types cellId =>
               let type := to_uchar (GetCellType cellId) in
               if negb (IsType types type) then InsertNextType types type else types)
            (seq 0 m) types)
  = types_after m.
Proof.
  intros Hlaws Hnil. induction m as [|m IH]; [exact Hnil|].
  rewrite types_after_S, seq_S, fold_left_app. cbn [fold_left].
  set (t := fold_left _ (seq 0 m) types) in *. cbv zeta.
  change (to_uchar (GetCellType (0 + m))) with (type_of m).
  destruct (IsType t (type_of m)) eqn:Eis; cbn [negb].
  - apply (listed_IsType _ Hlaws) in Eis. rewrite IH in Eis.
    rewrite bool_decide_true by exact Eis. exact IH.
  - rewrite bool_decide_false.
    + rewrite (listed_InsertNextType _ Hlaws), IH. reflexivity.
    + intros Hin. rewrite <- IH in Hin. apply (listed_IsType _ Hlaws) in Hin. congruence.
Qed.

(** X11. [GetCellTypes] fills the caller's object with the distinct cell
    types of the dataset: whatever the object held before, it then lists
    each type that occurs exactly once, a type is listed only if some cell
    has it, and the types come in the order in which they first occur. The
    types are compared and stored as [unsigned char]. This holds for every
    [vtkCellTypes] whose [Reset] empties the list, whose [IsType] searches
    it and whose [InsertNextType] puts the type after the others. *)
Theorem GetCellTypes_distinct_in_order (ds : vtkDataSet) (types : T) :
  CellTypesLaws listed ->
  let n := Z.to_nat (GetNumberOfCells ds) in
  let result := listed (GetCellTypes GetCellType ds types) in
  (forall types', listed (GetCellTypes GetCellType ds types') = result) /\
  NoDup result /\
  (forall t, t ∈ result <-> exists c, (c < n)%nat /\ type_of c = t) /\
  (forall a b ta tb, result !! a = Some ta -> result !! b = Some tb -> (a < b)%nat ->
     first_seen_before type_of n ta tb) /\
  (length result <= n)%nat /\
  Forall is_uchar result.
Proof.
  intros Hlaws n result.
  assert (Hrun : forall types', listed (GetCellTypes GetCellType ds types') = types_after n).
  { intros types'. unfold GetCellTypes. cbv zeta.
    apply GetCellTypes_loop; [exact Hlaws | apply (listed_Reset _ Hlaws)]. }
  destruct (types_after_spec n) as (Hd & Hm & Ho).
  subst result. rewrite (Hrun types).
  split; [exact Hrun|]. split; [exact Hd|]. split; [exact Hm|]. split; [exact Ho|].
  split.
  - assert (Hsub : types_after n ⊆ map type_of (seq 0 n)).
    { intros t Ht. apply Hm in Ht as (c & Hc & <-).
      apply list_elem_of_In, in_map_iff. exists c. split; [reflexivity|]. apply in_seq. lia. }
    pose proof (submseteq_length _ _ (NoDup_submseteq _ _ Hd Hsub)) as Hlen.
    rewrite length_map, length_seq in Hlen. exact Hlen.
  - apply Forall_forall. intros t Ht. apply Hm in Ht as (c & _ & <-).
    unfold stored_type, to_uchar, is_uchar. apply Z.mod_pos_bound. lia.
Qed.

End CellTypes.

Section CellNeighbors.

Context `{vtkIdList}.

Lemma fold_intersect_spec (f : nat -> list nat) (idxs : list nat) :
  IdListLaws ->
  forall ids,
  let r := fold_left (fun ids i => IntersectWith ids (f i)) idxs ids in
  forall c, c ∈ r <-> c ∈ ids /\ forall i, i ∈ idxs -> c ∈ f i.
Proof.
  intros Hlaws. induction idxs as [|i idxs IH]; intros ids; simpl.
  - intros c. split; [intros Hc; split; [exact Hc|] | tauto].
    intros i Hi. inversion Hi.
  - intros c. rewrite (IH (IntersectWith ids (f i))), (elem_of_IntersectWith Hlaws). split.
    + intros ((Hc & Hi) & Hrest). split; [exact Hc|].
      intros i' Hi'. apply elem_of_cons in Hi' as [->|Hi']; auto.
    + intros (Hc & Hall). split; [split; [exact Hc | apply Hall; left]|].
      intros i' Hi'. apply Hall. right. exact Hi'.
Qed.

(** X12. [GetCellNeighbors] leaves in [cellIds] the cells that use every
    point of [ptIds], the cell [cellId] itself left out: a cell is in the
    result exactly when it differs from [cellId] and is among the cells of
    each of the points. This holds for every [vtkIdList] whose [DeleteId]
    removes the id and whose [IntersectWith] keeps the common ids, also when
    the test on the first point's cells skips the loop. With an empty
    [ptIds] the call reads outside the list. *)
Theorem GetCellNeighbors_spec (GetPointCells : nat -> list nat)
    (cellId : nat) (ptIds : list nat) :
  IdListLaws ->
  (ptIds = [] -> GetCellNeighbors GetPointCells cellId ptIds = None) /\
  (forall p0 rest, ptIds = p0 :: rest ->
   exists cellIds,
     GetCellNeighbors GetPointCells cellId ptIds = Some cellIds /\
     (forall c, c ∈ cellIds <->
                c <> cellId /\ forall p, p ∈ ptIds -> c ∈ GetPointCells p)).
Proof.
  intros Hlaws. split; [intros ->; reflexivity|].
  intros p0 rest ->. unfold GetCellNeighbors. cbn [lookup list_lookup].
  set (ids0 := DeleteId (GetPointCells p0) cellId).
  set (f := fun i => GetPointCells (default 0%nat ((p0 :: rest) !! i))).
  pose proof (fold_intersect_spec f (seq 1 (length (p0 :: rest) - 1)) Hlaws ids0) as Hmem.
  cbv zeta in Hmem.
  set (r := fold_left (fun ids i => IntersectWith ids (f i))
                      (seq 1 (length (p0 :: rest) - 1)) ids0) in *.
  assert (Hall : forall c, (forall i, i ∈ seq 1 (length (p0 :: rest) - 1) -> c ∈ f i)
                           <-> (forall p, p ∈ rest -> c ∈ GetPointCells p)).
  { intros c. split.
    - intros Hi p Hp. apply list_elem_of_lookup in Hp as (t & Ht).
      assert (Hl : (p0 :: rest) !! S t = Some p) by exact Ht.
      specialize (Hi (S t)). unfold f in Hi. rewrite Hl in Hi. apply Hi.
      apply list_elem_of_In, in_seq. apply lookup_lt_Some in Ht. simpl. lia.
    - intros Hp i Hi. apply list_elem_of_In, in_seq in Hi. simpl in Hi.
      destruct i as [|t]; [lia|]. unfold f.
      destruct (lookup_lt_is_Some_2 rest t ltac:(lia)) as (p & Hpt).
      assert (Hl : (p0 :: rest) !! S t = Some p) by exact Hpt.
      rewrite Hl. simpl. apply Hp. apply list_elem_of_lookup. exists t. exact Hpt. }
  assert (Hspec : forall c, c ∈ r <->
            c <> cellId /\ forall p, p ∈ p0 :: rest -> c ∈ GetPointCells p).
  { intros c. rewrite Hmem, Hall. unfold ids0. rewrite (elem_of_DeleteId Hlaws). split.
    - intros ((Hc & Hne) & Hrest). split; [exact Hne|].
      intros p Hp. apply elem_of_cons in Hp as [->|Hp]; auto.
    - intros (Hne & Hp). split; [split; [apply Hp; left | exact Hne]|].
      intros p Hp'. apply Hp. right. exact Hp'. }
  destruct (Z.of_nat (length ids0) >? 0) eqn:Epos.
  - exists r. split; [reflexivity | exact Hspec].
  - assert (ids0 = []) as Hnil.
    { rewrite Z.gtb_ltb in Epos. apply Z.ltb_ge in Epos.
      destruct ids0; [reflexivity|]. rewrite length_cons in Epos. lia. }
    exists ids0. split; [reflexivity|].
    intros c. rewrite <- Hspec. rewrite Hmem, Hnil. split.
    + intros Hc. inversion Hc.
    + intros [Hc _]. exact Hc.
Qed.

End CellNeighbors.

(** ** InternalDataSetCopy *)

Section Copy.

Context `{Externals}.

Lemma double6_eta (b : double6) :
  mk6 (d0 b) (d1 b) (d2 b) (d3 b) (d4 b) (d5 b) = b.
Proof. destruct b. reflexivity. Qed.

Lemma InternalDataSetCopy_members (src : vtkDataSet) (st : State) :
  Self (InternalDataSetCopy src st) =
  mkDataSet (Points (Self st)) (NumberOfCells (Self st)) (ExtentType (Self st))
    (DataExtent (Self st)) (ObjectMTime (Self st))
    (PointData (Self st)) (CellData (Self st))
    (Bounds src) (ComputeTime src) (ScalarRange src) (ScalarRangeComputeTime src)
    (PointGhostArray (Self st)) (PointGhostArrayCached (Self st))
    (CellGhostArray (Self st)) (CellGhostArrayCached (Self st))
  /\ Heap (InternalDataSetCopy src st) = Heap st
  /\ GlobalTime (InternalDataSetCopy src st) = GlobalTime st
  /\ Log (InternalDataSetCopy src st) = Log st.
Proof.
  unfold InternalDataSetCopy. cbn. rewrite double6_eta. auto.
Qed.

Lemma GetBounds_stale (sch : SMP.Schedule) (st : State) :
  (ComputeTime (Self st) < GetMTime (Self st))%N ->
  fst (GetBounds sch st) = fresh_bounds sch (Self st).
Proof.
  intros Hg. unfold GetBounds, ComputeBounds. apply N.ltb_lt in Hg. rewrite Hg. reflexivity.
Qed.

Lemma GetScalarRange_stale (st : State) :
  (ScalarRangeComputeTime (Self st) < GetMTime (Self st))%N ->
  fst (GetScalarRange st) = fresh_scalar_range (Heap st) (Self st).
Proof.
  intros Hg. unfold GetScalarRange, ComputeScalarRange.
  apply N.ltb_lt in Hg. rewrite Hg. reflexivity.
Qed.

Lemma fresh_bounds_points (sch : SMP.Schedule) (ds ds' : vtkDataSet) :
  Points ds' = Points ds -> fresh_bounds sch ds' = fresh_bounds sch ds.
Proof.
  intros Hp. unfold fresh_bounds, GetNumberOfPoints, ComputeBoundsFunctor,
    ComputeBoundsFunctor_Call, GetPoint. rewrite Hp. reflexivity.
Qed.

Lemma fresh_scalar_range_attributes (store : Store) (ds ds' : vtkDataSet) :
  PointData ds' = PointData ds -> CellData ds' = CellData ds ->
  fresh_scalar_range store ds' = fresh_scalar_range store ds.
Proof. intros Hp Hc. unfold fresh_scalar_range. rewrite Hp, Hc. reflexivity. Qed.

(** X13. [InternalDataSetCopy] copies the cached bounds and scalar range
    together with their stamps, and nothing else: the points, the attribute
    data, the ghost pointers and the clocks of the receiving dataset are
    untouched. The copied values are therefore served by [GetBounds] and
    [GetScalarRange] exactly as long as no clock of the receiving dataset is
    later than the stamp that came with them; otherwise the next query
    recomputes from the receiver's own points and attributes. *)
Theorem InternalDataSetCopy_spec (src : vtkDataSet) (sch : SMP.Schedule) (st : State) :
  let st' := InternalDataSetCopy src st in
  (Bounds (Self st') = Bounds src /\ ComputeTime (Self st') = ComputeTime src /\
   ScalarRange (Self st') = ScalarRange src /\
   ScalarRangeComputeTime (Self st') = ScalarRangeComputeTime src) /\
  (Points (Self st') = Points (Self st) /\
   PointData (Self st') = PointData (Self st) /\ CellData (Self st') = CellData (Self st) /\
   PointGhostArray (Self st') = PointGhostArray (Self st) /\
   PointGhostArrayCached (Self st') = PointGhostArrayCached (Self st) /\
   CellGhostArray (Self st') = CellGhostArray (Self st) /\
   CellGhostArrayCached (Self st') = CellGhostArrayCached (Self st) /\
   GetMTime (Self st') = GetMTime (Self st) /\
   Heap st' = Heap st /\ GlobalTime st' = GlobalTime st /\ Log st' = Log st) /\
  ((GetMTime (Self st) <= ComputeTime src)%N -> GetBounds sch st' = (Bounds src, st')) /\
  ((ComputeTime src < GetMTime (Self st))%N ->
   fst (GetBounds sch st') = fresh_bounds sch (Self st)) /\
  ((GetMTime (Self st) <= ScalarRangeComputeTime src)%N ->
   GetScalarRange st' = (ScalarRange src, st')) /\
  ((ScalarRangeComputeTime src < GetMTime (Self st))%N ->
   fst (GetScalarRange st') = fresh_scalar_range (Heap st) (Self st)) /\
  (GhostCacheInv st -> GhostCacheInv st').
Proof.
  intros st'. destruct (InternalDataSetCopy_members src st) as (HS & HH & HT & HL).
  fold st' in HS, HH, HT, HL.
  assert (HM : GetMTime (Self st') = GetMTime (Self st)) by (rewrite HS; reflexivity).
  split; [rewrite HS; auto|].
  split; [rewrite HS; cbn; rewrite <- HS; auto 12|].
  split.
  { intros Hg. unfold GetBounds, ComputeBounds. rewrite HM.
    replace (ComputeTime (Self st')) with (ComputeTime src) by (rewrite HS; reflexivity).
    apply N.ltb_ge in Hg. rewrite Hg. rewrite HS. reflexivity. }
  split.
  { intros Hg. rewrite GetBounds_stale.
    - apply fresh_bounds_points. rewrite HS. reflexivity.
    - rewrite HM. replace (ComputeTime (Self st')) with (ComputeTime src)
        by (rewrite HS; reflexivity). exact Hg. }
  split.
  { intros Hg. unfold GetScalarRange, ComputeScalarRange. rewrite HM.
    replace (ScalarRangeComputeTime (Self st')) with (ScalarRangeComputeTime src)
      by (rewrite HS; reflexivity).
    apply N.ltb_ge in Hg. rewrite Hg. rewrite HS. reflexivity. }
  split.
  { intros Hg. rewrite GetScalarRange_stale.
    - rewrite HH. apply fresh_scalar_range_attributes; rewrite HS; reflexivity.
    - rewrite HM. replace (ScalarRangeComputeTime (Self st')) with (ScalarRangeComputeTime src)
        by (rewrite HS; reflexivity). exact Hg. }
  intros [Hp Hc]. unfold GhostCacheInv. rewrite HS, HH. cbn. split; assumption.
Qed.

End Copy.

(** ** CheckAttributes stops at the first error *)

Lemma first_split_unique {A : Type} (P : A -> bool) (pre pre' post post' : list A) (a a' : A) :
  pre ++ a :: post = pre' ++ a' :: post' ->
  P a = true -> P a' = true ->
  (forall x, x ∈ pre -> P x = false) -> (forall x, x ∈ pre' -> P x = false) ->
  pre = pre' /\ a = a' /\ post = post'.
Proof.
  revert pre'. induction pre as [|x pre IH]; intros pre' Heq Ha Ha' Hpre Hpre'.
  - destruct pre' as [|y pre']; simpl in Heq.
    + injection Heq as E1 E2. auto.
    + injection Heq as E1 E2. subst y. rewrite (Hpre' a) in Ha by left. discriminate.
  - destruct pre' as [|y pre']; simpl in Heq.
    + injection Heq as E1 E2. subst x. rewrite (Hpre a') in Ha' by left. discriminate.
    + injection Heq as E1 E2. subst y.
      destruct (IH pre' E2 Ha Ha') as (E3 & E4 & E5).
      * intros z Hz. apply Hpre. right. exact Hz.
      * intros z Hz. apply Hpre'. right. exact Hz.
      * subst. auto.
Qed.

Section CheckMore.

Context `{Externals}.

(** X14. [CheckAttributes] stops at the first array that has too few
    tuples, point arrays before cell arrays, each in index order. Its output
    is then the warnings for the arrays before that one and the error for
    it; the arrays after it are not examined, and when a point array fails
    the cell arrays are not examined at all. *)
Theorem CheckAttributes_first_error (st : State) :
  let point_arrays := attribute_arrays (Heap st) (PointData (Self st)) in
  let cell_arrays := attribute_arrays (Heap st) (CellData (Self st)) in
  let numPts := GetNumberOfPoints (Self st) in
  let numCells := GetNumberOfCells (Self st) in
  (forall pre a post,
     point_arrays = pre ++ a :: post ->
     too_few numPts a = true -> (forall x, x ∈ pre -> too_few numPts x = false) ->
     CheckAttributes st =
     (1, mkState (Heap st) (GlobalTime st)
           (Log st ++ warnings_for POINT numPts pre ++ [error_for POINT numPts a])
           (Self st))) /\
  (forall pre a post,
     (forall x, x ∈ point_arrays -> too_few numPts x = false) ->
     cell_arrays = pre ++ a :: post ->
     too_few numCells a = true -> (forall x, x ∈ pre -> too_few numCells x = false) ->
     CheckAttributes st =
     (1, mkState (Heap st) (GlobalTime st)
           (Log st ++ warnings_for POINT numPts point_arrays
                   ++ warnings_for CELL numCells pre ++ [error_for CELL numCells a])
           (Self st))).
Proof.
  intros point_arrays cell_arrays numPts numCells. split.
  - intros pre a post Heq Ha Hpre. unfold CheckAttributes.
    destruct (check_attribute_set_spec (Heap st) (PointData (Self st)) POINT numPts (Log st))
      as [[Hall _]|(pre' & a' & post' & Heq' & Ha' & Hpre' & Hrun)].
    + fold point_arrays in Hall. rewrite (Hall a) in Ha; [discriminate|].
      rewrite Heq. apply elem_of_app. right. left.
    + fold point_arrays in Heq'. rewrite Heq in Heq'.
      destruct (first_split_unique (too_few numPts) _ _ _ _ _ _ Heq' Ha Ha' Hpre Hpre')
        as (<- & <- & _).
      fold numPts. rewrite Hrun. reflexivity.
  - intros pre a post Hpoints Heq Ha Hpre. unfold CheckAttributes.
    destruct (check_attribute_set_spec (Heap st) (PointData (Self st)) POINT numPts (Log st))
      as [[_ Hrun1]|(pre' & a' & post' & Heq' & Ha' & _)].
    + fold numPts. rewrite Hrun1. fold point_arrays.
      destruct (check_attribute_set_spec (Heap st) (CellData (Self st)) CELL numCells
                  (Log st ++ warnings_for POINT numPts point_arrays))
        as [[Hall _]|(pre' & a' & post' & Heq' & Ha' & Hpre' & Hrun)].
      * fold cell_arrays in Hall. rewrite (Hall a) in Ha; [discriminate|].
        rewrite Heq. apply elem_of_app. right. left.
      * fold cell_arrays in Heq'. rewrite Heq in Heq'.
        destruct (first_split_unique (too_few numCells) _ _ _ _ _ _ Heq' Ha Ha' Hpre Hpre')
          as (<- & <- & _).
        fold numCells. rewrite Hrun. rewrite <- !app_assoc. reflexivity.
    + fold point_arrays in Heq'. rewrite (Hpoints a') in Ha'; [discriminate|].
      rewrite Heq'. apply elem_of_app. right. left.
Qed.

End CheckMore.

(** ** The diagonal is never negative *)

Lemma binary_round_aux_sign (sx : bool) (mx ex : Z) (lx : location) :
  is_negative (binary_round_aux prec emax sx mx ex lx) = true -> sx = true.
Proof.
  unfold binary_round_aux.
  destruct (shr_fexp prec emax mx ex lx) as [mrs' e'].
  destruct (shr_fexp prec emax
              (round_nearest_even (shr_m mrs') (loc_of_shr_record mrs')) e' loc_Exact)
    as [mrs'' e''].
  destruct (shr_m mrs'') as [|m|m]; [| |discriminate].
  - simpl. destruct sx; [reflexivity | discriminate].
  - destruct (e'' <=? emax - prec); simpl; destruct sx; try reflexivity; discriminate.
Qed.

Lemma square_not_negative (d : double) : is_negative (mul d d) = false.
Proof.
  destruct (is_negative (mul d d)) eqn:E; [|reflexivity]. exfalso.
  unfold mul, SFmul in E. destruct d as [[|]|[|]| |[|] m e]; simpl in E; try discriminate.
  - apply binary_round_aux_sign in E. discriminate.
  - apply binary_round_aux_sign in E. discriminate.
Qed.

Lemma add_not_negative (x y : double) :
  is_negative x = false -> is_negative y = false -> is_negative (add x y) = false.
Proof.
  intros Hx Hy. destruct (is_negative (add x y)) eqn:E; [|reflexivity]. exfalso.
  unfold add, SFadd in E.
  destruct x as [[|]|[|]| |[|] mx ex], y as [[|]|[|]| |[|] my ey];
    simpl in Hx, Hy, E; try discriminate.
  unfold binary_normalize, binary_round in E.
  destruct (shl_align _ _ _) as [mz ez] in E.
  apply binary_round_aux_sign in E. discriminate.
Qed.

Lemma sqrt_not_negative (x : double) : is_negative (sqrt x) = false.
Proof.
  destruct (is_negative (sqrt x)) eqn:E; [|reflexivity]. exfalso.
  unfold sqrt, SFsqrt in E. destruct x as [[|]|[|]| |[|] m e]; simpl in E; try discriminate.
  destruct (SFsqrt_core_binary prec emax (Z.pos m) e) as [[mz ez] lz].
  apply binary_round_aux_sign in E. discriminate.
Qed.

Section Length.

Context `{Externals}.

(** X16. The squared diagonal [GetLength2] returns is never below zero and
    neither is the diagonal [GetLength] returns, whatever the bounds are
    (each is a number that is at least 0, an infinity, or NaN). *)
Theorem diagonal_not_negative (sch : SMP.Schedule) (st : State) :
  is_negative (fst (GetLength2 sch st)) = false /\
  is_negative (fst (GetLength sch st)) = false.
Proof.
  split.
  - unfold GetLength2. destruct (GetNumberOfPoints (Self st) =? 0); [reflexivity|].
    cbn [fst fold_left].
    repeat apply add_not_negative; try apply square_not_negative. reflexivity.
  - unfold GetLength. destruct (GetLength2 sch st) as [l2 s]. cbn [fst].
    apply sqrt_not_negative.
Qed.

End Length.

(** ** The clocks along a history *)

Section Clocks.

Context `{Externals}.

Lemma clocks_kept_refl (st : State) : clocks_kept st st.
Proof. unfold clocks_kept, clocks_advance. intros Hc. split; [exact Hc|]. repeat split; lia. Qed.

Lemma clocks_kept_trans (st1 st2 st3 : State) :
  clocks_kept st1 st2 -> clocks_kept st2 st3 -> clocks_kept st1 st3.
Proof.
  unfold clocks_kept, clocks_advance. intros H12 H23 Hc.
  destruct (H12 Hc) as (Hc2 & A). destruct (H23 Hc2) as (Hc3 & B).
  split; [exact Hc3|]. repeat split; lia.
Qed.

Lemma clocks_kept_same (st st' : State) :
  Self st' = Self st -> GlobalTime st' = GlobalTime st -> clocks_kept st st'.
Proof.
  unfold clocks_kept, clocks_advance, ClockOK. intros -> ->. intros Hc.
  split; [exact Hc|]. repeat split; lia.
Qed.

(** The goal follows from the members of the two states. *)
Ltac by_members := unfold clocks_kept, clocks_advance, ClockOK; simpl; intros; repeat split; lia.

Lemma clocks_kept_PointData_Modified (st : State) : clocks_kept st (PointData_Modified st).
Proof. by_members. Qed.

Lemma clocks_kept_CellData_Modified (st : State) : clocks_kept st (CellData_Modified st).
Proof. by_members. Qed.

Lemma clocks_kept_PointData_AddArray (a : nat) (st : State) : clocks_kept st (PointData_AddArray a st).
Proof. by_members. Qed.

Lemma clocks_kept_CellData_AddArray (a : nat) (st : State) : clocks_kept st (CellData_AddArray a st).
Proof. by_members. Qed.

Lemma clocks_kept_PointData_RemoveArray (name : string) (st : State) :
  clocks_kept st (PointData_RemoveArray name st).
Proof. by_members. Qed.

Lemma clocks_kept_CellData_RemoveArray (name : string) (st : State) :
  clocks_kept st (CellData_RemoveArray name st).
Proof. by_members. Qed.

Lemma clocks_kept_SetGeometry (pts : list double3) (ncells ty : Z) (ext : Extent)
    (st : State) :
  clocks_kept st (SetGeometry pts ncells ty ext st).
Proof. by_members. Qed.

Lemma clocks_kept_GetPointGhostArray (st : State) : clocks_kept st (snd (GetPointGhostArray st)).
Proof. unfold GetPointGhostArray. destruct (PointGhostArrayCached (Self st)); by_members. Qed.

Lemma clocks_kept_GetCellGhostArray (st : State) : clocks_kept st (snd (GetCellGhostArray st)).
Proof. unfold GetCellGhostArray. destruct (CellGhostArrayCached (Self st)); by_members. Qed.

Lemma clocks_kept_AllocatePointGhostArray (st : State) :
  clocks_kept st (snd (AllocatePointGhostArray st)).
Proof.
  unfold AllocatePointGhostArray, GetPointGhostArray.
  destruct (PointGhostArrayCached (Self st)); simpl;
  repeat match goal with |- context [match ?x with _ => _ end] => destruct x eqn:? end;
  by_members.
Qed.

Lemma clocks_kept_AllocateCellGhostArray (st : State) :
  clocks_kept st (snd (AllocateCellGhostArray st)).
Proof.
  unfold AllocateCellGhostArray, GetCellGhostArray.
  destruct (CellGhostArrayCached (Self st)); simpl;
  repeat match goal with |- context [match ?x with _ => _ end] => destruct x eqn:? end;
  by_members.
Qed.

Lemma clocks_kept_points_pass (extent zeroExt : Extent) (st st' : State) :
  points_pass extent zeroExt st = Some st' -> clocks_kept st st'.
Proof.
  unfold points_pass, ghostPoints_array. intros Hrun.
  destruct (lookup_ghost (Heap st) (PointData (Self st))) as [a|].
  - destruct (update_ghost_buffer_members _ _ _ _ Hrun) as (HS & HT & _).
    apply clocks_kept_same; assumption.
  - cbv zeta in Hrun.
    destruct (new_ghost_array (vtkStructuredData_GetNumberOfPoints extent) st)
      as [a st0] eqn:Enew.
    destruct (update_ghost_buffer_members _ _ _ _ Hrun) as (HS & HT & _).
    pose proof (same_frame_new_ghost_array (vtkStructuredData_GetNumberOfPoints extent) st)
      as (_ & S0 & T0). rewrite Enew in S0, T0. cbn [snd] in S0, T0.
    eapply clocks_kept_trans; [apply (clocks_kept_same st st0); assumption|].
    eapply clocks_kept_trans; [apply (clocks_kept_PointData_AddArray a)|].
    apply clocks_kept_same; assumption.
Qed.

Lemma clocks_kept_cells_pass (extent zeroExt : Extent) (st st' : State) (z' : Extent) :
  cells_pass extent zeroExt st = Some (st', z') -> clocks_kept st st'.
Proof.
  unfold cells_pass, ghostCells_array. intros Hrun.
  destruct (lookup_ghost (Heap st) (CellData (Self st))) as [a|].
  - destruct (inflate extent zeroExt) as [e z].
    destruct (update_ghost_buffer a (cell_loops e z) st) as [s|] eqn:Hu; [|discriminate].
    injection Hrun as <- <-.
    destruct (update_ghost_buffer_members _ _ _ _ Hu) as (HS & HT & _).
    apply clocks_kept_same; assumption.
  - cbv zeta in Hrun.
    destruct (new_ghost_array (vtkStructuredData_GetNumberOfCells extent) st)
      as [a st0] eqn:Enew.
    destruct (inflate extent zeroExt) as [e z].
    destruct (update_ghost_buffer a (cell_loops e z) (CellData_AddArray a st0))
      as [s|] eqn:Hu; [|discriminate].
    injection Hrun as <- <-.
    destruct (update_ghost_buffer_members _ _ _ _ Hu) as (HS & HT & _).
    pose proof (same_frame_new_ghost_array (vtkStructuredData_GetNumberOfCells extent) st)
      as (_ & S0 & T0). rewrite Enew in S0, T0. cbn [snd] in S0, T0.
    eapply clocks_kept_trans; [apply (clocks_kept_same st st0); assumption|].
    eapply clocks_kept_trans; [apply (clocks_kept_CellData_AddArray a)|].
    apply clocks_kept_same; assumption.
Qed.

Lemma clocks_kept_GenerateGhostArray (zeroExt : Extent) (cellOnly : bool)
    (st st' : State) (z' : Extent) :
  GenerateGhostArray zeroExt cellOnly st = Some (st', z') -> clocks_kept st st'.
Proof.
  intros Hrun.
  destruct (GenerateGhostArray_stages _ _ _ _ _ Hrun)
    as [(_ & -> & _)|(_ & _ & st1 & Hst1 & Hcells)]; [apply clocks_kept_refl|].
  destruct cellOnly.
  - subst st1. eapply clocks_kept_cells_pass; eauto.
  - eapply clocks_kept_trans; [eapply clocks_kept_points_pass; eauto|].
    eapply clocks_kept_cells_pass; eauto.
Qed.

Lemma clocks_kept_ComputeBounds (sch : SMP.Schedule) (st : State) : clocks_kept st (ComputeBounds sch st).
Proof.
  unfold ComputeBounds. destruct (ComputeTime (Self st) <? GetMTime (Self st))%N;
    [by_members | apply clocks_kept_refl].
Qed.

Lemma clocks_kept_ComputeScalarRange (st : State) : clocks_kept st (ComputeScalarRange st).
Proof.
  unfold ComputeScalarRange. destruct (ScalarRangeComputeTime (Self st) <? GetMTime (Self st))%N;
    [by_members | apply clocks_kept_refl].
Qed.

Lemma clocks_kept_step (op : Op) (st st' : State) : step op st = Some st' -> clocks_kept st st'.
Proof.
  destruct op; simpl; intros Hstep.
  - injection Hstep as <-. apply clocks_kept_SetGeometry.
  - injection Hstep as <-. by_members.
  - destruct (Heap st !! a) as [[name [g|g]]|]; try discriminate.
    injection Hstep as <-. by_members.
  - destruct (a <? length (Heap st))%nat; [|discriminate].
    injection Hstep as <-. apply clocks_kept_PointData_AddArray.
  - destruct (a <? length (Heap st))%nat; [|discriminate].
    injection Hstep as <-. apply clocks_kept_CellData_AddArray.
  - injection Hstep as <-. apply clocks_kept_PointData_RemoveArray.
  - injection Hstep as <-. apply clocks_kept_CellData_RemoveArray.
  - injection Hstep as <-. apply clocks_kept_GetPointGhostArray.
  - injection Hstep as <-. apply clocks_kept_GetCellGhostArray.
  - injection Hstep as <-. by_members.
  - injection Hstep as <-. by_members.
  - injection Hstep as <-. apply clocks_kept_AllocatePointGhostArray.
  - injection Hstep as <-. apply clocks_kept_AllocateCellGhostArray.
  - destruct (GenerateGhostArray zeroExt cellOnly st) as [[s z]|] eqn:Hrun; [|discriminate].
    injection Hstep as <-. eapply clocks_kept_GenerateGhostArray; eauto.
  - injection Hstep as <-. exact (clocks_kept_GetPointGhostArray st).
  - injection Hstep as <-. exact (clocks_kept_GetCellGhostArray st).
  - injection Hstep as <-. apply clocks_kept_ComputeBounds.
  - injection Hstep as <-. apply clocks_kept_ComputeScalarRange.
  - injection Hstep as <-.
    unfold CheckAttributes.
    destruct (check_attribute_set _ _ _ _ _) as [[|] log];
      [apply clocks_kept_same; reflexivity|].
    destruct (check_attribute_set _ _ _ _ _) as [[|] log'];
      apply clocks_kept_same; reflexivity.
Qed.

Lemma New_ClockOK (store : Store) (now : N) : ClockOK (New store now).
Proof. unfold ClockOK. simpl. lia. Qed.

(** X17. The clocks of a dataset never go back. In every state a dataset
    reaches from its construction no stamp (of the object, of the point and
    cell data, of the two caches) is later than the process-wide counter; and
    every operation leaves the counter, each of the five stamps and the value
    of [GetMTime] at least what they were. *)
Theorem clocks_never_go_back (st : State) :
  Reachable st ->
  ClockOK st /\
  (forall op st', step op st = Some st' ->
     clocks_advance st st' /\ (GetMTime (Self st) <= GetMTime (Self st'))%N).
Proof.
  intros Hreach.
  assert (Hc : ClockOK st).
  { induction Hreach as [store now|op st st' _ IH Hstep]; [apply New_ClockOK|].
    exact (proj1 (clocks_kept_step op st st' Hstep IH)). }
  split; [exact Hc|]. intros op st' Hstep.
  destruct (clocks_kept_step op st st' Hstep Hc) as (_ & Hadv).
  split; [exact Hadv|]. rewrite !GetMTime_max.
  destruct Hadv as (_ & A1 & A2 & A3 & _). lia.
Qed.

End Clocks.

(** ** The bounds cache along a history *)

Section BoundsCache.

Context `{Externals}.

(** The points and the bounds cache of [st'] are those of [st]. *)
Lemma bounds_cache_kept (st st' : State) :
  Points (Self st') = Points (Self st) -> Bounds (Self st') = Bounds (Self st) ->
  ComputeTime (Self st') = ComputeTime (Self st) ->
  (GetMTime (Self st) <= GetMTime (Self st'))%N ->
  BoundsCacheCoherent st -> BoundsCacheCoherent st'.
Proof.
  intros HP HB HT HM Hcoh Hgate. rewrite HT in Hgate.
  destruct (Hcoh ltac:(lia)) as (sch & Hv & Hb).
  exists sch. rewrite HP, HB. split; [exact Hv|]. rewrite Hb.
  symmetry. apply fresh_bounds_points. exact HP.
Qed.

(** Every operation other than a change of the geometry and [ComputeBounds]
    leaves the points and the bounds cache alone. *)
Lemma step_bounds_members (op : Op) (st st' : State) :
  step op st = Some st' ->
  (forall pts n ty ext, op <> OpSetGeometry pts n ty ext) ->
  (forall sch, op <> OpComputeBounds sch) ->
  Points (Self st') = Points (Self st) /\ Bounds (Self st') = Bounds (Self st) /\
  ComputeTime (Self st') = ComputeTime (Self st).
Proof.
  destruct op; simpl; intros Hstep Hgeo Hcb.
  - exfalso. eapply Hgeo. reflexivity.
  - injection Hstep as <-. auto.
  - destruct (Heap st !! a) as [[name [g|g]]|]; try discriminate.
    injection Hstep as <-. auto.
  - destruct (a <? length (Heap st))%nat; [|discriminate]. injection Hstep as <-. auto.
  - destruct (a <? length (Heap st))%nat; [|discriminate]. injection Hstep as <-. auto.
  - injection Hstep as <-. auto.
  - injection Hstep as <-. auto.
  - injection Hstep as <-. unfold GetPointGhostArray.
    destruct (PointGhostArrayCached (Self st)); simpl; auto.
  - injection Hstep as <-. unfold GetCellGhostArray.
    destruct (CellGhostArrayCached (Self st)); simpl; auto.
  - injection Hstep as <-. auto.
  - injection Hstep as <-. auto.
  - injection Hstep as <-. unfold AllocatePointGhostArray, GetPointGhostArray.
    destruct (PointGhostArrayCached (Self st)); simpl;
      repeat match goal with |- context [match ?x with _ => _ end] => destruct x eqn:? end;
      simpl; auto.
  - injection Hstep as <-. unfold AllocateCellGhostArray, GetCellGhostArray.
    destruct (CellGhostArrayCached (Self st)); simpl;
      repeat match goal with |- context [match ?x with _ => _ end] => destruct x eqn:? end;
      simpl; auto.
  - destruct (GenerateGhostArray zeroExt cellOnly st) as [[s z]|] eqn:Hrun; [|discriminate].
    injection Hstep as <-.
    destruct (same_frame_GenerateGhostArray _ _ _ _ _ Hrun)
      as ((HP & _ & _ & _ & _ & HB & HT & _) & _). auto.
  - injection Hstep as <-. unfold GetPointGhostArray.
    destruct (PointGhostArrayCached (Self st)); simpl; auto.
  - injection Hstep as <-. unfold GetCellGhostArray.
    destruct (CellGhostArrayCached (Self st)); simpl; auto.
  - exfalso. eapply Hcb. reflexivity.
  - injection Hstep as <-. unfold ComputeScalarRange.
    destruct (ScalarRangeComputeTime (Self st) <? GetMTime (Self st))%N; simpl; auto.
  - injection Hstep as <-. unfold CheckAttributes.
    destruct (check_attribute_set _ _ _ _ _) as [[|] log]; [auto|].
    destruct (check_attribute_set _ _ _ _ _) as [[|] log']; auto.
Qed.

(** A bounds cache the gate accepts was computed from the current points:
    this holds when the dataset is built ([New_bounds_coherent]) and every
    operation keeps it, [vtkSMPTools::For] running a valid schedule. *)
Lemma BoundsCacheCoherent_step (op : Op) (st st' : State) :
  ClockOK st -> BoundsCacheCoherent st -> step op st = Some st' ->
  (forall sch, op = OpComputeBounds sch ->
               SMP.ValidSchedule 0 (length (Points (Self st))) sch) ->
  BoundsCacheCoherent st'.
Proof.
  intros Hclock Hcoh Hstep Hvalid.
  destruct (clocks_kept_step op st st' Hstep Hclock) as (_ & Hadv).
  assert (HM : (GetMTime (Self st) <= GetMTime (Self st'))%N).
  { rewrite !GetMTime_max. destruct Hadv as (_ & A1 & A2 & A3 & _). lia. }
  destruct op;
    try (destruct (step_bounds_members _ st st' Hstep ltac:(discriminate) ltac:(discriminate))
           as (HP & HB & HT); exact (bounds_cache_kept st st' HP HB HT HM Hcoh)).
  - simpl in Hstep. injection Hstep as <-. intros Hgate. exfalso.
    destruct Hclock as (_ & _ & _ & C4 & _).
    rewrite GetMTime_max in Hgate. simpl in Hgate. lia.
  - simpl in Hstep. injection Hstep as <-.
    apply ComputeBounds_coherent; [apply (Hvalid sch eq_refl) | exact Hcoh].
Qed.

End BoundsCache.

(* ===================================================================== *)
(** * Part V: the further properties on concrete datasets                  *)
(* ===================================================================== *)

Lemma far_in_range : ExtentInRange far_extent /\ ExtentInRange center_extent.
Proof. unfold ExtentInRange. simpl. lia. Qed.

Lemma grid_cache_inv : GhostCacheInv (H := VTK) grid /\ AddressesLive grid.
Proof.
  split; split; try discriminate; intros a Ha; inversion Ha.
Qed.

(** X1 on the grid, cells only: the 12 border cells of the 4 x 4 cells
    carry DUPLICATECELL (= 1), the 4 inner cells do not. *)
Lemma GenerateGhostArray_cells_grid :
  exists st' zeroExt' a,
    GenerateGhostArray (H := VTK) inner_extent true grid = Some (st', zeroExt') /\
    lookup_ghost (H := VTK) (Heap st') (CellData (Self st')) = Some a /\
    bytes_at (Heap st') a
    = Some [1; 1; 1; 1;
            1; 0; 0; 1;
            1; 0; 0; 1;
            1; 1; 1; 1] /\
    cell_inside zeroExt' 1 1 0 = true /\ cell_inside zeroExt' 3 1 0 = false.
Proof.
  destruct (GenerateGhostArray_cells (H := VTK) inner_extent true grid
              VTK_bits_ok eq_refl ltac:(discriminate)
              (proj1 grid_in_range) (proj2 grid_in_range)
              grid_store_ok grid_buffers_fit ltac:(discriminate))
    as (st' & z' & a & g & Hrun & Hlook & Hbytes & Hlen & Hcells).
  exists st', z', a. split; [exact Hrun|]. split; [exact Hlook|].
  pose proof (f_equal (option_map snd) Hrun) as Hz. vm_compute in Hz. injection Hz as <-.
  pose proof (f_equal (option_map fst) Hrun) as Hs. vm_compute in Hs. injection Hs as <-.
  split; [|split; reflexivity].
  vm_compute in Hlook. injection Hlook as <-. exact (eq_refl).
Defined.

Lemma marked_grid_queried_ok :
  StoreOK marked_grid_queried /\ GhostBuffersFit (H := VTK) marked_grid_queried.
Proof.
  split; [concrete_store_ok|].
  split; intros a v Ha Hv; vm_compute in Ha; injection Ha as <-;
    vm_compute in Hv; injection Hv as <-; reflexivity.
Qed.

(** X2 on the marked grid, whose bounds were queried: a further call, with
    another canonical extent, marks more points (entry 6 goes from 0 to 1)
    and cells, yet no clock moves and [GetBounds] still answers from the
    cache; on the grid without ghost arrays, the call that creates them
    leaves both caches stale. *)
Lemma GenerateGhostArray_and_the_caches_grid :
  exists st' zeroExt',
    GenerateGhostArray (H := VTK) center_extent false marked_grid_queried
      = Some (st', zeroExt') /\
    bytes_at (Heap marked_grid_queried) 0 <> bytes_at (Heap st') 0 /\
    GlobalTime st' = GlobalTime marked_grid_queried /\
    GetBounds (H := VTK) (SMP.sequential 0 25) st'
      = (Bounds (Self marked_grid_queried), st') /\
    Bounds (Self marked_grid_queried)
      = mk6 (of_Z 0) (of_Z 4) (of_Z 0) (of_Z 4) (of_Z 0) (of_Z 0).
Proof.
  destruct (GenerateGhostArray_and_the_caches (H := VTK) center_extent false
              marked_grid_queried (proj1 grid_in_range)
              (proj1 marked_grid_queried_ok) (proj2 marked_grid_queried_ok))
    as (st' & z' & Hrun & _ & _ & Hexist & _).
  destruct (Hexist ltac:(right; vm_compute; discriminate) ltac:(vm_compute; discriminate))
    as (_ & Htime & Hbounds & _).
  exists st', z'. split; [exact Hrun|]. split.
  - pose proof (f_equal (option_map fst) Hrun) as Hs. vm_compute in Hs.
    injection Hs as <-. vm_compute. discriminate.
  - split; [exact Htime|]. split; [|vm_compute; reflexivity].
    apply Hbounds. vm_compute. discriminate.
Defined.

(** X3 on the grid: a second call, with the same array or with the array the
    first call left ([1,3,1,3,0,1]), returns the state of the first call. *)
Lemma GenerateGhostArray_again_grid :
  exists st',
    GenerateGhostArray (H := VTK) inner_extent false grid
      = Some (st', mkExtent 1 3 1 3 0 1) /\
    GenerateGhostArray (H := VTK) inner_extent false st'
      = Some (st', mkExtent 1 3 1 3 0 1) /\
    GenerateGhostArray (H := VTK) (mkExtent 1 3 1 3 0 1) false st'
      = Some (st', mkExtent 1 3 1 3 0 2).
Proof.
  destruct (GenerateGhostArray_again (H := VTK) inner_extent false grid
              VTK_bits_ok eq_refl ltac:(discriminate)
              (proj1 grid_in_range) (proj2 grid_in_range)
              grid_store_ok grid_buffers_fit ltac:(intros _ a b Ha; discriminate))
    as (st' & z' & Hrun & Hsame & Hleft).
  pose proof (f_equal (option_map snd) Hrun) as Hz. vm_compute in Hz. injection Hz as <-.
  exists st'. split; [exact Hrun|]. split; [exact Hsame|].
  destruct (Hleft ltac:(unfold ExtentInRange; simpl; lia)) as (z'' & Hagain).
  rewrite Hagain. f_equal. f_equal.
  pose proof (f_equal (option_map fst) Hrun) as Hs. vm_compute in Hs. injection Hs as <-.
  pose proof (f_equal (option_map snd) Hagain) as Hz. vm_compute in Hz. injection Hz as <-.
  reflexivity.
Defined.

(** X4 on the grid: after the call both scans answer true; points and cells
    of the border lie outside [1,3] x [1,3]. *)
Lemma scans_after_GenerateGhostArray_grid :
  exists st' zeroExt',
    GenerateGhostArray (H := VTK) inner_extent false grid = Some (st', zeroExt') /\
    fst (HasAnyGhostPoints (H := VTK) (SMP.sequential 0 25) st') = true /\
    fst (HasAnyGhostCells (H := VTK) (SMP.sequential 0 16) st') = true.
Proof.
  destruct (scans_after_GenerateGhostArray (H := VTK) inner_extent grid
              (SMP.sequential 0 25) (SMP.sequential 0 16)
              VTK_bits_ok eq_refl ltac:(discriminate)
              (proj1 grid_in_range) (proj2 grid_in_range)
              grid_store_ok grid_buffers_fit ltac:(intros a b Ha; discriminate)
              (proj1 grid_cache_inv)
              (sequential_valid 0 25) (sequential_valid 0 16))
    as (st' & z' & Hrun & Hpoints & Hcells).
  exists st', z'. split; [exact Hrun|]. split.
  - apply Hpoints. left. exists 0, 0, 0. split; [|reflexivity].
    unfold in_extent. simpl. lia.
  - apply Hcells. left. exists 0, 0, 0.
    pose proof (f_equal (option_map snd) Hrun) as Hz. vm_compute in Hz. injection Hz as <-.
    split; [|reflexivity]. vm_compute. repeat split; discriminate.
Defined.

(** X5 on the marked grid: the cell scan answers true, entry 0 carries the
    bit; on the grid, which has no ghost array, it answers false. *)
Lemma HasAnyGhostCells_spec_grid :
  fst (HasAnyGhostCells (H := VTK) (SMP.sequential 0 16) marked_grid) = true /\
  fst (HasAnyGhostCells (H := VTK) (SMP.sequential 0 16) grid) = false.
Proof.
  split.
  - destruct (HasAnyGhostCells_spec (H := VTK) (SMP.sequential 0 16) marked_grid
                marked_grid_cache) as (_ & Hpresent & _).
    + intros v Hv. vm_compute in Hv. injection Hv as <-. apply (sequential_valid 0 16).
    + eapply Hpresent; [vm_compute; reflexivity|].
      exists 0%nat, 1. split; reflexivity.
  - destruct (HasAnyGhostCells_spec (H := VTK) (SMP.sequential 0 16) grid
                (proj1 grid_cache_inv)) as (Habsent & _).
    + intros v Hv. vm_compute in Hv. discriminate.
    + apply Habsent. reflexivity.
Defined.

(** X6 on the grid: a cell-only call leaves the point data without a ghost
    array. *)
Lemma GenerateGhostArray_cellOnly_grid :
  exists st' zeroExt',
    GenerateGhostArray (H := VTK) inner_extent true grid = Some (st', zeroExt') /\
    PointData (Self st') = PointData (Self grid) /\
    lookup_ghost (H := VTK) (Heap st') (PointData (Self st')) = None.
Proof.
  destruct (GenerateGhostArray_cellOnly (H := VTK) inner_extent grid
              (proj1 grid_in_range) grid_store_ok grid_buffers_fit)
    as (st' & z' & Hrun & HPD & Hlook & _).
  exists st', z'. split; [exact Hrun|]. split; [exact HPD|].
  rewrite Hlook. reflexivity.
Defined.

(** X7 on the grid: the new point ghost array is object 0 of the store and
    holds 25 zeros. *)
Lemma AllocatePointGhostArray_spec_grid :
  fst (AllocatePointGhostArray (H := VTK) grid) = Some 0%nat /\
  Heap (snd (AllocatePointGhostArray (H := VTK) grid))
    = [mkArray (Some "vtkGhostType"%string) (UnsignedCharValues (replicate 25 0))] /\
  AllocatePointGhostArray (H := VTK) (snd (AllocatePointGhostArray (H := VTK) grid))
    = (Some 0%nat, snd (AllocatePointGhostArray (H := VTK) grid)).
Proof.
  destruct (AllocatePointGhostArray_spec (H := VTK) grid
              (proj1 grid_cache_inv) (proj2 grid_cache_inv))
    as (a & Hfst & _ & _ & _ & Hcase & Hagain).
  cbv zeta in Hcase, Hagain.
  change (lookup_ghost (H := VTK) (Heap grid) (PointData (Self grid)))
    with (@None nat) in Hcase.
  destruct Hcase as (-> & Hheap & _).
  split; [exact Hfst|]. split; [rewrite Hheap; reflexivity | exact Hagain].
Defined.

(** X8 on the grid: the new cell ghost array holds 16 zeros. *)
Lemma AllocateCellGhostArray_spec_grid :
  fst (AllocateCellGhostArray (H := VTK) grid) = Some 0%nat /\
  Heap (snd (AllocateCellGhostArray (H := VTK) grid))
    = [mkArray (Some "vtkGhostType"%string) (UnsignedCharValues (replicate 16 0))].
Proof.
  destruct (AllocateCellGhostArray_spec (H := VTK) grid
              (proj1 grid_cache_inv) (proj2 grid_cache_inv))
    as (a & Hfst & _ & _ & _ & Hcase & _).
  cbv zeta in Hcase.
  change (lookup_ghost (H := VTK) (Heap grid) (CellData (Self grid)))
    with (@None nat) in Hcase.
  destruct Hcase as (-> & Hheap & _).
  split; [exact Hfst|]. rewrite Hheap. reflexivity.
Defined.

(** X9 on the three points: the second query of the bounds, with another
    schedule, returns the box of the first and the same state. *)
Lemma cached_queries_compose_three_points :
  let st1 := snd (GetBounds (H := VTK) (SMP.sequential 0 3) three_points) in
  let st2 := snd (GetScalarRange (H := VTK) st1) in
  GetBounds (H := VTK) (SMP.mkSchedule [] []) st1
    = (mk6 (of_Z (-1)) (of_Z 3) (of_Z 0) (of_Z 4) (of_Z 0) (of_Z 12), st1) /\
  snd (GetLength (H := VTK) (SMP.mkSchedule [] []) st1) = st1 /\
  fst (GetBounds (H := VTK) (SMP.mkSchedule [] []) st2)
    = mk6 (of_Z (-1)) (of_Z 3) (of_Z 0) (of_Z 4) (of_Z 0) (of_Z 12) /\
  GetScalarRange (H := VTK) st2 = ((of_Z 0, of_Z 1), st2).
Proof.
  intros st1 st2.
  destruct (cached_queries_compose (H := VTK) (SMP.sequential 0 3) (SMP.mkSchedule [] [])
              three_points ltac:(unfold ClockOK; simpl; lia))
    as (Hb & _ & _ & Hl & Hb2 & Hr & _).
  split; [exact Hb|]. split; [exact Hl|].
  split; [exact (f_equal fst Hb2) | exact Hr].
Defined.

Lemma backwards_valid : SMP.ValidSchedule 0 2 backwards.
Proof.
  split; [|split].
  - vm_compute. apply Permutation_swap.
  - repeat constructor. intros Hin. inversion Hin.
  - intros w. simpl. split; intros Hw;
      repeat (apply elem_of_cons in Hw as [->|Hw]); try inversion Hw;
      repeat constructor.
Qed.

(** X10 on two points whose x coordinates are +0 and -0: visiting them in
    the other order gives a box that compares equal entry by entry, and whose
    x entries differ in the sign of the zero. *)
Lemma bounds_do_not_depend_on_schedule_two_zeros :
  let b1 := fst (GetBounds (H := VTK) (SMP.sequential 0 2) two_zeros) in
  let b2 := fst (GetBounds (H := VTK) backwards two_zeros) in
  (forall j, (j < 3)%nat ->
     eqb (axis_min b1 j) (axis_min b2 j) = true /\
     eqb (axis_max b1 j) (axis_max b2 j) = true) /\
  axis_min b1 0 = S754_zero false /\ axis_min b2 0 = S754_zero true.
Proof.
  intros b1 b2. split.
  - exact (proj1 (bounds_do_not_depend_on_schedule (H := VTK) (SMP.sequential 0 2) backwards
                    two_zeros (sequential_valid 0 2) backwards_valid eq_refl
                    eq_refl eq_refl)
                 eq_refl).
  - split; vm_compute; reflexivity.
Defined.

Lemma types_in_a_list_laws : CellTypesLaws (H := types_in_a_list) (fun types => types).
Proof.
  split; [reflexivity | | reflexivity].
  intros t x. cbn. rewrite existsb_exists. split.
  - intros (y & Hy & He). apply Z.eqb_eq in He. subst y. apply list_elem_of_In, Hy.
  - intros Hin. exists x. split; [apply list_elem_of_In, Hin | apply Z.eqb_refl].
Qed.

(** X11 on five cells of types 10, 12, 10, 5, 12, with an object that held
    7, 7 before: the list is 10, 12, 5. *)
Lemma GetCellTypes_distinct_in_order_five_cells :
  GetCellTypes (H := types_in_a_list) five_cell_types five_cells [7; 7] = [10; 12; 5] /\
  NoDup (GetCellTypes (H := types_in_a_list) five_cell_types five_cells [7; 7]).
Proof.
  destruct (GetCellTypes_distinct_in_order (H := types_in_a_list) five_cell_types
              (fun types => types) five_cells [7; 7] types_in_a_list_laws)
    as (_ & Hnodup & _).
  split; [reflexivity | exact Hnodup].
Defined.

Lemma ids_in_order_laws : IdListLaws (H := ids_in_order).
Proof.
  split; intros ids; cbn; intros; rewrite list_elem_of_In, filter_In, <- list_elem_of_In.
  - rewrite negb_true_iff, Nat.eqb_neq. reflexivity.
  - rewrite existsb_exists. split.
    + intros (Hc & x & Hx & He). apply Nat.eqb_eq in He. subst x.
      split; [exact Hc | apply list_elem_of_In, Hx].
    + intros (Hc & Ho). split; [exact Hc|]. exists c.
      split; [apply list_elem_of_In, Ho | apply Nat.eqb_refl].
Qed.

(** X12 on three points used by the cells 0 1 2, 1 2 3 and 2 1 4: the
    neighbours of cell 1 through the three points are the cell 2 alone. *)
Lemma GetCellNeighbors_spec_three_points :
  GetCellNeighbors (H := ids_in_order) cells_of_point 1 [0; 1; 2]%nat = Some [2%nat] /\
  GetCellNeighbors (H := ids_in_order) cells_of_point 1 [] = None.
Proof.
  destruct (GetCellNeighbors_spec (H := ids_in_order) cells_of_point 1 [0; 1; 2]%nat
              ids_in_order_laws) as [_ Hsome].
  destruct (Hsome 0%nat [1; 2]%nat eq_refl) as (cellIds & Hrun & _).
  split.
  - rewrite Hrun. f_equal. vm_compute in Hrun. injection Hrun as <-. reflexivity.
  - exact (proj1 (GetCellNeighbors_spec (H := ids_in_order) cells_of_point 1 []
                    ids_in_order_laws) eq_refl).
Defined.

(** X13: the caches of the three points copied into the two points. The
    receiver's clock (3) is not later than the copied stamp (5), so the two
    points now report the box of the three points. *)
Lemma InternalDataSetCopy_spec_two_points :
  let st' := InternalDataSetCopy (Self three_points_queried) two_points in
  Points (Self st') = Points (Self two_points) /\
  GetBounds (H := VTK) (SMP.sequential 0 2) st'
    = (mk6 (of_Z (-1)) (of_Z 3) (of_Z 0) (of_Z 4) (of_Z 0) (of_Z 12), st').
Proof.
  intros st'.
  destruct (InternalDataSetCopy_spec (H := VTK) (Self three_points_queried)
              (SMP.sequential 0 2) two_points)
    as (_ & (Hpoints & _) & Hserved & _).
  split; [exact Hpoints|].
  apply Hserved. vm_compute. discriminate.
Defined.

(** X14 on the dataset with two points and one cell: the point array is
    one tuple too long and the cell array one too short; the output is the
    warning for the first, then the error for the second. *)
Lemma CheckAttributes_first_error_mismatched :
  CheckAttributes mismatched
  = (1, mkState (Heap mismatched) (GlobalTime mismatched)
          [mkDiagnostic WarningSeverity POINT "ids"%string 3 2;
           mkDiagnostic ErrorSeverity CELL "flags"%string 0 1]
          (Self mismatched)).
Proof.
  destruct (CheckAttributes_first_error mismatched) as [_ Hcell].
  rewrite (Hcell [] (mkArray (Some "flags"%string) (UnsignedCharValues [])) []).
  - vm_compute. reflexivity.
  - intros a Ha. vm_compute in Ha. apply list_elem_of_singleton in Ha as ->.
    vm_compute. reflexivity.
  - vm_compute. reflexivity.
  - vm_compute. reflexivity.
  - intros a Ha. inversion Ha.
Defined.

(** X15 on the grid with the canonical extent [10,12] x [0,4] x [0,0],
    which the grid lies below on the x axis: all 25 point entries and all 16
    cell entries are 1. *)
Lemma everything_is_ghost_outside_grid :
  exists st' zeroExt' ap ac,
    GenerateGhostArray (H := VTK) far_extent false grid = Some (st', zeroExt') /\
    lookup_ghost (H := VTK) (Heap st') (PointData (Self st')) = Some ap /\
    bytes_at (Heap st') ap = Some (replicate 25 1) /\
    lookup_ghost (H := VTK) (Heap st') (CellData (Self st')) = Some ac /\
    bytes_at (Heap st') ac = Some (replicate 16 1).
Proof.
  destruct (everything_is_ghost_outside (H := VTK) far_extent grid
              VTK_bits_ok eq_refl ltac:(discriminate)
              (proj1 grid_in_range) (proj1 far_in_range)
              grid_store_ok grid_buffers_fit ltac:(intros a b Ha; discriminate)
              ltac:(left; simpl; lia))
    as (st' & z' & ap & gp & ac & gc & Hrun & HlookP & HbytesP & _ & _ & HlookC & HbytesC & _).
  exists st', z', ap, ac. split; [exact Hrun|].
  split; [exact HlookP|].
  pose proof (f_equal (option_map fst) Hrun) as Hs. vm_compute in Hs. injection Hs as <-.
  vm_compute in HlookP, HlookC. injection HlookP as <-. injection HlookC as <-.
  split; [vm_compute; reflexivity|]. split; [reflexivity|]. vm_compute. reflexivity.
Defined.

(** X17 on the history that adds a ghost array, looks it up and removes it:
    the counter stands at 5, and a query of the bounds then stamps the cache
    with 6. *)
Lemma clocks_never_go_back_history :
  let st' := ComputeBounds (H := VTK) (SMP.sequential 0 0) ghost_removed in
  ClockOK ghost_removed /\ clocks_advance ghost_removed st' /\
  GlobalTime ghost_removed = 5%N /\ GetMTime (Self st') = 5%N /\
  ComputeTime (Self st') = 6%N.
Proof.
  intros st'.
  destruct (clocks_never_go_back (H := VTK) ghost_removed ghost_removed_reachable)
    as [Hclock Hstep].
  split; [exact Hclock|].
  split; [exact (proj1 (Hstep (OpComputeBounds (SMP.sequential 0 0)) st' eq_refl))|].
  vm_compute. repeat split.
Defined.
